(* ===== verification/_CoqProject ===== *)
-Q . S2P
Prelude.v
Types.v
Io.v
Wire.v
WireFacts.v
WireCodec.v
SpecConnection.v
SpecChannel.v
SpecExchange.v
SpecQueue.v
SpecBasic.v
SpecTx.v
Spec091.v
Frame.v
FrameFacts.v
Allocator.v
Confirms.v
Delivery.v
Consumers.v
Auth.v
State.v
Channel.v
ChannelFacts.v
ChannelApi.v
Connection.v
Heartbeat.v
ConnectionFacts.v
Registry.v
Once.v
Shutdown.v
Follows.v
Safety.v
Executions.v
Peer.v
Settled.v
Runs.v
GoStrings.v
Url.v
UrlFacts.v
Uri.v
UriFacts.v
Dial.v
DialFacts.v
Interleave.v
Pending.v
Locks.v
LocksFacts.v
LocksLive.v
LocksStall.v
Client.v
ClientFacts.v
ClientPush.v
ClientRuns.v
ClientLive.v
Producer.v
ProducerFacts.v
ProducerRuns.v
PubSub.v
PubSubFacts.v
ConsumerApp.v
ConsumerAppFacts.v
Gen.v
GenSpec.v
GenRun.v
GenFacts.v
GenGroups.v
GenCodec.v
ClientApp.v
ClientAppFacts.v
Lines.v
LinesFacts.v
