(* ===== verification/Prelude.v ===== *)
(** * A verification of the AMQP 0.9.1 client

    The program is a Go client for the AMQP 0.9.1 protocol (package amqp091).
    An application opens a [Connection] over a transport, opens numbered
    [Channel]s on it, and calls methods that send method frames and, for a
    publishing, a header and body frames; one goroutine reads frames and
    demultiplexes them to the channels, which put content together and hand
    replies, deliveries, confirmations and notifications to whoever waits for
    them.

    ** The parts, and where they are

    - Prelude (this file): bytes, strings, machine integers of a given width,
      big-endian encodings, and the lemmas on them.
    - Types (types.go, constants of spec091.go): errors and reply codes, the
      values of tables, [Validate], properties, times.
    - Io: [io.Reader] with its error behaviour, [bytes.Buffer]; a state and
      error monad for reading code; [reads], [emits] and [codec], what it
      means for a reader to invert a writer; [outcome], whose cases are a
      result, an error, a panic, and running out of fuel.
    - Wire, WireFacts, WireCodec (read.go, write.go): the field encodings,
      [readTable], [writeTable] and what they call.
    - SpecConnection, SpecChannel, SpecExchange, SpecQueue, SpecBasic, SpecTx
      (spec091.go): every method of the protocol, with [id], [wait], [read]
      and [write]; Spec091: [message] and [parseMethodFrame].
    - Frame, FrameFacts (types.go, read.go, write.go, fuzz.go): frames,
      [ReadFrame], [WriteFrame], and streams of frames.
    - Allocator (allocator.go): the channel numbers.  The class [IdPool] is
      what the connection needs of them.
    - Confirms (confirms.go): publisher confirmations and deferred
      confirmations.
    - Consumers (consumers.go): the table of consumers and the buffering
      goroutines, as a step relation.
    - Delivery (delivery.go, return.go): what the application is handed; the
      class [Acknowledger], implemented by channels in ChannelApi.
    - Auth (auth.go): SASL mechanisms.
    - State: the structs [Connection] and [Channel], the objects they share,
      and the monad [M] of calls on them.
    - Channel, ChannelApi (channel.go): sending, reassembly, dispatch and
      shutdown; the methods of the API.
    - Connection (connection.go): registry, demultiplexing, shutdown,
      handshake and the reader; Heartbeat: the heartbeater over its events.
    - ChannelFacts, ConnectionFacts, Registry, Once, Shutdown, Safety,
      Executions: the theorems about channels and connections; Once follows
      what the two [sync.Once]s guard.
    - GoStrings, Url, UrlFacts: what the code uses of the Go packages strings,
      strconv, net and net/url (as of Go 1.20, which go.mod names);
      Uri, UriFacts (uri.go): [ParseURI], [URI.String] and their theorems.
    - Dial, DialFacts (connection.go): [DialConfig] and its shorter forms,
      [DefaultDial], [tlsConfigFromURI], [Open], up to the handshake.
    - Interleave (channel.go, connection.go): goroutines inside [ch.send] at
      the same time, frame by frame, with the mutex of the channel; Pending
      (channel.go): calls that wait in their [select].
    - Locks (connection.go, channel.go, confirms.go, consumers.go): the
      mutexes and [sync.Once]s that every operation takes, and where it waits,
      as programs of goroutines that interleave at each step; LocksFacts,
      LocksLive, LocksStall: the order of the locks and what follows.
    - Follows, Peer, Settled: what outlives any number of calls, frames and
      failures, which is what the programs below rely on: listeners, confirm
      mode, the tags a listener is sent, the range of the tags a conforming
      server confirms, the outcomes of deferred confirmations.
    - Client, ClientFacts, ClientPush, ClientLive (_examples/client): the
      client that reconnects, as a step relation over any number of
      connections of the library; ClientRuns: its steps as a function of the
      choices in them, for executions that can be evaluated (Runs);
      ClientApp, ClientAppFacts: the program around two such clients.
    - Producer, ProducerFacts, ProducerRuns (_examples/producer): the producer
      with a window of confirmations.  PubSub, PubSubFacts (_examples/pubsub):
      publishing and subscribing over sessions; Lines, LinesFacts: its input
      and output, with [bufio.Scanner].  ConsumerApp, ConsumerAppFacts
      (_examples/consumer): the consumer and its shutdown.
    - Gen (spec/gen.go): the generator of spec091.go, from the structs that
      [encoding/xml] fills to abstract Go declarations and statements; GenSpec
      (spec/amqp0-9-1.stripped.extended.xml): the specification; GenRun: what
      generated code does; GenFacts, GenGroups, GenCodec: the theorems.

    ** How the code is represented

    Integers are [Z] with their conversions written out ([uintw], [sintw]);
    strings are byte strings; a Go map with an observable order of iteration
    is an association list or, where the order does not matter, a [gmap].
    Objects that are shared (channels, deferred confirmations, listeners) are
    referred to by address or name in the record that holds them, so that a
    channel that left the registry is still there for its holders.

    A call is a function from a [Connection] to its result and the next
    [Connection], or a panic.  A method that waits is given the case of its
    [select] that fires; goroutines that the code starts are recorded and run
    as calls of their own.  An execution is a sequence of calls, of steps of
    the consumers' goroutines and of failures of the transport ([conn_step],
    [use_step]), each of which is atomic.  Interleave gives the finer steps of
    sending: one frame at a time under the mutex of the writer, with the mutex
    of the channel as a lock that some methods take; its theorems show that a
    call of [ch.send] is one of its executions and that methods which take the
    lock do not interleave, so that atomic calls are a sound view of them.
    A send to a listener is received: an application that stops receiving
    blocks the library, as its documentation says.  Locks leaves out what the
    operations compute and keeps every lock they take, in their order, with
    the state that decides which; there listeners, the transport and the
    server may fail to answer, and a step is one lock, one access or one wait.

    The programs of _examples are systems of goroutines over the library.  A
    goroutine is where it is in its code; a step runs up to the next call of
    the library, [select] or operation on a Go channel, so that goroutines,
    frames of the server and failures interleave between any two of them; the
    stores to the fields of the reconnecting client, which its methods read
    without a lock, are steps of their own.
    What is assumed of the server is that it confirms only what was published
    ([conforming]) and sends what [arrival_fits] allows; of the program, that a
    channel publishes fewer than 2^64-2 messages.  Timers may fire whenever
    their [select] waits.  Memory is sequentially consistent: fields that the
    client reads without its mutex have the last value written.

    What the network, the TLS library and the file system answer is a record
    of functions ([Net]) that the definitions of Dial take as a parameter;
    what is done to them is a log.  TLS configurations live in a heap, since
    the code writes through the caller's pointer.

    Loops whose recursion is not structural have fuel, and the theorems show
    that the fuel they are given is enough: the length of the input bounds
    the reading of tables, arrays and streams, the length of the body the
    loop of [sendOpen], the size of the sequencer its draining, the distance
    to the tag the loop of [Multiple]; a call of [Scan] makes at most two
    rounds more than there are bytes left.  Where no fuel is enough this is a
    theorem ([multiple_max_tag_diverges], [tiny_frame_size]).

    ** What the theorems show

    - The wire: what is written is read back, for fields, tables, methods,
      frames and streams of frames ([table_roundtrip], [stream_roundtrip]);
      reading ends on every input ([reading_terminates]); the edges where it
      does not invert writing or panics are exact ([shortstr_roundtrip_iff],
      [oversize_longstr_silent], [cut_array_accepted],
      [negative_length_panics]).
    - Content: [sendOpen] splits a message into frames of the negotiated
      size, and the reader of the peer dispatches exactly that message
      ([sendOpen_splits_content], [content_end_to_end]).
    - Confirmations: whatever the order of arrival, listeners see every tag
      once and in order, and deferred confirmations are resolved once
      ([resequence_any_order], [listeners_in_order], [deferred_resolution]).
    - Consumers: deliveries arrive in order and without loss, and the
      goroutines end ([deliveries_in_order], [buffer_drains]).
    - Channel numbers: the allocator refines a set, and registry and
      allocator agree in every execution ([allocator_refines_set],
      [registry_consistent], [allocateChannel_correct]).
    - The life of channels and connections: closing is final, destructors run
      once, and shutting down is complete ([closed_is_final], [shutdown_completes],
      [channel_shutdown_completes], [server_closes_channel]); what is
      registered stays registered until then ([listeners_kept]).
    - The handshake: the number of channels is the smaller of the limits, as
      documented, when there is one ([channel_max_negotiated]), and not as
      documented when there is none ([channel_max_unlimited]).
    - Concurrency: senders that take the channel's mutex put whole messages on
      the wire as long as no write fails ([senders_do_not_interleave]), the frame by frame semantics
      contains the atomic calls ([send_is_an_execution]), and the one reply of
      the reader that does not take it breaks a publishing
      ([flow_ok_breaks_publishing]); a shutdown wakes every pending call
      ([shutdown_wakes_calls]).
    - Locks: no set of goroutines waits in a circle, every execution ends, and
      calls return when everybody outside answers ([locks_never_deadlock]);
      an execution leads to a write that does not return and a shutdown that
      would end it and waits for it ([blocked_write_stalls_shutdown]).
    - URIs: what is read back from the string of a URI whose host and TLS
      parameters [String] can write is exact ([uri_roundtrip_iff]), and every input yields a well-typed URI
      ([ParseURI_typed]); the table of the URI specification holds
      ([uri_vectors_hold]).
    - Dialing: where a URL leads ([dial_follows_uri]), also with the files for
      TLS that the documentation of [Dial] leaves out ([dial_uses_files]), that a
      dialed connection whose frames can carry content is one the theorems on
      executions apply to ([dial_establishes]), the agreed heartbeat ([uri_heartbeat_agreed]),
      what is left open on errors ([dial_leaves_open_iff]) and what a shared
      TLS configuration remembers ([tls_config_keeps_first_name]).
    - The reconnecting client, in every interleaving: a message is reported as
      pushed only with an ack, whose tag is that of the message unless the
      confirmation of some message was awaited on the Go channel of another
      channel; how far it can be off otherwise ([push_confirmed]), and that it
      can be ([push_returns_unconfirmed]); no wake-up is lost
      ([reconnect_wakes]); both goroutines have a next step except where they
      are meant to wait, and after a second [Close] ([client_progress]); which
      races make [Push] wait for the wrong
      channel and [Close] reversible or panic
      ([push_waits_on_other_channel], [close_is_not_final]).  Its program
      exits only when both goroutines are through, and hangs when the first
      [Consume] fails ([client_exits_after_both]); it can lose its deliveries
      to a reconnection ([consume_misses_reconnection]).
    - The producer: its window, and that no message is forgotten until it is
      told to exit ([producer_window]); that the window does not open again once it is full
      ([producer_stalls]) and where it panics ([producer_panics]).
    - Publishing over sessions: the lines go out in order and once; none is
      lost while [publish] runs, one can be when it returns, and a nacked one is
      not tried again ([pubsub_in_order]); the buffer of
      one deadlocks ([pubsub_deadlock]); deliveries are acknowledged after they
      are passed on ([subscribe_acks]).  The messages are the lines of the
      input when they are sent ([read_sends_lines]), and may be overwritten
      before they are published ([read_overwrites_messages]).
    - The consumer: it receives what the goroutine of its consumer hands over
      and acknowledges all of it before it returns ([consumer_acknowledges]);
      running until it is done can hang ([consumer_hangs]).
    - The generator: spec091.go is what it makes of the specification
      ([spec091_generated]), it fails only on unknown types
      ([generator_total]), and the methods it generates round-trip for any
      specification within limits ([generated_roundtrip]) that are needed
      ([bit_runs_leak]).
    - Heartbeats: at every tick some frame has gone out within the interval
      ([heartbeats_bound_silence]).
    - Safety: within limits that are spelled out, no call of the application
      and no frame of the peer makes the library panic or hang
      ([calls_return]); what happens beyond them is shown as well
      ([heartbeat_on_channel_panics], [oversize_content_panics],
      [blocked_after_shutdown_panics], [tiny_frame_size]).

    ** What is not modelled

    The transport beyond its answers: sockets, the TLS protocol, and what
    deadlines do (the results of setting them are arguments).  The clock: times
    are those of the events.  Logging (log.go), which has no effect on the
    behaviour.  What a call computes is not interleaved with other calls except
    while it sends or waits, and Locks, which interleaves everything, keeps
    only the state that decides about locks: data races on fields that are
    read without a lock are not in the model.  The packages [encoding/xml],
    [text/template] and [regexp] under the generator, and gofmt.  Of the
    examples, the hash that names a queue, the flags, and the log. *)

From Stdlib Require Export ZArith Lia.
From Stdlib Require Strings.Byte.
From stdpp Require Export base decidable list sets gmap strings option numbers.

#[global] Open Scope Z_scope.

(** ** Bytes

    A Go [byte] is [Byte.byte]; [byteZ] is its value and [Zbyte] the
    conversion [byte(z)], which keeps the low eight bits. *)

Abbreviation byte := Init.Byte.byte.

#[global] Instance byte_eq_dec : EqDecision byte := Byte.byte_eq_dec.

Definition byteZ (b : byte) : Z := Z.of_N (Byte.to_N b).

Definition Zbyte (z : Z) : byte :=
  default Byte.x00 (Byte.of_N (Z.to_N (z mod 256))).

(** Go strings are byte sequences; [[]byte(s)] and [string(b)]. *)
Definition bytes_of_string (s : string) : list byte := String.list_byte_of_string s.
Definition string_of_bytes (b : list byte) : string := String.string_of_list_byte b.

(** [len(v)] of a slice, as a Go [int]. *)
Definition len {A} (l : list A) : Z := Z.of_nat (length l).

(** [len(s)] of a string. *)
Definition slen (s : string) : Z := Z.of_nat (String.length s).

(** ** Machine integers: a w-bit integer is a [Z] in range. *)

(** Conversion to an unsigned type of [w] bits. *)
Definition uintw (w z : Z) : Z := z mod 2 ^ w.

(** Conversion to a signed (two's complement) type of [w] bits. *)
Definition sintw (w z : Z) : Z := (z + 2 ^ (w - 1)) mod 2 ^ w - 2 ^ (w - 1).

Definition is_uint (w z : Z) : Prop := 0 <= z < 2 ^ w.
Definition is_sint (w z : Z) : Prop := - 2 ^ (w - 1) <= z < 2 ^ (w - 1).

#[global] Instance is_uint_dec w z : Decision (is_uint w z).
Proof. unfold is_uint. apply _. Defined.
#[global] Instance is_sint_dec w z : Decision (is_sint w z).
Proof. unfold is_sint. apply _. Defined.

(** ** Big-endian encoding ([encoding/binary.BigEndian]) *)

Fixpoint be_encode (n : nat) (z : Z) : list byte :=
  match n with
  | O => []
  | S k => Zbyte (Z.shiftr z (8 * Z.of_nat k)) :: be_encode k z
  end.

Definition be_decode (bs : list byte) : Z :=
  fold_left (fun acc b => Z.lor (Z.shiftl acc 8) (byteZ b)) bs 0.

(** ** Facts about bytes *)

Lemma byteZ_range b : 0 <= byteZ b < 256.
Proof.
  unfold byteZ. pose proof (Byte.to_N_bounded b). lia.
Qed.

Lemma byteZ_Zbyte z : byteZ (Zbyte z) = z mod 256.
Proof.
  unfold byteZ, Zbyte. pose proof (Z.mod_pos_bound z 256 eq_refl).
  destruct (Byte.of_N (Z.to_N (z mod 256))) as [b|] eqn:E; simpl.
  - apply Byte.to_of_N in E. rewrite E. lia.
  - apply Byte.of_N_None_iff in E. lia.
Qed.

Lemma Zbyte_byteZ b : Zbyte (byteZ b) = b.
Proof.
  unfold Zbyte. pose proof (byteZ_range b). rewrite Z.mod_small by lia.
  unfold byteZ. by rewrite N2Z.id, Byte.of_to_N.
Qed.

#[global] Instance byteZ_inj : Inj (=) (=) byteZ.
Proof. intros a b E. by rewrite <- (Zbyte_byteZ a), E, Zbyte_byteZ. Qed.

Lemma string_of_bytes_of_string s : string_of_bytes (bytes_of_string s) = s.
Proof. apply String.string_of_list_byte_of_string. Qed.

Lemma bytes_of_string_of_bytes b : bytes_of_string (string_of_bytes b) = b.
Proof. apply String.list_byte_of_string_of_list_byte. Qed.

Lemma length_bytes_of_string s : length (bytes_of_string s) = String.length s.
Proof.
  unfold bytes_of_string, String.list_byte_of_string. rewrite length_map.
  induction s; simpl; congruence.
Qed.

Lemma len_bytes_of_string s : len (bytes_of_string s) = slen s.
Proof. unfold len, slen. by rewrite length_bytes_of_string. Qed.

Lemma bytes_of_string_nil s : bytes_of_string s = [] <-> s = EmptyString.
Proof.
  split; [|by intros ->]. intros E.
  by rewrite <- (string_of_bytes_of_string s), E.
Qed.

Lemma len_app {A} (l k : list A) : len (l ++ k) = len l + len k.
Proof. unfold len. rewrite length_app. lia. Qed.

Lemma len_nonneg {A} (l : list A) : 0 <= len l.
Proof. unfold len. lia. Qed.

Lemma slen_nonneg s : 0 <= slen s.
Proof. unfold slen. lia. Qed.

(** ** Facts about machine integers *)

Lemma uintw_small w z : is_uint w z -> uintw w z = z.
Proof. intros H. by apply Z.mod_small. Qed.

Lemma uintw_range w z : 0 <= w -> is_uint w (uintw w z).
Proof.
  intros Hw. apply Z.mod_pos_bound, Z.pow_pos_nonneg; lia.
Qed.

Lemma sintw_small w z : 1 <= w -> is_sint w z -> sintw w z = z.
Proof.
  intros Hw [H1 H2]. unfold sintw.
  assert (2 ^ w = 2 * 2 ^ (w - 1)) as E.
  { rewrite <- Z.pow_succ_r by lia. f_equal. lia. }
  rewrite Z.mod_small; lia.
Qed.

Lemma sintw_range w z : 1 <= w -> is_sint w (sintw w z).
Proof.
  intros Hw. unfold is_sint, sintw.
  assert (2 ^ w = 2 * 2 ^ (w - 1)) as E.
  { rewrite <- Z.pow_succ_r by lia. f_equal. lia. }
  pose proof (Z.mod_pos_bound (z + 2 ^ (w - 1)) (2 ^ w)).
  assert (0 < 2 ^ (w - 1)) by (apply Z.pow_pos_nonneg; lia). lia.
Qed.

(** Reinterpreting the unsigned image of an integer as signed. *)
Lemma sintw_uintw w z : 0 <= w -> sintw w (uintw w z) = sintw w z.
Proof.
  intros Hw. unfold sintw, uintw.
  rewrite Zplus_mod_idemp_l. done.
Qed.

Lemma uintw_idemp w z : uintw w (uintw w z) = uintw w z.
Proof. apply Zmod_mod. Qed.

(** ** Facts about the big-endian encoding *)

Lemma length_be_encode n z : length (be_encode n z) = n.
Proof. induction n; simpl; congruence. Qed.

Lemma be_decode_snoc bs b :
  be_decode (bs ++ [b]) = be_decode bs * 256 + byteZ b.
Proof.
  unfold be_decode. rewrite fold_left_app. cbn [fold_left].
  generalize (fold_left (fun acc b0 => Z.lor (Z.shiftl acc 8) (byteZ b0)) bs 0).
  intros acc. rewrite Z.shiftl_mul_pow2 by lia. change (2 ^ 8) with 256.
  rewrite <- Z.add_lor_land.
  assert (Z.land (acc * 256) (byteZ b) = 0) as ->; [|lia].
  apply Z.bits_inj'. intros i Hi. rewrite Z.land_spec, Z.bits_0.
  change 256 with (2 ^ 8). destruct (Z.ltb_spec i 8).
  - by rewrite Z.mul_pow2_bits_low by lia.
  - rewrite andb_comm. pose proof (byteZ_range b).
    rewrite <- (Z.mod_small (byteZ b) (2 ^ 8)) by (change (2 ^ 8) with 256; lia).
    by rewrite Z.mod_pow2_bits_high by lia.
Qed.

Lemma be_encode_S n z :
  be_encode (S n) z = be_encode n (Z.shiftr z 8) ++ [Zbyte z].
Proof.
  induction n as [|n IH]; [done|].
  change (be_encode (S (S n)) z) with (Zbyte (Z.shiftr z (8 * Z.of_nat (S n))) :: be_encode (S n) z).
  rewrite IH. cbn [be_encode app]. f_equal.
  rewrite Z.shiftr_shiftr by lia. do 2 f_equal. lia.
Qed.

Lemma be_decode_encode n z :
  be_decode (be_encode n z) = uintw (8 * Z.of_nat n) z.
Proof.
  revert z. induction n as [|n IH]; intros z.
  - unfold uintw. by rewrite Z.mod_1_r.
  - rewrite be_encode_S, be_decode_snoc, IH, byteZ_Zbyte.
    unfold uintw. rewrite Z.shiftr_div_pow2 by lia. change (2 ^ 8) with 256.
    replace (8 * Z.of_nat (S n)) with (8 + 8 * Z.of_nat n) by lia.
    rewrite Z.pow_add_r by lia. change (2 ^ 8) with 256.
    rewrite Z.rem_mul_r by lia. lia.
Qed.

Lemma be_decode_range bs : 0 <= be_decode bs < 2 ^ (8 * len bs).
Proof.
  induction bs as [|b bs IH] using rev_ind; [done|].
  rewrite be_decode_snoc, len_app. pose proof (byteZ_range b).
  change (len [b]) with 1. rewrite Z.mul_add_distr_l, Z.pow_add_r by (pose proof (len_nonneg bs); lia).
  change (2 ^ (8 * 1)) with 256. nia.
Qed.

(** Decoding after encoding is the identity on in-range integers. *)
Lemma be_roundtrip n z : is_uint (8 * Z.of_nat n) z -> be_decode (be_encode n z) = z.
Proof. intros H. by rewrite be_decode_encode, uintw_small. Qed.
