(* ===== verification/Types.v ===== *)
(** * Types: the data model of types.go and the constants of spec091.go

    Error values, the dynamically typed values of a [Table], the content
    properties, and the operations of types.go on them. *)

From S2P Require Import Prelude.

(** ** Protocol constants (spec091.go) *)

Definition frameMethod : Z := 1.
Definition frameHeader : Z := 2.
Definition frameBody : Z := 3.
Definition frameHeartbeat : Z := 8.
Definition frameMinSize : Z := 4096.
Definition frameEnd : Z := 206.
Definition replySuccess : Z := 200.
Definition ContentTooLarge : Z := 311.
Definition NoRoute : Z := 312.
Definition NoConsumers : Z := 313.
Definition ConnectionForced : Z := 320.
Definition InvalidPath : Z := 402.
Definition AccessRefused : Z := 403.
Definition NotFound : Z := 404.
Definition ResourceLocked : Z := 405.
Definition PreconditionFailed : Z := 406.
Definition FrameError : Z := 501.
Definition SyntaxError : Z := 502.
Definition CommandInvalid : Z := 503.
Definition ChannelError : Z := 504.
Definition UnexpectedFrame : Z := 505.
Definition ResourceError : Z := 506.
Definition NotAllowed : Z := 530.
Definition NotImplemented : Z := 540.
Definition InternalError : Z := 541.

Definition isSoftExceptionCode (code : Z) : bool :=
  match code with
  | 311 => true
  | 312 => true
  | 313 => true
  | 403 => true
  | 404 => true
  | 405 => true
  | 406 => true
  | _ => false
  end.

(** ** Errors *)

(** [type Error struct], the protocol exceptions. *)
Record Error := MkError {
  Error_Code : Z;
  Error_Reason : string;
  Error_Server : bool;
  Error_Recover : bool
}.

Definition newError (code : Z) (text : string) : Error :=
  {| Error_Code := code;
     Error_Reason := text;
     Error_Recover := isSoftExceptionCode code;
     Error_Server := true |}.

Definition Recoverable (e : Error) : bool := Error_Recover e.

Definition Temporary (e : Error) : bool :=
  if Error_Code e =? ContentTooLarge then true
  else if Error_Code e =? ConnectionForced then true
  else false.

Definition ErrClosed := MkError ChannelError "channel/connection is not open" false false.
Definition ErrChannelMax := MkError ChannelError "channel id space exhausted" false false.
Definition ErrSASL := MkError AccessRefused "SASL could not negotiate a shared mechanism" false false.
Definition ErrCredentials := MkError AccessRefused "username or password not allowed" false false.
Definition ErrVhost := MkError AccessRefused "no access to this vhost" false false.
Definition ErrSyntax := MkError SyntaxError "invalid field or value inside of a frame" false false.
Definition ErrFrame := MkError FrameError "frame could not be parsed" false false.
Definition ErrCommandInvalid := MkError CommandInvalid "unexpected command received" false false.
Definition ErrUnexpectedFrame := MkError UnexpectedFrame "unexpected frame received" false false.
Definition ErrFieldType := MkError SyntaxError "unsupported table field type" false false.
Definition errInvalidTypeAssertion := MkError InternalError "type assertion unsuccessful" false true.

(** The nested [fmt.Errorf] texts [validateField] builds. *)
Inductive field_error :=
  | InArray (e : field_error)                    (** "in array %s" *)
  | InTableField (key : string) (e : field_error) (** "table field %q %s" *)
  | NotSupported (goType : string).              (** "value %T not supported" *)

(** The values of Go's [error] interface the library produces or passes on. *)
Inductive goerror :=
  | EOF                              (** [io.EOF] *)
  | ErrUnexpectedEOF                 (** [io.ErrUnexpectedEOF] *)
  | AmqpError (e : Error)            (** a [*Error] *)
  | TextError (text : string)        (** [errors.New], [fmt.Errorf] *)
  | FieldError (e : field_error)     (** [Table.Validate] *)
  | TransportError (text : string).  (** any other error of the transport *)

(** ** Dynamically typed values *)

(** [type Decimal struct] *)
Record Decimal := MkDecimal {
  Decimal_Scale : Z; (** uint8 *)
  Decimal_Value : Z  (** int32 *)
}.

(** [time.Time]: the instant, as [Unix()] seconds and [Nanosecond()].  The
    location is not observed by the library. *)
Record Time := MkTime {
  Time_unix : Z; (** int64 *)
  Time_nsec : Z
}.

(** [time.Time{}], January 1, year 1. *)
Definition zeroTime : Time := MkTime (-62135596800) 0.

Definition IsZero (t : Time) : bool :=
  (Time_unix t =? -62135596800) && (Time_nsec t =? 0).

(** [interface{}] by dynamic type.  Integers and the IEEE bit patterns of
    floats are [Z]; a [Table] is the list of its entries in one iteration
    order (the order a [range] visits them is unspecified, so every theorem
    quantifies over the list), nil and empty tables being the same list.
    [VOther] is any type the library does not support. *)
Inductive GoValue :=
  | VNil
  | VBool (b : bool)
  | VByte (z : Z)
  | VInt8 (z : Z)
  | VInt (z : Z)
  | VInt16 (z : Z)
  | VInt32 (z : Z)
  | VInt64 (z : Z)
  | VFloat32 (bits : Z)
  | VFloat64 (bits : Z)
  | VString (s : string)
  | VBytes (b : list byte)
  | VDecimal (d : Decimal)
  | VTime (t : Time)
  | VArray (l : list GoValue)
  | VTable (t : list (string * GoValue))
  | VOther (goType : string).

(** [type Table map[string]interface{}] *)
Abbreviation Table := (list (string * GoValue)).

(** [t[k]] *)
Definition table_get (t : Table) (k : string) : option GoValue :=
  snd <$> List.find (fun kv => bool_decide (fst kv = k)) t.

(** [t[k] = v] *)
Fixpoint table_set (k : string) (v : GoValue) (t : Table) : Table :=
  match t with
  | [] => [(k, v)]
  | (k', v') :: r =>
      if bool_decide (k' = k) then (k, v) :: r else (k', v') :: table_set k v r
  end.

Fixpoint validateField (f : GoValue) : option field_error :=
  match f with
  | VArray l =>
      (fix each l :=
         match l with
         | [] => None
         | v :: r =>
             match validateField v with
             | Some err => Some (InArray err)
             | None => each r
             end
         end) l
  | VTable t =>
      (fix each t :=
         match t with
         | [] => None
         | (k, v) :: r =>
             match validateField v with
             | Some err => Some (InTableField k err)
             | None => each r
             end
         end) t
  | VOther goType => Some (NotSupported goType)
  | VNil | VBool _ | VByte _ | VInt8 _ | VInt _ | VInt16 _ | VInt32 _ | VInt64 _
  | VFloat32 _ | VFloat64 _ | VString _ | VBytes _ | VDecimal _ | VTime _ => None
  end.

Definition Validate (t : Table) : option field_error := validateField (VTable t).

(** On a non-nil table. *)
Definition SetClientConnectionName (t : Table) (connName : string) : Table :=
  table_set "connection_name" (VString connName) t.

(** ** Content properties *)

(** [type properties struct] *)
Record properties := MkProperties {
  p_ContentType : string;
  p_ContentEncoding : string;
  p_Headers : Table;
  p_DeliveryMode : Z;  (** uint8 *)
  p_Priority : Z;      (** uint8 *)
  p_CorrelationId : string;
  p_ReplyTo : string;
  p_Expiration : string;
  p_MessageId : string;
  p_Timestamp : Time;
  p_Type : string;
  p_UserId : string;
  p_AppId : string;
  p_reserved1 : string
}.

(** [properties{}] *)
Definition zeroProperties : properties :=
  MkProperties "" "" [] 0 0 "" "" "" "" zeroTime "" "" "" "".

Definition flagContentType : Z := 0x8000.
Definition flagContentEncoding : Z := 0x4000.
Definition flagHeaders : Z := 0x2000.
Definition flagDeliveryMode : Z := 0x1000.
Definition flagPriority : Z := 0x0800.
Definition flagCorrelationId : Z := 0x0400.
Definition flagReplyTo : Z := 0x0200.
Definition flagExpiration : Z := 0x0100.
Definition flagMessageId : Z := 0x0080.
Definition flagTimestamp : Z := 0x0040.
Definition flagType : Z := 0x0020.
Definition flagUserId : Z := 0x0010.
Definition flagAppId : Z := 0x0008.
Definition flagReserved1 : Z := 0x0004.

(** ** Heartbeat durations *)

(** [type heartbeatDuration struct]; a [time.Duration] is an int64 of
    nanoseconds. *)
Record heartbeatDuration := MkHeartbeatDuration {
  hb_value : Z;
  hb_hasValue : bool
}.

Definition Second : Z := 1000000000.

Definition newHeartbeatDurationFromSeconds (s : Z) : heartbeatDuration :=
  {| hb_value := sintw 64 (s * Second); hb_hasValue := true |}.

(** ** Facts *)

(** Structural induction on values, through arrays and tables. *)
Section GoValue_ind.
Context (P : GoValue -> Prop).
Context (Hatom : forall v, (match v with VArray _ | VTable _ => False | _ => True end) -> P v)
        (Harray : forall l, Forall P l -> P (VArray l))
        (Htable : forall t, Forall (fun kv => P (snd kv)) t -> P (VTable t)).

Fixpoint GoValue_nested_ind (v : GoValue) : P v.
Proof.
  destruct v; try (apply Hatom; exact I).
  - apply Harray. induction l as [|x l IH]; constructor; [apply GoValue_nested_ind|exact IH].
  - apply Htable. induction t as [|[k x] t IH]; constructor; [apply GoValue_nested_ind|exact IH].
Defined.
End GoValue_ind.

Lemma table_get_set k v t : table_get (table_set k v t) k = Some v.
Proof.
  unfold table_get. induction t as [|[k' v'] t IH]; simpl.
  - by rewrite bool_decide_eq_true_2.
  - destruct (bool_decide (k' = k)) eqn:E; simpl; [by rewrite bool_decide_eq_true_2|by rewrite E].
Qed.

Lemma table_get_set_ne k k' v t :
  k <> k' -> table_get (table_set k v t) k' = table_get t k'.
Proof.
  unfold table_get. intros Hne. induction t as [|[k1 v1] t IH]; simpl.
  - by rewrite bool_decide_eq_false_2.
  - destruct (bool_decide (k1 = k)) eqn:E; simpl.
    + apply bool_decide_eq_true_1 in E as ->. by rewrite bool_decide_eq_false_2.
    + destruct (bool_decide (k1 = k')); [done|exact IH].
Qed.

(** Setting a fresh key appends: the entry becomes the last one. *)
Lemma table_set_fresh k v t :
  k ∉ t.*1 -> table_set k v t = t ++ [(k, v)].
Proof.
  induction t as [|[k' v'] t IH]; [done|]. cbn. intros H.
  apply not_elem_of_cons in H as [Hne H].
  rewrite bool_decide_eq_false_2 by congruence. by rewrite IH.
Qed.

Lemma validateField_array l :
  validateField (VArray l) = None <-> Forall (fun v => validateField v = None) l.
Proof.
  induction l as [|v l IH]; [by split; constructor|]. simpl in *. rewrite list.Forall_cons.
  destruct (validateField v); naive_solver.
Qed.

Lemma validateField_table t :
  validateField (VTable t) = None <-> Forall (fun kv => validateField (snd kv) = None) t.
Proof.
  induction t as [|[k v] t IH]; [by split; constructor|]. simpl in *.
  rewrite list.Forall_cons. simpl.
  destruct (validateField v); naive_solver.
Qed.
