(* ===== verification/Io.v ===== *)
(** * Io: the readers and writers of the library

    [io.Reader] as a stream of bytes that ends with an error, [io.ReadFull],
    [binary.Read] and [io.LimitedReader] on it; [bytes.Buffer] as the sink of
    the marshalling code.  Reading code is a small state and error monad;
    writing code threads the buffer.  [reads] and [emits] describe a reader
    and a writer that succeed, and [codec] a pair that round-trips. *)

From S2P Require Import Prelude Types.

(** ** Outcomes *)

(** A call returns a value, returns a non-nil error, or panics.  [NoFuel]
    marks a bounded recursion that was cut short; the reading functions are
    proved never to give it. *)
Inductive outcome (A : Type) :=
  | Ok (a : A)
  | Err (e : goerror)
  | Panicked
  | NoFuel.
Arguments Ok {A} a.
Arguments Err {A} e.
Arguments Panicked {A}.
Arguments NoFuel {A}.

(** ** Readers *)

(** The bytes a reader still has to give, and the error it gives after them
    ([EOF] for a buffer or a closed peer). *)
Record rdr := Rdr { rd_bytes : list byte; rd_end : goerror }.

Definition Reader (A : Type) : Type := rdr -> outcome A * rdr.

Definition rret {A} (a : A) : Reader A := fun r => (Ok a, r).
Definition rerr {A} (e : goerror) : Reader A := fun r => (Err e, r).
Definition rpanic {A} : Reader A := fun r => (Panicked, r).
Definition rnofuel {A} : Reader A := fun r => (NoFuel, r).

(** [if x, err = c; err != nil { return }; k] *)
Definition rbind {A B} (c : Reader A) (k : A -> Reader B) : Reader B :=
  fun r =>
    match c r with
    | (Ok a, r') => k a r'
    | (Err e, r') => (Err e, r')
    | (Panicked, r') => (Panicked, r')
    | (NoFuel, r') => (NoFuel, r')
    end.

Declare Scope io_scope.
Delimit Scope io_scope with io.
#[global] Open Scope io_scope.

Notation "'let*' x ':=' c 'in' k" := (rbind c (fun x => k))
  (at level 10, x name, c at level 100, k at level 200,
   format "'[v' 'let*'  x  ':='  c  'in' '/' k ']'") : io_scope.

(** ** Code that may panic *)

(** Sequencing of calls that may panic. *)
Definition obind {A B} (c : outcome A) (k : A -> outcome B) : outcome B :=
  match c with
  | Ok a => k a
  | Err e => Err e
  | Panicked => Panicked
  | NoFuel => NoFuel
  end.

Notation "'let!' x ':=' c 'in' k" := (obind c (fun x => k))
  (at level 10, x name, c at level 100, k at level 200) : io_scope.
Notation "'let!' ( x , y ) ':=' c 'in' k" := (obind c (fun '(x, y) => k))
  (at level 10, x name, y name, c at level 100, k at level 200) : io_scope.

(** [for _, x := range xs { f(x) }] *)
Fixpoint for_each {A S} (f : A -> S -> outcome S) (xs : list A) (s : S) : outcome S :=
  match xs with
  | [] => Ok s
  | x :: r => let! s' := f x s in for_each f r s'
  end.

(** ** Reading *)

(** [io.ReadFull(r, buf)] with [len(buf) = n]: an empty buffer is filled at
    once; no byte at all gives the stream's error; some bytes but not enough
    give [ErrUnexpectedEOF] in place of [EOF]. *)
Definition readFull (n : nat) : Reader (list byte) :=
  fun r =>
    if decide (n <= length (rd_bytes r))%nat then
      (Ok (take n (rd_bytes r)), Rdr (drop n (rd_bytes r)) (rd_end r))
    else
      (Err (match rd_bytes r, rd_end r with
            | _ :: _, EOF => ErrUnexpectedEOF
            | _, e => e
            end), Rdr [] (rd_end r)).

(** [binary.Read(r, binary.BigEndian, &x)] for an unsigned and a signed
    integer of [n] bytes. *)
Definition readUint (n : nat) : Reader Z :=
  let* bs := readFull n in rret (be_decode bs).

Definition readInt (n : nat) : Reader Z :=
  let* bs := readFull n in rret (sintw (8 * Z.of_nat n) (be_decode bs)).

(** Running [c] on [&io.LimitedReader{R: r, N: n}]: it sees the first [n]
    bytes of [r] and then [EOF], or all of [r] and its error when [r] is
    shorter; what it consumes is consumed from [r]. *)
Definition limited {A} (n : Z) (c : Reader A) : Reader A :=
  fun r =>
    let seen := take (Z.to_nat n) (rd_bytes r) in
    let lim := Rdr seen (if decide (n <= len (rd_bytes r)) then EOF else rd_end r) in
    let '(res, lim') := c lim in
    (res, Rdr (drop (length seen - length (rd_bytes lim')) (rd_bytes r)) (rd_end r)).

(** Running [c] on a fresh [bytes.Buffer] holding [bs]; the state of the
    outer reader does not change. *)
Definition onBuffer {A} (bs : list byte) (c : Reader A) : Reader A :=
  fun r => (fst (c (Rdr bs EOF)), r).

(** ** Writers *)

(** Writing into a [bytes.Buffer], which itself never fails: the error of
    the writing code and the contents of the buffer. *)
Definition Writer : Type := list byte -> option goerror * list byte.

Definition wnil : Writer := fun buf => (None, buf).
Definition wfail (e : goerror) : Writer := fun buf => (Some e, buf).

(** [if err = w1; err != nil { return }; w2] *)
Definition wseq (w1 w2 : Writer) : Writer :=
  fun buf =>
    match w1 buf with
    | (None, buf') => w2 buf'
    | (Some e, buf') => (Some e, buf')
    end.

Infix ";;;" := wseq (at level 65, right associativity) : io_scope.

(** [buf.Write(bs)] *)
Definition writeBytes (bs : list byte) : Writer := fun buf => (None, buf ++ bs).

(** [binary.Write(w, binary.BigEndian, z)] for an integer of [n] bytes. *)
Definition writeUint (n : nat) (z : Z) : Writer := writeBytes (be_encode n z).

(** The result of writing into an empty buffer. *)
Definition run_writer (w : Writer) : option goerror * list byte := w [].

(** ** Bits packed in an octet *)

(** [if b { bits |= 1 << k }] *)
Definition putbit (k : Z) (b : bool) (bits : Z) : Z :=
  if b then Z.lor bits (Z.shiftl 1 k) else bits.

(** [(bits&(1<<k) > 0)] *)
Definition getbit (k : Z) (bits : Z) : bool := 0 <? Z.land bits (Z.shiftl 1 k).

(** ** Successful readers and writers *)

Definition reads {A} (c : Reader A) (bs : list byte) (a : A) : Prop :=
  forall rest e, c (Rdr (bs ++ rest) e) = (Ok a, Rdr rest e).

Definition emits (w : Writer) (bs : list byte) : Prop :=
  forall buf, w buf = (None, buf ++ bs).

(** [w] writes an encoding from which [c] reads [a] back. *)
Definition codec {A} (w : Writer) (c : Reader A) (a : A) : Prop :=
  exists bs, emits w bs /\ reads c bs a.

Create HintDb codec discriminated.

(** The round trips of the protocol's methods. *)
Create HintDb methods discriminated.
#[export] Hint Constants Opaque : methods.

(** ** Laws of the reader monad *)

Lemma obind_inv {A B} (o : outcome A) (f : A -> outcome B) y :
  obind o f = Ok y -> exists x, o = Ok x /\ f x = Ok y.
Proof. destruct o; simpl; try done. eauto. Qed.

Lemma rbind_rret {A B} (a : A) (k : A -> Reader B) r : rbind (rret a) k r = k a r.
Proof. done. Qed.

Lemma rbind_ok {A B} (c : Reader A) (k : A -> Reader B) r a r' :
  c r = (Ok a, r') -> rbind c k r = k a r'.
Proof. unfold rbind. by intros ->. Qed.

Lemma rbind_err {A B} (c : Reader A) (k : A -> Reader B) r e r' :
  c r = (Err e, r') -> rbind c k r = (Err e, r').
Proof. unfold rbind. by intros ->. Qed.

Lemma rbind_ok_inv {A B} (c : Reader A) (k : A -> Reader B) r b r' :
  rbind c k r = (Ok b, r') -> exists a r1, c r = (Ok a, r1) /\ k a r1 = (Ok b, r').
Proof.
  unfold rbind. destruct (c r) as [[a| | |] r1] eqn:E; intros; simplify_eq; eauto.
Qed.

Lemma rbind_ext {A B} (c : Reader A) (k k' : A -> Reader B) r :
  (forall a r', k a r' = k' a r') -> rbind c k r = rbind c k' r.
Proof. intros H. unfold rbind. by destruct (c r) as [[] r']. Qed.

Lemma rbind_assoc {A B C} (c : Reader A) (k : A -> Reader B) (j : B -> Reader C) r :
  rbind (rbind c k) j r = rbind c (fun x => rbind (k x) j) r.
Proof. unfold rbind. by destruct (c r) as [[] r']. Qed.

(** ** Laws of [reads] *)

Lemma reads_rret {A} (a : A) : reads (rret a) [] a.
Proof. done. Qed.

Lemma reads_bind {A B} (c : Reader A) (k : A -> Reader B) bs1 bs2 a b :
  reads c bs1 a -> reads (k a) bs2 b -> reads (rbind c k) (bs1 ++ bs2) b.
Proof.
  intros H1 H2 rest e. unfold rbind. rewrite <- app_assoc, H1. apply H2.
Qed.

Lemma reads_readFull n bs : length bs = n -> reads (readFull n) bs bs.
Proof.
  intros <- rest e. unfold readFull. simpl.
  rewrite decide_True by (rewrite length_app; lia).
  by rewrite take_app_length, drop_app_length.
Qed.

Lemma reads_readUint n z : is_uint (8 * Z.of_nat n) z -> reads (readUint n) (be_encode n z) z.
Proof.
  intros H. rewrite <- (app_nil_r (be_encode n z)). eapply reads_bind.
  - apply reads_readFull, length_be_encode.
  - rewrite be_roundtrip by done. apply reads_rret.
Qed.

Lemma reads_readInt n z :
  (0 < n)%nat -> reads (readInt n) (be_encode n z) (sintw (8 * Z.of_nat n) z).
Proof.
  intros H. rewrite <- (app_nil_r (be_encode n z)). eapply reads_bind.
  - apply reads_readFull, length_be_encode.
  - rewrite be_decode_encode, sintw_uintw by lia. apply reads_rret.
Qed.

(** Only the bytes read matter: a reader that consumes [bs] does so from any
    stream that starts with [bs]. *)
Lemma reads_eq {A} (c : Reader A) bs bs' a : reads c bs a -> bs = bs' -> reads c bs' a.
Proof. by intros H <-. Qed.

Lemma reads_limited {A} (c : Reader A) n bs a :
  c (Rdr bs EOF) = (Ok a, Rdr [] EOF) -> n = len bs -> reads (limited n c) bs a.
Proof.
  intros H -> rest e. unfold limited, len. simpl. rewrite Nat2Z.id, take_app_length.
  rewrite decide_True by (rewrite length_app; lia). rewrite H. simpl.
  by rewrite Nat.sub_0_r, drop_app_length.
Qed.

(** ** Laws of [emits] *)

Lemma emits_wnil : emits wnil [].
Proof. intros buf. by rewrite app_nil_r. Qed.

Lemma emits_seq w1 w2 bs1 bs2 : emits w1 bs1 -> emits w2 bs2 -> emits (w1 ;;; w2) (bs1 ++ bs2).
Proof. intros H1 H2 buf. unfold wseq. by rewrite H1, H2, app_assoc. Qed.

Lemma emits_writeBytes bs : emits (writeBytes bs) bs.
Proof. done. Qed.

Lemma emits_writeUint n z : emits (writeUint n z) (be_encode n z).
Proof. done. Qed.

Lemma emits_det w bs bs' : emits w bs -> emits w bs' -> bs = bs'.
Proof. intros H1 H2. specialize (H1 []). rewrite H2 in H1. by simplify_eq. Qed.

Lemma emits_run w bs : emits w bs -> run_writer w = (None, bs).
Proof. intros H. apply H. Qed.

#[export] Hint Resolve reads_rret reads_readFull reads_readUint
  emits_wnil emits_writeBytes emits_writeUint : codec.

(** ** Laws of [codec] *)

Lemma codec_ret {A} (a : A) : codec wnil (rret a) a.
Proof. exists []. split; auto with codec. Qed.

Lemma codec_bind {A B} w1 w2 (c : Reader A) (k : A -> Reader B) a b :
  codec w1 c a -> codec w2 (k a) b -> codec (w1 ;;; w2) (rbind c k) b.
Proof.
  intros (bs1 & E1 & R1) (bs2 & E2 & R2). exists (bs1 ++ bs2).
  split; [by apply emits_seq|by eapply reads_bind].
Qed.

Lemma codec_uint n z : is_uint (8 * Z.of_nat n) z -> codec (writeUint n z) (readUint n) z.
Proof. exists (be_encode n z). split; auto with codec. Qed.

(** ** Bits *)

Lemma getbit_testbit k bits : 0 <= k -> 0 <= bits -> getbit k bits = Z.testbit bits k.
Proof.
  intros Hk Hb. unfold getbit. rewrite Z.shiftl_1_l.
  destruct (Z.testbit bits k) eqn:E.
  - apply Z.ltb_lt. assert (Z.land bits (2 ^ k) <> 0); [|pose proof (Z.land_nonneg bits (2 ^ k)); lia].
    intros H. apply (f_equal (fun z => Z.testbit z k)) in H.
    by rewrite Z.land_spec, E, Z.pow2_bits_true, Z.bits_0 in H by lia.
  - apply Z.ltb_ge. apply Z.eq_le_incl, Z.bits_inj'. intros i Hi.
    rewrite Z.land_spec, Z.bits_0, Z.pow2_bits_eqb by lia.
    destruct (Z.eqb_spec k i) as [->|]; [by rewrite E|apply andb_false_r].
Qed.

Lemma is_uint_nonneg w z : is_uint w z -> 0 <= z.
Proof. unfold is_uint. lia. Qed.

Lemma putbit_uint8 k b bits : 0 <= k < 8 -> is_uint 8 bits -> is_uint 8 (putbit k b bits).
Proof.
  intros Hk Hb. unfold putbit. destruct b; [|done]. unfold is_uint in *.
  rewrite Z.shiftl_1_l. split; [apply Z.lor_nonneg; split; [lia|apply Z.pow_nonneg; lia]|].
  destruct (Z.eq_dec (Z.lor bits (2 ^ k)) 0) as [->|Hne]; [lia|].
  apply Z.log2_lt_pow2; [pose proof (Z.lor_nonneg bits (2 ^ k)); pose proof (Z.pow_nonneg 2 k); lia|].
  rewrite Z.log2_lor by (try apply Z.pow_nonneg; lia). rewrite Z.log2_pow2 by lia.
  apply Z.max_lub_lt; [|lia]. destruct (Z.eq_dec bits 0) as [->|]; [by vm_compute|].
  apply Z.log2_lt_pow2; lia.
Qed.

Lemma getbit_putbit_eq k b bits :
  0 <= k -> 0 <= bits -> getbit k (putbit k b bits) = b || getbit k bits.
Proof.
  intros Hk Hb. unfold putbit. destruct b; [|done].
  assert (0 <= Z.lor bits (Z.shiftl 1 k)).
  { rewrite Z.shiftl_1_l. apply Z.lor_nonneg. split; [lia|apply Z.pow_nonneg; lia]. }
  rewrite getbit_testbit by done. rewrite Z.lor_spec, Z.shiftl_1_l, Z.pow2_bits_true by lia.
  apply orb_true_r.
Qed.

Lemma getbit_putbit_ne k j b bits :
  0 <= k -> 0 <= j -> k <> j -> 0 <= bits -> getbit k (putbit j b bits) = getbit k bits.
Proof.
  intros Hk Hj Hne Hb. unfold putbit. destruct b; [|done].
  assert (0 <= Z.lor bits (Z.shiftl 1 j)).
  { rewrite Z.shiftl_1_l. apply Z.lor_nonneg. split; [lia|apply Z.pow_nonneg; lia]. }
  rewrite !getbit_testbit by done. rewrite Z.lor_spec, Z.shiftl_1_l, Z.pow2_bits_false by lia.
  apply orb_false_r.
Qed.

Lemma getbit_0 k : getbit k 0 = false.
Proof. unfold getbit. by rewrite Z.land_0_l. Qed.

(** Decides that a chain of [putbit] is an octet. *)
Ltac octet :=
  solve [repeat first [ apply putbit_uint8; [lia|] | by vm_compute ]].

(** Evaluates the bits of a chain of [putbit]. *)
Ltac eval_bits :=
  repeat first
    [ rewrite getbit_putbit_eq by (first [lia | eapply is_uint_nonneg; octet])
    | rewrite getbit_putbit_ne by (first [lia | eapply is_uint_nonneg; octet])
    | rewrite getbit_0 ];
  rewrite ?orb_false_r.

(** Field by field round trip of a method's arguments. *)
Ltac codec_fields :=
  repeat (eapply codec_bind;
          [first [ apply codec_uint; first [ assumption | octet ]
                 | solve [eauto with codec] ] | cbv beta zeta ]);
  eval_bits; apply codec_ret.
