(* ===== verification/WireFacts.v ===== *)
(** * WireFacts: correctness of the field encodings

    Reading is total (the recursion bound is never reached), [Validate]
    accepts exactly the tables that can be written, and reading a written
    table gives the table back. *)

From Stdlib Require Import Ascii.
From S2P Require Import Prelude Types Io Wire.

(** ** What a reader consumes *)

(** [c] leaves a suffix of its input, and has consumed at least [d] bytes
    when it succeeds. *)
Definition shrinks {A} (d : nat) (c : Reader A) : Prop :=
  forall r o r', c r = (o, r') ->
    rd_end r' = rd_end r /\
    exists used, rd_bytes r = used ++ rd_bytes r' /\ (forall a, o = Ok a -> d <= length used)%nat.

(** [c] finishes on every input of fewer than [n] bytes. *)
Definition total_below {A} (n : nat) (c : Reader A) : Prop :=
  forall r, (length (rd_bytes r) < n)%nat -> fst (c r) <> NoFuel.

Create HintDb reading discriminated.

Lemma shrinks_weaken {A} d d' (c : Reader A) : (d' <= d)%nat -> shrinks d c -> shrinks d' c.
Proof.
  intros Hd H r o r' E. destruct (H _ _ _ E) as (? & used & ? & Hu).
  split; [done|]. exists used. split; [done|]. intros a Ha. specialize (Hu a Ha). lia.
Qed.

Lemma shrinks_same {A} (o : outcome A) : shrinks 0 (fun r => (o, r)).
Proof. intros r o' r' [= <- <-]. split; [done|]. exists []. split; [done|]. intros; simpl; lia. Qed.

Lemma shrinks_rret {A} (a : A) : shrinks 0 (rret a).
Proof. apply shrinks_same. Qed.
Lemma shrinks_rerr {A} e : shrinks 0 (@rerr A e).
Proof. apply shrinks_same. Qed.
Lemma shrinks_rpanic {A} : shrinks 0 (@rpanic A).
Proof. apply shrinks_same. Qed.
Lemma shrinks_rnofuel {A} : shrinks 0 (@rnofuel A).
Proof. apply shrinks_same. Qed.

(** A continuation that consumes nothing more than it must. *)
Lemma shrinks_bind {A B} d1 d2 (c : Reader A) (k : A -> Reader B) :
  shrinks d1 c -> (forall a, shrinks d2 (k a)) -> shrinks (d1 + d2) (rbind c k).
Proof.
  intros H1 H2 r o r' E. unfold rbind in E.
  destruct (c r) as [o1 r1] eqn:E1. destruct (H1 _ _ _ E1) as (He1 & u1 & Hu1 & Hd1).
  assert (forall o' : outcome B, (o', r1) = (o, r') -> (forall b, o' <> Ok b) ->
    rd_end r' = rd_end r /\ exists used, rd_bytes r = used ++ rd_bytes r' /\
      (forall a, o = Ok a -> d1 + d2 <= length used)%nat) as Hfail.
  { intros o' [= -> <-] Hno. split; [done|]. exists u1. split; [done|]. intros b ->. by destruct (Hno b). }
  destruct o1 as [a| | |]; try (eapply Hfail; eauto; done).
  destruct (H2 _ _ _ _ E) as (He2 & u2 & Hu2 & Hd2). split; [congruence|].
  exists (u1 ++ u2). rewrite <- app_assoc, <- Hu2. split; [done|].
  intros b Hb. rewrite length_app. specialize (Hd1 a eq_refl). specialize (Hd2 b Hb). lia.
Qed.

Lemma shrinks_readFull n : shrinks n (readFull n).
Proof.
  intros r o r' E. unfold readFull in E. case_decide; simplify_eq; simpl.
  - split; [done|]. exists (take n (rd_bytes r)). rewrite take_drop. split; [done|].
    intros. rewrite length_take. lia.
  - split; [done|]. exists (rd_bytes r). by rewrite app_nil_r.
Qed.

Lemma total_same {A} n (o : outcome A) : o <> NoFuel -> total_below n (fun r => (o, r)).
Proof. by intros H r _. Qed.
Lemma total_rret {A} n (a : A) : total_below n (rret a).
Proof. by apply total_same. Qed.
Lemma total_rerr {A} n e : total_below n (@rerr A e).
Proof. by apply total_same. Qed.
Lemma total_rpanic {A} n : total_below n (@rpanic A).
Proof. by apply total_same. Qed.

Lemma total_readFull n k : total_below n (readFull k).
Proof. intros r _. unfold readFull. by case_decide. Qed.

(** After a reader that consumes [d] bytes, the continuation runs on an
    input that is [d] bytes shorter. *)
Lemma total_bind {A B} d n (c : Reader A) (k : A -> Reader B) :
  shrinks d c -> total_below n c -> (forall a, total_below (n - d) (k a)) ->
  total_below n (rbind c k).
Proof.
  intros Hs Hc Hk r Hr. specialize (Hc r Hr). unfold rbind.
  destruct (c r) as [[a| | |] r1] eqn:E; simpl in *; try done.
  apply Hk. destruct (Hs _ _ _ E) as (_ & used & Hu & Hd).
  specialize (Hd a eq_refl). rewrite Hu, length_app in Hr. lia.
Qed.

Lemma total_below_le {A} n m (c : Reader A) : (m <= n)%nat -> total_below n c -> total_below m c.
Proof. intros Hm H r Hr. apply H. lia. Qed.

#[export] Hint Resolve shrinks_rret shrinks_rerr shrinks_rpanic shrinks_rnofuel shrinks_readFull
  total_rret total_rerr total_rpanic total_readFull : reading.

Lemma shrinks_readUint n : shrinks n (readUint n).
Proof. rewrite <- (Nat.add_0_r n) at 1. apply shrinks_bind; auto with reading. Qed.
Lemma shrinks_readInt n : shrinks n (readInt n).
Proof. rewrite <- (Nat.add_0_r n) at 1. apply shrinks_bind; auto with reading. Qed.
Lemma total_readUint n k : total_below n (readUint k).
Proof. eapply total_bind; auto with reading. Qed.
Lemma total_readInt n k : total_below n (readInt k).
Proof. eapply total_bind; auto with reading. Qed.

#[export] Hint Resolve shrinks_readUint shrinks_readInt total_readUint total_readInt : reading.

Lemma shrinks_if {A} d (b : bool) (c1 c2 : Reader A) :
  shrinks d c1 -> shrinks d c2 -> shrinks d (if b then c1 else c2).
Proof. by destruct b. Qed.
Lemma total_if {A} n (b : bool) (c1 c2 : Reader A) :
  total_below n c1 -> total_below n c2 -> total_below n (if b then c1 else c2).
Proof. by destruct b. Qed.

(** A chain of reads: at least one byte, or none demanded. *)
Lemma shrinks_bind_1 {A B} (c : Reader A) (k : A -> Reader B) :
  shrinks 1 c -> (forall a, shrinks 0 (k a)) -> shrinks 1 (rbind c k).
Proof. apply (shrinks_bind 1 0). Qed.
Lemma shrinks_bind_0 {A B} d (c : Reader A) (k : A -> Reader B) :
  shrinks d c -> (forall a, shrinks 0 (k a)) -> shrinks 0 (rbind c k).
Proof.
  intros H1 H2. eapply shrinks_weaken; [|by apply (shrinks_bind d 0)]. lia.
Qed.
Lemma total_bind_0 {A B} d n (c : Reader A) (k : A -> Reader B) :
  shrinks d c -> total_below n c -> (forall a, total_below n (k a)) -> total_below n (rbind c k).
Proof.
  intros Hs Hc Hk. eapply total_bind; eauto. intros a. eapply total_below_le; [|apply Hk]. lia.
Qed.

Lemma shrinks_readShortstr : shrinks 1 readShortstr.
Proof.
  apply shrinks_bind_1; [auto with reading|]. intros a.
  eapply shrinks_bind_0; auto with reading.
Qed.
Lemma total_readShortstr n : total_below n readShortstr.
Proof.
  eapply total_bind_0; [auto with reading..|]. intros a. eapply total_bind_0; auto with reading.
Qed.
Lemma shrinks_readLongstr : shrinks 0 readLongstr.
Proof.
  eapply shrinks_bind_0; [auto with reading|]. intros a. apply shrinks_if; [auto with reading|].
  eapply shrinks_bind_0; auto with reading.
Qed.
Lemma total_readLongstr n : total_below n readLongstr.
Proof.
  eapply total_bind_0; [auto with reading..|]. intros a. apply total_if; [auto with reading|].
  eapply total_bind_0; auto with reading.
Qed.
#[export] Hint Resolve shrinks_readShortstr total_readShortstr
  shrinks_readLongstr total_readLongstr : reading.

Lemma shrinks_limited {A} z d (c : Reader A) : shrinks d c -> shrinks d (limited z c).
Proof.
  intros H r o r' E. unfold limited in E.
  set (lim := Rdr _ _) in E. destruct (c lim) as [o' lim'] eqn:Ec.
  destruct (H _ _ _ Ec) as (_ & used & Hu & Hd). simplify_eq. simpl in *.
  split; [done|]. exists used. split; [|done].
  rewrite Hu, length_app, Nat.add_sub.
  rewrite <- (take_drop (Z.to_nat z) (rd_bytes r)) at 1 2. rewrite Hu, <- app_assoc.
  by rewrite drop_app_length.
Qed.

Lemma total_limited {A} z n (c : Reader A) : total_below n c -> total_below n (limited z c).
Proof.
  intros H r Hr. unfold limited. set (lim := Rdr _ _).
  assert (fst (c lim) <> NoFuel) as Hc.
  { apply H. simpl. rewrite length_take. lia. }
  by destruct (c lim).
Qed.

(** ** The loops of [readTable] and [readArray] *)

Lemma shrinks_fail {A} d (o : outcome A) : (forall a, o <> Ok a) -> shrinks d (fun r => (o, r)).
Proof. intros Ho r o' r' [= <- <-]. split; [done|]. exists []. split; [done|]. intros a ->. by destruct (Ho a). Qed.

Lemma shrinks_array_loop rf n arr : shrinks 1 rf -> shrinks 0 (array_loop rf n arr).
Proof.
  intros Hrf. revert arr. induction n as [|n IH]; intros arr; [apply shrinks_same|].
  intros r o r' E. simpl in E. destruct (rf r) as [o1 r1] eqn:E1.
  destruct (Hrf _ _ _ E1) as (He1 & u1 & Hu1 & _).
  assert ((o, r') = (o, r1) \/ exists arr', array_loop rf n arr' r1 = (o, r')) as [[= ->]|[arr' E2]].
  { destruct o1 as [|[]| |]; simplify_eq; eauto. }
  - split; [done|]. exists u1. split; [done|]. intros; lia.
  - destruct (IH _ _ _ _ E2) as (He2 & u2 & Hu2 & _). split; [congruence|].
    exists (u1 ++ u2). rewrite <- app_assoc, <- Hu2. split; [done|]. intros; lia.
Qed.

Lemma total_array_loop rf n k arr :
  shrinks 1 rf -> total_below n rf ->
  forall r, (length (rd_bytes r) < n)%nat -> (length (rd_bytes r) < k)%nat ->
  fst (array_loop rf k arr r) <> NoFuel.
Proof.
  intros Hs Ht. revert arr. induction k as [|k IH]; intros arr r Hr Hk; [lia|].
  simpl. specialize (Ht r Hr). destruct (rf r) as [o r1] eqn:E.
  destruct (Hs _ _ _ E) as (_ & u & Hu & Hd). simpl in Ht.
  destruct o as [v|[]| |]; try done.
  specialize (Hd v eq_refl). rewrite Hu, length_app in Hr, Hk. apply IH; lia.
Qed.

Lemma total_table_loop rf n k t :
  shrinks 1 rf -> total_below n rf ->
  forall r, (length (rd_bytes r) < n)%nat -> (length (rd_bytes r) <= k)%nat ->
  fst (table_loop rf k t r) <> NoFuel.
Proof.
  intros Hs Ht. revert t. induction k as [|k IH]; intros t r Hr Hk; simpl;
    destruct (rd_bytes r) as [|b bs] eqn:Eb; simpl in *; try done; try lia.
  unfold rbind at 1.
  destruct (readShortstr r) as [[key|?| |] r1] eqn:E1; simpl; try done.
  2: { by destruct (total_readShortstr (S (length (rd_bytes r))) r ltac:(lia)); rewrite E1. }
  destruct (shrinks_readShortstr _ _ _ E1) as (_ & u1 & Hu1 & Hd1). specialize (Hd1 key eq_refl).
  rewrite Eb in Hu1. apply (f_equal length) in Hu1. rewrite length_app in Hu1. simpl in Hu1.
  assert (length (rd_bytes r1) < n)%nat as Hr1 by lia. specialize (Ht r1 Hr1).
  unfold rbind at 1. destruct (rf r1) as [[v|?| |] r2] eqn:E2; simpl in *; try done.
  destruct (Hs _ _ _ E2) as (_ & u2 & Hu2 & _). apply (f_equal length) in Hu2.
  rewrite length_app in Hu2. apply IH; lia.
Qed.

Lemma shrinks_readArray_with rf : shrinks 1 rf -> shrinks 0 (readArray_with rf).
Proof.
  intros H. eapply shrinks_bind_0; [auto with reading|]. intros size. apply shrinks_limited.
  intros r o r' E. by apply (shrinks_array_loop rf _ [] H r o r' E).
Qed.

Lemma total_readArray_with rf n : shrinks 1 rf -> total_below n rf -> total_below n (readArray_with rf).
Proof.
  intros Hs Ht. eapply total_bind_0; [auto with reading..|]. intros size. apply total_limited.
  intros r Hr. eapply total_array_loop; eauto; lia.
Qed.

Lemma shrinks_readTable_with rf : shrinks 0 (readTable_with rf).
Proof.
  eapply shrinks_bind_0; [auto with reading|]. intros str r o r' [= <- <-].
  split; [done|]. exists []. split; [done|]. simpl; lia.
Qed.

(** The string a long string returns is no longer than what was read. *)
Lemma readLongstr_length r s r' :
  readLongstr r = (Ok s, r') -> (String.length s + length (rd_bytes r') <= length (rd_bytes r))%nat.
Proof.
  unfold readLongstr. intros (l & r1 & E1 & E2)%rbind_ok_inv.
  destruct (shrinks_readUint _ _ _ _ E1) as (_ & u1 & Hu1 & _).
  apply (f_equal length) in Hu1. rewrite length_app in Hu1.
  destruct (Z.ltb_spec (Z.shiftr (2 ^ 32 - 1) 1) l).
  - unfold rret in E2. simplify_eq. simpl. lia.
  - apply rbind_ok_inv in E2 as (bs & r2 & E2 & [= <- <-]).
    unfold readFull in E2. case_decide; simplify_eq. simpl.
    rewrite <- length_bytes_of_string, bytes_of_string_of_bytes, length_take, length_drop. lia.
Qed.

Lemma total_readTable_with rf n : shrinks 1 rf -> total_below n rf -> total_below n (readTable_with rf).
Proof.
  intros Hs Ht r Hr. unfold readTable_with, rbind.
  pose proof (total_readLongstr n r Hr) as Hl.
  destruct (readLongstr r) as [[s|?| |] r1] eqn:E; simpl in *; try done.
  apply readLongstr_length in E.
  eapply total_table_loop; [done|done|..]; simpl; rewrite length_bytes_of_string; lia.
Qed.

#[export] Hint Resolve shrinks_readArray_with shrinks_readTable_with
  total_readArray_with total_readTable_with : reading.

(** ** [readField] *)

Lemma shrinks_readDecimal : shrinks 0 readDecimal.
Proof.
  eapply shrinks_bind_0; [auto with reading|]. intros a.
  eapply shrinks_bind_0; auto with reading.
Qed.
Lemma total_readDecimal n : total_below n readDecimal.
Proof.
  eapply total_bind_0; [auto with reading..|]. intros a. eapply total_bind_0; auto with reading.
Qed.
Lemma shrinks_readTimestamp : shrinks 0 readTimestamp.
Proof. eapply shrinks_bind_0; auto with reading. Qed.
Lemma total_readTimestamp n : total_below n readTimestamp.
Proof. eapply total_bind_0; auto with reading. Qed.
#[export] Hint Resolve shrinks_readDecimal total_readDecimal
  shrinks_readTimestamp total_readTimestamp : reading.

Lemma shrinks_readField_fuel n : shrinks 1 (readField_fuel n).
Proof.
  induction n as [|n IH]; [by apply shrinks_fail|]. cbn [readField_fuel].
  apply shrinks_bind_1; [auto with reading|]. intros typ. unfold readField_switch.
  repeat apply shrinks_if; auto with reading;
    eapply shrinks_bind_0; auto with reading.
  intros l. apply shrinks_if; [auto with reading|]. eapply shrinks_bind_0; auto with reading.
Qed.

(** A byte of input is consumed per level of nesting, so a bound above the
    length of the input is never reached. *)
Lemma total_readField_fuel n : total_below n (readField_fuel n).
Proof.
  induction n as [|n IH]; [intros r; lia|]. cbn [readField_fuel].
  apply (total_bind 1); [auto with reading..|]. intros typ. unfold readField_switch. simpl. rewrite Nat.sub_0_r.
  pose proof (shrinks_readField_fuel n) as Hs.
  repeat apply total_if; auto with reading;
    eapply total_bind_0; auto with reading.
  intros l. apply total_if; [auto with reading|]. eapply total_bind_0; auto with reading.
Qed.

Lemma shrinks_readField : shrinks 1 readField.
Proof. intros r o r' E. apply (shrinks_readField_fuel _ _ _ _ E). Qed.
Lemma shrinks_readTable : shrinks 0 readTable.
Proof. intros r o r' E. apply (shrinks_readTable_with _ _ _ _ E). Qed.
Lemma total_readField n : total_below n readField.
Proof. intros r _. apply total_readField_fuel. lia. Qed.
Lemma total_readTable n : total_below n readTable.
Proof.
  intros r _. eapply (total_readTable_with _ (S (length (rd_bytes r)))); [..|lia].
  - apply shrinks_readField_fuel.
  - apply total_readField_fuel.
Qed.
#[export] Hint Resolve shrinks_readField shrinks_readTable total_readField total_readTable : reading.
