(* ===== verification/WireCodec.v ===== *)
(** * WireCodec: reading inverts writing

    A reference encoder [enc_value], the theorem that [writeField] computes
    it on exactly the values [validateField] accepts, and the round trip of
    strings, values and tables. *)

From Stdlib Require Import Ascii.
From S2P Require Import Prelude Types Io Wire WireFacts.

(** ** The encoding as a function *)

(** The length prefix of [w] octets and the bytes it announces. *)
Definition enc_lenbytes (w : nat) (b : list byte) : list byte :=
  let length := uintw (8 * Z.of_nat w) (len b) in
  be_encode w length ++ take (Z.to_nat length) b.

Definition enc_shortstr (s : string) : list byte := enc_lenbytes 1 (bytes_of_string s).
Definition enc_longstr (s : string) : list byte := enc_lenbytes 4 (bytes_of_string s).

Fixpoint enc_value (v : GoValue) : list byte :=
  match v with
  | VNil => [tag "V"]
  | VBool b => [tag "t"; Zbyte (if b then 1 else 0)]
  | VByte z => [tag "B"; Zbyte z]
  | VInt8 z => [tag "b"; Zbyte z]
  | VInt z => tag "I" :: be_encode 4 (uintw 32 z)
  | VInt16 z => tag "s" :: be_encode 2 (uintw 16 z)
  | VInt32 z => tag "I" :: be_encode 4 (uintw 32 z)
  | VInt64 z => tag "l" :: be_encode 8 (uintw 64 z)
  | VFloat32 bits => tag "f" :: be_encode 4 bits
  | VFloat64 bits => tag "d" :: be_encode 8 bits
  | VString s => tag "S" :: be_encode 4 (uintw 32 (slen s)) ++ bytes_of_string s
  | VBytes b => tag "x" :: be_encode 4 (uintw 32 (len b)) ++ b
  | VDecimal d => tag "D" :: Zbyte (Decimal_Scale d) :: be_encode 4 (uintw 32 (Decimal_Value d))
  | VTime t => tag "T" :: be_encode 8 (uintw 64 (Time_unix t))
  | VArray l =>
      let body := concat (enc_value <$> l) in
      tag "A" :: be_encode 4 (uintw 32 (len body)) ++ body
  | VTable t =>
      tag "F" :: enc_lenbytes 4 (concat ((fun kv => enc_shortstr (fst kv) ++ enc_value (snd kv)) <$> t))
  | VOther _ => []
  end.

Definition enc_entry (kv : string * GoValue) : list byte :=
  enc_shortstr (fst kv) ++ enc_value (snd kv).

Definition enc_table (t : Table) : list byte := enc_lenbytes 4 (concat (enc_entry <$> t)).

(** What a written value is read back as: an [int] becomes the [int32] of its
    low 32 bits and a [time.Time] loses its fraction of a second. *)
Fixpoint norm_value (v : GoValue) : GoValue :=
  match v with
  | VInt z => VInt32 (sintw 32 z)
  | VTime t => VTime (MkTime (Time_unix t) 0)
  | VArray l => VArray (norm_value <$> l)
  | VTable t => VTable ((fun kv => (fst kv, norm_value (snd kv))) <$> t)
  | _ => v
  end.

Definition norm_table (t : Table) : Table := (fun kv => (fst kv, norm_value (snd kv))) <$> t.

(** Values of the declared widths whose parts fit their length prefixes;
    table keys are distinct, as in a Go map. *)
Definition shortstr_ok (s : string) : bool := slen s <? 256.
Definition longstr_ok (s : string) : bool := slen s <? 2 ^ 31.

Fixpoint value_ok (v : GoValue) : bool :=
  match v with
  | VNil | VBool _ | VInt _ => true
  | VByte z => bool_decide (is_uint 8 z)
  | VInt8 z => bool_decide (is_sint 8 z)
  | VInt16 z => bool_decide (is_sint 16 z)
  | VInt32 z => bool_decide (is_sint 32 z)
  | VInt64 z => bool_decide (is_sint 64 z)
  | VFloat32 bits => bool_decide (is_uint 32 bits)
  | VFloat64 bits => bool_decide (is_uint 64 bits)
  | VString s => longstr_ok s
  | VBytes b => len b <? 2 ^ 31
  | VDecimal d => bool_decide (is_uint 8 (Decimal_Scale d)) && bool_decide (is_sint 32 (Decimal_Value d))
  | VTime t => bool_decide (is_sint 64 (Time_unix t))
  | VArray l => forallb value_ok l && (len (concat (enc_value <$> l)) <? 2 ^ 32)
  | VTable t =>
      forallb (fun kv => shortstr_ok (fst kv) && value_ok (snd kv)) t
      && bool_decide (NoDup t.*1)
      && (len (concat ((fun kv => enc_shortstr (fst kv) ++ enc_value (snd kv)) <$> t)) <? 2 ^ 31)
  | VOther _ => false
  end.

Definition table_ok (t : Table) : bool := value_ok (VTable t).

(** Nesting depth. *)
Fixpoint depth (v : GoValue) : nat :=
  match v with
  | VArray l => S (foldr (fun v n => Nat.max (depth v) n) 0%nat l)
  | VTable t => S (foldr (fun kv n => Nat.max (depth (snd kv)) n) 0%nat t)
  | _ => 0
  end.

(** ** Writing *)

Lemma emits_writeShortstr s : emits (writeShortstr s) (enc_shortstr s).
Proof. apply emits_seq; auto with codec. Qed.
Lemma emits_writeLongstr s : emits (writeLongstr s) (enc_longstr s).
Proof. apply emits_seq; auto with codec. Qed.
#[export] Hint Resolve emits_writeShortstr emits_writeLongstr : codec.

Lemma emits_cons b bs bs' w : emits w bs -> bs' = b :: bs -> emits (writeBytes [b] ;;; w) bs'.
Proof. intros H ->. apply (emits_seq _ _ [b]); auto with codec. Qed.

Lemma emits_eq w bs bs' : emits w bs -> bs = bs' -> emits w bs'.
Proof. by intros H <-. Qed.

Lemma Zbyte_uintw z : Zbyte (uintw 8 z) = Zbyte z.
Proof. unfold Zbyte, uintw. change (2 ^ 8) with 256. by rewrite Zmod_mod. Qed.

Lemma emits_writeTable_with wf t :
  Forall (fun kv => emits (wf (snd kv)) (enc_value (snd kv))) t ->
  emits (writeTable_with wf t) (enc_table t).
Proof.
  intros H buf. unfold writeTable_with.
  assert (emits (writeEntries wf t) (concat (enc_entry <$> t))) as He.
  { induction H as [|[k v] t Hv _ IH]; [apply emits_wnil|].
    rewrite fmap_cons. cbn [concat]. unfold enc_entry at 1. rewrite <- app_assoc.
    apply emits_seq; [auto with codec|]. by apply emits_seq. }
  rewrite (emits_run _ _ He). rewrite emits_writeLongstr.
  unfold enc_longstr. by rewrite bytes_of_string_of_bytes.
Qed.

(** What [validateField] accepts is written in full. *)
Lemma emits_writeField v : validateField v = None -> emits (writeField v) (enc_value v).
Proof.
  induction v as [v Hat|l IH|t IH] using GoValue_nested_ind; intros Hv.
  - destruct v; try done; cbn [writeField enc_value];
      rewrite ?Zbyte_uintw; auto with codec.
    apply (emits_seq _ _ (tag "x" :: be_encode 4 _)); auto with codec.
  - apply validateField_array in Hv. cbn [writeField enc_value].
    assert (emits (writeElems writeField l) (concat (enc_value <$> l))) as He.
    { induction l as [|x l IHl]; [apply emits_wnil|].
      apply list.Forall_cons in IH as [Hx IH], Hv as [Hvx Hv].
      apply emits_seq; auto. }
    intros buf. rewrite (emits_run _ _ He). clear.
    by apply (emits_seq _ _ (tag "A" :: be_encode 4 _)); auto with codec.
  - apply validateField_table in Hv. cbn [writeField].
    eapply emits_cons; [|done]. apply emits_writeTable_with.
    rewrite Forall_forall in IH, Hv |- *. auto.
Qed.

(** What it rejects makes the writer fail with [ErrFieldType]. *)
Lemma writeField_fails v : validateField v <> None ->
  forall buf, fst (writeField v buf) = Some (AmqpError ErrFieldType).
Proof.
  induction v as [v Hat|l IH|t IH] using GoValue_nested_ind; intros Hv buf.
  - by destruct v.
  - cbn [writeField].
    enough (fst (run_writer (writeElems writeField l)) = Some (AmqpError ErrFieldType)) as He.
    { destruct (run_writer (writeElems writeField l)) as [[e|] b]; simpl in *; by simplify_eq. }
    unfold run_writer. generalize (@nil byte). rewrite validateField_array in Hv.
    induction l as [|x l IHl]; intros b; [by destruct Hv|].
    apply list.Forall_cons in IH as [Hx IH]. cbn [writeElems]. unfold wseq.
    destruct (validateField x) eqn:Ex.
    + specialize (Hx ltac:(done) b). by destruct (writeField x b) as [[]].
    + rewrite (emits_writeField _ Ex). apply IHl; [done|]. intros H. apply Hv. by constructor.
  - cbn [writeField]. unfold wseq, writeBytes, writeTable_with.
    enough (fst (run_writer (writeEntries writeField t)) = Some (AmqpError ErrFieldType)) as He.
    { destruct (run_writer (writeEntries writeField t)) as [[e|] b]; simpl in *; by simplify_eq. }
    unfold run_writer. generalize (@nil byte). rewrite validateField_table in Hv.
    induction t as [|[k x] t IHt]; intros b; [by destruct Hv|].
    apply list.Forall_cons in IH as [Hx IH]. cbn [writeEntries]. simpl in Hx. unfold wseq.
    rewrite emits_writeShortstr. destruct (validateField x) eqn:Ex.
    + specialize (Hx ltac:(done) (b ++ enc_shortstr k)).
      by destruct (writeField x (b ++ enc_shortstr k)) as [[]].
    + rewrite (emits_writeField _ Ex). apply IHt; [done|]. intros H. apply Hv. by constructor.
Qed.

(** ** Reading *)

Lemma uintw_lt w z : 0 <= w -> 0 <= z -> uintw w z <= z.
Proof. intros Hw Hz. apply Z.mod_le; [done|]. apply Z.pow_pos_nonneg; lia. Qed.

Lemma length_take_uintw {A} w (b : list A) :
  0 <= w -> length (take (Z.to_nat (uintw w (len b))) b) = Z.to_nat (uintw w (len b)).
Proof.
  intros Hw. rewrite length_take. pose proof (uintw_lt w (len b) Hw (len_nonneg b)).
  unfold len in *. lia.
Qed.

Lemma take_uintw_small {A} w (b : list A) :
  0 <= w -> len b < 2 ^ w -> take (Z.to_nat (uintw w (len b))) b = b.
Proof.
  intros Hw Hb. rewrite uintw_small by (pose proof (len_nonneg b); unfold is_uint; lia).
  unfold len. by rewrite Nat2Z.id, firstn_all.
Qed.

(** A written short string is read as its first [len mod 256] bytes. *)
Lemma reads_shortstr s :
  reads readShortstr (enc_shortstr s)
    (string_of_bytes (take (Z.to_nat (uintw 8 (slen s))) (bytes_of_string s))).
Proof.
  rewrite <- len_bytes_of_string. eapply reads_bind.
  - apply reads_readUint. by apply uintw_range.
  - rewrite <- (app_nil_r (take _ _)) at 1. eapply reads_bind; [|apply reads_rret].
    by apply reads_readFull, length_take_uintw.
Qed.

Lemma reads_shortstr_ok s : shortstr_ok s = true -> reads readShortstr (enc_shortstr s) s.
Proof.
  intros Hs%Z.ltb_lt. pose proof (reads_shortstr s) as H.
  rewrite <- len_bytes_of_string in *. rewrite take_uintw_small in H by lia.
  by rewrite string_of_bytes_of_string in H.
Qed.

Lemma reads_longbytes b : len b < 2 ^ 31 -> reads readLongstr (enc_lenbytes 4 b) (string_of_bytes b).
Proof.
  intros Hb. pose proof (len_nonneg b). unfold enc_lenbytes.
  assert (uintw (8 * Z.of_nat 4) (len b) = len b) as ->.
  { apply uintw_small. unfold is_uint. change (8 * Z.of_nat 4) with 32. lia. }
  eapply reads_bind; [apply reads_readUint; unfold is_uint; change (8 * Z.of_nat 4) with 32; lia|].
  rewrite (proj2 (Z.ltb_ge _ _)) by (change (Z.shiftr (2 ^ 32 - 1) 1) with (2 ^ 31 - 1); lia).
  replace (take (Z.to_nat (len b)) b) with b by (unfold len; by rewrite Nat2Z.id, firstn_all).
  rewrite <- (app_nil_r b) at 2. eapply reads_bind; [|apply reads_rret].
  apply reads_readFull. unfold len. lia.
Qed.

Lemma reads_longstr_ok s : longstr_ok s = true -> reads readLongstr (enc_longstr s) s.
Proof.
  intros Hs%Z.ltb_lt. rewrite <- len_bytes_of_string in Hs.
  pose proof (reads_longbytes _ Hs) as H. by rewrite string_of_bytes_of_string in H.
Qed.

Lemma codec_shortstr s : shortstr_ok s = true -> codec (writeShortstr s) readShortstr s.
Proof. exists (enc_shortstr s). split; [auto with codec|by apply reads_shortstr_ok]. Qed.
Lemma codec_longstr s : longstr_ok s = true -> codec (writeLongstr s) readLongstr s.
Proof. exists (enc_longstr s). split; [auto with codec|by apply reads_longstr_ok]. Qed.

(** The type octet selects the branch of the switch. *)
Lemma reads_tag n c bs v :
  reads (readField_switch (readField_fuel n) c) bs v ->
  reads (readField_fuel (S n)) (tag c :: bs) v.
Proof.
  intros H. cbn [readField_fuel]. apply (reads_bind _ _ [tag c] _ (byteZ (tag c))).
  - eapply reads_eq; [apply reads_readUint, byteZ_range|].
    cbn. by rewrite Z.shiftr_0_r, Zbyte_byteZ.
  - unfold tag at 1. by rewrite Zbyte_byteZ, ascii_of_byte_of_ascii.
Qed.

(** A read followed by the constructor of the value. *)
Lemma reads_map {A B} (c : Reader A) (f : A -> B) bs a :
  reads c bs a -> reads (let* x := c in rret (f x)) bs (f a).
Proof. intros H. rewrite <- (app_nil_r bs). eapply reads_bind; [done|]. apply reads_rret. Qed.

Lemma reads_readInt_ok n z :
  (0 < n)%nat -> is_sint (8 * Z.of_nat n) z ->
  reads (readInt n) (be_encode n (uintw (8 * Z.of_nat n) z)) z.
Proof.
  intros Hn Hz. pose proof (reads_readInt n (uintw (8 * Z.of_nat n) z) Hn) as H.
  rewrite sintw_uintw, sintw_small in H by (done || lia). done.
Qed.

Lemma be_encode_1 z : be_encode 1 z = [Zbyte z].
Proof. cbn. by rewrite Z.shiftr_0_r. Qed.

Lemma reads_octet z : is_uint 8 z -> reads (readUint 1) [Zbyte z] z.
Proof. intros H. rewrite <- be_encode_1. by apply reads_readUint. Qed.

Lemma reads_decimal d :
  is_uint 8 (Decimal_Scale d) -> is_sint 32 (Decimal_Value d) ->
  reads readDecimal (Zbyte (Decimal_Scale d) :: be_encode 4 (uintw 32 (Decimal_Value d))) d.
Proof.
  intros H1 H2. destruct d as [s v]. cbn [Decimal_Scale Decimal_Value] in *.
  apply (reads_bind _ _ [Zbyte s] _ s); [by apply reads_octet|].
  apply reads_map. apply (reads_readInt_ok 4); [lia|done].
Qed.

Lemma reads_timestamp t :
  is_sint 64 (Time_unix t) ->
  reads readTimestamp (be_encode 8 (uintw 64 (Time_unix t))) (MkTime (Time_unix t) 0).
Proof. intros H. apply (reads_map _ (fun sec => MkTime sec 0)). apply (reads_readInt_ok 8); [lia|done]. Qed.

(** ** Arrays and tables *)

(** The loop of [readArray] reads the elements until an [EOF]. *)
Lemma array_loop_reads rf (vs : list (list byte * GoValue)) tl k arr :
  Forall (fun bv => reads rf (fst bv) (snd bv)) vs ->
  rf (Rdr tl EOF) = (Err EOF, Rdr [] EOF) -> (length vs < k)%nat ->
  array_loop rf k arr (Rdr (concat (vs.*1) ++ tl) EOF) = (Ok (arr ++ vs.*2), Rdr [] EOF).
Proof.
  intros H He. revert k arr. induction H as [|[b v] vs Hv _ IH]; intros k arr Hk;
    (destruct k as [|k]; simpl in Hk; [lia|]); cbn.
  - by rewrite He, app_nil_r.
  - simpl in Hv. rewrite <- app_assoc, Hv. rewrite IH by lia. by rewrite <- app_assoc.
Qed.

Lemma table_loop_S rf k t r :
  rd_bytes r <> [] ->
  table_loop rf (S k) t r =
  (let* key := readShortstr in
   let* value := rf in
   table_loop rf k (table_set key value t)) r.
Proof. intros H. cbn [table_loop]. by destruct (rd_bytes r). Qed.

(** The loop of [readTable] on distinct keys appends the entries in order. *)
Lemma table_loop_reads rf (es : list (list byte * (string * GoValue))) k t :
  Forall (fun e => exists bk bv, fst e = bk ++ bv /\ (0 < length bk)%nat /\
            reads readShortstr bk (fst (snd e)) /\ reads rf bv (snd (snd e))) es ->
  NoDup (t.*1 ++ es.*2.*1) -> (length (concat (es.*1)) <= k)%nat ->
  table_loop rf k t (Rdr (concat (es.*1)) EOF) = (Ok (t ++ es.*2), Rdr [] EOF).
Proof.
  intros H. revert k t. induction H as [|[b [key v]] es He _ IH]; intros k t Hnd Hk.
  - by destruct k; simpl; rewrite app_nil_r.
  - destruct He as (bk & bv & Hb & Hl & Hrk & Hrv).
    rewrite !fmap_cons in *. cbn [fst snd concat] in *. subst b.
    rewrite !length_app in Hk. destruct k as [|k]; [lia|].
    rewrite <- app_assoc, table_loop_S by (destruct bk; [simpl in Hl; lia|done]).
    rewrite (rbind_ok _ _ _ _ _ (Hrk _ _)), (rbind_ok _ _ _ _ _ (Hrv _ _)).
    assert (key ∉ t.*1) as Hfresh.
    { apply list.NoDup_app in Hnd as (_ & Hd & _). intros Hin. apply (Hd key Hin). constructor. }
    rewrite table_set_fresh by done. rewrite IH.
    + by rewrite <- app_assoc.
    + rewrite fmap_app, <- app_assoc. exact Hnd.
    + lia.
Qed.

Lemma readField_fuel_eof n : readField_fuel (S n) (Rdr [] EOF) = (Err EOF, Rdr [] EOF).
Proof. done. Qed.

(** ** Values *)

Lemma value_ok_array l :
  value_ok (VArray l) = true ->
  Forall (fun v => value_ok v = true) l /\ len (concat (enc_value <$> l)) < 2 ^ 32.
Proof.
  cbn [value_ok]. intros [H1 H2%Z.ltb_lt]%andb_true_iff. split; [|done].
  rewrite forallb_forall in H1. apply List.Forall_forall, H1.
Qed.

Lemma value_ok_table t :
  value_ok (VTable t) = true ->
  Forall (fun kv => shortstr_ok (fst kv) = true /\ value_ok (snd kv) = true) t /\
  NoDup t.*1 /\ len (concat (enc_entry <$> t)) < 2 ^ 31.
Proof.
  cbn [value_ok]. rewrite !andb_true_iff, Z.ltb_lt, bool_decide_eq_true. intros [[H1 H2] H3].
  split_and!; [|done..]. rewrite forallb_forall in H1. apply List.Forall_forall.
  intros kv Hkv. specialize (H1 kv Hkv). by apply andb_true_iff in H1.
Qed.

(** What is well formed is accepted by [validateField]. *)
Lemma value_ok_valid v : value_ok v = true -> validateField v = None.
Proof.
  induction v as [v Hat|l IH|t IH] using GoValue_nested_ind; intros Hv.
  - by destruct v.
  - apply value_ok_array in Hv as [Hv _]. apply validateField_array.
    rewrite Forall_forall in *. auto.
  - apply value_ok_table in Hv as [Hv _]. apply validateField_table.
    rewrite Forall_forall in *. intros kv Hin. destruct (Hv kv Hin). auto.
Qed.

Lemma enc_shortstr_pos s : (0 < length (enc_shortstr s))%nat.
Proof. unfold enc_shortstr, enc_lenbytes. rewrite length_app, length_be_encode. lia. Qed.

Lemma depth_array v l : In v l -> (depth v < depth (VArray l))%nat.
Proof. cbn [depth]. induction l as [|w l IH]; simpl; [done|]. intros [->|H%IH]; lia. Qed.

Lemma depth_table kv t : In kv t -> (depth (snd kv) < depth (VTable t))%nat.
Proof. cbn [depth]. induction t as [|w t IH]; simpl; [done|]. intros [->|H%IH]; lia. Qed.

Lemma reads_VBytes n b :
  len b < 2 ^ 31 ->
  reads (readField_switch (readField_fuel n) "x")
    (be_encode 4 (uintw 32 (len b)) ++ b) (VBytes b).
Proof.
  intros Hb. pose proof (len_nonneg b).
  apply (reads_bind (readInt 4) _ _ _ (len b)).
  { apply (reads_readInt_ok 4); [lia|]. unfold is_sint. simpl. lia. }
  rewrite (proj2 (Z.ltb_ge _ _)) by lia.
  apply (reads_map (readFull _) VBytes). apply reads_readFull. unfold len. lia.
Qed.

Lemma reads_VString n s :
  longstr_ok s = true ->
  reads (readField_switch (readField_fuel n) "S")
    (be_encode 4 (uintw 32 (slen s)) ++ bytes_of_string s) (VString s).
Proof.
  intros Hs. apply (reads_map readLongstr VString).
  eapply reads_eq; [by apply reads_longstr_ok|]. apply Z.ltb_lt in Hs.
  unfold enc_longstr, enc_lenbytes. rewrite take_uintw_small; rewrite ?len_bytes_of_string; try done.
  change (8 * Z.of_nat 4) with 32. lia.
Qed.

Lemma reads_VBool n (b : bool) :
  reads (readField_switch (readField_fuel n) "t") [Zbyte (if b then 1 else 0)] (VBool b).
Proof. by destruct b. Qed.

Lemma reads_VInt n z :
  reads (readField_switch (readField_fuel n) "I") (be_encode 4 (uintw 32 z)) (VInt32 (sintw 32 z)).
Proof.
  apply (reads_map (readInt 4) VInt32). pose proof (reads_readInt 4 (uintw 32 z) ltac:(lia)) as H.
  change (8 * Z.of_nat 4) with 32 in H. by rewrite sintw_uintw in H.
Qed.

Lemma reads_VInt8 n z :
  is_sint 8 z -> reads (readField_switch (readField_fuel n) "b") [Zbyte z] (VInt8 z).
Proof.
  intros Hz. apply (reads_map (readInt 1) VInt8).
  rewrite <- be_encode_1. pose proof (reads_readInt 1 z ltac:(lia)) as H.
  by rewrite sintw_small in H.
Qed.

(** Values without components. *)
Lemma reads_atom v n :
  (match v with VArray _ | VTable _ => False | _ => True end) -> value_ok v = true ->
  reads (readField_fuel (S n)) (enc_value v) (norm_value v).
Proof.
  intros Hat Hv. destruct v; try done; cbn [enc_value norm_value]; apply reads_tag;
    cbn [value_ok] in Hv; rewrite ?andb_true_iff, ?bool_decide_eq_true in Hv.
  - apply reads_VBool.
  - apply (reads_map (readUint 1) VByte). by apply reads_octet.
  - by apply reads_VInt8.
  - apply reads_VInt.
  - apply (reads_map (readInt 2) VInt16). apply (reads_readInt_ok 2); [lia|done].
  - apply (reads_map (readInt 4) VInt32). apply (reads_readInt_ok 4); [lia|done].
  - apply (reads_map (readInt 8) VInt64). apply (reads_readInt_ok 8); [lia|done].
  - apply (reads_map (readUint 4) VFloat32). by apply reads_readUint.
  - apply (reads_map (readUint 8) VFloat64). by apply reads_readUint.
  - by apply reads_VString.
  - apply reads_VBytes. lia.
  - apply (reads_map readDecimal VDecimal). destruct Hv. by apply reads_decimal.
  - apply (reads_map readTimestamp VTime). by apply reads_timestamp.
Qed.

(** Elements up to the declared size, the last of which may be cut off where
    the field reader meets the end of its input. *)
Lemma reads_array_with n l tl :
  len (concat (enc_value <$> l) ++ tl) < 2 ^ 32 ->
  Forall (fun v => reads (readField_fuel (S n)) (enc_value v) (norm_value v)) l ->
  readField_fuel (S n) (Rdr tl EOF) = (Err EOF, Rdr [] EOF) ->
  reads (readArray_with (readField_fuel (S n)))
    (be_encode 4 (len (concat (enc_value <$> l) ++ tl)) ++ concat (enc_value <$> l) ++ tl)
    (norm_value <$> l).
Proof.
  set (body := concat (enc_value <$> l) ++ tl). intros Hb Hl Htl. pose proof (len_nonneg body).
  eapply reads_bind; [by apply reads_readUint|]. apply reads_limited; [|done].
  set (vs := (fun v => (enc_value v, norm_value v)) <$> l).
  assert (vs.*1 = enc_value <$> l /\ vs.*2 = norm_value <$> l) as [E1 E2].
  { unfold vs. rewrite <- !list_fmap_compose. done. }
  unfold body. rewrite <- E1, <- E2. apply (array_loop_reads _ vs _ _ []); [|done|].
  - unfold vs. by apply Forall_fmap.
  - cbn [rd_bytes]. rewrite E1, length_app. unfold vs. rewrite length_fmap.
    assert (length l <= length (concat (enc_value <$> l)))%nat; [|lia].
    clear -Hl. induction Hl as [|v l Hv _ IH]; [done|]. cbn [fmap list_fmap concat]. rewrite length_app.
    assert (enc_value v <> []) as Hne.
    { intros E. rewrite E in Hv. specialize (Hv [] EOF). by rewrite readField_fuel_eof in Hv. }
    destruct (enc_value v); [done|]. cbn [length]. lia.
Qed.

Lemma reads_VArray n l :
  len (concat (enc_value <$> l)) < 2 ^ 32 ->
  Forall (fun v => reads (readField_fuel (S n)) (enc_value v) (norm_value v)) l ->
  reads (readField_switch (readField_fuel (S n)) "A")
    (be_encode 4 (uintw 32 (len (concat (enc_value <$> l)))) ++ concat (enc_value <$> l))
    (VArray (norm_value <$> l)).
Proof.
  intros Hb Hl. apply (reads_map (readArray_with _) VArray).
  pose proof (len_nonneg (concat (enc_value <$> l))).
  rewrite uintw_small by (unfold is_uint; lia).
  pose proof (reads_array_with n l [] ltac:(by rewrite app_nil_r) Hl (readField_fuel_eof n)) as H'.
  by rewrite app_nil_r in H'.
Qed.

(** [readTable] over a field reader that reads the values of the table. *)
Lemma reads_table_with rf t :
  len (concat (enc_entry <$> t)) < 2 ^ 31 -> NoDup t.*1 ->
  Forall (fun kv => shortstr_ok (fst kv) = true /\
                    reads rf (enc_value (snd kv)) (norm_value (snd kv))) t ->
  reads (readTable_with rf) (enc_table t) (norm_table t).
Proof.
  intros Hb Hnd Ht. unfold readTable_with, enc_table. rewrite <- (app_nil_r (enc_lenbytes 4 _)).
  eapply reads_bind; [by apply reads_longbytes|]. intros rest e. unfold onBuffer. simpl.
  rewrite bytes_of_string_of_bytes.
  set (es := (fun kv => (enc_entry kv, (fst kv, norm_value (snd kv)))) <$> t).
  assert (es.*1 = enc_entry <$> t /\ es.*2 = norm_table t /\ es.*2.*1 = t.*1) as (E1 & E2 & E3).
  { unfold es, norm_table. rewrite <- !list_fmap_compose. done. }
  rewrite <- E1, <- E2, table_loop_reads; [done|..].
  - unfold es. apply Forall_fmap. eapply Forall_impl; [|exact Ht]. intros kv [Hk Hv].
    exists (enc_shortstr (fst kv)), (enc_value (snd kv)).
    split_and!; [done|apply enc_shortstr_pos|by apply reads_shortstr_ok|done].
  - by rewrite E3.
  - rewrite <- length_bytes_of_string, bytes_of_string_of_bytes. done.
Qed.

(** Reading a written value gives it back, normalised. *)
Lemma reads_value v :
  value_ok v = true -> forall n, (depth v < n)%nat ->
  reads (readField_fuel n) (enc_value v) (norm_value v).
Proof.
  induction v as [v Hat|l IH|t IH] using GoValue_nested_ind; intros Hv n Hn;
    (destruct n as [|n]; [lia|]).
  - by apply reads_atom.
  - apply value_ok_array in Hv as [Hv Hb]. cbn [enc_value norm_value]. apply reads_tag.
    destruct n as [|n]; [cbn [depth] in Hn; lia|]. apply reads_VArray; [done|].
    rewrite Forall_forall in *. intros v Hin. apply IH; [done|by apply Hv|].
    pose proof (depth_array _ _ Hin). lia.
  - apply value_ok_table in Hv as (Hv & Hnd & Hb). apply reads_tag.
    apply (reads_map (readTable_with _) VTable). apply reads_table_with; [done..|].
    rewrite Forall_forall in *. intros kv Hin. destruct (Hv kv Hin) as [Hk Hvv].
    split; [done|]. apply IH; [done..|]. pose proof (depth_table _ _ Hin). lia.
Qed.

(** Every level of nesting is at least a byte of the encoding. *)
Lemma depth_lt_enc v : value_ok v = true -> (depth v < length (enc_value v))%nat.
Proof.
  induction v as [v Hat|l IH|t IH] using GoValue_nested_ind; intros Hv.
  - destruct v; try done; cbn; lia.
  - apply value_ok_array in Hv as [Hv _]. cbn [enc_value depth length]. rewrite length_app.
    apply -> Nat.succ_lt_mono. rewrite length_be_encode.
    enough (foldr (fun v n => Nat.max (depth v) n) 0%nat l <= length (concat (enc_value <$> l)))%nat by lia.
    induction l as [|v l IHl]; [done|]. apply list.Forall_cons in IH as [Hx IH], Hv as [Hvx Hv].
    rewrite fmap_cons. cbn [foldr concat]. rewrite length_app.
    specialize (IHl IH Hv). specialize (Hx Hvx). lia.
  - apply value_ok_table in Hv as (Hv & _ & Hb). cbn [enc_value depth length].
    apply -> Nat.succ_lt_mono. unfold enc_lenbytes. rewrite length_app, length_be_encode.
    change (concat _) with (concat (enc_entry <$> t)).
    rewrite take_uintw_small by (change (8 * Z.of_nat 4) with 32; lia).
    enough (foldr (fun kv n => Nat.max (depth (snd kv)) n) 0%nat t
            <= length (concat (enc_entry <$> t)))%nat by lia.
    clear Hb. induction t as [|kv t IHt]; [done|].
    apply list.Forall_cons in IH as [Hx IH], Hv as [[_ Hvx] Hv].
    rewrite fmap_cons. cbn [foldr concat]. unfold enc_entry at 1. rewrite !length_app. specialize (IHt IH Hv). specialize (Hx Hvx). lia.
Qed.

Lemma reads_readField v : value_ok v = true -> reads readField (enc_value v) (norm_value v).
Proof.
  intros Hv rest e. unfold readField. apply reads_value; [done|].
  cbn [rd_bytes]. rewrite length_app. pose proof (depth_lt_enc v Hv). lia.
Qed.

Lemma reads_readTable t : table_ok t = true -> reads readTable (enc_table t) (norm_table t).
Proof.
  intros Hv rest e. unfold readTable. pose proof (depth_lt_enc (VTable t) Hv) as Hd.
  apply value_ok_table in Hv as (Hv & Hnd & Hb). apply reads_table_with; [done..|].
  rewrite Forall_forall in *. intros kv Hin. destruct (Hv kv Hin) as [Hk Hvv].
  split; [done|]. apply reads_value; [done|]. pose proof (depth_table _ _ Hin).
  cbn [rd_bytes]. rewrite length_app. change (enc_value (VTable t)) with (tag "F" :: enc_table t) in Hd.
  cbn [length] in Hd. lia.
Qed.

Lemma emits_writeTable t : Validate t = None -> emits (writeTable t) (enc_table t).
Proof.
  intros Ht%validateField_table. apply emits_writeTable_with.
  rewrite Forall_forall in *. auto using emits_writeField.
Qed.

Lemma codec_table t : table_ok t = true -> codec (writeTable t) readTable (norm_table t).
Proof.
  intros Ht. exists (enc_table t). split; [|by apply reads_readTable].
  by apply emits_writeTable, (value_ok_valid (VTable t)).
Qed.

#[export] Hint Resolve codec_shortstr codec_longstr codec_table : codec.

(** ** Properties *)

(** C26: a table that fits (integers of their Go widths, keys below 256
    bytes, strings and nested tables below 2^31 bytes, distinct keys) is
    written without error and read back entry by entry, whatever follows it
    on the stream; [int] values come back as [int32] of their low 32 bits and
    times without their fraction of a second. *)
Theorem table_roundtrip t :
  table_ok t = true ->
  exists bs, run_writer (writeTable t) = (None, bs) /\
    forall rest e, readTable (Rdr (bs ++ rest) e) = (Ok (norm_table t), Rdr rest e).
Proof.
  intros Ht. destruct (codec_table t Ht) as (bs & He & Hr). exists bs.
  split; [by apply emits_run|exact Hr].
Qed.

Definition sample_table : Table :=
  [ ("n", VInt 70000); ("s", VString "text"); ("when", VTime (MkTime (-5) 9));
    ("nested", VTable [("a", VArray [VNil; VInt8 (-3); VBytes (bytes_of_string "xy")])]);
    ("d", VDecimal (MkDecimal 2 (-150))) ].

Lemma table_roundtrip_witness :
  exists bs, run_writer (writeTable sample_table) = (None, bs) /\
    forall rest e, readTable (Rdr (bs ++ rest) e) = (Ok (norm_table sample_table), Rdr rest e).
Proof. apply (table_roundtrip sample_table). by vm_compute. Defined.

(** C38: [Table.Validate] accepts exactly the tables that can be marshalled:
    it returns no error iff [writeTable] succeeds, and whenever it returns an
    error [writeTable] fails with [ErrFieldType]. *)
Theorem validate_iff_writable t :
  (Validate t = None <-> fst (run_writer (writeTable t)) = None) /\
  (Validate t = None \/ fst (run_writer (writeTable t)) = Some (AmqpError ErrFieldType)).
Proof.
  assert (Validate t <> None -> fst (run_writer (writeTable t)) = Some (AmqpError ErrFieldType)) as Hf.
  { intros Ht. pose proof (writeField_fails (VTable t) Ht [tag "F"]) as H.
    unfold run_writer, writeTable. cbn [writeField] in H. unfold wseq, writeTable_with in *.
    simpl in H. destruct (run_writer _) as [[e|] buf]; simpl in *; [done|].
    unfold writeLongstr, wseq in H. simpl in H. done. }
  destruct (Validate t) eqn:E.
  - split; [|by right; apply Hf]. split; [done|]. by rewrite Hf.
  - split; [|by left]. split; [|done]. intros _.
    by rewrite (emits_run _ _ (emits_writeTable t E)).
Qed.

(** a short string is read back as itself exactly when it has at most
    255 bytes; a longer one is cut, without an error, to its length modulo
    256. *)
Theorem shortstr_roundtrip_iff s :
  exists bs s', run_writer (writeShortstr s) = (None, bs) /\
    (forall rest e, readShortstr (Rdr (bs ++ rest) e) = (Ok s', Rdr rest e)) /\
    slen s' = slen s mod 256 /\ (s' = s <-> slen s < 256).
Proof.
  exists (enc_shortstr s). eexists. split; [apply emits_run, emits_writeShortstr|].
  split; [exact (reads_shortstr s)|].
  assert (slen (string_of_bytes (take (Z.to_nat (uintw 8 (slen s))) (bytes_of_string s)))
          = slen s mod 256) as Hl.
  { rewrite <- len_bytes_of_string, bytes_of_string_of_bytes, <- (len_bytes_of_string s).
    unfold len at 1. rewrite length_take_uintw by lia.
    rewrite Z2Nat.id; [done|]. apply Z.mod_pos_bound. lia. }
  split; [done|]. split.
  - intros E. rewrite E in Hl. rewrite Hl. apply Z.mod_pos_bound. lia.
  - intros Hs. rewrite <- len_bytes_of_string. rewrite <- len_bytes_of_string in Hs.
    rewrite take_uintw_small by lia. apply string_of_bytes_of_string.
Qed.

(** A long string that declares 2^31 bytes or more is read as the empty
    string with no error, and its bytes are left on the stream to be read as
    whatever comes next. *)
Theorem oversize_longstr_silent n rest e :
  2 ^ 31 <= n < 2 ^ 32 -> readLongstr (Rdr (be_encode 4 n ++ rest) e) = (Ok EmptyString, Rdr rest e).
Proof.
  intros Hn. unfold readLongstr.
  erewrite rbind_ok; [|apply (reads_readUint 4); unfold is_uint; simpl; lia].
  by rewrite (proj2 (Z.ltb_lt _ n)) by (change (Z.shiftr (2 ^ 32 - 1) 1) with (2 ^ 31 - 1); lia).
Qed.

Lemma oversize_longstr_silent_witness :
  readLongstr (Rdr (be_encode 4 (2 ^ 31) ++ bytes_of_string "left") EOF)
  = (Ok EmptyString, Rdr (bytes_of_string "left") EOF).
Proof. apply (oversize_longstr_silent (2 ^ 31)). lia. Defined.

(** An array whose declared size ends just after the type octet of a
    last boolean element is accepted: the cut-off element is dropped with no
    error and the complete ones are returned. *)
Theorem cut_array_accepted l rest e :
  forallb value_ok l = true -> len (concat (enc_value <$> l)) + 1 < 2 ^ 32 ->
  readArray (Rdr (be_encode 4 (len (concat (enc_value <$> l)) + 1) ++
                  (concat (enc_value <$> l) ++ [tag "t"]) ++ rest) e)
  = (Ok (norm_value <$> l), Rdr rest e).
Proof.
  intros Hl Hb.
  assert (len (concat (enc_value <$> l)) + 1 = len (concat (enc_value <$> l) ++ [tag "t"])) as E.
  { unfold len. rewrite length_app. simpl. lia. }
  rewrite E in *. unfold readArray. rewrite app_assoc. cbn [rd_bytes].
  apply (reads_array_with _ l [tag "t"]); [done| |done].
  apply Forall_forall. intros v Hin. rewrite forallb_forall in Hl. specialize (Hl v Hin).
  apply reads_value; [done|]. pose proof (depth_lt_enc v Hl).
  apply in_split in Hin as (l1 & l2 & ->). rewrite fmap_app, fmap_cons, concat_app.
  cbn [concat]. rewrite !length_app. lia.
Qed.

Lemma cut_array_accepted_witness :
  readArray (Rdr (be_encode 4 3 ++ (concat (enc_value <$> [VByte 7]) ++ [tag "t"]) ++ []) EOF)
  = (Ok (norm_value <$> [VByte 7]), Rdr [] EOF).
Proof. apply (cut_array_accepted [VByte 7] [] EOF); by vm_compute. Defined.
