(* ===== verification/SpecConnection.v ===== *)
(** * SpecConnection: the methods of the connection class (spec091.go)

    Per method: its struct, [id], [wait], [write] and [read], the arguments
    it can carry ([_ok]: integers of the declared widths, strings and tables
    that fit their length prefixes), what they are read back as ([_norm]),
    and the round trip. *)

From S2P Require Import Prelude Types Io Wire WireFacts WireCodec.

(** ** connectionStart *)

Record connectionStart := Mk_connectionStart {
  connectionStart_VersionMajor : Z;
  connectionStart_VersionMinor : Z;
  connectionStart_ServerProperties : Table;
  connectionStart_Mechanisms : string;
  connectionStart_Locales : string
}.

Definition connectionStart_id : Z * Z := (10, 10).

Definition connectionStart_wait (msg : connectionStart) : bool := true.

Definition connectionStart_write (msg : connectionStart) : Writer :=
  writeUint 1 (connectionStart_VersionMajor msg) ;;;
  writeUint 1 (connectionStart_VersionMinor msg) ;;;
  writeTable (connectionStart_ServerProperties msg) ;;;
  writeLongstr (connectionStart_Mechanisms msg) ;;;
  writeLongstr (connectionStart_Locales msg) ;;;
  wnil.

Definition connectionStart_read : Reader connectionStart :=
  let* VersionMajor := readUint 1 in
  let* VersionMinor := readUint 1 in
  let* ServerProperties := readTable in
  let* Mechanisms := readLongstr in
  let* Locales := readLongstr in
  rret (Mk_connectionStart VersionMajor VersionMinor ServerProperties Mechanisms Locales).

(** ** connectionStartOk *)

Record connectionStartOk := Mk_connectionStartOk {
  connectionStartOk_ClientProperties : Table;
  connectionStartOk_Mechanism : string;
  connectionStartOk_Response : string;
  connectionStartOk_Locale : string
}.

Definition connectionStartOk_id : Z * Z := (10, 11).

Definition connectionStartOk_wait (msg : connectionStartOk) : bool := true.

Definition connectionStartOk_write (msg : connectionStartOk) : Writer :=
  writeTable (connectionStartOk_ClientProperties msg) ;;;
  writeShortstr (connectionStartOk_Mechanism msg) ;;;
  writeLongstr (connectionStartOk_Response msg) ;;;
  writeShortstr (connectionStartOk_Locale msg) ;;;
  wnil.

Definition connectionStartOk_read : Reader connectionStartOk :=
  let* ClientProperties := readTable in
  let* Mechanism := readShortstr in
  let* Response := readLongstr in
  let* Locale := readShortstr in
  rret (Mk_connectionStartOk ClientProperties Mechanism Response Locale).

(** ** connectionSecure *)

Record connectionSecure := Mk_connectionSecure {
  connectionSecure_Challenge : string
}.

Definition connectionSecure_id : Z * Z := (10, 20).

Definition connectionSecure_wait (msg : connectionSecure) : bool := true.

Definition connectionSecure_write (msg : connectionSecure) : Writer :=
  writeLongstr (connectionSecure_Challenge msg) ;;;
  wnil.

Definition connectionSecure_read : Reader connectionSecure :=
  let* Challenge := readLongstr in
  rret (Mk_connectionSecure Challenge).

(** ** connectionSecureOk *)

Record connectionSecureOk := Mk_connectionSecureOk {
  connectionSecureOk_Response : string
}.

Definition connectionSecureOk_id : Z * Z := (10, 21).

Definition connectionSecureOk_wait (msg : connectionSecureOk) : bool := true.

Definition connectionSecureOk_write (msg : connectionSecureOk) : Writer :=
  writeLongstr (connectionSecureOk_Response msg) ;;;
  wnil.

Definition connectionSecureOk_read : Reader connectionSecureOk :=
  let* Response := readLongstr in
  rret (Mk_connectionSecureOk Response).

(** ** connectionTune *)

Record connectionTune := Mk_connectionTune {
  connectionTune_ChannelMax : Z;
  connectionTune_FrameMax : Z;
  connectionTune_Heartbeat : Z
}.

Definition connectionTune_id : Z * Z := (10, 30).

Definition connectionTune_wait (msg : connectionTune) : bool := true.

Definition connectionTune_write (msg : connectionTune) : Writer :=
  writeUint 2 (connectionTune_ChannelMax msg) ;;;
  writeUint 4 (connectionTune_FrameMax msg) ;;;
  writeUint 2 (connectionTune_Heartbeat msg) ;;;
  wnil.

Definition connectionTune_read : Reader connectionTune :=
  let* ChannelMax := readUint 2 in
  let* FrameMax := readUint 4 in
  let* Heartbeat := readUint 2 in
  rret (Mk_connectionTune ChannelMax FrameMax Heartbeat).

(** ** connectionTuneOk *)

Record connectionTuneOk := Mk_connectionTuneOk {
  connectionTuneOk_ChannelMax : Z;
  connectionTuneOk_FrameMax : Z;
  connectionTuneOk_Heartbeat : Z
}.

Definition connectionTuneOk_id : Z * Z := (10, 31).

Definition connectionTuneOk_wait (msg : connectionTuneOk) : bool := true.

Definition connectionTuneOk_write (msg : connectionTuneOk) : Writer :=
  writeUint 2 (connectionTuneOk_ChannelMax msg) ;;;
  writeUint 4 (connectionTuneOk_FrameMax msg) ;;;
  writeUint 2 (connectionTuneOk_Heartbeat msg) ;;;
  wnil.

Definition connectionTuneOk_read : Reader connectionTuneOk :=
  let* ChannelMax := readUint 2 in
  let* FrameMax := readUint 4 in
  let* Heartbeat := readUint 2 in
  rret (Mk_connectionTuneOk ChannelMax FrameMax Heartbeat).

(** ** connectionOpen *)

Record connectionOpen := Mk_connectionOpen {
  connectionOpen_VirtualHost : string;
  connectionOpen_reserved1 : string;
  connectionOpen_reserved2 : bool
}.

Definition connectionOpen_id : Z * Z := (10, 40).

Definition connectionOpen_wait (msg : connectionOpen) : bool := true.

Definition connectionOpen_write (msg : connectionOpen) : Writer :=
  writeShortstr (connectionOpen_VirtualHost msg) ;;;
  writeShortstr (connectionOpen_reserved1 msg) ;;;
  (let bits := 0 in
   let bits := putbit 0 (connectionOpen_reserved2 msg) bits in
   writeUint 1 bits) ;;;
  wnil.

Definition connectionOpen_read : Reader connectionOpen :=
  let* VirtualHost := readShortstr in
  let* reserved1 := readShortstr in
  let* bits := readUint 1 in
  let reserved2 := getbit 0 bits in
  rret (Mk_connectionOpen VirtualHost reserved1 reserved2).

(** ** connectionOpenOk *)

Record connectionOpenOk := Mk_connectionOpenOk {
  connectionOpenOk_reserved1 : string
}.

Definition connectionOpenOk_id : Z * Z := (10, 41).

Definition connectionOpenOk_wait (msg : connectionOpenOk) : bool := true.

Definition connectionOpenOk_write (msg : connectionOpenOk) : Writer :=
  writeShortstr (connectionOpenOk_reserved1 msg) ;;;
  wnil.

Definition connectionOpenOk_read : Reader connectionOpenOk :=
  let* reserved1 := readShortstr in
  rret (Mk_connectionOpenOk reserved1).

(** ** connectionClose *)

Record connectionClose := Mk_connectionClose {
  connectionClose_ReplyCode : Z;
  connectionClose_ReplyText : string;
  connectionClose_ClassId : Z;
  connectionClose_MethodId : Z
}.

Definition connectionClose_id : Z * Z := (10, 50).

Definition connectionClose_wait (msg : connectionClose) : bool := true.

Definition connectionClose_write (msg : connectionClose) : Writer :=
  writeUint 2 (connectionClose_ReplyCode msg) ;;;
  writeShortstr (connectionClose_ReplyText msg) ;;;
  writeUint 2 (connectionClose_ClassId msg) ;;;
  writeUint 2 (connectionClose_MethodId msg) ;;;
  wnil.

Definition connectionClose_read : Reader connectionClose :=
  let* ReplyCode := readUint 2 in
  let* ReplyText := readShortstr in
  let* ClassId := readUint 2 in
  let* MethodId := readUint 2 in
  rret (Mk_connectionClose ReplyCode ReplyText ClassId MethodId).

(** ** connectionCloseOk *)

Record connectionCloseOk := Mk_connectionCloseOk { }.

Definition connectionCloseOk_id : Z * Z := (10, 51).

Definition connectionCloseOk_wait (msg : connectionCloseOk) : bool := true.

Definition connectionCloseOk_write (msg : connectionCloseOk) : Writer :=
  wnil.

Definition connectionCloseOk_read : Reader connectionCloseOk :=
  rret (Mk_connectionCloseOk).

(** ** connectionBlocked *)

Record connectionBlocked := Mk_connectionBlocked {
  connectionBlocked_Reason : string
}.

Definition connectionBlocked_id : Z * Z := (10, 60).

Definition connectionBlocked_wait (msg : connectionBlocked) : bool := false.

Definition connectionBlocked_write (msg : connectionBlocked) : Writer :=
  writeShortstr (connectionBlocked_Reason msg) ;;;
  wnil.

Definition connectionBlocked_read : Reader connectionBlocked :=
  let* Reason := readShortstr in
  rret (Mk_connectionBlocked Reason).

(** ** connectionUnblocked *)

Record connectionUnblocked := Mk_connectionUnblocked { }.

Definition connectionUnblocked_id : Z * Z := (10, 61).

Definition connectionUnblocked_wait (msg : connectionUnblocked) : bool := false.

Definition connectionUnblocked_write (msg : connectionUnblocked) : Writer :=
  wnil.

Definition connectionUnblocked_read : Reader connectionUnblocked :=
  rret (Mk_connectionUnblocked).

(** ** connectionUpdateSecret *)

Record connectionUpdateSecret := Mk_connectionUpdateSecret {
  connectionUpdateSecret_NewSecret : string;
  connectionUpdateSecret_Reason : string
}.

Definition connectionUpdateSecret_id : Z * Z := (10, 70).

Definition connectionUpdateSecret_wait (msg : connectionUpdateSecret) : bool := true.

Definition connectionUpdateSecret_write (msg : connectionUpdateSecret) : Writer :=
  writeLongstr (connectionUpdateSecret_NewSecret msg) ;;;
  writeShortstr (connectionUpdateSecret_Reason msg) ;;;
  wnil.

Definition connectionUpdateSecret_read : Reader connectionUpdateSecret :=
  let* NewSecret := readLongstr in
  let* Reason := readShortstr in
  rret (Mk_connectionUpdateSecret NewSecret Reason).

(** ** connectionUpdateSecretOk *)

Record connectionUpdateSecretOk := Mk_connectionUpdateSecretOk { }.

Definition connectionUpdateSecretOk_id : Z * Z := (10, 71).

Definition connectionUpdateSecretOk_wait (msg : connectionUpdateSecretOk) : bool := true.

Definition connectionUpdateSecretOk_write (msg : connectionUpdateSecretOk) : Writer :=
  wnil.

Definition connectionUpdateSecretOk_read : Reader connectionUpdateSecretOk :=
  rret (Mk_connectionUpdateSecretOk).

(** ** Arguments that can be carried, and what is read back *)

Definition connectionStart_ok (msg : connectionStart) : Prop :=
  is_uint 8 (connectionStart_VersionMajor msg) /\
  is_uint 8 (connectionStart_VersionMinor msg) /\
  table_ok (connectionStart_ServerProperties msg) = true /\
  longstr_ok (connectionStart_Mechanisms msg) = true /\
  longstr_ok (connectionStart_Locales msg) = true.

Definition connectionStart_norm (msg : connectionStart) : connectionStart :=
  Mk_connectionStart (connectionStart_VersionMajor msg) (connectionStart_VersionMinor msg) (norm_table (connectionStart_ServerProperties msg)) (connectionStart_Mechanisms msg) (connectionStart_Locales msg).

Definition connectionStartOk_ok (msg : connectionStartOk) : Prop :=
  table_ok (connectionStartOk_ClientProperties msg) = true /\
  shortstr_ok (connectionStartOk_Mechanism msg) = true /\
  longstr_ok (connectionStartOk_Response msg) = true /\
  shortstr_ok (connectionStartOk_Locale msg) = true.

Definition connectionStartOk_norm (msg : connectionStartOk) : connectionStartOk :=
  Mk_connectionStartOk (norm_table (connectionStartOk_ClientProperties msg)) (connectionStartOk_Mechanism msg) (connectionStartOk_Response msg) (connectionStartOk_Locale msg).

Definition connectionSecure_ok (msg : connectionSecure) : Prop :=
  longstr_ok (connectionSecure_Challenge msg) = true.

Definition connectionSecure_norm (msg : connectionSecure) : connectionSecure :=
  msg.

Definition connectionSecureOk_ok (msg : connectionSecureOk) : Prop :=
  longstr_ok (connectionSecureOk_Response msg) = true.

Definition connectionSecureOk_norm (msg : connectionSecureOk) : connectionSecureOk :=
  msg.

Definition connectionTune_ok (msg : connectionTune) : Prop :=
  is_uint 16 (connectionTune_ChannelMax msg) /\
  is_uint 32 (connectionTune_FrameMax msg) /\
  is_uint 16 (connectionTune_Heartbeat msg).

Definition connectionTune_norm (msg : connectionTune) : connectionTune :=
  msg.

Definition connectionTuneOk_ok (msg : connectionTuneOk) : Prop :=
  is_uint 16 (connectionTuneOk_ChannelMax msg) /\
  is_uint 32 (connectionTuneOk_FrameMax msg) /\
  is_uint 16 (connectionTuneOk_Heartbeat msg).

Definition connectionTuneOk_norm (msg : connectionTuneOk) : connectionTuneOk :=
  msg.

Definition connectionOpen_ok (msg : connectionOpen) : Prop :=
  shortstr_ok (connectionOpen_VirtualHost msg) = true /\
  shortstr_ok (connectionOpen_reserved1 msg) = true.

Definition connectionOpen_norm (msg : connectionOpen) : connectionOpen :=
  msg.

Definition connectionOpenOk_ok (msg : connectionOpenOk) : Prop :=
  shortstr_ok (connectionOpenOk_reserved1 msg) = true.

Definition connectionOpenOk_norm (msg : connectionOpenOk) : connectionOpenOk :=
  msg.

Definition connectionClose_ok (msg : connectionClose) : Prop :=
  is_uint 16 (connectionClose_ReplyCode msg) /\
  shortstr_ok (connectionClose_ReplyText msg) = true /\
  is_uint 16 (connectionClose_ClassId msg) /\
  is_uint 16 (connectionClose_MethodId msg).

Definition connectionClose_norm (msg : connectionClose) : connectionClose :=
  msg.

Definition connectionCloseOk_ok (msg : connectionCloseOk) : Prop :=
  True.

Definition connectionCloseOk_norm (msg : connectionCloseOk) : connectionCloseOk :=
  msg.

Definition connectionBlocked_ok (msg : connectionBlocked) : Prop :=
  shortstr_ok (connectionBlocked_Reason msg) = true.

Definition connectionBlocked_norm (msg : connectionBlocked) : connectionBlocked :=
  msg.

Definition connectionUnblocked_ok (msg : connectionUnblocked) : Prop :=
  True.

Definition connectionUnblocked_norm (msg : connectionUnblocked) : connectionUnblocked :=
  msg.

Definition connectionUpdateSecret_ok (msg : connectionUpdateSecret) : Prop :=
  longstr_ok (connectionUpdateSecret_NewSecret msg) = true /\
  shortstr_ok (connectionUpdateSecret_Reason msg) = true.

Definition connectionUpdateSecret_norm (msg : connectionUpdateSecret) : connectionUpdateSecret :=
  msg.

Definition connectionUpdateSecretOk_ok (msg : connectionUpdateSecretOk) : Prop :=
  True.

Definition connectionUpdateSecretOk_norm (msg : connectionUpdateSecretOk) : connectionUpdateSecretOk :=
  msg.

(** ** Round trips *)

Lemma connectionStart_codec msg : connectionStart_ok msg -> codec (connectionStart_write msg) connectionStart_read (connectionStart_norm msg).
Proof. destruct msg. intros (H1 & H2 & H3 & H4 & H5). codec_fields. Qed.
#[export] Hint Resolve connectionStart_codec : methods.

Lemma connectionStartOk_codec msg : connectionStartOk_ok msg -> codec (connectionStartOk_write msg) connectionStartOk_read (connectionStartOk_norm msg).
Proof. destruct msg. intros (H1 & H2 & H3 & H4). codec_fields. Qed.
#[export] Hint Resolve connectionStartOk_codec : methods.

Lemma connectionSecure_codec msg : connectionSecure_ok msg -> codec (connectionSecure_write msg) connectionSecure_read (connectionSecure_norm msg).
Proof. destruct msg. intros H. codec_fields. Qed.
#[export] Hint Resolve connectionSecure_codec : methods.

Lemma connectionSecureOk_codec msg : connectionSecureOk_ok msg -> codec (connectionSecureOk_write msg) connectionSecureOk_read (connectionSecureOk_norm msg).
Proof. destruct msg. intros H. codec_fields. Qed.
#[export] Hint Resolve connectionSecureOk_codec : methods.

Lemma connectionTune_codec msg : connectionTune_ok msg -> codec (connectionTune_write msg) connectionTune_read (connectionTune_norm msg).
Proof. destruct msg. intros (H1 & H2 & H3). codec_fields. Qed.
#[export] Hint Resolve connectionTune_codec : methods.

Lemma connectionTuneOk_codec msg : connectionTuneOk_ok msg -> codec (connectionTuneOk_write msg) connectionTuneOk_read (connectionTuneOk_norm msg).
Proof. destruct msg. intros (H1 & H2 & H3). codec_fields. Qed.
#[export] Hint Resolve connectionTuneOk_codec : methods.

Lemma connectionOpen_codec msg : connectionOpen_ok msg -> codec (connectionOpen_write msg) connectionOpen_read (connectionOpen_norm msg).
Proof. destruct msg. intros (H1 & H2). codec_fields. Qed.
#[export] Hint Resolve connectionOpen_codec : methods.

Lemma connectionOpenOk_codec msg : connectionOpenOk_ok msg -> codec (connectionOpenOk_write msg) connectionOpenOk_read (connectionOpenOk_norm msg).
Proof. destruct msg. intros H. codec_fields. Qed.
#[export] Hint Resolve connectionOpenOk_codec : methods.

Lemma connectionClose_codec msg : connectionClose_ok msg -> codec (connectionClose_write msg) connectionClose_read (connectionClose_norm msg).
Proof. destruct msg. intros (H1 & H2 & H3 & H4). codec_fields. Qed.
#[export] Hint Resolve connectionClose_codec : methods.

Lemma connectionCloseOk_codec msg : connectionCloseOk_ok msg -> codec (connectionCloseOk_write msg) connectionCloseOk_read (connectionCloseOk_norm msg).
Proof. destruct msg. intros H. codec_fields. Qed.
#[export] Hint Resolve connectionCloseOk_codec : methods.

Lemma connectionBlocked_codec msg : connectionBlocked_ok msg -> codec (connectionBlocked_write msg) connectionBlocked_read (connectionBlocked_norm msg).
Proof. destruct msg. intros H. codec_fields. Qed.
#[export] Hint Resolve connectionBlocked_codec : methods.

Lemma connectionUnblocked_codec msg : connectionUnblocked_ok msg -> codec (connectionUnblocked_write msg) connectionUnblocked_read (connectionUnblocked_norm msg).
Proof. destruct msg. intros H. codec_fields. Qed.
#[export] Hint Resolve connectionUnblocked_codec : methods.

Lemma connectionUpdateSecret_codec msg : connectionUpdateSecret_ok msg -> codec (connectionUpdateSecret_write msg) connectionUpdateSecret_read (connectionUpdateSecret_norm msg).
Proof. destruct msg. intros (H1 & H2). codec_fields. Qed.
#[export] Hint Resolve connectionUpdateSecret_codec : methods.

Lemma connectionUpdateSecretOk_codec msg : connectionUpdateSecretOk_ok msg -> codec (connectionUpdateSecretOk_write msg) connectionUpdateSecretOk_read (connectionUpdateSecretOk_norm msg).
Proof. destruct msg. intros H. codec_fields. Qed.
#[export] Hint Resolve connectionUpdateSecretOk_codec : methods.
