(* ===== verification/SpecChannel.v ===== *)
(** * SpecChannel: the methods of the channel class (spec091.go)

    Per method: its struct, [id], [wait], [write] and [read], the arguments
    it can carry ([_ok]: integers of the declared widths, strings and tables
    that fit their length prefixes), what they are read back as ([_norm]),
    and the round trip. *)

From S2P Require Import Prelude Types Io Wire WireFacts WireCodec.

(** ** channelOpen *)

Record channelOpen := Mk_channelOpen {
  channelOpen_reserved1 : string
}.

Definition channelOpen_id : Z * Z := (20, 10).

Definition channelOpen_wait (msg : channelOpen) : bool := true.

Definition channelOpen_write (msg : channelOpen) : Writer :=
  writeShortstr (channelOpen_reserved1 msg) ;;;
  wnil.

Definition channelOpen_read : Reader channelOpen :=
  let* reserved1 := readShortstr in
  rret (Mk_channelOpen reserved1).

(** ** channelOpenOk *)

Record channelOpenOk := Mk_channelOpenOk {
  channelOpenOk_reserved1 : string
}.

Definition channelOpenOk_id : Z * Z := (20, 11).

Definition channelOpenOk_wait (msg : channelOpenOk) : bool := true.

Definition channelOpenOk_write (msg : channelOpenOk) : Writer :=
  writeLongstr (channelOpenOk_reserved1 msg) ;;;
  wnil.

Definition channelOpenOk_read : Reader channelOpenOk :=
  let* reserved1 := readLongstr in
  rret (Mk_channelOpenOk reserved1).

(** ** channelFlow *)

Record channelFlow := Mk_channelFlow {
  channelFlow_Active : bool
}.

Definition channelFlow_id : Z * Z := (20, 20).

Definition channelFlow_wait (msg : channelFlow) : bool := true.

Definition channelFlow_write (msg : channelFlow) : Writer :=
  (let bits := 0 in
   let bits := putbit 0 (channelFlow_Active msg) bits in
   writeUint 1 bits) ;;;
  wnil.

Definition channelFlow_read : Reader channelFlow :=
  let* bits := readUint 1 in
  let Active := getbit 0 bits in
  rret (Mk_channelFlow Active).

(** ** channelFlowOk *)

Record channelFlowOk := Mk_channelFlowOk {
  channelFlowOk_Active : bool
}.

Definition channelFlowOk_id : Z * Z := (20, 21).

Definition channelFlowOk_wait (msg : channelFlowOk) : bool := false.

Definition channelFlowOk_write (msg : channelFlowOk) : Writer :=
  (let bits := 0 in
   let bits := putbit 0 (channelFlowOk_Active msg) bits in
   writeUint 1 bits) ;;;
  wnil.

Definition channelFlowOk_read : Reader channelFlowOk :=
  let* bits := readUint 1 in
  let Active := getbit 0 bits in
  rret (Mk_channelFlowOk Active).

(** ** channelClose *)

Record channelClose := Mk_channelClose {
  channelClose_ReplyCode : Z;
  channelClose_ReplyText : string;
  channelClose_ClassId : Z;
  channelClose_MethodId : Z
}.

Definition channelClose_id : Z * Z := (20, 40).

Definition channelClose_wait (msg : channelClose) : bool := true.

Definition channelClose_write (msg : channelClose) : Writer :=
  writeUint 2 (channelClose_ReplyCode msg) ;;;
  writeShortstr (channelClose_ReplyText msg) ;;;
  writeUint 2 (channelClose_ClassId msg) ;;;
  writeUint 2 (channelClose_MethodId msg) ;;;
  wnil.

Definition channelClose_read : Reader channelClose :=
  let* ReplyCode := readUint 2 in
  let* ReplyText := readShortstr in
  let* ClassId := readUint 2 in
  let* MethodId := readUint 2 in
  rret (Mk_channelClose ReplyCode ReplyText ClassId MethodId).

(** ** channelCloseOk *)

Record channelCloseOk := Mk_channelCloseOk { }.

Definition channelCloseOk_id : Z * Z := (20, 41).

Definition channelCloseOk_wait (msg : channelCloseOk) : bool := true.

Definition channelCloseOk_write (msg : channelCloseOk) : Writer :=
  wnil.

Definition channelCloseOk_read : Reader channelCloseOk :=
  rret (Mk_channelCloseOk).

(** ** Arguments that can be carried, and what is read back *)

Definition channelOpen_ok (msg : channelOpen) : Prop :=
  shortstr_ok (channelOpen_reserved1 msg) = true.

Definition channelOpen_norm (msg : channelOpen) : channelOpen :=
  msg.

Definition channelOpenOk_ok (msg : channelOpenOk) : Prop :=
  longstr_ok (channelOpenOk_reserved1 msg) = true.

Definition channelOpenOk_norm (msg : channelOpenOk) : channelOpenOk :=
  msg.

Definition channelFlow_ok (msg : channelFlow) : Prop :=
  True.

Definition channelFlow_norm (msg : channelFlow) : channelFlow :=
  msg.

Definition channelFlowOk_ok (msg : channelFlowOk) : Prop :=
  True.

Definition channelFlowOk_norm (msg : channelFlowOk) : channelFlowOk :=
  msg.

Definition channelClose_ok (msg : channelClose) : Prop :=
  is_uint 16 (channelClose_ReplyCode msg) /\
  shortstr_ok (channelClose_ReplyText msg) = true /\
  is_uint 16 (channelClose_ClassId msg) /\
  is_uint 16 (channelClose_MethodId msg).

Definition channelClose_norm (msg : channelClose) : channelClose :=
  msg.

Definition channelCloseOk_ok (msg : channelCloseOk) : Prop :=
  True.

Definition channelCloseOk_norm (msg : channelCloseOk) : channelCloseOk :=
  msg.

(** ** Round trips *)

Lemma channelOpen_codec msg : channelOpen_ok msg -> codec (channelOpen_write msg) channelOpen_read (channelOpen_norm msg).
Proof. destruct msg. intros H. codec_fields. Qed.
#[export] Hint Resolve channelOpen_codec : methods.

Lemma channelOpenOk_codec msg : channelOpenOk_ok msg -> codec (channelOpenOk_write msg) channelOpenOk_read (channelOpenOk_norm msg).
Proof. destruct msg. intros H. codec_fields. Qed.
#[export] Hint Resolve channelOpenOk_codec : methods.

Lemma channelFlow_codec msg : channelFlow_ok msg -> codec (channelFlow_write msg) channelFlow_read (channelFlow_norm msg).
Proof. destruct msg. intros H. codec_fields. Qed.
#[export] Hint Resolve channelFlow_codec : methods.

Lemma channelFlowOk_codec msg : channelFlowOk_ok msg -> codec (channelFlowOk_write msg) channelFlowOk_read (channelFlowOk_norm msg).
Proof. destruct msg. intros H. codec_fields. Qed.
#[export] Hint Resolve channelFlowOk_codec : methods.

Lemma channelClose_codec msg : channelClose_ok msg -> codec (channelClose_write msg) channelClose_read (channelClose_norm msg).
Proof. destruct msg. intros (H1 & H2 & H3 & H4). codec_fields. Qed.
#[export] Hint Resolve channelClose_codec : methods.

Lemma channelCloseOk_codec msg : channelCloseOk_ok msg -> codec (channelCloseOk_write msg) channelCloseOk_read (channelCloseOk_norm msg).
Proof. destruct msg. intros H. codec_fields. Qed.
#[export] Hint Resolve channelCloseOk_codec : methods.
