(* ===== verification/SpecExchange.v ===== *)
(** * SpecExchange: the methods of the exchange class (spec091.go)

    Per method: its struct, [id], [wait], [write] and [read], the arguments
    it can carry ([_ok]: integers of the declared widths, strings and tables
    that fit their length prefixes), what they are read back as ([_norm]),
    and the round trip. *)

From S2P Require Import Prelude Types Io Wire WireFacts WireCodec.

(** ** exchangeDeclare *)

Record exchangeDeclare := Mk_exchangeDeclare {
  exchangeDeclare_reserved1 : Z;
  exchangeDeclare_Exchange : string;
  exchangeDeclare_Type : string;
  exchangeDeclare_Passive : bool;
  exchangeDeclare_Durable : bool;
  exchangeDeclare_AutoDelete : bool;
  exchangeDeclare_Internal : bool;
  exchangeDeclare_NoWait : bool;
  exchangeDeclare_Arguments : Table
}.

Definition exchangeDeclare_id : Z * Z := (40, 10).

Definition exchangeDeclare_wait (msg : exchangeDeclare) : bool := true && negb (exchangeDeclare_NoWait msg).

Definition exchangeDeclare_write (msg : exchangeDeclare) : Writer :=
  writeUint 2 (exchangeDeclare_reserved1 msg) ;;;
  writeShortstr (exchangeDeclare_Exchange msg) ;;;
  writeShortstr (exchangeDeclare_Type msg) ;;;
  (let bits := 0 in
   let bits := putbit 0 (exchangeDeclare_Passive msg) bits in
   let bits := putbit 1 (exchangeDeclare_Durable msg) bits in
   let bits := putbit 2 (exchangeDeclare_AutoDelete msg) bits in
   let bits := putbit 3 (exchangeDeclare_Internal msg) bits in
   let bits := putbit 4 (exchangeDeclare_NoWait msg) bits in
   writeUint 1 bits) ;;;
  writeTable (exchangeDeclare_Arguments msg) ;;;
  wnil.

Definition exchangeDeclare_read : Reader exchangeDeclare :=
  let* reserved1 := readUint 2 in
  let* Exchange := readShortstr in
  let* Type_ := readShortstr in
  let* bits := readUint 1 in
  let Passive := getbit 0 bits in
  let Durable := getbit 1 bits in
  let AutoDelete := getbit 2 bits in
  let Internal := getbit 3 bits in
  let NoWait := getbit 4 bits in
  let* Arguments := readTable in
  rret (Mk_exchangeDeclare reserved1 Exchange Type_ Passive Durable AutoDelete Internal NoWait Arguments).

(** ** exchangeDeclareOk *)

Record exchangeDeclareOk := Mk_exchangeDeclareOk { }.

Definition exchangeDeclareOk_id : Z * Z := (40, 11).

Definition exchangeDeclareOk_wait (msg : exchangeDeclareOk) : bool := true.

Definition exchangeDeclareOk_write (msg : exchangeDeclareOk) : Writer :=
  wnil.

Definition exchangeDeclareOk_read : Reader exchangeDeclareOk :=
  rret (Mk_exchangeDeclareOk).

(** ** exchangeDelete *)

Record exchangeDelete := Mk_exchangeDelete {
  exchangeDelete_reserved1 : Z;
  exchangeDelete_Exchange : string;
  exchangeDelete_IfUnused : bool;
  exchangeDelete_NoWait : bool
}.

Definition exchangeDelete_id : Z * Z := (40, 20).

Definition exchangeDelete_wait (msg : exchangeDelete) : bool := true && negb (exchangeDelete_NoWait msg).

Definition exchangeDelete_write (msg : exchangeDelete) : Writer :=
  writeUint 2 (exchangeDelete_reserved1 msg) ;;;
  writeShortstr (exchangeDelete_Exchange msg) ;;;
  (let bits := 0 in
   let bits := putbit 0 (exchangeDelete_IfUnused msg) bits in
   let bits := putbit 1 (exchangeDelete_NoWait msg) bits in
   writeUint 1 bits) ;;;
  wnil.

Definition exchangeDelete_read : Reader exchangeDelete :=
  let* reserved1 := readUint 2 in
  let* Exchange := readShortstr in
  let* bits := readUint 1 in
  let IfUnused := getbit 0 bits in
  let NoWait := getbit 1 bits in
  rret (Mk_exchangeDelete reserved1 Exchange IfUnused NoWait).

(** ** exchangeDeleteOk *)

Record exchangeDeleteOk := Mk_exchangeDeleteOk { }.

Definition exchangeDeleteOk_id : Z * Z := (40, 21).

Definition exchangeDeleteOk_wait (msg : exchangeDeleteOk) : bool := true.

Definition exchangeDeleteOk_write (msg : exchangeDeleteOk) : Writer :=
  wnil.

Definition exchangeDeleteOk_read : Reader exchangeDeleteOk :=
  rret (Mk_exchangeDeleteOk).

(** ** exchangeBind *)

Record exchangeBind := Mk_exchangeBind {
  exchangeBind_reserved1 : Z;
  exchangeBind_Destination : string;
  exchangeBind_Source : string;
  exchangeBind_RoutingKey : string;
  exchangeBind_NoWait : bool;
  exchangeBind_Arguments : Table
}.

Definition exchangeBind_id : Z * Z := (40, 30).

Definition exchangeBind_wait (msg : exchangeBind) : bool := true && negb (exchangeBind_NoWait msg).

Definition exchangeBind_write (msg : exchangeBind) : Writer :=
  writeUint 2 (exchangeBind_reserved1 msg) ;;;
  writeShortstr (exchangeBind_Destination msg) ;;;
  writeShortstr (exchangeBind_Source msg) ;;;
  writeShortstr (exchangeBind_RoutingKey msg) ;;;
  (let bits := 0 in
   let bits := putbit 0 (exchangeBind_NoWait msg) bits in
   writeUint 1 bits) ;;;
  writeTable (exchangeBind_Arguments msg) ;;;
  wnil.

Definition exchangeBind_read : Reader exchangeBind :=
  let* reserved1 := readUint 2 in
  let* Destination := readShortstr in
  let* Source := readShortstr in
  let* RoutingKey := readShortstr in
  let* bits := readUint 1 in
  let NoWait := getbit 0 bits in
  let* Arguments := readTable in
  rret (Mk_exchangeBind reserved1 Destination Source RoutingKey NoWait Arguments).

(** ** exchangeBindOk *)

Record exchangeBindOk := Mk_exchangeBindOk { }.

Definition exchangeBindOk_id : Z * Z := (40, 31).

Definition exchangeBindOk_wait (msg : exchangeBindOk) : bool := true.

Definition exchangeBindOk_write (msg : exchangeBindOk) : Writer :=
  wnil.

Definition exchangeBindOk_read : Reader exchangeBindOk :=
  rret (Mk_exchangeBindOk).

(** ** exchangeUnbind *)

Record exchangeUnbind := Mk_exchangeUnbind {
  exchangeUnbind_reserved1 : Z;
  exchangeUnbind_Destination : string;
  exchangeUnbind_Source : string;
  exchangeUnbind_RoutingKey : string;
  exchangeUnbind_NoWait : bool;
  exchangeUnbind_Arguments : Table
}.

Definition exchangeUnbind_id : Z * Z := (40, 40).

Definition exchangeUnbind_wait (msg : exchangeUnbind) : bool := true && negb (exchangeUnbind_NoWait msg).

Definition exchangeUnbind_write (msg : exchangeUnbind) : Writer :=
  writeUint 2 (exchangeUnbind_reserved1 msg) ;;;
  writeShortstr (exchangeUnbind_Destination msg) ;;;
  writeShortstr (exchangeUnbind_Source msg) ;;;
  writeShortstr (exchangeUnbind_RoutingKey msg) ;;;
  (let bits := 0 in
   let bits := putbit 0 (exchangeUnbind_NoWait msg) bits in
   writeUint 1 bits) ;;;
  writeTable (exchangeUnbind_Arguments msg) ;;;
  wnil.

Definition exchangeUnbind_read : Reader exchangeUnbind :=
  let* reserved1 := readUint 2 in
  let* Destination := readShortstr in
  let* Source := readShortstr in
  let* RoutingKey := readShortstr in
  let* bits := readUint 1 in
  let NoWait := getbit 0 bits in
  let* Arguments := readTable in
  rret (Mk_exchangeUnbind reserved1 Destination Source RoutingKey NoWait Arguments).

(** ** exchangeUnbindOk *)

Record exchangeUnbindOk := Mk_exchangeUnbindOk { }.

Definition exchangeUnbindOk_id : Z * Z := (40, 51).

Definition exchangeUnbindOk_wait (msg : exchangeUnbindOk) : bool := true.

Definition exchangeUnbindOk_write (msg : exchangeUnbindOk) : Writer :=
  wnil.

Definition exchangeUnbindOk_read : Reader exchangeUnbindOk :=
  rret (Mk_exchangeUnbindOk).

(** ** Arguments that can be carried, and what is read back *)

Definition exchangeDeclare_ok (msg : exchangeDeclare) : Prop :=
  is_uint 16 (exchangeDeclare_reserved1 msg) /\
  shortstr_ok (exchangeDeclare_Exchange msg) = true /\
  shortstr_ok (exchangeDeclare_Type msg) = true /\
  table_ok (exchangeDeclare_Arguments msg) = true.

Definition exchangeDeclare_norm (msg : exchangeDeclare) : exchangeDeclare :=
  Mk_exchangeDeclare (exchangeDeclare_reserved1 msg) (exchangeDeclare_Exchange msg) (exchangeDeclare_Type msg) (exchangeDeclare_Passive msg) (exchangeDeclare_Durable msg) (exchangeDeclare_AutoDelete msg) (exchangeDeclare_Internal msg) (exchangeDeclare_NoWait msg) (norm_table (exchangeDeclare_Arguments msg)).

Definition exchangeDeclareOk_ok (msg : exchangeDeclareOk) : Prop :=
  True.

Definition exchangeDeclareOk_norm (msg : exchangeDeclareOk) : exchangeDeclareOk :=
  msg.

Definition exchangeDelete_ok (msg : exchangeDelete) : Prop :=
  is_uint 16 (exchangeDelete_reserved1 msg) /\
  shortstr_ok (exchangeDelete_Exchange msg) = true.

Definition exchangeDelete_norm (msg : exchangeDelete) : exchangeDelete :=
  msg.

Definition exchangeDeleteOk_ok (msg : exchangeDeleteOk) : Prop :=
  True.

Definition exchangeDeleteOk_norm (msg : exchangeDeleteOk) : exchangeDeleteOk :=
  msg.

Definition exchangeBind_ok (msg : exchangeBind) : Prop :=
  is_uint 16 (exchangeBind_reserved1 msg) /\
  shortstr_ok (exchangeBind_Destination msg) = true /\
  shortstr_ok (exchangeBind_Source msg) = true /\
  shortstr_ok (exchangeBind_RoutingKey msg) = true /\
  table_ok (exchangeBind_Arguments msg) = true.

Definition exchangeBind_norm (msg : exchangeBind) : exchangeBind :=
  Mk_exchangeBind (exchangeBind_reserved1 msg) (exchangeBind_Destination msg) (exchangeBind_Source msg) (exchangeBind_RoutingKey msg) (exchangeBind_NoWait msg) (norm_table (exchangeBind_Arguments msg)).

Definition exchangeBindOk_ok (msg : exchangeBindOk) : Prop :=
  True.

Definition exchangeBindOk_norm (msg : exchangeBindOk) : exchangeBindOk :=
  msg.

Definition exchangeUnbind_ok (msg : exchangeUnbind) : Prop :=
  is_uint 16 (exchangeUnbind_reserved1 msg) /\
  shortstr_ok (exchangeUnbind_Destination msg) = true /\
  shortstr_ok (exchangeUnbind_Source msg) = true /\
  shortstr_ok (exchangeUnbind_RoutingKey msg) = true /\
  table_ok (exchangeUnbind_Arguments msg) = true.

Definition exchangeUnbind_norm (msg : exchangeUnbind) : exchangeUnbind :=
  Mk_exchangeUnbind (exchangeUnbind_reserved1 msg) (exchangeUnbind_Destination msg) (exchangeUnbind_Source msg) (exchangeUnbind_RoutingKey msg) (exchangeUnbind_NoWait msg) (norm_table (exchangeUnbind_Arguments msg)).

Definition exchangeUnbindOk_ok (msg : exchangeUnbindOk) : Prop :=
  True.

Definition exchangeUnbindOk_norm (msg : exchangeUnbindOk) : exchangeUnbindOk :=
  msg.

(** ** Round trips *)

Lemma exchangeDeclare_codec msg : exchangeDeclare_ok msg -> codec (exchangeDeclare_write msg) exchangeDeclare_read (exchangeDeclare_norm msg).
Proof. destruct msg. intros (H1 & H2 & H3 & H4). codec_fields. Qed.
#[export] Hint Resolve exchangeDeclare_codec : methods.

Lemma exchangeDeclareOk_codec msg : exchangeDeclareOk_ok msg -> codec (exchangeDeclareOk_write msg) exchangeDeclareOk_read (exchangeDeclareOk_norm msg).
Proof. destruct msg. intros H. codec_fields. Qed.
#[export] Hint Resolve exchangeDeclareOk_codec : methods.

Lemma exchangeDelete_codec msg : exchangeDelete_ok msg -> codec (exchangeDelete_write msg) exchangeDelete_read (exchangeDelete_norm msg).
Proof. destruct msg. intros (H1 & H2). codec_fields. Qed.
#[export] Hint Resolve exchangeDelete_codec : methods.

Lemma exchangeDeleteOk_codec msg : exchangeDeleteOk_ok msg -> codec (exchangeDeleteOk_write msg) exchangeDeleteOk_read (exchangeDeleteOk_norm msg).
Proof. destruct msg. intros H. codec_fields. Qed.
#[export] Hint Resolve exchangeDeleteOk_codec : methods.

Lemma exchangeBind_codec msg : exchangeBind_ok msg -> codec (exchangeBind_write msg) exchangeBind_read (exchangeBind_norm msg).
Proof. destruct msg. intros (H1 & H2 & H3 & H4 & H5). codec_fields. Qed.
#[export] Hint Resolve exchangeBind_codec : methods.

Lemma exchangeBindOk_codec msg : exchangeBindOk_ok msg -> codec (exchangeBindOk_write msg) exchangeBindOk_read (exchangeBindOk_norm msg).
Proof. destruct msg. intros H. codec_fields. Qed.
#[export] Hint Resolve exchangeBindOk_codec : methods.

Lemma exchangeUnbind_codec msg : exchangeUnbind_ok msg -> codec (exchangeUnbind_write msg) exchangeUnbind_read (exchangeUnbind_norm msg).
Proof. destruct msg. intros (H1 & H2 & H3 & H4 & H5). codec_fields. Qed.
#[export] Hint Resolve exchangeUnbind_codec : methods.

Lemma exchangeUnbindOk_codec msg : exchangeUnbindOk_ok msg -> codec (exchangeUnbindOk_write msg) exchangeUnbindOk_read (exchangeUnbindOk_norm msg).
Proof. destruct msg. intros H. codec_fields. Qed.
#[export] Hint Resolve exchangeUnbindOk_codec : methods.
