(* ===== verification/SpecQueue.v ===== *)
(** * SpecQueue: the methods of the queue class (spec091.go)

    Per method: its struct, [id], [wait], [write] and [read], the arguments
    it can carry ([_ok]: integers of the declared widths, strings and tables
    that fit their length prefixes), what they are read back as ([_norm]),
    and the round trip. *)

From S2P Require Import Prelude Types Io Wire WireFacts WireCodec.

(** ** queueDeclare *)

Record queueDeclare := Mk_queueDeclare {
  queueDeclare_reserved1 : Z;
  queueDeclare_Queue : string;
  queueDeclare_Passive : bool;
  queueDeclare_Durable : bool;
  queueDeclare_Exclusive : bool;
  queueDeclare_AutoDelete : bool;
  queueDeclare_NoWait : bool;
  queueDeclare_Arguments : Table
}.

Definition queueDeclare_id : Z * Z := (50, 10).

Definition queueDeclare_wait (msg : queueDeclare) : bool := true && negb (queueDeclare_NoWait msg).

Definition queueDeclare_write (msg : queueDeclare) : Writer :=
  writeUint 2 (queueDeclare_reserved1 msg) ;;;
  writeShortstr (queueDeclare_Queue msg) ;;;
  (let bits := 0 in
   let bits := putbit 0 (queueDeclare_Passive msg) bits in
   let bits := putbit 1 (queueDeclare_Durable msg) bits in
   let bits := putbit 2 (queueDeclare_Exclusive msg) bits in
   let bits := putbit 3 (queueDeclare_AutoDelete msg) bits in
   let bits := putbit 4 (queueDeclare_NoWait msg) bits in
   writeUint 1 bits) ;;;
  writeTable (queueDeclare_Arguments msg) ;;;
  wnil.

Definition queueDeclare_read : Reader queueDeclare :=
  let* reserved1 := readUint 2 in
  let* Queue := readShortstr in
  let* bits := readUint 1 in
  let Passive := getbit 0 bits in
  let Durable := getbit 1 bits in
  let Exclusive := getbit 2 bits in
  let AutoDelete := getbit 3 bits in
  let NoWait := getbit 4 bits in
  let* Arguments := readTable in
  rret (Mk_queueDeclare reserved1 Queue Passive Durable Exclusive AutoDelete NoWait Arguments).

(** ** queueDeclareOk *)

Record queueDeclareOk := Mk_queueDeclareOk {
  queueDeclareOk_Queue : string;
  queueDeclareOk_MessageCount : Z;
  queueDeclareOk_ConsumerCount : Z
}.

Definition queueDeclareOk_id : Z * Z := (50, 11).

Definition queueDeclareOk_wait (msg : queueDeclareOk) : bool := true.

Definition queueDeclareOk_write (msg : queueDeclareOk) : Writer :=
  writeShortstr (queueDeclareOk_Queue msg) ;;;
  writeUint 4 (queueDeclareOk_MessageCount msg) ;;;
  writeUint 4 (queueDeclareOk_ConsumerCount msg) ;;;
  wnil.

Definition queueDeclareOk_read : Reader queueDeclareOk :=
  let* Queue := readShortstr in
  let* MessageCount := readUint 4 in
  let* ConsumerCount := readUint 4 in
  rret (Mk_queueDeclareOk Queue MessageCount ConsumerCount).

(** ** queueBind *)

Record queueBind := Mk_queueBind {
  queueBind_reserved1 : Z;
  queueBind_Queue : string;
  queueBind_Exchange : string;
  queueBind_RoutingKey : string;
  queueBind_NoWait : bool;
  queueBind_Arguments : Table
}.

Definition queueBind_id : Z * Z := (50, 20).

Definition queueBind_wait (msg : queueBind) : bool := true && negb (queueBind_NoWait msg).

Definition queueBind_write (msg : queueBind) : Writer :=
  writeUint 2 (queueBind_reserved1 msg) ;;;
  writeShortstr (queueBind_Queue msg) ;;;
  writeShortstr (queueBind_Exchange msg) ;;;
  writeShortstr (queueBind_RoutingKey msg) ;;;
  (let bits := 0 in
   let bits := putbit 0 (queueBind_NoWait msg) bits in
   writeUint 1 bits) ;;;
  writeTable (queueBind_Arguments msg) ;;;
  wnil.

Definition queueBind_read : Reader queueBind :=
  let* reserved1 := readUint 2 in
  let* Queue := readShortstr in
  let* Exchange := readShortstr in
  let* RoutingKey := readShortstr in
  let* bits := readUint 1 in
  let NoWait := getbit 0 bits in
  let* Arguments := readTable in
  rret (Mk_queueBind reserved1 Queue Exchange RoutingKey NoWait Arguments).

(** ** queueBindOk *)

Record queueBindOk := Mk_queueBindOk { }.

Definition queueBindOk_id : Z * Z := (50, 21).

Definition queueBindOk_wait (msg : queueBindOk) : bool := true.

Definition queueBindOk_write (msg : queueBindOk) : Writer :=
  wnil.

Definition queueBindOk_read : Reader queueBindOk :=
  rret (Mk_queueBindOk).

(** ** queueUnbind *)

Record queueUnbind := Mk_queueUnbind {
  queueUnbind_reserved1 : Z;
  queueUnbind_Queue : string;
  queueUnbind_Exchange : string;
  queueUnbind_RoutingKey : string;
  queueUnbind_Arguments : Table
}.

Definition queueUnbind_id : Z * Z := (50, 50).

Definition queueUnbind_wait (msg : queueUnbind) : bool := true.

Definition queueUnbind_write (msg : queueUnbind) : Writer :=
  writeUint 2 (queueUnbind_reserved1 msg) ;;;
  writeShortstr (queueUnbind_Queue msg) ;;;
  writeShortstr (queueUnbind_Exchange msg) ;;;
  writeShortstr (queueUnbind_RoutingKey msg) ;;;
  writeTable (queueUnbind_Arguments msg) ;;;
  wnil.

Definition queueUnbind_read : Reader queueUnbind :=
  let* reserved1 := readUint 2 in
  let* Queue := readShortstr in
  let* Exchange := readShortstr in
  let* RoutingKey := readShortstr in
  let* Arguments := readTable in
  rret (Mk_queueUnbind reserved1 Queue Exchange RoutingKey Arguments).

(** ** queueUnbindOk *)

Record queueUnbindOk := Mk_queueUnbindOk { }.

Definition queueUnbindOk_id : Z * Z := (50, 51).

Definition queueUnbindOk_wait (msg : queueUnbindOk) : bool := true.

Definition queueUnbindOk_write (msg : queueUnbindOk) : Writer :=
  wnil.

Definition queueUnbindOk_read : Reader queueUnbindOk :=
  rret (Mk_queueUnbindOk).

(** ** queuePurge *)

Record queuePurge := Mk_queuePurge {
  queuePurge_reserved1 : Z;
  queuePurge_Queue : string;
  queuePurge_NoWait : bool
}.

Definition queuePurge_id : Z * Z := (50, 30).

Definition queuePurge_wait (msg : queuePurge) : bool := true && negb (queuePurge_NoWait msg).

Definition queuePurge_write (msg : queuePurge) : Writer :=
  writeUint 2 (queuePurge_reserved1 msg) ;;;
  writeShortstr (queuePurge_Queue msg) ;;;
  (let bits := 0 in
   let bits := putbit 0 (queuePurge_NoWait msg) bits in
   writeUint 1 bits) ;;;
  wnil.

Definition queuePurge_read : Reader queuePurge :=
  let* reserved1 := readUint 2 in
  let* Queue := readShortstr in
  let* bits := readUint 1 in
  let NoWait := getbit 0 bits in
  rret (Mk_queuePurge reserved1 Queue NoWait).

(** ** queuePurgeOk *)

Record queuePurgeOk := Mk_queuePurgeOk {
  queuePurgeOk_MessageCount : Z
}.

Definition queuePurgeOk_id : Z * Z := (50, 31).

Definition queuePurgeOk_wait (msg : queuePurgeOk) : bool := true.

Definition queuePurgeOk_write (msg : queuePurgeOk) : Writer :=
  writeUint 4 (queuePurgeOk_MessageCount msg) ;;;
  wnil.

Definition queuePurgeOk_read : Reader queuePurgeOk :=
  let* MessageCount := readUint 4 in
  rret (Mk_queuePurgeOk MessageCount).

(** ** queueDelete *)

Record queueDelete := Mk_queueDelete {
  queueDelete_reserved1 : Z;
  queueDelete_Queue : string;
  queueDelete_IfUnused : bool;
  queueDelete_IfEmpty : bool;
  queueDelete_NoWait : bool
}.

Definition queueDelete_id : Z * Z := (50, 40).

Definition queueDelete_wait (msg : queueDelete) : bool := true && negb (queueDelete_NoWait msg).

Definition queueDelete_write (msg : queueDelete) : Writer :=
  writeUint 2 (queueDelete_reserved1 msg) ;;;
  writeShortstr (queueDelete_Queue msg) ;;;
  (let bits := 0 in
   let bits := putbit 0 (queueDelete_IfUnused msg) bits in
   let bits := putbit 1 (queueDelete_IfEmpty msg) bits in
   let bits := putbit 2 (queueDelete_NoWait msg) bits in
   writeUint 1 bits) ;;;
  wnil.

Definition queueDelete_read : Reader queueDelete :=
  let* reserved1 := readUint 2 in
  let* Queue := readShortstr in
  let* bits := readUint 1 in
  let IfUnused := getbit 0 bits in
  let IfEmpty := getbit 1 bits in
  let NoWait := getbit 2 bits in
  rret (Mk_queueDelete reserved1 Queue IfUnused IfEmpty NoWait).

(** ** queueDeleteOk *)

Record queueDeleteOk := Mk_queueDeleteOk {
  queueDeleteOk_MessageCount : Z
}.

Definition queueDeleteOk_id : Z * Z := (50, 41).

Definition queueDeleteOk_wait (msg : queueDeleteOk) : bool := true.

Definition queueDeleteOk_write (msg : queueDeleteOk) : Writer :=
  writeUint 4 (queueDeleteOk_MessageCount msg) ;;;
  wnil.

Definition queueDeleteOk_read : Reader queueDeleteOk :=
  let* MessageCount := readUint 4 in
  rret (Mk_queueDeleteOk MessageCount).

(** ** Arguments that can be carried, and what is read back *)

Definition queueDeclare_ok (msg : queueDeclare) : Prop :=
  is_uint 16 (queueDeclare_reserved1 msg) /\
  shortstr_ok (queueDeclare_Queue msg) = true /\
  table_ok (queueDeclare_Arguments msg) = true.

Definition queueDeclare_norm (msg : queueDeclare) : queueDeclare :=
  Mk_queueDeclare (queueDeclare_reserved1 msg) (queueDeclare_Queue msg) (queueDeclare_Passive msg) (queueDeclare_Durable msg) (queueDeclare_Exclusive msg) (queueDeclare_AutoDelete msg) (queueDeclare_NoWait msg) (norm_table (queueDeclare_Arguments msg)).

Definition queueDeclareOk_ok (msg : queueDeclareOk) : Prop :=
  shortstr_ok (queueDeclareOk_Queue msg) = true /\
  is_uint 32 (queueDeclareOk_MessageCount msg) /\
  is_uint 32 (queueDeclareOk_ConsumerCount msg).

Definition queueDeclareOk_norm (msg : queueDeclareOk) : queueDeclareOk :=
  msg.

Definition queueBind_ok (msg : queueBind) : Prop :=
  is_uint 16 (queueBind_reserved1 msg) /\
  shortstr_ok (queueBind_Queue msg) = true /\
  shortstr_ok (queueBind_Exchange msg) = true /\
  shortstr_ok (queueBind_RoutingKey msg) = true /\
  table_ok (queueBind_Arguments msg) = true.

Definition queueBind_norm (msg : queueBind) : queueBind :=
  Mk_queueBind (queueBind_reserved1 msg) (queueBind_Queue msg) (queueBind_Exchange msg) (queueBind_RoutingKey msg) (queueBind_NoWait msg) (norm_table (queueBind_Arguments msg)).

Definition queueBindOk_ok (msg : queueBindOk) : Prop :=
  True.

Definition queueBindOk_norm (msg : queueBindOk) : queueBindOk :=
  msg.

Definition queueUnbind_ok (msg : queueUnbind) : Prop :=
  is_uint 16 (queueUnbind_reserved1 msg) /\
  shortstr_ok (queueUnbind_Queue msg) = true /\
  shortstr_ok (queueUnbind_Exchange msg) = true /\
  shortstr_ok (queueUnbind_RoutingKey msg) = true /\
  table_ok (queueUnbind_Arguments msg) = true.

Definition queueUnbind_norm (msg : queueUnbind) : queueUnbind :=
  Mk_queueUnbind (queueUnbind_reserved1 msg) (queueUnbind_Queue msg) (queueUnbind_Exchange msg) (queueUnbind_RoutingKey msg) (norm_table (queueUnbind_Arguments msg)).

Definition queueUnbindOk_ok (msg : queueUnbindOk) : Prop :=
  True.

Definition queueUnbindOk_norm (msg : queueUnbindOk) : queueUnbindOk :=
  msg.

Definition queuePurge_ok (msg : queuePurge) : Prop :=
  is_uint 16 (queuePurge_reserved1 msg) /\
  shortstr_ok (queuePurge_Queue msg) = true.

Definition queuePurge_norm (msg : queuePurge) : queuePurge :=
  msg.

Definition queuePurgeOk_ok (msg : queuePurgeOk) : Prop :=
  is_uint 32 (queuePurgeOk_MessageCount msg).

Definition queuePurgeOk_norm (msg : queuePurgeOk) : queuePurgeOk :=
  msg.

Definition queueDelete_ok (msg : queueDelete) : Prop :=
  is_uint 16 (queueDelete_reserved1 msg) /\
  shortstr_ok (queueDelete_Queue msg) = true.

Definition queueDelete_norm (msg : queueDelete) : queueDelete :=
  msg.

Definition queueDeleteOk_ok (msg : queueDeleteOk) : Prop :=
  is_uint 32 (queueDeleteOk_MessageCount msg).

Definition queueDeleteOk_norm (msg : queueDeleteOk) : queueDeleteOk :=
  msg.

(** ** Round trips *)

Lemma queueDeclare_codec msg : queueDeclare_ok msg -> codec (queueDeclare_write msg) queueDeclare_read (queueDeclare_norm msg).
Proof. destruct msg. intros (H1 & H2 & H3). codec_fields. Qed.
#[export] Hint Resolve queueDeclare_codec : methods.

Lemma queueDeclareOk_codec msg : queueDeclareOk_ok msg -> codec (queueDeclareOk_write msg) queueDeclareOk_read (queueDeclareOk_norm msg).
Proof. destruct msg. intros (H1 & H2 & H3). codec_fields. Qed.
#[export] Hint Resolve queueDeclareOk_codec : methods.

Lemma queueBind_codec msg : queueBind_ok msg -> codec (queueBind_write msg) queueBind_read (queueBind_norm msg).
Proof. destruct msg. intros (H1 & H2 & H3 & H4 & H5). codec_fields. Qed.
#[export] Hint Resolve queueBind_codec : methods.

Lemma queueBindOk_codec msg : queueBindOk_ok msg -> codec (queueBindOk_write msg) queueBindOk_read (queueBindOk_norm msg).
Proof. destruct msg. intros H. codec_fields. Qed.
#[export] Hint Resolve queueBindOk_codec : methods.

Lemma queueUnbind_codec msg : queueUnbind_ok msg -> codec (queueUnbind_write msg) queueUnbind_read (queueUnbind_norm msg).
Proof. destruct msg. intros (H1 & H2 & H3 & H4 & H5). codec_fields. Qed.
#[export] Hint Resolve queueUnbind_codec : methods.

Lemma queueUnbindOk_codec msg : queueUnbindOk_ok msg -> codec (queueUnbindOk_write msg) queueUnbindOk_read (queueUnbindOk_norm msg).
Proof. destruct msg. intros H. codec_fields. Qed.
#[export] Hint Resolve queueUnbindOk_codec : methods.

Lemma queuePurge_codec msg : queuePurge_ok msg -> codec (queuePurge_write msg) queuePurge_read (queuePurge_norm msg).
Proof. destruct msg. intros (H1 & H2). codec_fields. Qed.
#[export] Hint Resolve queuePurge_codec : methods.

Lemma queuePurgeOk_codec msg : queuePurgeOk_ok msg -> codec (queuePurgeOk_write msg) queuePurgeOk_read (queuePurgeOk_norm msg).
Proof. destruct msg. intros H. codec_fields. Qed.
#[export] Hint Resolve queuePurgeOk_codec : methods.

Lemma queueDelete_codec msg : queueDelete_ok msg -> codec (queueDelete_write msg) queueDelete_read (queueDelete_norm msg).
Proof. destruct msg. intros (H1 & H2). codec_fields. Qed.
#[export] Hint Resolve queueDelete_codec : methods.

Lemma queueDeleteOk_codec msg : queueDeleteOk_ok msg -> codec (queueDeleteOk_write msg) queueDeleteOk_read (queueDeleteOk_norm msg).
Proof. destruct msg. intros H. codec_fields. Qed.
#[export] Hint Resolve queueDeleteOk_codec : methods.
