(* ===== verification/SpecBasic.v ===== *)
(** * SpecBasic: the methods of the basic class (spec091.go)

    Per method: its struct, [id], [wait], [write] and [read], the arguments
    it can carry ([_ok]: integers of the declared widths, strings and tables
    that fit their length prefixes), what they are read back as ([_norm]),
    and the round trip. *)

From S2P Require Import Prelude Types Io Wire WireFacts WireCodec.

(** ** basicQos *)

Record basicQos := Mk_basicQos {
  basicQos_PrefetchSize : Z;
  basicQos_PrefetchCount : Z;
  basicQos_Global : bool
}.

Definition basicQos_id : Z * Z := (60, 10).

Definition basicQos_wait (msg : basicQos) : bool := true.

Definition basicQos_write (msg : basicQos) : Writer :=
  writeUint 4 (basicQos_PrefetchSize msg) ;;;
  writeUint 2 (basicQos_PrefetchCount msg) ;;;
  (let bits := 0 in
   let bits := putbit 0 (basicQos_Global msg) bits in
   writeUint 1 bits) ;;;
  wnil.

Definition basicQos_read : Reader basicQos :=
  let* PrefetchSize := readUint 4 in
  let* PrefetchCount := readUint 2 in
  let* bits := readUint 1 in
  let Global := getbit 0 bits in
  rret (Mk_basicQos PrefetchSize PrefetchCount Global).

(** ** basicQosOk *)

Record basicQosOk := Mk_basicQosOk { }.

Definition basicQosOk_id : Z * Z := (60, 11).

Definition basicQosOk_wait (msg : basicQosOk) : bool := true.

Definition basicQosOk_write (msg : basicQosOk) : Writer :=
  wnil.

Definition basicQosOk_read : Reader basicQosOk :=
  rret (Mk_basicQosOk).

(** ** basicConsume *)

Record basicConsume := Mk_basicConsume {
  basicConsume_reserved1 : Z;
  basicConsume_Queue : string;
  basicConsume_ConsumerTag : string;
  basicConsume_NoLocal : bool;
  basicConsume_NoAck : bool;
  basicConsume_Exclusive : bool;
  basicConsume_NoWait : bool;
  basicConsume_Arguments : Table
}.

Definition basicConsume_id : Z * Z := (60, 20).

Definition basicConsume_wait (msg : basicConsume) : bool := true && negb (basicConsume_NoWait msg).

Definition basicConsume_write (msg : basicConsume) : Writer :=
  writeUint 2 (basicConsume_reserved1 msg) ;;;
  writeShortstr (basicConsume_Queue msg) ;;;
  writeShortstr (basicConsume_ConsumerTag msg) ;;;
  (let bits := 0 in
   let bits := putbit 0 (basicConsume_NoLocal msg) bits in
   let bits := putbit 1 (basicConsume_NoAck msg) bits in
   let bits := putbit 2 (basicConsume_Exclusive msg) bits in
   let bits := putbit 3 (basicConsume_NoWait msg) bits in
   writeUint 1 bits) ;;;
  writeTable (basicConsume_Arguments msg) ;;;
  wnil.

Definition basicConsume_read : Reader basicConsume :=
  let* reserved1 := readUint 2 in
  let* Queue := readShortstr in
  let* ConsumerTag := readShortstr in
  let* bits := readUint 1 in
  let NoLocal := getbit 0 bits in
  let NoAck := getbit 1 bits in
  let Exclusive := getbit 2 bits in
  let NoWait := getbit 3 bits in
  let* Arguments := readTable in
  rret (Mk_basicConsume reserved1 Queue ConsumerTag NoLocal NoAck Exclusive NoWait Arguments).

(** ** basicConsumeOk *)

Record basicConsumeOk := Mk_basicConsumeOk {
  basicConsumeOk_ConsumerTag : string
}.

Definition basicConsumeOk_id : Z * Z := (60, 21).

Definition basicConsumeOk_wait (msg : basicConsumeOk) : bool := true.

Definition basicConsumeOk_write (msg : basicConsumeOk) : Writer :=
  writeShortstr (basicConsumeOk_ConsumerTag msg) ;;;
  wnil.

Definition basicConsumeOk_read : Reader basicConsumeOk :=
  let* ConsumerTag := readShortstr in
  rret (Mk_basicConsumeOk ConsumerTag).

(** ** basicCancel *)

Record basicCancel := Mk_basicCancel {
  basicCancel_ConsumerTag : string;
  basicCancel_NoWait : bool
}.

Definition basicCancel_id : Z * Z := (60, 30).

Definition basicCancel_wait (msg : basicCancel) : bool := true && negb (basicCancel_NoWait msg).

Definition basicCancel_write (msg : basicCancel) : Writer :=
  writeShortstr (basicCancel_ConsumerTag msg) ;;;
  (let bits := 0 in
   let bits := putbit 0 (basicCancel_NoWait msg) bits in
   writeUint 1 bits) ;;;
  wnil.

Definition basicCancel_read : Reader basicCancel :=
  let* ConsumerTag := readShortstr in
  let* bits := readUint 1 in
  let NoWait := getbit 0 bits in
  rret (Mk_basicCancel ConsumerTag NoWait).

(** ** basicCancelOk *)

Record basicCancelOk := Mk_basicCancelOk {
  basicCancelOk_ConsumerTag : string
}.

Definition basicCancelOk_id : Z * Z := (60, 31).

Definition basicCancelOk_wait (msg : basicCancelOk) : bool := true.

Definition basicCancelOk_write (msg : basicCancelOk) : Writer :=
  writeShortstr (basicCancelOk_ConsumerTag msg) ;;;
  wnil.

Definition basicCancelOk_read : Reader basicCancelOk :=
  let* ConsumerTag := readShortstr in
  rret (Mk_basicCancelOk ConsumerTag).

(** ** basicPublish *)

Record basicPublish := Mk_basicPublish {
  basicPublish_reserved1 : Z;
  basicPublish_Exchange : string;
  basicPublish_RoutingKey : string;
  basicPublish_Mandatory : bool;
  basicPublish_Immediate : bool;
  basicPublish_Properties : properties;
  basicPublish_Body : list byte
}.

Definition basicPublish_id : Z * Z := (60, 40).

Definition basicPublish_wait (msg : basicPublish) : bool := false.

Definition basicPublish_getContent (msg : basicPublish) : properties * list byte :=
  (basicPublish_Properties msg, basicPublish_Body msg).

Definition basicPublish_setContent (msg : basicPublish) (props : properties) (body : list byte) : basicPublish :=
  Mk_basicPublish (basicPublish_reserved1 msg) (basicPublish_Exchange msg) (basicPublish_RoutingKey msg) (basicPublish_Mandatory msg) (basicPublish_Immediate msg) props body.

Definition basicPublish_write (msg : basicPublish) : Writer :=
  writeUint 2 (basicPublish_reserved1 msg) ;;;
  writeShortstr (basicPublish_Exchange msg) ;;;
  writeShortstr (basicPublish_RoutingKey msg) ;;;
  (let bits := 0 in
   let bits := putbit 0 (basicPublish_Mandatory msg) bits in
   let bits := putbit 1 (basicPublish_Immediate msg) bits in
   writeUint 1 bits) ;;;
  wnil.

Definition basicPublish_read : Reader basicPublish :=
  let* reserved1 := readUint 2 in
  let* Exchange := readShortstr in
  let* RoutingKey := readShortstr in
  let* bits := readUint 1 in
  let Mandatory := getbit 0 bits in
  let Immediate := getbit 1 bits in
  rret (Mk_basicPublish reserved1 Exchange RoutingKey Mandatory Immediate zeroProperties []).

(** ** basicReturn *)

Record basicReturn := Mk_basicReturn {
  basicReturn_ReplyCode : Z;
  basicReturn_ReplyText : string;
  basicReturn_Exchange : string;
  basicReturn_RoutingKey : string;
  basicReturn_Properties : properties;
  basicReturn_Body : list byte
}.

Definition basicReturn_id : Z * Z := (60, 50).

Definition basicReturn_wait (msg : basicReturn) : bool := false.

Definition basicReturn_getContent (msg : basicReturn) : properties * list byte :=
  (basicReturn_Properties msg, basicReturn_Body msg).

Definition basicReturn_setContent (msg : basicReturn) (props : properties) (body : list byte) : basicReturn :=
  Mk_basicReturn (basicReturn_ReplyCode msg) (basicReturn_ReplyText msg) (basicReturn_Exchange msg) (basicReturn_RoutingKey msg) props body.

Definition basicReturn_write (msg : basicReturn) : Writer :=
  writeUint 2 (basicReturn_ReplyCode msg) ;;;
  writeShortstr (basicReturn_ReplyText msg) ;;;
  writeShortstr (basicReturn_Exchange msg) ;;;
  writeShortstr (basicReturn_RoutingKey msg) ;;;
  wnil.

Definition basicReturn_read : Reader basicReturn :=
  let* ReplyCode := readUint 2 in
  let* ReplyText := readShortstr in
  let* Exchange := readShortstr in
  let* RoutingKey := readShortstr in
  rret (Mk_basicReturn ReplyCode ReplyText Exchange RoutingKey zeroProperties []).

(** ** basicDeliver *)

Record basicDeliver := Mk_basicDeliver {
  basicDeliver_ConsumerTag : string;
  basicDeliver_DeliveryTag : Z;
  basicDeliver_Redelivered : bool;
  basicDeliver_Exchange : string;
  basicDeliver_RoutingKey : string;
  basicDeliver_Properties : properties;
  basicDeliver_Body : list byte
}.

Definition basicDeliver_id : Z * Z := (60, 60).

Definition basicDeliver_wait (msg : basicDeliver) : bool := false.

Definition basicDeliver_getContent (msg : basicDeliver) : properties * list byte :=
  (basicDeliver_Properties msg, basicDeliver_Body msg).

Definition basicDeliver_setContent (msg : basicDeliver) (props : properties) (body : list byte) : basicDeliver :=
  Mk_basicDeliver (basicDeliver_ConsumerTag msg) (basicDeliver_DeliveryTag msg) (basicDeliver_Redelivered msg) (basicDeliver_Exchange msg) (basicDeliver_RoutingKey msg) props body.

Definition basicDeliver_write (msg : basicDeliver) : Writer :=
  writeShortstr (basicDeliver_ConsumerTag msg) ;;;
  writeUint 8 (basicDeliver_DeliveryTag msg) ;;;
  (let bits := 0 in
   let bits := putbit 0 (basicDeliver_Redelivered msg) bits in
   writeUint 1 bits) ;;;
  writeShortstr (basicDeliver_Exchange msg) ;;;
  writeShortstr (basicDeliver_RoutingKey msg) ;;;
  wnil.

Definition basicDeliver_read : Reader basicDeliver :=
  let* ConsumerTag := readShortstr in
  let* DeliveryTag := readUint 8 in
  let* bits := readUint 1 in
  let Redelivered := getbit 0 bits in
  let* Exchange := readShortstr in
  let* RoutingKey := readShortstr in
  rret (Mk_basicDeliver ConsumerTag DeliveryTag Redelivered Exchange RoutingKey zeroProperties []).

(** ** basicGet *)

Record basicGet := Mk_basicGet {
  basicGet_reserved1 : Z;
  basicGet_Queue : string;
  basicGet_NoAck : bool
}.

Definition basicGet_id : Z * Z := (60, 70).

Definition basicGet_wait (msg : basicGet) : bool := true.

Definition basicGet_write (msg : basicGet) : Writer :=
  writeUint 2 (basicGet_reserved1 msg) ;;;
  writeShortstr (basicGet_Queue msg) ;;;
  (let bits := 0 in
   let bits := putbit 0 (basicGet_NoAck msg) bits in
   writeUint 1 bits) ;;;
  wnil.

Definition basicGet_read : Reader basicGet :=
  let* reserved1 := readUint 2 in
  let* Queue := readShortstr in
  let* bits := readUint 1 in
  let NoAck := getbit 0 bits in
  rret (Mk_basicGet reserved1 Queue NoAck).

(** ** basicGetOk *)

Record basicGetOk := Mk_basicGetOk {
  basicGetOk_DeliveryTag : Z;
  basicGetOk_Redelivered : bool;
  basicGetOk_Exchange : string;
  basicGetOk_RoutingKey : string;
  basicGetOk_MessageCount : Z;
  basicGetOk_Properties : properties;
  basicGetOk_Body : list byte
}.

Definition basicGetOk_id : Z * Z := (60, 71).

Definition basicGetOk_wait (msg : basicGetOk) : bool := true.

Definition basicGetOk_getContent (msg : basicGetOk) : properties * list byte :=
  (basicGetOk_Properties msg, basicGetOk_Body msg).

Definition basicGetOk_setContent (msg : basicGetOk) (props : properties) (body : list byte) : basicGetOk :=
  Mk_basicGetOk (basicGetOk_DeliveryTag msg) (basicGetOk_Redelivered msg) (basicGetOk_Exchange msg) (basicGetOk_RoutingKey msg) (basicGetOk_MessageCount msg) props body.

Definition basicGetOk_write (msg : basicGetOk) : Writer :=
  writeUint 8 (basicGetOk_DeliveryTag msg) ;;;
  (let bits := 0 in
   let bits := putbit 0 (basicGetOk_Redelivered msg) bits in
   writeUint 1 bits) ;;;
  writeShortstr (basicGetOk_Exchange msg) ;;;
  writeShortstr (basicGetOk_RoutingKey msg) ;;;
  writeUint 4 (basicGetOk_MessageCount msg) ;;;
  wnil.

Definition basicGetOk_read : Reader basicGetOk :=
  let* DeliveryTag := readUint 8 in
  let* bits := readUint 1 in
  let Redelivered := getbit 0 bits in
  let* Exchange := readShortstr in
  let* RoutingKey := readShortstr in
  let* MessageCount := readUint 4 in
  rret (Mk_basicGetOk DeliveryTag Redelivered Exchange RoutingKey MessageCount zeroProperties []).

(** ** basicGetEmpty *)

Record basicGetEmpty := Mk_basicGetEmpty {
  basicGetEmpty_reserved1 : string
}.

Definition basicGetEmpty_id : Z * Z := (60, 72).

Definition basicGetEmpty_wait (msg : basicGetEmpty) : bool := true.

Definition basicGetEmpty_write (msg : basicGetEmpty) : Writer :=
  writeShortstr (basicGetEmpty_reserved1 msg) ;;;
  wnil.

Definition basicGetEmpty_read : Reader basicGetEmpty :=
  let* reserved1 := readShortstr in
  rret (Mk_basicGetEmpty reserved1).

(** ** basicAck *)

Record basicAck := Mk_basicAck {
  basicAck_DeliveryTag : Z;
  basicAck_Multiple : bool
}.

Definition basicAck_id : Z * Z := (60, 80).

Definition basicAck_wait (msg : basicAck) : bool := false.

Definition basicAck_write (msg : basicAck) : Writer :=
  writeUint 8 (basicAck_DeliveryTag msg) ;;;
  (let bits := 0 in
   let bits := putbit 0 (basicAck_Multiple msg) bits in
   writeUint 1 bits) ;;;
  wnil.

Definition basicAck_read : Reader basicAck :=
  let* DeliveryTag := readUint 8 in
  let* bits := readUint 1 in
  let Multiple := getbit 0 bits in
  rret (Mk_basicAck DeliveryTag Multiple).

(** ** basicReject *)

Record basicReject := Mk_basicReject {
  basicReject_DeliveryTag : Z;
  basicReject_Requeue : bool
}.

Definition basicReject_id : Z * Z := (60, 90).

Definition basicReject_wait (msg : basicReject) : bool := false.

Definition basicReject_write (msg : basicReject) : Writer :=
  writeUint 8 (basicReject_DeliveryTag msg) ;;;
  (let bits := 0 in
   let bits := putbit 0 (basicReject_Requeue msg) bits in
   writeUint 1 bits) ;;;
  wnil.

Definition basicReject_read : Reader basicReject :=
  let* DeliveryTag := readUint 8 in
  let* bits := readUint 1 in
  let Requeue := getbit 0 bits in
  rret (Mk_basicReject DeliveryTag Requeue).

(** ** basicRecoverAsync *)

Record basicRecoverAsync := Mk_basicRecoverAsync {
  basicRecoverAsync_Requeue : bool
}.

Definition basicRecoverAsync_id : Z * Z := (60, 100).

Definition basicRecoverAsync_wait (msg : basicRecoverAsync) : bool := false.

Definition basicRecoverAsync_write (msg : basicRecoverAsync) : Writer :=
  (let bits := 0 in
   let bits := putbit 0 (basicRecoverAsync_Requeue msg) bits in
   writeUint 1 bits) ;;;
  wnil.

Definition basicRecoverAsync_read : Reader basicRecoverAsync :=
  let* bits := readUint 1 in
  let Requeue := getbit 0 bits in
  rret (Mk_basicRecoverAsync Requeue).

(** ** basicRecover *)

Record basicRecover := Mk_basicRecover {
  basicRecover_Requeue : bool
}.

Definition basicRecover_id : Z * Z := (60, 110).

Definition basicRecover_wait (msg : basicRecover) : bool := true.

Definition basicRecover_write (msg : basicRecover) : Writer :=
  (let bits := 0 in
   let bits := putbit 0 (basicRecover_Requeue msg) bits in
   writeUint 1 bits) ;;;
  wnil.

Definition basicRecover_read : Reader basicRecover :=
  let* bits := readUint 1 in
  let Requeue := getbit 0 bits in
  rret (Mk_basicRecover Requeue).

(** ** basicRecoverOk *)

Record basicRecoverOk := Mk_basicRecoverOk { }.

Definition basicRecoverOk_id : Z * Z := (60, 111).

Definition basicRecoverOk_wait (msg : basicRecoverOk) : bool := true.

Definition basicRecoverOk_write (msg : basicRecoverOk) : Writer :=
  wnil.

Definition basicRecoverOk_read : Reader basicRecoverOk :=
  rret (Mk_basicRecoverOk).

(** ** basicNack *)

Record basicNack := Mk_basicNack {
  basicNack_DeliveryTag : Z;
  basicNack_Multiple : bool;
  basicNack_Requeue : bool
}.

Definition basicNack_id : Z * Z := (60, 120).

Definition basicNack_wait (msg : basicNack) : bool := false.

Definition basicNack_write (msg : basicNack) : Writer :=
  writeUint 8 (basicNack_DeliveryTag msg) ;;;
  (let bits := 0 in
   let bits := putbit 0 (basicNack_Multiple msg) bits in
   let bits := putbit 1 (basicNack_Requeue msg) bits in
   writeUint 1 bits) ;;;
  wnil.

Definition basicNack_read : Reader basicNack :=
  let* DeliveryTag := readUint 8 in
  let* bits := readUint 1 in
  let Multiple := getbit 0 bits in
  let Requeue := getbit 1 bits in
  rret (Mk_basicNack DeliveryTag Multiple Requeue).

(** ** Arguments that can be carried, and what is read back *)

Definition basicQos_ok (msg : basicQos) : Prop :=
  is_uint 32 (basicQos_PrefetchSize msg) /\
  is_uint 16 (basicQos_PrefetchCount msg).

Definition basicQos_norm (msg : basicQos) : basicQos :=
  msg.

Definition basicQosOk_ok (msg : basicQosOk) : Prop :=
  True.

Definition basicQosOk_norm (msg : basicQosOk) : basicQosOk :=
  msg.

Definition basicConsume_ok (msg : basicConsume) : Prop :=
  is_uint 16 (basicConsume_reserved1 msg) /\
  shortstr_ok (basicConsume_Queue msg) = true /\
  shortstr_ok (basicConsume_ConsumerTag msg) = true /\
  table_ok (basicConsume_Arguments msg) = true.

Definition basicConsume_norm (msg : basicConsume) : basicConsume :=
  Mk_basicConsume (basicConsume_reserved1 msg) (basicConsume_Queue msg) (basicConsume_ConsumerTag msg) (basicConsume_NoLocal msg) (basicConsume_NoAck msg) (basicConsume_Exclusive msg) (basicConsume_NoWait msg) (norm_table (basicConsume_Arguments msg)).

Definition basicConsumeOk_ok (msg : basicConsumeOk) : Prop :=
  shortstr_ok (basicConsumeOk_ConsumerTag msg) = true.

Definition basicConsumeOk_norm (msg : basicConsumeOk) : basicConsumeOk :=
  msg.

Definition basicCancel_ok (msg : basicCancel) : Prop :=
  shortstr_ok (basicCancel_ConsumerTag msg) = true.

Definition basicCancel_norm (msg : basicCancel) : basicCancel :=
  msg.

Definition basicCancelOk_ok (msg : basicCancelOk) : Prop :=
  shortstr_ok (basicCancelOk_ConsumerTag msg) = true.

Definition basicCancelOk_norm (msg : basicCancelOk) : basicCancelOk :=
  msg.

Definition basicPublish_ok (msg : basicPublish) : Prop :=
  is_uint 16 (basicPublish_reserved1 msg) /\
  shortstr_ok (basicPublish_Exchange msg) = true /\
  shortstr_ok (basicPublish_RoutingKey msg) = true.

Definition basicPublish_norm (msg : basicPublish) : basicPublish :=
  Mk_basicPublish (basicPublish_reserved1 msg) (basicPublish_Exchange msg) (basicPublish_RoutingKey msg) (basicPublish_Mandatory msg) (basicPublish_Immediate msg) zeroProperties [].

Definition basicReturn_ok (msg : basicReturn) : Prop :=
  is_uint 16 (basicReturn_ReplyCode msg) /\
  shortstr_ok (basicReturn_ReplyText msg) = true /\
  shortstr_ok (basicReturn_Exchange msg) = true /\
  shortstr_ok (basicReturn_RoutingKey msg) = true.

Definition basicReturn_norm (msg : basicReturn) : basicReturn :=
  Mk_basicReturn (basicReturn_ReplyCode msg) (basicReturn_ReplyText msg) (basicReturn_Exchange msg) (basicReturn_RoutingKey msg) zeroProperties [].

Definition basicDeliver_ok (msg : basicDeliver) : Prop :=
  shortstr_ok (basicDeliver_ConsumerTag msg) = true /\
  is_uint 64 (basicDeliver_DeliveryTag msg) /\
  shortstr_ok (basicDeliver_Exchange msg) = true /\
  shortstr_ok (basicDeliver_RoutingKey msg) = true.

Definition basicDeliver_norm (msg : basicDeliver) : basicDeliver :=
  Mk_basicDeliver (basicDeliver_ConsumerTag msg) (basicDeliver_DeliveryTag msg) (basicDeliver_Redelivered msg) (basicDeliver_Exchange msg) (basicDeliver_RoutingKey msg) zeroProperties [].

Definition basicGet_ok (msg : basicGet) : Prop :=
  is_uint 16 (basicGet_reserved1 msg) /\
  shortstr_ok (basicGet_Queue msg) = true.

Definition basicGet_norm (msg : basicGet) : basicGet :=
  msg.

Definition basicGetOk_ok (msg : basicGetOk) : Prop :=
  is_uint 64 (basicGetOk_DeliveryTag msg) /\
  shortstr_ok (basicGetOk_Exchange msg) = true /\
  shortstr_ok (basicGetOk_RoutingKey msg) = true /\
  is_uint 32 (basicGetOk_MessageCount msg).

Definition basicGetOk_norm (msg : basicGetOk) : basicGetOk :=
  Mk_basicGetOk (basicGetOk_DeliveryTag msg) (basicGetOk_Redelivered msg) (basicGetOk_Exchange msg) (basicGetOk_RoutingKey msg) (basicGetOk_MessageCount msg) zeroProperties [].

Definition basicGetEmpty_ok (msg : basicGetEmpty) : Prop :=
  shortstr_ok (basicGetEmpty_reserved1 msg) = true.

Definition basicGetEmpty_norm (msg : basicGetEmpty) : basicGetEmpty :=
  msg.

Definition basicAck_ok (msg : basicAck) : Prop :=
  is_uint 64 (basicAck_DeliveryTag msg).

Definition basicAck_norm (msg : basicAck) : basicAck :=
  msg.

Definition basicReject_ok (msg : basicReject) : Prop :=
  is_uint 64 (basicReject_DeliveryTag msg).

Definition basicReject_norm (msg : basicReject) : basicReject :=
  msg.

Definition basicRecoverAsync_ok (msg : basicRecoverAsync) : Prop :=
  True.

Definition basicRecoverAsync_norm (msg : basicRecoverAsync) : basicRecoverAsync :=
  msg.

Definition basicRecover_ok (msg : basicRecover) : Prop :=
  True.

Definition basicRecover_norm (msg : basicRecover) : basicRecover :=
  msg.

Definition basicRecoverOk_ok (msg : basicRecoverOk) : Prop :=
  True.

Definition basicRecoverOk_norm (msg : basicRecoverOk) : basicRecoverOk :=
  msg.

Definition basicNack_ok (msg : basicNack) : Prop :=
  is_uint 64 (basicNack_DeliveryTag msg).

Definition basicNack_norm (msg : basicNack) : basicNack :=
  msg.

(** ** Round trips *)

Lemma basicQos_codec msg : basicQos_ok msg -> codec (basicQos_write msg) basicQos_read (basicQos_norm msg).
Proof. destruct msg. intros (H1 & H2). codec_fields. Qed.
#[export] Hint Resolve basicQos_codec : methods.

Lemma basicQosOk_codec msg : basicQosOk_ok msg -> codec (basicQosOk_write msg) basicQosOk_read (basicQosOk_norm msg).
Proof. destruct msg. intros H. codec_fields. Qed.
#[export] Hint Resolve basicQosOk_codec : methods.

Lemma basicConsume_codec msg : basicConsume_ok msg -> codec (basicConsume_write msg) basicConsume_read (basicConsume_norm msg).
Proof. destruct msg. intros (H1 & H2 & H3 & H4). codec_fields. Qed.
#[export] Hint Resolve basicConsume_codec : methods.

Lemma basicConsumeOk_codec msg : basicConsumeOk_ok msg -> codec (basicConsumeOk_write msg) basicConsumeOk_read (basicConsumeOk_norm msg).
Proof. destruct msg. intros H. codec_fields. Qed.
#[export] Hint Resolve basicConsumeOk_codec : methods.

Lemma basicCancel_codec msg : basicCancel_ok msg -> codec (basicCancel_write msg) basicCancel_read (basicCancel_norm msg).
Proof. destruct msg. intros H. codec_fields. Qed.
#[export] Hint Resolve basicCancel_codec : methods.

Lemma basicCancelOk_codec msg : basicCancelOk_ok msg -> codec (basicCancelOk_write msg) basicCancelOk_read (basicCancelOk_norm msg).
Proof. destruct msg. intros H. codec_fields. Qed.
#[export] Hint Resolve basicCancelOk_codec : methods.

Lemma basicPublish_codec msg : basicPublish_ok msg -> codec (basicPublish_write msg) basicPublish_read (basicPublish_norm msg).
Proof. destruct msg. intros (H1 & H2 & H3). codec_fields. Qed.
#[export] Hint Resolve basicPublish_codec : methods.

Lemma basicReturn_codec msg : basicReturn_ok msg -> codec (basicReturn_write msg) basicReturn_read (basicReturn_norm msg).
Proof. destruct msg. intros (H1 & H2 & H3 & H4). codec_fields. Qed.
#[export] Hint Resolve basicReturn_codec : methods.

Lemma basicDeliver_codec msg : basicDeliver_ok msg -> codec (basicDeliver_write msg) basicDeliver_read (basicDeliver_norm msg).
Proof. destruct msg. intros (H1 & H2 & H3 & H4). codec_fields. Qed.
#[export] Hint Resolve basicDeliver_codec : methods.

Lemma basicGet_codec msg : basicGet_ok msg -> codec (basicGet_write msg) basicGet_read (basicGet_norm msg).
Proof. destruct msg. intros (H1 & H2). codec_fields. Qed.
#[export] Hint Resolve basicGet_codec : methods.

Lemma basicGetOk_codec msg : basicGetOk_ok msg -> codec (basicGetOk_write msg) basicGetOk_read (basicGetOk_norm msg).
Proof. destruct msg. intros (H1 & H2 & H3 & H4). codec_fields. Qed.
#[export] Hint Resolve basicGetOk_codec : methods.

Lemma basicGetEmpty_codec msg : basicGetEmpty_ok msg -> codec (basicGetEmpty_write msg) basicGetEmpty_read (basicGetEmpty_norm msg).
Proof. destruct msg. intros H. codec_fields. Qed.
#[export] Hint Resolve basicGetEmpty_codec : methods.

Lemma basicAck_codec msg : basicAck_ok msg -> codec (basicAck_write msg) basicAck_read (basicAck_norm msg).
Proof. destruct msg. intros H. codec_fields. Qed.
#[export] Hint Resolve basicAck_codec : methods.

Lemma basicReject_codec msg : basicReject_ok msg -> codec (basicReject_write msg) basicReject_read (basicReject_norm msg).
Proof. destruct msg. intros H. codec_fields. Qed.
#[export] Hint Resolve basicReject_codec : methods.

Lemma basicRecoverAsync_codec msg : basicRecoverAsync_ok msg -> codec (basicRecoverAsync_write msg) basicRecoverAsync_read (basicRecoverAsync_norm msg).
Proof. destruct msg. intros H. codec_fields. Qed.
#[export] Hint Resolve basicRecoverAsync_codec : methods.

Lemma basicRecover_codec msg : basicRecover_ok msg -> codec (basicRecover_write msg) basicRecover_read (basicRecover_norm msg).
Proof. destruct msg. intros H. codec_fields. Qed.
#[export] Hint Resolve basicRecover_codec : methods.

Lemma basicRecoverOk_codec msg : basicRecoverOk_ok msg -> codec (basicRecoverOk_write msg) basicRecoverOk_read (basicRecoverOk_norm msg).
Proof. destruct msg. intros H. codec_fields. Qed.
#[export] Hint Resolve basicRecoverOk_codec : methods.

Lemma basicNack_codec msg : basicNack_ok msg -> codec (basicNack_write msg) basicNack_read (basicNack_norm msg).
Proof. destruct msg. intros H. codec_fields. Qed.
#[export] Hint Resolve basicNack_codec : methods.
