(* ===== verification/SpecTx.v ===== *)
(** * SpecTx: the methods of the tx and confirm classes (spec091.go)

    Per method: its struct, [id], [wait], [write] and [read], the arguments
    it can carry ([_ok]: integers of the declared widths, strings and tables
    that fit their length prefixes), what they are read back as ([_norm]),
    and the round trip. *)

From S2P Require Import Prelude Types Io Wire WireFacts WireCodec.

(** ** txSelect *)

Record txSelect := Mk_txSelect { }.

Definition txSelect_id : Z * Z := (90, 10).

Definition txSelect_wait (msg : txSelect) : bool := true.

Definition txSelect_write (msg : txSelect) : Writer :=
  wnil.

Definition txSelect_read : Reader txSelect :=
  rret (Mk_txSelect).

(** ** txSelectOk *)

Record txSelectOk := Mk_txSelectOk { }.

Definition txSelectOk_id : Z * Z := (90, 11).

Definition txSelectOk_wait (msg : txSelectOk) : bool := true.

Definition txSelectOk_write (msg : txSelectOk) : Writer :=
  wnil.

Definition txSelectOk_read : Reader txSelectOk :=
  rret (Mk_txSelectOk).

(** ** txCommit *)

Record txCommit := Mk_txCommit { }.

Definition txCommit_id : Z * Z := (90, 20).

Definition txCommit_wait (msg : txCommit) : bool := true.

Definition txCommit_write (msg : txCommit) : Writer :=
  wnil.

Definition txCommit_read : Reader txCommit :=
  rret (Mk_txCommit).

(** ** txCommitOk *)

Record txCommitOk := Mk_txCommitOk { }.

Definition txCommitOk_id : Z * Z := (90, 21).

Definition txCommitOk_wait (msg : txCommitOk) : bool := true.

Definition txCommitOk_write (msg : txCommitOk) : Writer :=
  wnil.

Definition txCommitOk_read : Reader txCommitOk :=
  rret (Mk_txCommitOk).

(** ** txRollback *)

Record txRollback := Mk_txRollback { }.

Definition txRollback_id : Z * Z := (90, 30).

Definition txRollback_wait (msg : txRollback) : bool := true.

Definition txRollback_write (msg : txRollback) : Writer :=
  wnil.

Definition txRollback_read : Reader txRollback :=
  rret (Mk_txRollback).

(** ** txRollbackOk *)

Record txRollbackOk := Mk_txRollbackOk { }.

Definition txRollbackOk_id : Z * Z := (90, 31).

Definition txRollbackOk_wait (msg : txRollbackOk) : bool := true.

Definition txRollbackOk_write (msg : txRollbackOk) : Writer :=
  wnil.

Definition txRollbackOk_read : Reader txRollbackOk :=
  rret (Mk_txRollbackOk).

(** ** confirmSelect *)

Record confirmSelect := Mk_confirmSelect {
  confirmSelect_Nowait : bool
}.

Definition confirmSelect_id : Z * Z := (85, 10).

Definition confirmSelect_wait (msg : confirmSelect) : bool := true.

Definition confirmSelect_write (msg : confirmSelect) : Writer :=
  (let bits := 0 in
   let bits := putbit 0 (confirmSelect_Nowait msg) bits in
   writeUint 1 bits) ;;;
  wnil.

Definition confirmSelect_read : Reader confirmSelect :=
  let* bits := readUint 1 in
  let Nowait := getbit 0 bits in
  rret (Mk_confirmSelect Nowait).

(** ** confirmSelectOk *)

Record confirmSelectOk := Mk_confirmSelectOk { }.

Definition confirmSelectOk_id : Z * Z := (85, 11).

Definition confirmSelectOk_wait (msg : confirmSelectOk) : bool := true.

Definition confirmSelectOk_write (msg : confirmSelectOk) : Writer :=
  wnil.

Definition confirmSelectOk_read : Reader confirmSelectOk :=
  rret (Mk_confirmSelectOk).

(** ** Arguments that can be carried, and what is read back *)

Definition txSelect_ok (msg : txSelect) : Prop :=
  True.

Definition txSelect_norm (msg : txSelect) : txSelect :=
  msg.

Definition txSelectOk_ok (msg : txSelectOk) : Prop :=
  True.

Definition txSelectOk_norm (msg : txSelectOk) : txSelectOk :=
  msg.

Definition txCommit_ok (msg : txCommit) : Prop :=
  True.

Definition txCommit_norm (msg : txCommit) : txCommit :=
  msg.

Definition txCommitOk_ok (msg : txCommitOk) : Prop :=
  True.

Definition txCommitOk_norm (msg : txCommitOk) : txCommitOk :=
  msg.

Definition txRollback_ok (msg : txRollback) : Prop :=
  True.

Definition txRollback_norm (msg : txRollback) : txRollback :=
  msg.

Definition txRollbackOk_ok (msg : txRollbackOk) : Prop :=
  True.

Definition txRollbackOk_norm (msg : txRollbackOk) : txRollbackOk :=
  msg.

Definition confirmSelect_ok (msg : confirmSelect) : Prop :=
  True.

Definition confirmSelect_norm (msg : confirmSelect) : confirmSelect :=
  msg.

Definition confirmSelectOk_ok (msg : confirmSelectOk) : Prop :=
  True.

Definition confirmSelectOk_norm (msg : confirmSelectOk) : confirmSelectOk :=
  msg.

(** ** Round trips *)

Lemma txSelect_codec msg : txSelect_ok msg -> codec (txSelect_write msg) txSelect_read (txSelect_norm msg).
Proof. destruct msg. intros H. codec_fields. Qed.
#[export] Hint Resolve txSelect_codec : methods.

Lemma txSelectOk_codec msg : txSelectOk_ok msg -> codec (txSelectOk_write msg) txSelectOk_read (txSelectOk_norm msg).
Proof. destruct msg. intros H. codec_fields. Qed.
#[export] Hint Resolve txSelectOk_codec : methods.

Lemma txCommit_codec msg : txCommit_ok msg -> codec (txCommit_write msg) txCommit_read (txCommit_norm msg).
Proof. destruct msg. intros H. codec_fields. Qed.
#[export] Hint Resolve txCommit_codec : methods.

Lemma txCommitOk_codec msg : txCommitOk_ok msg -> codec (txCommitOk_write msg) txCommitOk_read (txCommitOk_norm msg).
Proof. destruct msg. intros H. codec_fields. Qed.
#[export] Hint Resolve txCommitOk_codec : methods.

Lemma txRollback_codec msg : txRollback_ok msg -> codec (txRollback_write msg) txRollback_read (txRollback_norm msg).
Proof. destruct msg. intros H. codec_fields. Qed.
#[export] Hint Resolve txRollback_codec : methods.

Lemma txRollbackOk_codec msg : txRollbackOk_ok msg -> codec (txRollbackOk_write msg) txRollbackOk_read (txRollbackOk_norm msg).
Proof. destruct msg. intros H. codec_fields. Qed.
#[export] Hint Resolve txRollbackOk_codec : methods.

Lemma confirmSelect_codec msg : confirmSelect_ok msg -> codec (confirmSelect_write msg) confirmSelect_read (confirmSelect_norm msg).
Proof. destruct msg. intros H. codec_fields. Qed.
#[export] Hint Resolve confirmSelect_codec : methods.

Lemma confirmSelectOk_codec msg : confirmSelectOk_ok msg -> codec (confirmSelectOk_write msg) confirmSelectOk_read (confirmSelectOk_norm msg).
Proof. destruct msg. intros H. codec_fields. Qed.
#[export] Hint Resolve confirmSelectOk_codec : methods.
