(* ===== verification/Spec091.v ===== *)
(** * Spec091: the methods of the protocol as one type (spec091.go, types.go)

    The [message] and [messageWithContent] interfaces, with the methods of
    the Spec files as their implementations, and [parseMethodFrame]. *)

From stdpp Require Import pretty.
From S2P Require Import Prelude Types Io Wire WireFacts WireCodec.
From S2P Require Import SpecConnection SpecChannel SpecExchange SpecQueue SpecBasic SpecTx.

(** ** The message interface *)

(** [type message interface], by dynamic type. *)
Inductive message :=
  | M_connectionStart (m : connectionStart)
  | M_connectionStartOk (m : connectionStartOk)
  | M_connectionSecure (m : connectionSecure)
  | M_connectionSecureOk (m : connectionSecureOk)
  | M_connectionTune (m : connectionTune)
  | M_connectionTuneOk (m : connectionTuneOk)
  | M_connectionOpen (m : connectionOpen)
  | M_connectionOpenOk (m : connectionOpenOk)
  | M_connectionClose (m : connectionClose)
  | M_connectionCloseOk (m : connectionCloseOk)
  | M_connectionBlocked (m : connectionBlocked)
  | M_connectionUnblocked (m : connectionUnblocked)
  | M_connectionUpdateSecret (m : connectionUpdateSecret)
  | M_connectionUpdateSecretOk (m : connectionUpdateSecretOk)
  | M_channelOpen (m : channelOpen)
  | M_channelOpenOk (m : channelOpenOk)
  | M_channelFlow (m : channelFlow)
  | M_channelFlowOk (m : channelFlowOk)
  | M_channelClose (m : channelClose)
  | M_channelCloseOk (m : channelCloseOk)
  | M_exchangeDeclare (m : exchangeDeclare)
  | M_exchangeDeclareOk (m : exchangeDeclareOk)
  | M_exchangeDelete (m : exchangeDelete)
  | M_exchangeDeleteOk (m : exchangeDeleteOk)
  | M_exchangeBind (m : exchangeBind)
  | M_exchangeBindOk (m : exchangeBindOk)
  | M_exchangeUnbind (m : exchangeUnbind)
  | M_exchangeUnbindOk (m : exchangeUnbindOk)
  | M_queueDeclare (m : queueDeclare)
  | M_queueDeclareOk (m : queueDeclareOk)
  | M_queueBind (m : queueBind)
  | M_queueBindOk (m : queueBindOk)
  | M_queueUnbind (m : queueUnbind)
  | M_queueUnbindOk (m : queueUnbindOk)
  | M_queuePurge (m : queuePurge)
  | M_queuePurgeOk (m : queuePurgeOk)
  | M_queueDelete (m : queueDelete)
  | M_queueDeleteOk (m : queueDeleteOk)
  | M_basicQos (m : basicQos)
  | M_basicQosOk (m : basicQosOk)
  | M_basicConsume (m : basicConsume)
  | M_basicConsumeOk (m : basicConsumeOk)
  | M_basicCancel (m : basicCancel)
  | M_basicCancelOk (m : basicCancelOk)
  | M_basicPublish (m : basicPublish)
  | M_basicReturn (m : basicReturn)
  | M_basicDeliver (m : basicDeliver)
  | M_basicGet (m : basicGet)
  | M_basicGetOk (m : basicGetOk)
  | M_basicGetEmpty (m : basicGetEmpty)
  | M_basicAck (m : basicAck)
  | M_basicReject (m : basicReject)
  | M_basicRecoverAsync (m : basicRecoverAsync)
  | M_basicRecover (m : basicRecover)
  | M_basicRecoverOk (m : basicRecoverOk)
  | M_basicNack (m : basicNack)
  | M_txSelect (m : txSelect)
  | M_txSelectOk (m : txSelectOk)
  | M_txCommit (m : txCommit)
  | M_txCommitOk (m : txCommitOk)
  | M_txRollback (m : txRollback)
  | M_txRollbackOk (m : txRollbackOk)
  | M_confirmSelect (m : confirmSelect)
  | M_confirmSelectOk (m : confirmSelectOk).

(** [msg.id()]: class and method. *)
Definition message_id (msg : message) : Z * Z :=
  match msg with
  | M_connectionStart _ => connectionStart_id
  | M_connectionStartOk _ => connectionStartOk_id
  | M_connectionSecure _ => connectionSecure_id
  | M_connectionSecureOk _ => connectionSecureOk_id
  | M_connectionTune _ => connectionTune_id
  | M_connectionTuneOk _ => connectionTuneOk_id
  | M_connectionOpen _ => connectionOpen_id
  | M_connectionOpenOk _ => connectionOpenOk_id
  | M_connectionClose _ => connectionClose_id
  | M_connectionCloseOk _ => connectionCloseOk_id
  | M_connectionBlocked _ => connectionBlocked_id
  | M_connectionUnblocked _ => connectionUnblocked_id
  | M_connectionUpdateSecret _ => connectionUpdateSecret_id
  | M_connectionUpdateSecretOk _ => connectionUpdateSecretOk_id
  | M_channelOpen _ => channelOpen_id
  | M_channelOpenOk _ => channelOpenOk_id
  | M_channelFlow _ => channelFlow_id
  | M_channelFlowOk _ => channelFlowOk_id
  | M_channelClose _ => channelClose_id
  | M_channelCloseOk _ => channelCloseOk_id
  | M_exchangeDeclare _ => exchangeDeclare_id
  | M_exchangeDeclareOk _ => exchangeDeclareOk_id
  | M_exchangeDelete _ => exchangeDelete_id
  | M_exchangeDeleteOk _ => exchangeDeleteOk_id
  | M_exchangeBind _ => exchangeBind_id
  | M_exchangeBindOk _ => exchangeBindOk_id
  | M_exchangeUnbind _ => exchangeUnbind_id
  | M_exchangeUnbindOk _ => exchangeUnbindOk_id
  | M_queueDeclare _ => queueDeclare_id
  | M_queueDeclareOk _ => queueDeclareOk_id
  | M_queueBind _ => queueBind_id
  | M_queueBindOk _ => queueBindOk_id
  | M_queueUnbind _ => queueUnbind_id
  | M_queueUnbindOk _ => queueUnbindOk_id
  | M_queuePurge _ => queuePurge_id
  | M_queuePurgeOk _ => queuePurgeOk_id
  | M_queueDelete _ => queueDelete_id
  | M_queueDeleteOk _ => queueDeleteOk_id
  | M_basicQos _ => basicQos_id
  | M_basicQosOk _ => basicQosOk_id
  | M_basicConsume _ => basicConsume_id
  | M_basicConsumeOk _ => basicConsumeOk_id
  | M_basicCancel _ => basicCancel_id
  | M_basicCancelOk _ => basicCancelOk_id
  | M_basicPublish _ => basicPublish_id
  | M_basicReturn _ => basicReturn_id
  | M_basicDeliver _ => basicDeliver_id
  | M_basicGet _ => basicGet_id
  | M_basicGetOk _ => basicGetOk_id
  | M_basicGetEmpty _ => basicGetEmpty_id
  | M_basicAck _ => basicAck_id
  | M_basicReject _ => basicReject_id
  | M_basicRecoverAsync _ => basicRecoverAsync_id
  | M_basicRecover _ => basicRecover_id
  | M_basicRecoverOk _ => basicRecoverOk_id
  | M_basicNack _ => basicNack_id
  | M_txSelect _ => txSelect_id
  | M_txSelectOk _ => txSelectOk_id
  | M_txCommit _ => txCommit_id
  | M_txCommitOk _ => txCommitOk_id
  | M_txRollback _ => txRollback_id
  | M_txRollbackOk _ => txRollbackOk_id
  | M_confirmSelect _ => confirmSelect_id
  | M_confirmSelectOk _ => confirmSelectOk_id
  end.

(** [msg.wait()]: whether a response is awaited. *)
Definition message_wait (msg : message) : bool :=
  match msg with
  | M_connectionStart m => connectionStart_wait m
  | M_connectionStartOk m => connectionStartOk_wait m
  | M_connectionSecure m => connectionSecure_wait m
  | M_connectionSecureOk m => connectionSecureOk_wait m
  | M_connectionTune m => connectionTune_wait m
  | M_connectionTuneOk m => connectionTuneOk_wait m
  | M_connectionOpen m => connectionOpen_wait m
  | M_connectionOpenOk m => connectionOpenOk_wait m
  | M_connectionClose m => connectionClose_wait m
  | M_connectionCloseOk m => connectionCloseOk_wait m
  | M_connectionBlocked m => connectionBlocked_wait m
  | M_connectionUnblocked m => connectionUnblocked_wait m
  | M_connectionUpdateSecret m => connectionUpdateSecret_wait m
  | M_connectionUpdateSecretOk m => connectionUpdateSecretOk_wait m
  | M_channelOpen m => channelOpen_wait m
  | M_channelOpenOk m => channelOpenOk_wait m
  | M_channelFlow m => channelFlow_wait m
  | M_channelFlowOk m => channelFlowOk_wait m
  | M_channelClose m => channelClose_wait m
  | M_channelCloseOk m => channelCloseOk_wait m
  | M_exchangeDeclare m => exchangeDeclare_wait m
  | M_exchangeDeclareOk m => exchangeDeclareOk_wait m
  | M_exchangeDelete m => exchangeDelete_wait m
  | M_exchangeDeleteOk m => exchangeDeleteOk_wait m
  | M_exchangeBind m => exchangeBind_wait m
  | M_exchangeBindOk m => exchangeBindOk_wait m
  | M_exchangeUnbind m => exchangeUnbind_wait m
  | M_exchangeUnbindOk m => exchangeUnbindOk_wait m
  | M_queueDeclare m => queueDeclare_wait m
  | M_queueDeclareOk m => queueDeclareOk_wait m
  | M_queueBind m => queueBind_wait m
  | M_queueBindOk m => queueBindOk_wait m
  | M_queueUnbind m => queueUnbind_wait m
  | M_queueUnbindOk m => queueUnbindOk_wait m
  | M_queuePurge m => queuePurge_wait m
  | M_queuePurgeOk m => queuePurgeOk_wait m
  | M_queueDelete m => queueDelete_wait m
  | M_queueDeleteOk m => queueDeleteOk_wait m
  | M_basicQos m => basicQos_wait m
  | M_basicQosOk m => basicQosOk_wait m
  | M_basicConsume m => basicConsume_wait m
  | M_basicConsumeOk m => basicConsumeOk_wait m
  | M_basicCancel m => basicCancel_wait m
  | M_basicCancelOk m => basicCancelOk_wait m
  | M_basicPublish m => basicPublish_wait m
  | M_basicReturn m => basicReturn_wait m
  | M_basicDeliver m => basicDeliver_wait m
  | M_basicGet m => basicGet_wait m
  | M_basicGetOk m => basicGetOk_wait m
  | M_basicGetEmpty m => basicGetEmpty_wait m
  | M_basicAck m => basicAck_wait m
  | M_basicReject m => basicReject_wait m
  | M_basicRecoverAsync m => basicRecoverAsync_wait m
  | M_basicRecover m => basicRecover_wait m
  | M_basicRecoverOk m => basicRecoverOk_wait m
  | M_basicNack m => basicNack_wait m
  | M_txSelect m => txSelect_wait m
  | M_txSelectOk m => txSelectOk_wait m
  | M_txCommit m => txCommit_wait m
  | M_txCommitOk m => txCommitOk_wait m
  | M_txRollback m => txRollback_wait m
  | M_txRollbackOk m => txRollbackOk_wait m
  | M_confirmSelect m => confirmSelect_wait m
  | M_confirmSelectOk m => confirmSelectOk_wait m
  end.

(** [msg.write(w)] *)
Definition message_write (msg : message) : Writer :=
  match msg with
  | M_connectionStart m => connectionStart_write m
  | M_connectionStartOk m => connectionStartOk_write m
  | M_connectionSecure m => connectionSecure_write m
  | M_connectionSecureOk m => connectionSecureOk_write m
  | M_connectionTune m => connectionTune_write m
  | M_connectionTuneOk m => connectionTuneOk_write m
  | M_connectionOpen m => connectionOpen_write m
  | M_connectionOpenOk m => connectionOpenOk_write m
  | M_connectionClose m => connectionClose_write m
  | M_connectionCloseOk m => connectionCloseOk_write m
  | M_connectionBlocked m => connectionBlocked_write m
  | M_connectionUnblocked m => connectionUnblocked_write m
  | M_connectionUpdateSecret m => connectionUpdateSecret_write m
  | M_connectionUpdateSecretOk m => connectionUpdateSecretOk_write m
  | M_channelOpen m => channelOpen_write m
  | M_channelOpenOk m => channelOpenOk_write m
  | M_channelFlow m => channelFlow_write m
  | M_channelFlowOk m => channelFlowOk_write m
  | M_channelClose m => channelClose_write m
  | M_channelCloseOk m => channelCloseOk_write m
  | M_exchangeDeclare m => exchangeDeclare_write m
  | M_exchangeDeclareOk m => exchangeDeclareOk_write m
  | M_exchangeDelete m => exchangeDelete_write m
  | M_exchangeDeleteOk m => exchangeDeleteOk_write m
  | M_exchangeBind m => exchangeBind_write m
  | M_exchangeBindOk m => exchangeBindOk_write m
  | M_exchangeUnbind m => exchangeUnbind_write m
  | M_exchangeUnbindOk m => exchangeUnbindOk_write m
  | M_queueDeclare m => queueDeclare_write m
  | M_queueDeclareOk m => queueDeclareOk_write m
  | M_queueBind m => queueBind_write m
  | M_queueBindOk m => queueBindOk_write m
  | M_queueUnbind m => queueUnbind_write m
  | M_queueUnbindOk m => queueUnbindOk_write m
  | M_queuePurge m => queuePurge_write m
  | M_queuePurgeOk m => queuePurgeOk_write m
  | M_queueDelete m => queueDelete_write m
  | M_queueDeleteOk m => queueDeleteOk_write m
  | M_basicQos m => basicQos_write m
  | M_basicQosOk m => basicQosOk_write m
  | M_basicConsume m => basicConsume_write m
  | M_basicConsumeOk m => basicConsumeOk_write m
  | M_basicCancel m => basicCancel_write m
  | M_basicCancelOk m => basicCancelOk_write m
  | M_basicPublish m => basicPublish_write m
  | M_basicReturn m => basicReturn_write m
  | M_basicDeliver m => basicDeliver_write m
  | M_basicGet m => basicGet_write m
  | M_basicGetOk m => basicGetOk_write m
  | M_basicGetEmpty m => basicGetEmpty_write m
  | M_basicAck m => basicAck_write m
  | M_basicReject m => basicReject_write m
  | M_basicRecoverAsync m => basicRecoverAsync_write m
  | M_basicRecover m => basicRecover_write m
  | M_basicRecoverOk m => basicRecoverOk_write m
  | M_basicNack m => basicNack_write m
  | M_txSelect m => txSelect_write m
  | M_txSelectOk m => txSelectOk_write m
  | M_txCommit m => txCommit_write m
  | M_txCommitOk m => txCommitOk_write m
  | M_txRollback m => txRollback_write m
  | M_txRollbackOk m => txRollbackOk_write m
  | M_confirmSelect m => confirmSelect_write m
  | M_confirmSelectOk m => confirmSelectOk_write m
  end.

(** [msg.(messageWithContent)] and its [getContent]. *)
Definition message_getContent (msg : message) : option (properties * list byte) :=
  match msg with
  | M_basicPublish m => Some (basicPublish_getContent m)
  | M_basicReturn m => Some (basicReturn_getContent m)
  | M_basicDeliver m => Some (basicDeliver_getContent m)
  | M_basicGetOk m => Some (basicGetOk_getContent m)
  | _ => None
  end.

(** [setContent] of a [messageWithContent]. *)
Definition message_setContent (msg : message) (props : properties) (body : list byte) : message :=
  match msg with
  | M_basicPublish m => M_basicPublish (basicPublish_setContent m props body)
  | M_basicReturn m => M_basicReturn (basicReturn_setContent m props body)
  | M_basicDeliver m => M_basicDeliver (basicDeliver_setContent m props body)
  | M_basicGetOk m => M_basicGetOk (basicGetOk_setContent m props body)
  | _ => msg
  end.

(** ** parseMethodFrame *)

Definition unknownMethod (ClassId MethodId : Z) : goerror :=
  TextError ("Bad method frame, unknown method " +:+ pretty MethodId +:+ " for class " +:+ pretty ClassId).

Definition unknownClass (ClassId : Z) : goerror :=
  TextError ("Bad method frame, unknown class " +:+ pretty ClassId).

(** The switches on the method, one per class. *)

Definition parse_connection (MethodId : Z) : Reader message :=
  match MethodId with
  | 10 => let* method := connectionStart_read in rret (M_connectionStart method)
  | 11 => let* method := connectionStartOk_read in rret (M_connectionStartOk method)
  | 20 => let* method := connectionSecure_read in rret (M_connectionSecure method)
  | 21 => let* method := connectionSecureOk_read in rret (M_connectionSecureOk method)
  | 30 => let* method := connectionTune_read in rret (M_connectionTune method)
  | 31 => let* method := connectionTuneOk_read in rret (M_connectionTuneOk method)
  | 40 => let* method := connectionOpen_read in rret (M_connectionOpen method)
  | 41 => let* method := connectionOpenOk_read in rret (M_connectionOpenOk method)
  | 50 => let* method := connectionClose_read in rret (M_connectionClose method)
  | 51 => let* method := connectionCloseOk_read in rret (M_connectionCloseOk method)
  | 60 => let* method := connectionBlocked_read in rret (M_connectionBlocked method)
  | 61 => let* method := connectionUnblocked_read in rret (M_connectionUnblocked method)
  | 70 => let* method := connectionUpdateSecret_read in rret (M_connectionUpdateSecret method)
  | 71 => let* method := connectionUpdateSecretOk_read in rret (M_connectionUpdateSecretOk method)
  | _ => rerr (unknownMethod 10 MethodId)
  end.

Definition parse_channel (MethodId : Z) : Reader message :=
  match MethodId with
  | 10 => let* method := channelOpen_read in rret (M_channelOpen method)
  | 11 => let* method := channelOpenOk_read in rret (M_channelOpenOk method)
  | 20 => let* method := channelFlow_read in rret (M_channelFlow method)
  | 21 => let* method := channelFlowOk_read in rret (M_channelFlowOk method)
  | 40 => let* method := channelClose_read in rret (M_channelClose method)
  | 41 => let* method := channelCloseOk_read in rret (M_channelCloseOk method)
  | _ => rerr (unknownMethod 20 MethodId)
  end.

Definition parse_exchange (MethodId : Z) : Reader message :=
  match MethodId with
  | 10 => let* method := exchangeDeclare_read in rret (M_exchangeDeclare method)
  | 11 => let* method := exchangeDeclareOk_read in rret (M_exchangeDeclareOk method)
  | 20 => let* method := exchangeDelete_read in rret (M_exchangeDelete method)
  | 21 => let* method := exchangeDeleteOk_read in rret (M_exchangeDeleteOk method)
  | 30 => let* method := exchangeBind_read in rret (M_exchangeBind method)
  | 31 => let* method := exchangeBindOk_read in rret (M_exchangeBindOk method)
  | 40 => let* method := exchangeUnbind_read in rret (M_exchangeUnbind method)
  | 51 => let* method := exchangeUnbindOk_read in rret (M_exchangeUnbindOk method)
  | _ => rerr (unknownMethod 40 MethodId)
  end.

Definition parse_queue (MethodId : Z) : Reader message :=
  match MethodId with
  | 10 => let* method := queueDeclare_read in rret (M_queueDeclare method)
  | 11 => let* method := queueDeclareOk_read in rret (M_queueDeclareOk method)
  | 20 => let* method := queueBind_read in rret (M_queueBind method)
  | 21 => let* method := queueBindOk_read in rret (M_queueBindOk method)
  | 50 => let* method := queueUnbind_read in rret (M_queueUnbind method)
  | 51 => let* method := queueUnbindOk_read in rret (M_queueUnbindOk method)
  | 30 => let* method := queuePurge_read in rret (M_queuePurge method)
  | 31 => let* method := queuePurgeOk_read in rret (M_queuePurgeOk method)
  | 40 => let* method := queueDelete_read in rret (M_queueDelete method)
  | 41 => let* method := queueDeleteOk_read in rret (M_queueDeleteOk method)
  | _ => rerr (unknownMethod 50 MethodId)
  end.

Definition parse_basic (MethodId : Z) : Reader message :=
  match MethodId with
  | 10 => let* method := basicQos_read in rret (M_basicQos method)
  | 11 => let* method := basicQosOk_read in rret (M_basicQosOk method)
  | 20 => let* method := basicConsume_read in rret (M_basicConsume method)
  | 21 => let* method := basicConsumeOk_read in rret (M_basicConsumeOk method)
  | 30 => let* method := basicCancel_read in rret (M_basicCancel method)
  | 31 => let* method := basicCancelOk_read in rret (M_basicCancelOk method)
  | 40 => let* method := basicPublish_read in rret (M_basicPublish method)
  | 50 => let* method := basicReturn_read in rret (M_basicReturn method)
  | 60 => let* method := basicDeliver_read in rret (M_basicDeliver method)
  | 70 => let* method := basicGet_read in rret (M_basicGet method)
  | 71 => let* method := basicGetOk_read in rret (M_basicGetOk method)
  | 72 => let* method := basicGetEmpty_read in rret (M_basicGetEmpty method)
  | 80 => let* method := basicAck_read in rret (M_basicAck method)
  | 90 => let* method := basicReject_read in rret (M_basicReject method)
  | 100 => let* method := basicRecoverAsync_read in rret (M_basicRecoverAsync method)
  | 110 => let* method := basicRecover_read in rret (M_basicRecover method)
  | 111 => let* method := basicRecoverOk_read in rret (M_basicRecoverOk method)
  | 120 => let* method := basicNack_read in rret (M_basicNack method)
  | _ => rerr (unknownMethod 60 MethodId)
  end.

Definition parse_tx (MethodId : Z) : Reader message :=
  match MethodId with
  | 10 => let* method := txSelect_read in rret (M_txSelect method)
  | 11 => let* method := txSelectOk_read in rret (M_txSelectOk method)
  | 20 => let* method := txCommit_read in rret (M_txCommit method)
  | 21 => let* method := txCommitOk_read in rret (M_txCommitOk method)
  | 30 => let* method := txRollback_read in rret (M_txRollback method)
  | 31 => let* method := txRollbackOk_read in rret (M_txRollbackOk method)
  | _ => rerr (unknownMethod 90 MethodId)
  end.

Definition parse_confirm (MethodId : Z) : Reader message :=
  match MethodId with
  | 10 => let* method := confirmSelect_read in rret (M_confirmSelect method)
  | 11 => let* method := confirmSelectOk_read in rret (M_confirmSelectOk method)
  | _ => rerr (unknownMethod 85 MethodId)
  end.

(** The switch on the class. *)
Definition parseMethod (ClassId MethodId : Z) : Reader message :=
  match ClassId with
  | 10 => parse_connection MethodId
  | 20 => parse_channel MethodId
  | 40 => parse_exchange MethodId
  | 50 => parse_queue MethodId
  | 60 => parse_basic MethodId
  | 90 => parse_tx MethodId
  | 85 => parse_confirm MethodId
  | _ => rerr (unknownClass ClassId)
  end.

(** [type methodFrame struct] *)
Record methodFrame := Mk_methodFrame {
  mf_ChannelId : Z;
  mf_ClassId : Z;
  mf_MethodId : Z;
  mf_Method : option message
}.

(** The declared size of the frame is not used. *)
Definition parseMethodFrame (channel size : Z) : Reader methodFrame :=
  let* ClassId := readUint 2 in
  let* MethodId := readUint 2 in
  let* method := parseMethod ClassId MethodId in
  rret (Mk_methodFrame channel ClassId MethodId (Some method)).

(** ** Arguments that can be carried, and what is read back *)

Definition message_ok (msg : message) : Prop :=
  match msg with
  | M_connectionStart m => connectionStart_ok m
  | M_connectionStartOk m => connectionStartOk_ok m
  | M_connectionSecure m => connectionSecure_ok m
  | M_connectionSecureOk m => connectionSecureOk_ok m
  | M_connectionTune m => connectionTune_ok m
  | M_connectionTuneOk m => connectionTuneOk_ok m
  | M_connectionOpen m => connectionOpen_ok m
  | M_connectionOpenOk m => connectionOpenOk_ok m
  | M_connectionClose m => connectionClose_ok m
  | M_connectionCloseOk m => connectionCloseOk_ok m
  | M_connectionBlocked m => connectionBlocked_ok m
  | M_connectionUnblocked m => connectionUnblocked_ok m
  | M_connectionUpdateSecret m => connectionUpdateSecret_ok m
  | M_connectionUpdateSecretOk m => connectionUpdateSecretOk_ok m
  | M_channelOpen m => channelOpen_ok m
  | M_channelOpenOk m => channelOpenOk_ok m
  | M_channelFlow m => channelFlow_ok m
  | M_channelFlowOk m => channelFlowOk_ok m
  | M_channelClose m => channelClose_ok m
  | M_channelCloseOk m => channelCloseOk_ok m
  | M_exchangeDeclare m => exchangeDeclare_ok m
  | M_exchangeDeclareOk m => exchangeDeclareOk_ok m
  | M_exchangeDelete m => exchangeDelete_ok m
  | M_exchangeDeleteOk m => exchangeDeleteOk_ok m
  | M_exchangeBind m => exchangeBind_ok m
  | M_exchangeBindOk m => exchangeBindOk_ok m
  | M_exchangeUnbind m => exchangeUnbind_ok m
  | M_exchangeUnbindOk m => exchangeUnbindOk_ok m
  | M_queueDeclare m => queueDeclare_ok m
  | M_queueDeclareOk m => queueDeclareOk_ok m
  | M_queueBind m => queueBind_ok m
  | M_queueBindOk m => queueBindOk_ok m
  | M_queueUnbind m => queueUnbind_ok m
  | M_queueUnbindOk m => queueUnbindOk_ok m
  | M_queuePurge m => queuePurge_ok m
  | M_queuePurgeOk m => queuePurgeOk_ok m
  | M_queueDelete m => queueDelete_ok m
  | M_queueDeleteOk m => queueDeleteOk_ok m
  | M_basicQos m => basicQos_ok m
  | M_basicQosOk m => basicQosOk_ok m
  | M_basicConsume m => basicConsume_ok m
  | M_basicConsumeOk m => basicConsumeOk_ok m
  | M_basicCancel m => basicCancel_ok m
  | M_basicCancelOk m => basicCancelOk_ok m
  | M_basicPublish m => basicPublish_ok m
  | M_basicReturn m => basicReturn_ok m
  | M_basicDeliver m => basicDeliver_ok m
  | M_basicGet m => basicGet_ok m
  | M_basicGetOk m => basicGetOk_ok m
  | M_basicGetEmpty m => basicGetEmpty_ok m
  | M_basicAck m => basicAck_ok m
  | M_basicReject m => basicReject_ok m
  | M_basicRecoverAsync m => basicRecoverAsync_ok m
  | M_basicRecover m => basicRecover_ok m
  | M_basicRecoverOk m => basicRecoverOk_ok m
  | M_basicNack m => basicNack_ok m
  | M_txSelect m => txSelect_ok m
  | M_txSelectOk m => txSelectOk_ok m
  | M_txCommit m => txCommit_ok m
  | M_txCommitOk m => txCommitOk_ok m
  | M_txRollback m => txRollback_ok m
  | M_txRollbackOk m => txRollbackOk_ok m
  | M_confirmSelect m => confirmSelect_ok m
  | M_confirmSelectOk m => confirmSelectOk_ok m
  end.

(** Tables are normalised and the content, sent in frames of its own, is
    empty. *)
Definition message_norm (msg : message) : message :=
  match msg with
  | M_connectionStart m => M_connectionStart (connectionStart_norm m)
  | M_connectionStartOk m => M_connectionStartOk (connectionStartOk_norm m)
  | M_connectionSecure m => M_connectionSecure (connectionSecure_norm m)
  | M_connectionSecureOk m => M_connectionSecureOk (connectionSecureOk_norm m)
  | M_connectionTune m => M_connectionTune (connectionTune_norm m)
  | M_connectionTuneOk m => M_connectionTuneOk (connectionTuneOk_norm m)
  | M_connectionOpen m => M_connectionOpen (connectionOpen_norm m)
  | M_connectionOpenOk m => M_connectionOpenOk (connectionOpenOk_norm m)
  | M_connectionClose m => M_connectionClose (connectionClose_norm m)
  | M_connectionCloseOk m => M_connectionCloseOk (connectionCloseOk_norm m)
  | M_connectionBlocked m => M_connectionBlocked (connectionBlocked_norm m)
  | M_connectionUnblocked m => M_connectionUnblocked (connectionUnblocked_norm m)
  | M_connectionUpdateSecret m => M_connectionUpdateSecret (connectionUpdateSecret_norm m)
  | M_connectionUpdateSecretOk m => M_connectionUpdateSecretOk (connectionUpdateSecretOk_norm m)
  | M_channelOpen m => M_channelOpen (channelOpen_norm m)
  | M_channelOpenOk m => M_channelOpenOk (channelOpenOk_norm m)
  | M_channelFlow m => M_channelFlow (channelFlow_norm m)
  | M_channelFlowOk m => M_channelFlowOk (channelFlowOk_norm m)
  | M_channelClose m => M_channelClose (channelClose_norm m)
  | M_channelCloseOk m => M_channelCloseOk (channelCloseOk_norm m)
  | M_exchangeDeclare m => M_exchangeDeclare (exchangeDeclare_norm m)
  | M_exchangeDeclareOk m => M_exchangeDeclareOk (exchangeDeclareOk_norm m)
  | M_exchangeDelete m => M_exchangeDelete (exchangeDelete_norm m)
  | M_exchangeDeleteOk m => M_exchangeDeleteOk (exchangeDeleteOk_norm m)
  | M_exchangeBind m => M_exchangeBind (exchangeBind_norm m)
  | M_exchangeBindOk m => M_exchangeBindOk (exchangeBindOk_norm m)
  | M_exchangeUnbind m => M_exchangeUnbind (exchangeUnbind_norm m)
  | M_exchangeUnbindOk m => M_exchangeUnbindOk (exchangeUnbindOk_norm m)
  | M_queueDeclare m => M_queueDeclare (queueDeclare_norm m)
  | M_queueDeclareOk m => M_queueDeclareOk (queueDeclareOk_norm m)
  | M_queueBind m => M_queueBind (queueBind_norm m)
  | M_queueBindOk m => M_queueBindOk (queueBindOk_norm m)
  | M_queueUnbind m => M_queueUnbind (queueUnbind_norm m)
  | M_queueUnbindOk m => M_queueUnbindOk (queueUnbindOk_norm m)
  | M_queuePurge m => M_queuePurge (queuePurge_norm m)
  | M_queuePurgeOk m => M_queuePurgeOk (queuePurgeOk_norm m)
  | M_queueDelete m => M_queueDelete (queueDelete_norm m)
  | M_queueDeleteOk m => M_queueDeleteOk (queueDeleteOk_norm m)
  | M_basicQos m => M_basicQos (basicQos_norm m)
  | M_basicQosOk m => M_basicQosOk (basicQosOk_norm m)
  | M_basicConsume m => M_basicConsume (basicConsume_norm m)
  | M_basicConsumeOk m => M_basicConsumeOk (basicConsumeOk_norm m)
  | M_basicCancel m => M_basicCancel (basicCancel_norm m)
  | M_basicCancelOk m => M_basicCancelOk (basicCancelOk_norm m)
  | M_basicPublish m => M_basicPublish (basicPublish_norm m)
  | M_basicReturn m => M_basicReturn (basicReturn_norm m)
  | M_basicDeliver m => M_basicDeliver (basicDeliver_norm m)
  | M_basicGet m => M_basicGet (basicGet_norm m)
  | M_basicGetOk m => M_basicGetOk (basicGetOk_norm m)
  | M_basicGetEmpty m => M_basicGetEmpty (basicGetEmpty_norm m)
  | M_basicAck m => M_basicAck (basicAck_norm m)
  | M_basicReject m => M_basicReject (basicReject_norm m)
  | M_basicRecoverAsync m => M_basicRecoverAsync (basicRecoverAsync_norm m)
  | M_basicRecover m => M_basicRecover (basicRecover_norm m)
  | M_basicRecoverOk m => M_basicRecoverOk (basicRecoverOk_norm m)
  | M_basicNack m => M_basicNack (basicNack_norm m)
  | M_txSelect m => M_txSelect (txSelect_norm m)
  | M_txSelectOk m => M_txSelectOk (txSelectOk_norm m)
  | M_txCommit m => M_txCommit (txCommit_norm m)
  | M_txCommitOk m => M_txCommitOk (txCommitOk_norm m)
  | M_txRollback m => M_txRollback (txRollback_norm m)
  | M_txRollbackOk m => M_txRollbackOk (txRollbackOk_norm m)
  | M_confirmSelect m => M_confirmSelect (confirmSelect_norm m)
  | M_confirmSelectOk m => M_confirmSelectOk (confirmSelectOk_norm m)
  end.

(** ** Facts *)

Lemma codec_map {A B} w (c : Reader A) (f : A -> B) a :
  codec w c a -> codec w (let* x := c in rret (f x)) (f a).
Proof. intros (bs & He & Hr). exists bs. split; [done|by apply reads_map]. Qed.

(** The arguments of every method round-trip through [parseMethod] of its id. *)
Lemma message_codec msg :
  message_ok msg ->
  codec (message_write msg) (parseMethod (fst (message_id msg)) (snd (message_id msg))) (message_norm msg).
Proof.
  destruct msg; cbn [message_ok message_write message_norm]; intros H;
    refine (codec_map _ _ _ _ _); auto with methods nocore.
Qed.

(** Class and method ids are short integers. *)
Lemma message_id_range msg :
  is_uint 16 (fst (message_id msg)) /\ is_uint 16 (snd (message_id msg)).
Proof. by destruct msg. Qed.
