(* ===== verification/Frame.v ===== *)
(** * Frame: frames on the wire (types.go, write.go, read.go)

    The [frame] interface, the [write] of every frame type, [ReadFrame] and
    the parsers it calls; reading a stream of written frames gives the
    frames back in order. *)

From S2P Require Import Prelude Types Io Wire WireFacts WireCodec Spec091.

(** ** Frame types *)

(** [type headerFrame struct] *)
Record headerFrame := Mk_headerFrame {
  hf_ChannelId : Z;
  hf_ClassId : Z;
  hf_weight : Z;
  hf_Size : Z;
  hf_Properties : properties
}.

(** [type bodyFrame struct] *)
Record bodyFrame := Mk_bodyFrame {
  bf_ChannelId : Z;
  bf_Body : list byte
}.

(** [type heartbeatFrame struct] *)
Record heartbeatFrame := Mk_heartbeatFrame { hbf_ChannelId : Z }.

(** [type frame interface], by dynamic type. *)
Inductive frame :=
  | F_protocolHeader
  | F_method (f : methodFrame)
  | F_header (f : headerFrame)
  | F_body (f : bodyFrame)
  | F_heartbeat (f : heartbeatFrame).

(** [f.channel()]; that of a [protocolHeader] panics. *)
Definition frame_channel (f : frame) : option Z :=
  match f with
  | F_protocolHeader => None
  | F_method f => Some (mf_ChannelId f)
  | F_header f => Some (hf_ChannelId f)
  | F_body f => Some (bf_ChannelId f)
  | F_heartbeat f => Some (hbf_ChannelId f)
  end.

(** ** write.go *)

Definition writeFrame (typ channel : Z) (payload : list byte) : Writer :=
  let size := len payload in
  writeBytes
    [ Zbyte typ;
      Zbyte (Z.shiftr (Z.land channel 0xff00) 8);
      Zbyte (Z.shiftr (Z.land channel 0x00ff) 0);
      Zbyte (Z.shiftr (Z.land size 0xff000000) 24);
      Zbyte (Z.shiftr (Z.land size 0x00ff0000) 16);
      Zbyte (Z.shiftr (Z.land size 0x0000ff00) 8);
      Zbyte (Z.shiftr (Z.land size 0x000000ff) 0) ] ;;;
  writeBytes payload ;;;
  writeBytes [Zbyte frameEnd].

(** Writing into a local [payload] buffer, then the frame around it. *)
Definition framed (typ channel : Z) (payload : Writer) : Writer :=
  fun w =>
    match run_writer payload with
    | (None, bytes) => writeFrame typ channel bytes w
    | (Some e, _) => (Some e, w)
    end.

Definition protocolHeader_write : Writer :=
  writeBytes (bytes_of_string "AMQP" ++ [Zbyte 0; Zbyte 0; Zbyte 9; Zbyte 1]).

Definition methodFrame_write (f : methodFrame) : Writer :=
  match mf_Method f with
  | None => wfail (TextError "malformed frame: missing method")
  | Some m =>
      let '(class, method) := message_id m in
      framed frameMethod (mf_ChannelId f)
        (writeUint 2 class ;;; writeUint 2 method ;;; message_write m)
  end.

Definition heartbeatFrame_write (f : heartbeatFrame) : Writer :=
  writeFrame frameHeartbeat (hbf_ChannelId f) [].

Definition bodyFrame_write (f : bodyFrame) : Writer :=
  writeFrame frameBody (bf_ChannelId f) (bf_Body f).

(** [int(mask)&prop > 0] *)
Definition hasProperty (mask prop : Z) : bool := 0 <? Z.land mask prop.

(** [if c { mask |= flag }] *)
Definition setflag (c : bool) (flag mask : Z) : Z := if c then Z.lor mask flag else mask.

(** [s != ""] *)
Definition nonempty (s : string) : bool := negb (bool_decide (s = EmptyString)).

(** The first pass of [headerFrame.write]. *)
Definition header_mask (p : properties) : Z :=
  let mask := 0 in
  let mask := setflag (nonempty (p_ContentType p)) flagContentType mask in
  let mask := setflag (nonempty (p_ContentEncoding p)) flagContentEncoding mask in
  let mask := setflag (0 <? len (p_Headers p)) flagHeaders mask in
  let mask := setflag (0 <? p_DeliveryMode p) flagDeliveryMode mask in
  let mask := setflag (0 <? p_Priority p) flagPriority mask in
  let mask := setflag (nonempty (p_CorrelationId p)) flagCorrelationId mask in
  let mask := setflag (nonempty (p_ReplyTo p)) flagReplyTo mask in
  let mask := setflag (nonempty (p_Expiration p)) flagExpiration mask in
  let mask := setflag (nonempty (p_MessageId p)) flagMessageId mask in
  let mask := setflag (negb (IsZero (p_Timestamp p))) flagTimestamp mask in
  let mask := setflag (nonempty (p_Type p)) flagType mask in
  let mask := setflag (nonempty (p_UserId p)) flagUserId mask in
  let mask := setflag (nonempty (p_AppId p)) flagAppId mask in
  mask.

(** [if c { if err = w; err != nil { return } }] *)
Definition wwhen (c : bool) (w : Writer) : Writer := if c then w else wnil.

Definition header_payload (f : headerFrame) : Writer :=
  let p := hf_Properties f in
  let mask := header_mask p in
  writeUint 2 (hf_ClassId f) ;;;
  writeUint 2 (hf_weight f) ;;;
  writeUint 8 (hf_Size f) ;;;
  writeUint 2 mask ;;;
  wwhen (hasProperty mask flagContentType) (writeShortstr (p_ContentType p)) ;;;
  wwhen (hasProperty mask flagContentEncoding) (writeShortstr (p_ContentEncoding p)) ;;;
  wwhen (hasProperty mask flagHeaders) (writeTable (p_Headers p)) ;;;
  wwhen (hasProperty mask flagDeliveryMode) (writeUint 1 (p_DeliveryMode p)) ;;;
  wwhen (hasProperty mask flagPriority) (writeUint 1 (p_Priority p)) ;;;
  wwhen (hasProperty mask flagCorrelationId) (writeShortstr (p_CorrelationId p)) ;;;
  wwhen (hasProperty mask flagReplyTo) (writeShortstr (p_ReplyTo p)) ;;;
  wwhen (hasProperty mask flagExpiration) (writeShortstr (p_Expiration p)) ;;;
  wwhen (hasProperty mask flagMessageId) (writeShortstr (p_MessageId p)) ;;;
  wwhen (hasProperty mask flagTimestamp) (writeUint 8 (uintw 64 (Time_unix (p_Timestamp p)))) ;;;
  wwhen (hasProperty mask flagType) (writeShortstr (p_Type p)) ;;;
  wwhen (hasProperty mask flagUserId) (writeShortstr (p_UserId p)) ;;;
  wwhen (hasProperty mask flagAppId) (writeShortstr (p_AppId p)) ;;;
  wnil.

Definition headerFrame_write (f : headerFrame) : Writer :=
  framed frameHeader (hf_ChannelId f) (header_payload f).

(** [f.write(w)] *)
Definition frame_write (f : frame) : Writer :=
  match f with
  | F_protocolHeader => protocolHeader_write
  | F_method f => methodFrame_write f
  | F_header f => headerFrame_write f
  | F_body f => bodyFrame_write f
  | F_heartbeat f => heartbeatFrame_write f
  end.

(** [w.WriteFrameNoFlush(frame)] *)
Definition WriteFrameNoFlush (f : frame) : Writer := frame_write f.

(** [w.WriteFrame(frame)]: the sink here is what the peer receives, in which
    flushing the buffered writer changes nothing. *)
Definition WriteFrame (f : frame) : Writer := frame_write f ;;; wnil.

(** ** read.go *)

(** [if c { if x, err = r; err != nil { return } }], [x] keeping its zero
    value otherwise. *)
Definition rwhen {A} (c : bool) (zero : A) (r : Reader A) : Reader A := if c then r else rret zero.

(** The declared size of the frame is not used. *)
Definition parseHeaderFrame (channel size : Z) : Reader frame :=
  let* ClassId := readUint 2 in
  let* weight := readUint 2 in
  let* Size := readUint 8 in
  let* flags := readUint 2 in
  let* ContentType := rwhen (hasProperty flags flagContentType) EmptyString readShortstr in
  let* ContentEncoding := rwhen (hasProperty flags flagContentEncoding) EmptyString readShortstr in
  let* Headers := rwhen (hasProperty flags flagHeaders) [] readTable in
  let* DeliveryMode := rwhen (hasProperty flags flagDeliveryMode) 0 (readUint 1) in
  let* Priority := rwhen (hasProperty flags flagPriority) 0 (readUint 1) in
  let* CorrelationId := rwhen (hasProperty flags flagCorrelationId) EmptyString readShortstr in
  let* ReplyTo := rwhen (hasProperty flags flagReplyTo) EmptyString readShortstr in
  let* Expiration := rwhen (hasProperty flags flagExpiration) EmptyString readShortstr in
  let* MessageId := rwhen (hasProperty flags flagMessageId) EmptyString readShortstr in
  let* Timestamp := rwhen (hasProperty flags flagTimestamp) zeroTime readTimestamp in
  let* Type_ := rwhen (hasProperty flags flagType) EmptyString readShortstr in
  let* UserId := rwhen (hasProperty flags flagUserId) EmptyString readShortstr in
  let* AppId := rwhen (hasProperty flags flagAppId) EmptyString readShortstr in
  let* reserved1 := rwhen (hasProperty flags flagReserved1) EmptyString readShortstr in
  rret (F_header (Mk_headerFrame channel ClassId weight Size
    (MkProperties ContentType ContentEncoding Headers DeliveryMode Priority CorrelationId
       ReplyTo Expiration MessageId Timestamp Type_ UserId AppId reserved1))).

Definition parseBodyFrame (channel size : Z) : Reader frame :=
  let* Body := readFull (Z.to_nat size) in
  rret (F_body (Mk_bodyFrame channel Body)).

Definition errHeartbeatPayload : goerror := TextError "Heartbeats should not have a payload".

Definition parseHeartbeatFrame (channel size : Z) : Reader frame :=
  if 0 <? size then rerr errHeartbeatPayload
  else rret (F_heartbeat (Mk_heartbeatFrame channel)).

Definition ReadFrame : Reader frame :=
  let* scratch := readFull 7 in
  let typ := be_decode (take 1 scratch) in
  let channel := be_decode (take 2 (drop 1 scratch)) in
  let size := be_decode (take 4 (drop 3 scratch)) in
  let* frame :=
    (if typ =? frameMethod then
       let* mf := parseMethodFrame channel size in rret (F_method mf)
     else if typ =? frameHeader then parseHeaderFrame channel size
     else if typ =? frameBody then parseBodyFrame channel size
     else if typ =? frameHeartbeat then parseHeartbeatFrame channel size
     else rerr (AmqpError ErrFrame)) in
  let* last := readFull 1 in
  if negb (be_decode last =? frameEnd) then rerr (AmqpError ErrFrame)
  else rret frame.

(** [Fuzz]: 1 when a frame is read, 0 on an error; the call can panic.  Every
    return of [ReadFrame] with an error has a nil frame, so that an error of the
    model carries none, and the panic of [Fuzz] on such a frame is not there. *)
Definition Fuzz (data : list byte) : option Z :=
  match fst (ReadFrame (Rdr data EOF)) with
  | Ok _ => Some 1
  | Err _ => Some 0
  | Panicked | NoFuel => None
  end.
