(* ===== verification/FrameFacts.v ===== *)
(** * FrameFacts: reading inverts writing, frame by frame and on streams *)

From Stdlib Require Import Ascii.
From S2P Require Import Prelude Types Io Wire WireFacts WireCodec SpecBasic Spec091 Frame.

(** ** The reader loop *)

(** [for { frame, err := frames.ReadFrame(); if err != nil { ...; return };
    c.demux(frame) }]: the frames handed to [demux], in order, and how the
    loop ends.  A frame takes at least eight bytes. *)
Fixpoint reader_loop (fuel : nat) (r : rdr) : list frame * outcome frame :=
  match fuel with
  | O => ([], NoFuel)
  | S fuel' =>
      match ReadFrame r with
      | (Ok f, r') => let '(fs, o) := reader_loop fuel' r' in (f :: fs, o)
      | (o, _) => ([], o)
      end
  end.

Definition reader_frames (r : rdr) : list frame * outcome frame :=
  reader_loop (S (length (rd_bytes r))) r.

(** ** Frames that can be carried, and what is read back *)

Definition properties_ok (p : properties) : Prop :=
  shortstr_ok (p_ContentType p) = true /\
  shortstr_ok (p_ContentEncoding p) = true /\
  table_ok (p_Headers p) = true /\
  is_uint 8 (p_DeliveryMode p) /\
  is_uint 8 (p_Priority p) /\
  shortstr_ok (p_CorrelationId p) = true /\
  shortstr_ok (p_ReplyTo p) = true /\
  shortstr_ok (p_Expiration p) = true /\
  shortstr_ok (p_MessageId p) = true /\
  is_sint 64 (Time_unix (p_Timestamp p)) /\
  shortstr_ok (p_Type p) = true /\
  shortstr_ok (p_UserId p) = true /\
  shortstr_ok (p_AppId p) = true.

(** Headers are normalised, the timestamp loses its fraction of a second,
    [reserved1] is not sent. *)
Definition properties_norm (p : properties) : properties :=
  MkProperties (p_ContentType p) (p_ContentEncoding p) (norm_table (p_Headers p))
    (p_DeliveryMode p) (p_Priority p) (p_CorrelationId p) (p_ReplyTo p) (p_Expiration p)
    (p_MessageId p) (MkTime (Time_unix (p_Timestamp p)) 0) (p_Type p) (p_UserId p) (p_AppId p)
    EmptyString.

Definition frame_ok (f : frame) : Prop :=
  match f with
  | F_protocolHeader => False
  | F_method f =>
      is_uint 16 (mf_ChannelId f) /\
      match mf_Method f with Some m => message_ok m | None => False end
  | F_header f =>
      is_uint 16 (hf_ChannelId f) /\ is_uint 16 (hf_ClassId f) /\ is_uint 16 (hf_weight f) /\
      is_uint 64 (hf_Size f) /\ properties_ok (hf_Properties f)
  | F_body f => is_uint 16 (bf_ChannelId f) /\ len (bf_Body f) < 2 ^ 32
  | F_heartbeat f => is_uint 16 (hbf_ChannelId f)
  end.

(** A method frame is read with the ids of its method. *)
Definition frame_norm (f : frame) : frame :=
  match f with
  | F_method f =>
      match mf_Method f with
      | Some m =>
          F_method (Mk_methodFrame (mf_ChannelId f) (fst (message_id m)) (snd (message_id m))
                      (Some (message_norm m)))
      | None => F_method f
      end
  | F_header f =>
      F_header (Mk_headerFrame (hf_ChannelId f) (hf_ClassId f) (hf_weight f) (hf_Size f)
                  (properties_norm (hf_Properties f)))
  | _ => f
  end.

(** ** The frame envelope *)

Lemma Zbyte_land_255 z : Zbyte (Z.land z 255) = Zbyte z.
Proof.
  unfold Zbyte. change 255 with (Z.ones 8). rewrite Z.land_ones by lia.
  change (2 ^ 8) with 256. by rewrite Zmod_mod.
Qed.

(** [byte((z & mask) >> s)] is the octet of [z] at [s] when the mask selects it. *)
Lemma Zbyte_masked z m s : Z.shiftr m s = 255 -> Zbyte (Z.shiftr (Z.land z m) s) = Zbyte (Z.shiftr z s).
Proof. intros Hm. by rewrite Z.shiftr_land, Hm, Zbyte_land_255. Qed.

Lemma emits_writeFrame typ channel payload :
  emits (writeFrame typ channel payload)
    ((Zbyte typ :: be_encode 2 channel ++ be_encode 4 (len payload)) ++ payload ++ [Zbyte frameEnd]).
Proof.
  apply emits_seq; [|apply emits_seq; auto with codec].
  eapply emits_eq; [apply emits_writeBytes|]. rewrite !Zbyte_masked by done. done.
Qed.

(** The parser [ReadFrame] selects for a frame type. *)
Definition parseFrame (typ channel size : Z) : Reader frame :=
  if typ =? frameMethod then
    let* mf := parseMethodFrame channel size in rret (F_method mf)
  else if typ =? frameHeader then parseHeaderFrame channel size
  else if typ =? frameBody then parseBodyFrame channel size
  else if typ =? frameHeartbeat then parseHeartbeatFrame channel size
  else rerr (AmqpError ErrFrame).

(** A payload its parser reads back makes a frame [ReadFrame] reads back. *)
Lemma reads_frame typ channel payload f :
  is_uint 8 typ -> is_uint 16 channel ->
  reads (parseFrame typ channel (uintw 32 (len payload))) payload f ->
  reads ReadFrame
    ((Zbyte typ :: be_encode 2 channel ++ be_encode 4 (len payload)) ++ payload ++ [Zbyte frameEnd]) f.
Proof.
  intros Ht Hc Hp. set (scratch := Zbyte typ :: be_encode 2 channel ++ be_encode 4 (len payload)).
  assert (length scratch = 7%nat) as Hl by done.
  unfold ReadFrame. eapply reads_bind; [by apply reads_readFull|]. cbv zeta.
  replace (be_decode (take 1 scratch)) with typ
    by (cbn; rewrite byteZ_Zbyte, Z.mod_small; [done|apply Ht]).
  replace (be_decode (take 2 (drop 1 scratch))) with channel
    by (symmetry; apply (be_roundtrip 2), Hc).
  change (take 4 (drop 3 scratch)) with (be_encode 4 (len payload)).
  rewrite be_decode_encode. eapply reads_bind; [exact Hp|].
  rewrite <- (app_nil_r [_]). eapply reads_bind; [by apply reads_readFull|].
  apply reads_rret.
Qed.

Lemma framed_codec typ channel payload f :
  is_uint 8 typ -> is_uint 16 channel ->
  (forall size, codec payload (parseFrame typ channel size) f) ->
  codec (framed typ channel payload) ReadFrame f.
Proof.
  intros Ht Hc Hp. destruct (Hp 0) as (bs & He & _).
  destruct (Hp (uintw 32 (len bs))) as (bs' & He' & Hr).
  rewrite <- (emits_det _ _ _ He He') in Hr.
  eexists. split; [|by apply reads_frame]. intros buf. unfold framed.
  rewrite (emits_run _ _ He). apply emits_writeFrame.
Qed.

Lemma writeFrame_codec typ channel payload f :
  is_uint 8 typ -> is_uint 16 channel ->
  reads (parseFrame typ channel (uintw 32 (len payload))) payload f ->
  codec (writeFrame typ channel payload) ReadFrame f.
Proof. intros. eexists. split; [apply emits_writeFrame|by apply reads_frame]. Qed.

(** ** Header frames *)

Lemma hasProperty_set_eq c flag mask :
  0 < flag -> hasProperty (setflag c flag mask) flag = c || hasProperty mask flag.
Proof.
  intros Hf. unfold setflag. destruct c; [|done]. unfold hasProperty.
  rewrite Z.land_lor_distr_l, Z.land_diag. apply Z.ltb_lt.
  assert (Z.land flag (Z.lor (Z.land mask flag) flag) = flag) as E.
  { rewrite Z.land_lor_distr_r, Z.land_diag, (Z.land_comm mask), Z.land_assoc, Z.land_diag.
    rewrite Z.lor_comm. apply Z.bits_inj'. intros i _. rewrite Z.lor_spec, Z.land_spec.
    by destruct (Z.testbit flag i). }
  destruct (Z.eq_dec (Z.lor (Z.land mask flag) flag) 0) as [E0|].
  { rewrite E0, Z.land_0_r in E. lia. }
  enough (0 <= Z.lor (Z.land mask flag) flag) by lia.
  apply Z.lor_nonneg. split; [apply Z.land_nonneg|]; lia.
Qed.

Lemma hasProperty_set_ne c flag flag' mask :
  Z.land flag' flag = 0 -> hasProperty (setflag c flag' mask) flag = hasProperty mask flag.
Proof.
  intros Hf. unfold setflag. destruct c; [|done]. unfold hasProperty.
  by rewrite Z.land_lor_distr_l, Hf, Z.lor_0_r.
Qed.

Lemma hasProperty_0 flag : hasProperty 0 flag = false.
Proof. unfold hasProperty. by rewrite Z.land_0_l. Qed.

Lemma setflag_uint16 c flag mask :
  is_uint 16 flag -> is_uint 16 mask -> is_uint 16 (setflag c flag mask).
Proof.
  unfold setflag, is_uint. destruct c; [|done]. intros [H1 H2] [H3 H4].
  assert (Z.lor mask flag = Z.lor mask flag mod 2 ^ 16) as ->;
    [|apply Z.mod_pos_bound; lia].
  apply Z.bits_inj'. intros i Hi. destruct (Z.ltb_spec i 16).
  - by rewrite Z.mod_pow2_bits_low.
  - rewrite Z.mod_pow2_bits_high by lia.
    rewrite <- (Z.mod_small mask (2 ^ 16)), <- (Z.mod_small flag (2 ^ 16)) by lia.
    by rewrite Z.lor_spec, !Z.mod_pow2_bits_high by lia.
Qed.

Ltac short_mask := solve [repeat first [apply setflag_uint16; [by vm_compute|] | by vm_compute]].

Lemma header_mask_range p : is_uint 16 (header_mask p).
Proof. unfold header_mask. cbv zeta. short_mask. Qed.

(** Evaluates a property test on the mask of the first pass. *)
Ltac eval_mask :=
  unfold header_mask; cbv zeta;
  repeat first
    [ rewrite hasProperty_set_ne by reflexivity
    | rewrite hasProperty_set_eq by reflexivity
    | rewrite hasProperty_0 ];
  rewrite ?orb_false_r.

(** The mask announces exactly the properties that differ from their zero
    value, and never [reserved1]. *)
Lemma header_mask_spec p :
  hasProperty (header_mask p) flagContentType = nonempty (p_ContentType p) /\
  hasProperty (header_mask p) flagContentEncoding = nonempty (p_ContentEncoding p) /\
  hasProperty (header_mask p) flagHeaders = (0 <? len (p_Headers p)) /\
  hasProperty (header_mask p) flagDeliveryMode = (0 <? p_DeliveryMode p) /\
  hasProperty (header_mask p) flagPriority = (0 <? p_Priority p) /\
  hasProperty (header_mask p) flagCorrelationId = nonempty (p_CorrelationId p) /\
  hasProperty (header_mask p) flagReplyTo = nonempty (p_ReplyTo p) /\
  hasProperty (header_mask p) flagExpiration = nonempty (p_Expiration p) /\
  hasProperty (header_mask p) flagMessageId = nonempty (p_MessageId p) /\
  hasProperty (header_mask p) flagTimestamp = negb (IsZero (p_Timestamp p)) /\
  hasProperty (header_mask p) flagType = nonempty (p_Type p) /\
  hasProperty (header_mask p) flagUserId = nonempty (p_UserId p) /\
  hasProperty (header_mask p) flagAppId = nonempty (p_AppId p) /\
  hasProperty (header_mask p) flagReserved1 = false.
Proof. split_and!; eval_mask; done. Qed.

Lemma codec_when {A} c w (r : Reader A) zero a :
  (c = true -> codec w r a) -> (c = false -> a = zero) -> codec (wwhen c w) (rwhen c zero r) a.
Proof. intros H1 H2. destruct c; simpl; [by apply H1|]. rewrite H2 by done. apply codec_ret. Qed.

Lemma codec_when_str c s :
  c = nonempty s -> shortstr_ok s = true ->
  codec (wwhen c (writeShortstr s)) (rwhen c EmptyString readShortstr) s.
Proof.
  intros -> Hs. apply codec_when; [auto with codec|]. unfold nonempty.
  intros H. by apply negb_false_iff, bool_decide_eq_true in H.
Qed.

Lemma codec_when_octet c z :
  c = (0 <? z) -> is_uint 8 z -> codec (wwhen c (writeUint 1 z)) (rwhen c 0 (readUint 1)) z.
Proof.
  intros -> Hz. apply codec_when; [by intros; apply codec_uint|]. intros H%Z.ltb_ge.
  unfold is_uint in Hz. lia.
Qed.

Lemma codec_when_table c t :
  c = (0 <? len t) -> table_ok t = true ->
  codec (wwhen c (writeTable t)) (rwhen c [] readTable) (norm_table t).
Proof.
  intros -> Ht. apply codec_when; [auto with codec|]. intros H%Z.ltb_ge.
  destruct t; [done|]. unfold len in H. simpl in H. lia.
Qed.

Lemma codec_when_time c t :
  c = negb (IsZero t) -> is_sint 64 (Time_unix t) ->
  codec (wwhen c (writeUint 8 (uintw 64 (Time_unix t)))) (rwhen c zeroTime readTimestamp)
    (MkTime (Time_unix t) 0).
Proof.
  intros -> Ht. apply codec_when.
  - exists (be_encode 8 (uintw 64 (Time_unix t))). split; [done|by apply reads_timestamp].
  - intros H%negb_false_iff. apply andb_true_iff in H as [H%Z.eqb_eq _]. by rewrite H.
Qed.

Lemma header_codec f size :
  frame_ok (F_header f) ->
  codec (header_payload f) (parseHeaderFrame (hf_ChannelId f) size) (frame_norm (F_header f)).
Proof.
  intros (_ & H1 & H2 & H3 & Hp). destruct f as [ch cid wt sz p]. cbn [hf_ChannelId hf_ClassId hf_weight hf_Size hf_Properties] in *.
  destruct Hp as (?&?&?&?&?&?&?&?&?&?&?&?&?).
  destruct (header_mask_spec p) as (?&?&?&?&?&?&?&?&?&?&?&?&?&E).
  pose proof (header_mask_range p) as Hm. unfold header_payload, parseHeaderFrame.
  cbn [hf_ChannelId hf_ClassId hf_weight hf_Size hf_Properties]. cbv zeta.
  do 4 (eapply codec_bind; [by apply codec_uint|cbv beta]).
  generalize dependent (header_mask p). intros mask Hm **.
  repeat (eapply codec_bind;
    [first [ by apply codec_when_str | by apply codec_when_octet
           | by apply codec_when_table | by apply codec_when_time ]|cbv beta]).
  rewrite E. unfold rwhen. exists []. split; [apply emits_wnil|]. apply reads_rret.
Qed.

(** ** Every frame *)

Lemma method_codec f size :
  frame_ok (F_method f) ->
  codec (let '(class, method) := from_option message_id (0, 0) (mf_Method f) in
         writeUint 2 class ;;; writeUint 2 method ;;; from_option message_write wnil (mf_Method f))
    (parseFrame frameMethod (mf_ChannelId f) size) (frame_norm (F_method f)).
Proof.
  intros [Hc Hm]. destruct f as [ch cid mid [m|]]; [|done]. cbn [mf_ChannelId mf_Method from_option] in *.
  destruct (message_id_range m) as [H1 H2]. pose proof (message_codec m Hm) as Hcod.
  cbn [frame_norm mf_Method mf_ChannelId]. destruct (message_id m) as [class method]. cbn [fst snd] in *.
  apply (codec_map _ (parseMethodFrame ch size) F_method).
  do 2 (eapply codec_bind; [by apply codec_uint|cbv beta]).
  by apply (codec_map _ _ (fun x => Mk_methodFrame ch class method (Some x))).
Qed.

Lemma frame_codec f : frame_ok f -> codec (frame_write f) ReadFrame (frame_norm f).
Proof.
  destruct f as [|f|f|f|f]; [done|..]; intros Hf; cbn [frame_write].
  - pose proof (method_codec f) as H. unfold methodFrame_write. destruct (Hf) as [Hc Hm].
    destruct (mf_Method f) as [m|] eqn:Em; [|done]. cbn [from_option] in H.
    destruct (message_id m) as [class method] eqn:Ei.
    apply framed_codec; [by vm_compute|exact Hc|]. intros size. by apply H.
  - destruct (Hf) as [Hc _]. apply framed_codec; [by vm_compute|exact Hc|].
    intros size. by apply header_codec.
  - destruct Hf as [Hc Hb], f as [ch body]. cbn [bf_ChannelId bf_Body] in *.
    unfold bodyFrame_write. apply writeFrame_codec; [by vm_compute|exact Hc|].
    cbn [bf_Body frame_norm].
    rewrite uintw_small by (pose proof (len_nonneg body); unfold is_uint; lia).
    apply (reads_map (readFull _) (fun b => F_body (Mk_bodyFrame ch b))).
    apply reads_readFull. unfold len. lia.
  - destruct f as [ch]. unfold heartbeatFrame_write.
    apply writeFrame_codec; [by vm_compute|exact Hf|]. apply reads_rret.
Qed.

(** ** Reading finishes *)

(** A reader that leaves a suffix of its input and finishes on every input. *)
Definition well {A} (c : Reader A) : Prop := shrinks 0 c /\ forall n, total_below n c.

Lemma well_bind {A B} (c : Reader A) (k : A -> Reader B) :
  well c -> (forall a, well (k a)) -> well (rbind c k).
Proof.
  intros [Hs Ht] Hk. split.
  - eapply shrinks_bind_0; [exact Hs|]. intros a. apply Hk.
  - intros n. eapply total_bind_0; [exact Hs|apply Ht|]. intros a. apply Hk.
Qed.

Lemma well_of {A} d (c : Reader A) : shrinks d c -> (forall n, total_below n c) -> well c.
Proof. intros Hs Ht. split; [eapply shrinks_weaken; [|exact Hs]; lia|exact Ht]. Qed.

Lemma well_rret {A} (a : A) : well (rret a).
Proof. apply (well_of 0); auto with reading. Qed.
Lemma well_rerr {A} e : well (@rerr A e).
Proof. apply (well_of 0); auto with reading. Qed.
Lemma well_readFull n : well (readFull n).
Proof. apply (well_of n); auto with reading. Qed.
Lemma well_readUint n : well (readUint n).
Proof. apply (well_of n); auto with reading. Qed.
Lemma well_readShortstr : well readShortstr.
Proof. apply (well_of 1); auto with reading. Qed.
Lemma well_readLongstr : well readLongstr.
Proof. apply (well_of 0); auto with reading. Qed.
Lemma well_readTable : well readTable.
Proof. apply (well_of 0); auto with reading. Qed.
Lemma well_readTimestamp : well readTimestamp.
Proof. apply (well_of 0); auto with reading. Qed.
Lemma well_if {A} (b : bool) (c1 c2 : Reader A) : well c1 -> well c2 -> well (if b then c1 else c2).
Proof. by destruct b. Qed.
Lemma well_rwhen {A} b (z : A) c : well c -> well (rwhen b z c).
Proof. intros. apply well_if; [done|apply well_rret]. Qed.

#[export] Hint Resolve well_rret well_rerr well_readFull well_readUint well_readShortstr
  well_readLongstr well_readTable well_readTimestamp well_rwhen : reading.

(** A sequence of reads, unfolding the reader it is the body of. *)
Ltac well_reader :=
  repeat (cbv zeta; first
    [ solve [auto with reading]
    | apply well_if
    | apply well_bind; [|intros ?]
    | match goal with |- well (match ?x with _ => _ end) => destruct x end
    | match goal with |- well ?c => let h := get_head c in unfold h end ]).

Lemma well_parseMethodFrame channel size : well (parseMethodFrame channel size).
Proof. well_reader. Qed.
#[export] Hint Resolve well_parseMethodFrame : reading.

Lemma well_parseFrame typ channel size : well (parseFrame typ channel size).
Proof. well_reader. Qed.

(** Eight bytes of envelope around the payload. *)
Lemma shrinks_ReadFrame : shrinks 8 ReadFrame.
Proof.
  apply (shrinks_bind 7 1); [apply shrinks_readFull|]. intros scratch. cbv zeta.
  apply (shrinks_bind 0 1); [apply well_parseFrame|]. intros f.
  apply (shrinks_bind 1 0); [apply shrinks_readFull|]. intros last.
  apply shrinks_if; auto with reading.
Qed.

Lemma well_ReadFrame : well ReadFrame.
Proof.
  apply well_bind; [auto with reading|]. intros scratch. cbv zeta.
  apply well_bind; [apply well_parseFrame|]. intros f. well_reader.
Qed.

Lemma reader_loop_total n r : (length (rd_bytes r) < n)%nat -> snd (reader_loop n r) <> NoFuel.
Proof.
  revert r. induction n as [|n IH]; intros r Hr; [lia|]. simpl.
  destruct (ReadFrame r) as [o r'] eqn:E.
  destruct (shrinks_ReadFrame _ _ _ E) as (_ & used & Hu & Hd).
  destruct well_ReadFrame as [_ Ht]. specialize (Ht (S (length (rd_bytes r))) r ltac:(lia)).
  rewrite E in Ht. simpl in Ht. destruct o as [f| | |]; try done.
  specialize (Hd f eq_refl). rewrite Hu, length_app in Hr.
  specialize (IH r' ltac:(lia)). by destruct (reader_loop n r').
Qed.

(** ** Streams *)

(** Frames sent one after the other. *)
Definition write_frames (fs : list frame) : Writer := foldr (fun f w => WriteFrame f ;;; w) wnil fs.

Lemma emits_WriteFrame f bs : emits (frame_write f) bs -> emits (WriteFrame f) bs.
Proof. intros H. rewrite <- (app_nil_r bs). apply emits_seq; [exact H|apply emits_wnil]. Qed.

Lemma ReadFrame_end e : e <> ErrUnexpectedEOF -> ReadFrame (Rdr [] e) = (Err e, Rdr [] e).
Proof. by destruct e. Qed.

Lemma stream_codec fs :
  Forall frame_ok fs ->
  exists bs, emits (write_frames fs) bs /\
    forall e n, e <> ErrUnexpectedEOF -> (length fs < n)%nat ->
      reader_loop n (Rdr bs e) = (frame_norm <$> fs, Err e).
Proof.
  induction 1 as [|f fs Hf _ (bs & He & Hr)].
  - exists []. split; [apply emits_wnil|]. intros e [|n] He Hn; [simpl in Hn; lia|].
    cbn [reader_loop]. by rewrite ReadFrame_end.
  - destruct (frame_codec f Hf) as (bf & Hef & Hrf). exists (bf ++ bs).
    split; [by apply emits_seq; [apply emits_WriteFrame|]|]. intros e [|n] Hne Hn; [simpl in Hn; lia|].
    cbn [reader_loop]. rewrite (Hrf bs e), (Hr e n); [done|done|simpl in Hn; lia].
Qed.

Lemma emits_frame_length f bs : frame_ok f -> emits (frame_write f) bs -> (8 <= length bs)%nat.
Proof.
  intros Hf He. destruct (frame_codec f Hf) as (bs' & He' & Hr).
  rewrite <- (emits_det _ _ _ He He') in Hr. specialize (Hr [] EOF).
  destruct (shrinks_ReadFrame _ _ _ Hr) as (_ & used & Hu & Hd).
  specialize (Hd _ eq_refl). simpl in Hu. rewrite !app_nil_r in Hu. by rewrite Hu.
Qed.

Lemma emits_frames_length fs bs :
  Forall frame_ok fs -> emits (write_frames fs) bs -> (length fs <= length bs)%nat.
Proof.
  intros Hfs. revert bs. induction Hfs as [|f fs Hf Hfs IH]; intros bs He; [simpl; lia|].
  destruct (frame_codec f Hf) as (b1 & E1 & _). destruct (stream_codec fs Hfs) as (b2 & E2 & _).
  rewrite (emits_det _ _ _ He (emits_seq _ _ _ _ (emits_WriteFrame _ _ E1) E2)), length_app.
  pose proof (emits_frame_length f b1 Hf E1). specialize (IH b2 E2). simpl. lia.
Qed.

(** ** Properties *)

(** C2: whatever frames are written one after the other, the reader loop
    hands exactly those frames to the demultiplexer, in order (with the
    documented normalisations of values), and then stops with the error the
    transport ends with. *)
Theorem stream_roundtrip fs e :
  Forall frame_ok fs -> e <> ErrUnexpectedEOF ->
  exists bs, run_writer (write_frames fs) = (None, bs) /\
    reader_frames (Rdr bs e) = (frame_norm <$> fs, Err e).
Proof.
  intros Hfs He. destruct (stream_codec fs Hfs) as (bs & Hw & Hr). exists bs.
  split; [by apply emits_run|]. apply Hr; [done|].
  pose proof (emits_frames_length fs bs Hfs Hw). simpl. lia.
Qed.

Definition sample_frames : list frame :=
  [ F_method (Mk_methodFrame 1 0 0 (Some (M_basicPublish
      (Mk_basicPublish 0 "ex" "key" true false zeroProperties []))));
    F_header (Mk_headerFrame 1 60 0 3
      (MkProperties "text/plain" "" [("n", VInt 7); ("a", VArray [VNil; VBool true])]
         2 0 "" "" "" "" (MkTime 1700000000 5) "" "" "" ""));
    F_body (Mk_bodyFrame 1 (bytes_of_string "abc"));
    F_heartbeat (Mk_heartbeatFrame 0) ].

Lemma sample_frames_ok : Forall frame_ok sample_frames.
Proof.
  unfold sample_frames.
  repeat first [constructor | by vm_compute | progress (cbn; unfold properties_ok; cbn) | split_and!].
Qed.

Lemma stream_roundtrip_witness :
  exists bs, run_writer (write_frames sample_frames) = (None, bs) /\
    reader_frames (Rdr bs EOF) = (frame_norm <$> sample_frames, Err EOF).
Proof. apply (stream_roundtrip sample_frames EOF); [apply sample_frames_ok|done]. Defined.

(** C25: on any bytes at all, [ReadFrame] returns a frame or an error or
    panics, it never loops (the recursion bounds of the field readers are
    never reached), and so the reader loop comes to an end on any finite
    input. *)
Theorem reading_terminates r :
  fst (ReadFrame r) <> NoFuel /\ snd (reader_frames r) <> NoFuel.
Proof.
  split; [|apply reader_loop_total; lia].
  destruct well_ReadFrame as [_ Ht]. apply (Ht (S (length (rd_bytes r)))). lia.
Qed.

(** A frame of an unknown type is refused before its payload is read. *)
Lemma ReadFrame_unknown typ channel size rest e :
  is_uint 8 typ -> typ ∉ [frameMethod; frameHeader; frameBody; frameHeartbeat] ->
  ReadFrame (Rdr (Zbyte typ :: be_encode 2 channel ++ be_encode 4 size ++ rest) e) =
  (Err (AmqpError ErrFrame), Rdr rest e).
Proof.
  intros Ht Hne. set (scratch := Zbyte typ :: be_encode 2 channel ++ be_encode 4 size).
  assert (length scratch = 7%nat) as Hl by done.
  change (Zbyte typ :: _) with (scratch ++ rest).
  unfold ReadFrame. erewrite rbind_ok; [|by apply reads_readFull]. cbv zeta.
  replace (be_decode (take 1 scratch)) with typ
    by (cbn; rewrite byteZ_Zbyte, Z.mod_small; [done|apply Ht]).
  rewrite !not_elem_of_cons in Hne. destruct Hne as (H1 & H2 & H3 & H4 & _).
  rewrite !(proj2 (Z.eqb_neq _ _)) by done. done.
Qed.

(** The header frame on channel 1 whose header table holds one byte-array
    field that declares a length of -1. *)
Definition negative_length_frame : list byte :=
  Zbyte <$> [2; 0; 1; 0; 0; 0; 25] ++
    [0; 60; 0; 0; 0; 0; 0; 0; 0; 0; 0; 0; 0x20; 0] ++
    [0; 0; 0; 7; 1; 97; 120; 255; 255; 255; 255] ++ [206].

(** A byte-array field whose declared length is negative makes the
    reader panic instead of returning an error ([make] is called with the
    length as received), and so 33 bytes from the peer crash the process,
    [Fuzz] included. *)
Theorem negative_length_panics :
  (forall n rest e, is_sint 32 n -> n < 0 ->
     readField (Rdr (tag "x" :: be_encode 4 (uintw 32 n) ++ rest) e) = (Panicked, Rdr rest e)) /\
  fst (ReadFrame (Rdr negative_length_frame EOF)) = Panicked /\
  Fuzz negative_length_frame = None.
Proof.
  split; [|by vm_compute]. intros n rest e Hn Hneg. unfold readField.
  cbn [rd_bytes length readField_fuel].
  erewrite rbind_ok; [|apply (reads_octet 120); by vm_compute].
  change (ascii_of_byte (Zbyte 120)) with "x"%char. cbn [readField_switch Ascii.eqb Bool.eqb].
  unfold readField_switch. simpl Ascii.eqb. cbn iota.
  erewrite rbind_ok; [|apply (reads_readInt_ok 4); [lia|exact Hn]].
  by rewrite (proj2 (Z.ltb_lt n 0)).
Qed.
