(* ===== verification/Allocator.v ===== *)
(** * Allocator: the channel id allocator (allocator.go)

    The bit set of reserved numbers with its rolling index; [next] hands out
    the first free number cyclically after the index.  [IdPool] is what the
    connection relies on; the allocator implements it. *)

From Stdlib Require Import Sorting.Sorted.
From stdpp Require Import pretty.
From S2P Require Import Prelude Types Io.

(** ** big.Int *)

(** [x.Bit(i)] and [x.SetBit(x, i, b)] of a non-negative [big.Int]; both
    panic on a negative index. *)
Definition Bit (x i : Z) : outcome bool :=
  if i <? 0 then Panicked else Ok (Z.testbit x i).

Definition SetBit (x i : Z) (b : bool) : outcome Z :=
  if i <? 0 then Panicked else Ok (if b then Z.setbit x i else Z.clearbit x i).

(** ** The allocator *)

(** [type allocator struct]; [low], [high] and [follow] stay far from the
    bounds of [int] (the connection uses 1..65535). *)
Record allocator := MkAllocator {
  pool : Z;
  follow : Z;
  low : Z;
  high : Z
}.

Definition newAllocator (low high : Z) : allocator :=
  {| pool := 0; follow := low; low := low; high := high |}.

Definition set_pool (p : Z) (a : allocator) : allocator := MkAllocator p (follow a) (low a) (high a).
Definition set_follow (f : Z) (a : allocator) : allocator := MkAllocator (pool a) f (low a) (high a).

Definition reserved (a : allocator) (n : Z) : outcome bool := Bit (pool a) (n - low a).

Definition reserve (a : allocator) (n : Z) : outcome (bool * allocator) :=
  let! r := reserved a n in
  if r then Ok (false, a)
  else
    let! p := SetBit (pool a) (n - low a) true in
    Ok (true, set_pool p a).

Definition release (a : allocator) (n : Z) : outcome allocator :=
  let! p := SetBit (pool a) (n - low a) false in
  Ok (set_pool p a).

(** [for ; a.follow < stop; a.follow++ { if a.reserve(a.follow) { return
    a.follow, true } }] *)
Fixpoint next_loop (fuel : nat) (stop : Z) (a : allocator) : outcome (option Z * allocator) :=
  if follow a <? stop then
    match fuel with
    | O => NoFuel
    | S fuel' =>
        let! (r, a') := reserve a (follow a) in
        if r then Ok (Some (follow a'), a')
        else next_loop fuel' stop (set_follow (follow a' + 1) a')
    end
  else Ok (None, a).

(** The deferred function of [next]. *)
Definition advance (a : allocator) : allocator :=
  if follow a =? high a then set_follow (low a) a else set_follow (follow a + 1) a.

(** [None] is the result [(0, false)]. *)
Definition next (a : allocator) : outcome (option Z * allocator) :=
  let wrapped := follow a in
  let! (r, a) := next_loop (Z.to_nat (high a + 1 - follow a)) (high a + 1) a in
  match r with
  | Some n => Ok (Some n, advance a)
  | None =>
      let a := set_follow (low a) a in
      let! (r, a) := next_loop (Z.to_nat (wrapped - low a)) wrapped a in
      Ok (r, advance a)
  end.

(** [for a.reserved(high) && high <= a.high { high++ }] *)
Fixpoint run_end (fuel : nat) (a : allocator) (h : Z) : outcome Z :=
  let! r := reserved a h in
  if r && (h <=? high a) then
    match fuel with
    | O => NoFuel
    | S fuel' => run_end fuel' a (h + 1)
    end
  else Ok h.

(** The loop of [String]: the runs [l..h-1] it prints. *)
Fixpoint String_loop (fuel : nat) (a : allocator) (l : Z) : outcome (list (Z * Z)) :=
  if l <=? high a then
    match fuel with
    | O => NoFuel
    | S fuel' =>
        let! h := run_end (Z.to_nat (high a + 1 - l)) a l in
        let! r := String_loop fuel' a (h + 1) in
        Ok (if l <? h then (l, h) :: r else r)
    end
  else Ok [].

Definition String_runs (a : allocator) : outcome (list (Z * Z)) :=
  String_loop (Z.to_nat (high a + 1 - low a)) a (low a).

Definition show_run (lh : Z * Z) : string :=
  let '(l, h) := lh in
  if l + 1 <? h then " " +:+ pretty l +:+ ".." +:+ pretty (h - 1) else " " +:+ pretty (h - 1).

Definition allocator_String (a : allocator) : outcome string :=
  let! runs := String_runs a in
  Ok ("allocator[" +:+ pretty (low a) +:+ ".." +:+ pretty (high a) +:+ "]" +:+
      foldr (fun lh s => show_run lh +:+ s) EmptyString runs).

Example String_doc :
  (let! (b, a) := next (newAllocator 1 10) in
   let! (b, a) := next a in
   let! (b, a) := next a in
   let! (b, a) := reserve a 7 in
   allocator_String a) = Ok "allocator[1..10] 1..3 7".
Proof. by vm_compute. Qed.

(** ** Abstract state *)

(** The reserved numbers of the range. *)
Definition is_reserved (a : allocator) (n : Z) : bool := Z.testbit (pool a) (n - low a).

Definition ids (a : allocator) : gset Z :=
  list_to_set (filter (fun n => is_reserved a n = true) (seqZ (low a) (high a + 1 - low a))).

Definition range (a : allocator) : gset Z := list_to_set (seqZ (low a) (high a + 1 - low a)).

(** The index is in the range and no bit above the range is set. *)
Record allocator_wf (a : allocator) : Prop := {
  wf_pool : 0 <= pool a;
  wf_follow : low a <= follow a <= high a;
  wf_high : forall n, high a < n -> is_reserved a n = false
}.

(** ** Facts *)

Lemma elem_of_ids a n : n ∈ ids a <-> low a <= n <= high a /\ is_reserved a n = true.
Proof.
  unfold ids. rewrite elem_of_list_to_set, list_elem_of_filter, elem_of_seqZ. naive_solver lia.
Qed.

Lemma elem_of_range a n : n ∈ range a <-> low a <= n <= high a.
Proof. unfold range. rewrite elem_of_list_to_set, elem_of_seqZ. lia. Qed.

Lemma newAllocator_wf l h : l <= h -> allocator_wf (newAllocator l h).
Proof. intros. split; simpl; [lia..|]. intros. apply Z.bits_0. Qed.

Lemma newAllocator_ids l h : ids (newAllocator l h) = ∅.
Proof.
  apply set_eq. intros n. rewrite elem_of_ids. unfold is_reserved. simpl. rewrite Z.bits_0. set_solver.
Qed.

Lemma reserved_ok a n : low a <= n -> reserved a n = Ok (is_reserved a n).
Proof. intros. unfold reserved, Bit. by rewrite (proj2 (Z.ltb_ge _ _)) by lia. Qed.

Definition mark (a : allocator) (n : Z) : allocator := set_pool (Z.setbit (pool a) (n - low a)) a.
Definition unmark (a : allocator) (n : Z) : allocator := set_pool (Z.clearbit (pool a) (n - low a)) a.

Lemma reserve_ok a n :
  low a <= n -> reserve a n = Ok (if is_reserved a n then (false, a) else (true, mark a n)).
Proof.
  intros. unfold reserve. rewrite reserved_ok by done. simpl. destruct (is_reserved a n); [done|].
  unfold SetBit. by rewrite (proj2 (Z.ltb_ge _ _)) by lia.
Qed.

Lemma release_ok a n : low a <= n -> release a n = Ok (unmark a n).
Proof. intros. unfold release, SetBit. by rewrite (proj2 (Z.ltb_ge _ _)) by lia. Qed.

Lemma is_reserved_mark a n m :
  low a <= n -> low a <= m -> is_reserved (mark a n) m = bool_decide (n = m) || is_reserved a m.
Proof.
  intros. unfold is_reserved, mark. simpl. rewrite Z.setbit_eqb by lia.
  f_equal. case_bool_decide; [subst; apply Z.eqb_refl|apply Z.eqb_neq; lia].
Qed.

Lemma is_reserved_unmark a n m :
  low a <= n -> is_reserved (unmark a n) m = negb (bool_decide (n = m)) && is_reserved a m.
Proof.
  intros. unfold is_reserved, unmark. simpl. rewrite Z.clearbit_eqb by lia.
  rewrite andb_comm. f_equal. f_equal.
  case_bool_decide; [subst; apply Z.eqb_refl|apply Z.eqb_neq; lia].
Qed.

Lemma ids_mark a n : low a <= n <= high a -> ids (mark a n) = {[n]} ∪ ids a.
Proof.
  intros Hn. apply set_eq. intros m. rewrite elem_of_union, elem_of_singleton, !elem_of_ids.
  change (low (mark a n)) with (low a). change (high (mark a n)) with (high a).
  split.
  - intros [Hm H]. rewrite is_reserved_mark in H by lia. case_bool_decide; [by left|by right].
  - intros [->|[Hm H]]; (split; [done|]); rewrite is_reserved_mark by lia;
      [by rewrite bool_decide_eq_true_2|]. by rewrite H, orb_true_r.
Qed.

Lemma ids_unmark a n : low a <= n -> ids (unmark a n) = ids a ∖ {[n]}.
Proof.
  intros Hn. apply set_eq. intros m. rewrite elem_of_difference, elem_of_singleton, !elem_of_ids.
  change (low (unmark a n)) with (low a). change (high (unmark a n)) with (high a).
  rewrite is_reserved_unmark by done. case_bool_decide; simpl; naive_solver.
Qed.

Lemma setbit_nonneg p i : 0 <= i -> 0 <= p -> 0 <= Z.setbit p i.
Proof. intros. rewrite Z.setbit_spec'. apply Z.lor_nonneg. split; [done|]. apply Z.pow_nonneg. lia. Qed.

Lemma mark_wf a n : low a <= n <= high a -> allocator_wf a -> allocator_wf (mark a n).
Proof.
  intros Hn [Hp Hf Hh]. split; [by apply setbit_nonneg; [lia|]|done|].
  change (high (mark a n)) with (high a). intros m Hm. rewrite is_reserved_mark by lia.
  rewrite bool_decide_eq_false_2 by lia. simpl. auto.
Qed.

Lemma unmark_wf a n : low a <= n -> allocator_wf a -> allocator_wf (unmark a n).
Proof.
  intros Hn [Hp Hf Hh]. split; [|done|].
  - unfold unmark, set_pool, Z.clearbit. cbn [pool]. by apply Z.ldiff_nonneg; left.
  - change (high (unmark a n)) with (high a). intros m Hm. rewrite is_reserved_unmark by lia.
    rewrite Hh by done. apply andb_false_r.
Qed.

Lemma advance_wf a : allocator_wf a -> allocator_wf (advance a).
Proof.
  intros [Hp Hf Hh]. unfold advance. destruct (Z.eqb_spec (follow a) (high a)); (split; [done| |done]); simpl; lia.
Qed.

Lemma ids_advance a : ids (advance a) = ids a.
Proof. unfold advance. by case_match. Qed.

Lemma ids_set_follow f a : ids (set_follow f a) = ids a.
Proof. done. Qed.

(** A scan stops at the first free number before [stop], or at [stop] with
    the pool as it was. *)
Lemma next_loop_spec fuel stop a :
  low a <= follow a -> stop - follow a <= Z.of_nat fuel ->
  (exists n, follow a <= n < stop /\ is_reserved a n = false /\
     (forall m, follow a <= m < n -> is_reserved a m = true) /\
     next_loop fuel stop a = Ok (Some n, mark (set_follow n a) n)) \/
  ((forall m, follow a <= m < stop -> is_reserved a m = true) /\
   next_loop fuel stop a = Ok (None, set_follow (Z.max (follow a) stop) a)).
Proof.
  revert a. induction fuel as [|fuel IH]; intros a Hl Hf; cbn [next_loop];
    destruct (Z.ltb_spec (follow a) stop) as [Hlt|Hge]; try lia.
  1, 3: right; split; [lia|]; rewrite Z.max_l by lia; by destruct a.
  rewrite reserve_ok by done. simpl. destruct (is_reserved a (follow a)) eqn:E; simpl.
  - destruct (IH (set_follow (follow a + 1) a)) as [(n & Hn & Hfree & Hall & Heq)|[Hall Heq]];
      simpl in *; [lia|lia|left|right].
    + exists n. split; [lia|]. split; [done|]. split; [|by rewrite Heq].
      intros m Hm. destruct (Z.eq_dec m (follow a)) as [->|]; [done|]. apply Hall. lia.
    + split; [|rewrite Heq, !Z.max_r by lia; done].
      intros m Hm. destruct (Z.eq_dec m (follow a)) as [->|]; [done|]. apply Hall. lia.
  - left. exists (follow a). split; [lia|]. split; [done|]. split; [lia|]. by destruct a.
Qed.

(** Steps from [f] to [n] going up and around the range. *)
Definition distance (a : allocator) (n : Z) : Z := (n - follow a) mod (high a + 1 - low a).

Lemma distance_up a n : follow a <= n <= high a -> low a <= follow a -> distance a n = n - follow a.
Proof. intros. unfold distance. apply Z.mod_small. lia. Qed.

Lemma distance_wrap a n :
  low a <= n < follow a -> follow a <= high a -> distance a n = n - follow a + (high a + 1 - low a).
Proof.
  intros. unfold distance. symmetry.
  apply (Z.mod_unique_pos _ _ (-1)); [|ring]. lia.
Qed.

(** What [next] does: the free number nearest to the index, going up and
    around, or nothing when every number is reserved. *)
Definition next_result (a : allocator) (r : option Z) (a' : allocator) : Prop :=
  allocator_wf a' /\ low a' = low a /\ high a' = high a /\
  match r with
  | Some n =>
      low a <= n <= high a /\ (n ∉ ids a) /\ ids a' = {[n]} ∪ ids a /\
      (forall m, low a <= m <= high a -> m ∉ ids a -> distance a n <= distance a m)
  | None => ids a = range a /\ ids a' = ids a
  end.

Lemma not_ids a n : low a <= n <= high a -> (n ∉ ids a <-> is_reserved a n = false).
Proof. intros. rewrite elem_of_ids. destruct (is_reserved a n); naive_solver. Qed.

Lemma advance_bounds a : low (advance a) = low a /\ high (advance a) = high a.
Proof. unfold advance. by case_match. Qed.

Lemma found_result a n :
  allocator_wf a -> low a <= n <= high a -> is_reserved a n = false ->
  (forall m, low a <= m <= high a -> is_reserved a m = false -> distance a n <= distance a m) ->
  next_result a (Some n) (advance (mark (set_follow n a) n)).
Proof.
  intros Hwf Hn Hfree Hmin. unfold next_result.
  destruct (advance_bounds (mark (set_follow n a) n)) as [-> ->].
  split; [|split; [done|split; [done|split; [done|split_and!]]]].
  - apply advance_wf, mark_wf; [done|]. destruct Hwf as [Hp _ Hh]. split; [done|done|exact Hh].
  - by apply not_ids.
  - by rewrite ids_advance, ids_mark.
  - intros m Hm Hm'. apply Hmin; [done|]. by apply not_ids.
Qed.

Lemma next_correct a : allocator_wf a -> exists r a', next a = Ok (r, a') /\ next_result a r a'.
Proof.
  intros Hwf. destruct (Hwf) as [Hp [Hl Hh] Hhi]. unfold next.
  destruct (next_loop_spec (Z.to_nat (high a + 1 - follow a)) (high a + 1) a)
    as [(n & Hn & Hfree & Hall & ->)|[Hall ->]]; [done|lia|..]; simpl.
  { eexists _, _. split; [done|]. apply found_result; [done|lia|done|].
    intros m Hm Hm'. rewrite (distance_up a n) by lia.
    destruct (Z.lt_ge_cases m (follow a)).
    - rewrite distance_wrap; lia.
    - rewrite distance_up by lia. destruct (Z.lt_ge_cases m n); [|lia].
      rewrite Hall in Hm' by lia. done. }
  rewrite Z.max_r by lia. set (b := set_follow (low a) (set_follow (high a + 1) a)).
  destruct (next_loop_spec (Z.to_nat (follow a - low a)) (follow a) b)
    as [(n & Hn & Hfree & Hall' & ->)|[Hall' ->]];
    [done|simpl; lia|..]; cbn [obind]; eexists _, _; (split; [done|]).
  - simpl in Hn. change (set_follow n b) with (set_follow n a).
    apply found_result; [done|lia|done|]. intros m Hm Hm'.
    rewrite (distance_wrap a n) by lia. destruct (Z.lt_ge_cases m (follow a)).
    + rewrite distance_wrap by lia. destruct (Z.lt_ge_cases m n); [|lia].
      pose proof (Hall' m ltac:(simpl; lia)) as E. change (is_reserved a m = true) in E. congruence.
    + rewrite Hall in Hm' by lia. done.
  - rewrite Z.max_r by (simpl; lia). change (set_follow (follow a) b) with (set_follow (follow a) a).
    replace (set_follow (follow a) a) with a by (by destruct a).
    destruct (advance_bounds a) as [E1 E2].
    split; [by apply advance_wf|]. split_and!; [done|done| |apply ids_advance].
    apply set_eq. intros m. rewrite elem_of_ids, elem_of_range. split; [by intros []|].
    intros Hm. split; [done|]. destruct (Z.lt_ge_cases m (follow a)); [apply Hall'|apply Hall]; simpl; lia.
Qed.

(** ** The interface of the connection *)

(** A pool of numbers: what [next] and [release] promise about the set of
    reserved numbers. *)
Class IdPool (T : Type) := {
  pool_new : Z -> Z -> T;
  pool_next : T -> outcome (option Z * T);
  pool_release : T -> Z -> outcome T;
  pool_ids : T -> gset Z;
  pool_low : T -> Z;
  pool_high : T -> Z;
  pool_wf : T -> Prop;
  pool_new_ok l h : l <= h ->
    pool_wf (pool_new l h) /\ pool_ids (pool_new l h) = ∅ /\
    pool_low (pool_new l h) = l /\ pool_high (pool_new l h) = h;
  pool_next_ok p : pool_wf p -> exists r p', pool_next p = Ok (r, p') /\
    pool_wf p' /\ pool_low p' = pool_low p /\ pool_high p' = pool_high p /\
    match r with
    | Some n => pool_low p <= n <= pool_high p /\ (n ∉ pool_ids p) /\ pool_ids p' = {[n]} ∪ pool_ids p
    | None => pool_ids p' = pool_ids p /\ forall n, pool_low p <= n <= pool_high p -> n ∈ pool_ids p
    end;
  pool_release_ok p n : pool_wf p -> pool_low p <= n -> exists p', pool_release p n = Ok p' /\
    pool_wf p' /\ pool_low p' = pool_low p /\ pool_high p' = pool_high p /\
    pool_ids p' = pool_ids p ∖ {[n]}
}.

#[export] Program Instance allocator_pool : IdPool allocator := {|
  pool_new := newAllocator;
  pool_next := next;
  pool_release := release;
  pool_ids := ids;
  pool_low := low;
  pool_high := high;
  pool_wf := allocator_wf
|}.
Next Obligation.
  intros l h Hl. split_and!; [by apply newAllocator_wf|apply newAllocator_ids|done|done].
Qed.
Next Obligation.
  intros p Hp. destruct (next_correct p Hp) as (r & p' & E & Hwf & Hlo & Hhi & H).
  exists r, p'. split_and!; [done..|]. destruct r as [n|].
  - destruct H as (? & ? & ? & _). done.
  - destruct H as [E1 E2]. split; [done|]. intros n Hn. rewrite E1. by apply elem_of_range.
Qed.
Next Obligation.
  intros p n Hp Hn. exists (unmark p n).
  split_and!; [by apply release_ok|by apply unmark_wf|done|done|by apply ids_unmark].
Qed.

(** ** Printing *)

Lemma run_end_spec fuel a l :
  low a <= l -> high a + 1 - l <= Z.of_nat fuel ->
  exists h, run_end fuel a l = Ok h /\ l <= h <= Z.max l (high a + 1) /\
    (forall m, l <= m < h -> is_reserved a m = true) /\ (h <= high a -> is_reserved a h = false).
Proof.
  revert l. induction fuel as [|fuel IH]; intros l Hl Hf; cbn [run_end];
    rewrite reserved_ok by done; cbn [obind]; destruct (is_reserved a l) eqn:E; simpl;
    destruct (Z.leb_spec l (high a)); try lia;
    try solve [exists l; split_and!; [done|lia|lia|intros; lia|intros; first [lia|done]]].
  destruct (IH (l + 1)) as (h & -> & Hh & Hall & Hend); [lia|lia|].
  exists h. split_and!; [done|lia|lia| |done]. intros m Hm.
  destruct (Z.eq_dec m l) as [->|]; [done|]. apply Hall. lia.
Qed.

(** [runs] are the maximal runs of reserved numbers from [l] on, in order. *)
Definition runs_ok (a : allocator) (l : Z) (runs : list (Z * Z)) : Prop :=
  (forall n, l <= n <= high a ->
     is_reserved a n = true <-> exists lh, lh ∈ runs /\ fst lh <= n < snd lh) /\
  StronglySorted (fun x y => snd x < fst y) runs /\
  Forall (fun lh => l <= fst lh < snd lh /\ snd lh <= high a + 1) runs.

Lemma String_loop_spec fuel a l :
  low a <= l -> high a + 1 - l <= Z.of_nat fuel ->
  exists runs, String_loop fuel a l = Ok runs /\ runs_ok a l runs.
Proof.
  revert l. induction fuel as [|fuel IH]; intros l Hl Hf; cbn [String_loop];
    destruct (Z.leb_spec l (high a)); try lia.
  1, 3: exists []; split; [done|]; split_and!; [intros; lia|constructor|constructor].
  destruct (run_end_spec (Z.to_nat (high a + 1 - l)) a l) as (h & -> & Hh & Hall & Hend); [lia|lia|].
  cbn [obind]. destruct (IH (h + 1)) as (runs & -> & Hr & Hs & Hb); [lia|lia|]. cbn [obind].
  eexists. split; [done|].
  assert (forall n, h + 1 <= n \/ (exists lh, lh ∈ runs /\ fst lh <= n < snd lh) -> h + 1 <= n) as Hlow.
  { intros n [|(lh & Hin & Hn)]; [done|]. rewrite Forall_forall in Hb.
    apply list_elem_of_In in Hin. specialize (Hb _ Hin). lia. }
  destruct (Z.ltb_spec l h); split_and!.
  - intros n Hn. split.
    + intros Hres. destruct (Z.lt_ge_cases n h); [exists (l, h); split; [by left|simpl; lia]|].
      destruct (Z.eq_dec n h) as [->|]; [by rewrite Hend in Hres by lia|].
      destruct (proj1 (Hr n ltac:(lia)) Hres) as (lh & Hin & ?). exists lh. split; [by right|done].
    + intros (lh & [->|Hin]%elem_of_cons & Hn'); [apply Hall; simpl in Hn'; lia|].
      assert (h + 1 <= n) by eauto. apply Hr; [lia|eauto].
  - constructor; [done|]. apply Forall_forall. intros lh Hin. rewrite Forall_forall in Hb.
    specialize (Hb _ Hin). simpl. lia.
  - constructor; [simpl; lia|]. eapply Forall_impl; [|exact Hb]. simpl. lia.
  - assert (h = l) as -> by lia. intros n Hn. destruct (Z.eq_dec n l) as [->|]; [|by apply Hr; lia].
    rewrite Hend by lia. split; [done|]. intros Hx. assert (l + 1 <= l) by eauto. lia.
  - done.
  - eapply Forall_impl; [|exact Hb]. simpl. lia.
Qed.

(** ** Refinement of a set of numbers *)

(** The operations a client performs. *)
Inductive alloc_op :=
  | OpNext
  | OpRelease (n : Z).

Definition alloc_step (o : alloc_op) (a : allocator) : outcome (option Z * allocator) :=
  match o with
  | OpNext => next a
  | OpRelease n => let! a' := release a n in Ok (None, a')
  end.

Fixpoint alloc_run (os : list alloc_op) (a : allocator) : outcome (list (option Z) * allocator) :=
  match os with
  | [] => Ok ([], a)
  | o :: os' =>
      let! (r, a1) := alloc_step o a in
      let! (rs, a2) := alloc_run os' a1 in
      Ok (r :: rs, a2)
  end.

(** The specification: a set of numbers out of [lo..hi].  An allocation
    gives any number that is not in the set, and fails only when there is
    none. *)
Inductive set_step (lo hi : Z) : gset Z -> alloc_op -> option Z -> gset Z -> Prop :=
  | set_alloc s n : lo <= n <= hi -> n ∉ s -> set_step lo hi s OpNext (Some n) ({[n]} ∪ s)
  | set_full s : (forall n, lo <= n <= hi -> n ∈ s) -> set_step lo hi s OpNext None s
  | set_release s n : lo <= n <= hi -> set_step lo hi s (OpRelease n) None (s ∖ {[n]}).

Inductive set_run (lo hi : Z) : gset Z -> list alloc_op -> list (option Z) -> gset Z -> Prop :=
  | set_run_nil s : set_run lo hi s [] [] s
  | set_run_cons s o r s1 os rs s2 :
      set_step lo hi s o r s1 -> set_run lo hi s1 os rs s2 -> set_run lo hi s (o :: os) (r :: rs) s2.

Definition op_in_range (lo hi : Z) (o : alloc_op) : Prop :=
  match o with OpNext => True | OpRelease n => lo <= n <= hi end.

Lemma alloc_step_refines a o :
  allocator_wf a -> op_in_range (low a) (high a) o ->
  exists r a', alloc_step o a = Ok (r, a') /\ allocator_wf a' /\ low a' = low a /\ high a' = high a /\
    set_step (low a) (high a) (ids a) o r (ids a').
Proof.
  intros Hwf Ho. destruct o as [|n]; simpl in Ho.
  - destruct (next_correct a Hwf) as (r & a' & E & Hwf' & Hl & Hh & H).
    exists r, a'. split_and!; [done..|]. destruct r as [n|].
    + destruct H as (? & ? & -> & _). by constructor.
    + destruct H as [E1 ->]. constructor. intros n Hn. rewrite E1. by apply elem_of_range.
  - exists None, (unmark a n). split_and!; [|apply unmark_wf; [lia|done]|done|done|].
    + simpl. by rewrite release_ok by lia.
    + rewrite ids_unmark by lia. by constructor.
Qed.

Lemma alloc_run_refines os a :
  allocator_wf a -> Forall (op_in_range (low a) (high a)) os ->
  exists rs a', alloc_run os a = Ok (rs, a') /\ allocator_wf a' /\
    set_run (low a) (high a) (ids a) os rs (ids a').
Proof.
  intros Hwf Hos. revert a Hwf Hos. induction os as [|o os IH]; intros a Hwf Hos.
  - exists [], a. split_and!; [done|done|constructor].
  - apply list.Forall_cons in Hos as [Ho Hos].
    destruct (alloc_step_refines a o Hwf Ho) as (r & a1 & E1 & Hwf1 & Hl & Hh & Hs).
    rewrite <- Hl, <- Hh in Hos. destruct (IH a1 Hwf1 Hos) as (rs & a2 & E2 & Hwf2 & Hr).
    exists (r :: rs), a2. cbn [alloc_run]. rewrite E1. cbn [obind]. rewrite E2. split_and!; [done|done|].
    rewrite Hl, Hh in Hr. by econstructor.
Qed.

(** ** Properties *)

(** [next] on a well-formed allocator never panics or loops; it reserves
    the first free number at or cyclically after the rolling index, changes
    no other number, and answers [false] exactly when every number of the
    range is reserved. *)
Theorem next_reserves_first_free a :
  allocator_wf a ->
  exists r a', next a = Ok (r, a') /\ next_result a r a' /\ (r = None <-> ids a = range a).
Proof.
  intros Hwf. destruct (next_correct a Hwf) as (r & a' & E & H). exists r, a'.
  split_and!; [done|done|]. destruct H as (_ & _ & _ & H). destruct r as [n|].
  - destruct H as (Hn & Hfree & _). split; [done|]. intros Hr. destruct Hfree. rewrite Hr.
    by apply elem_of_range.
  - split; [by destruct H|done].
Qed.

Lemma next_reserves_first_free_witness :
  exists r a', next (newAllocator 1 3) = Ok (r, a') /\ next_result (newAllocator 1 3) r a' /\
    (r = None <-> ids (newAllocator 1 3) = range (newAllocator 1 3)).
Proof. apply (next_reserves_first_free (newAllocator 1 3)). apply newAllocator_wf. lia. Defined.

(** C30: every sequence of [next] and in-range [release] calls on a new
    allocator succeeds and behaves as the specification with a set of
    numbers: no number is handed out twice before it is released, and an
    allocation fails only when the whole range is taken. *)
Theorem allocator_refines_set lo hi os :
  lo <= hi -> Forall (op_in_range lo hi) os ->
  exists rs a', alloc_run os (newAllocator lo hi) = Ok (rs, a') /\ allocator_wf a' /\
    set_run lo hi ∅ os rs (ids a').
Proof.
  intros Hlh Hos. rewrite <- (newAllocator_ids lo hi).
  by apply (alloc_run_refines os (newAllocator lo hi)); [apply newAllocator_wf|].
Qed.

Lemma allocator_refines_set_witness :
  exists rs a', alloc_run [OpNext; OpNext; OpNext; OpRelease 1; OpNext] (newAllocator 1 2) = Ok (rs, a') /\
    allocator_wf a' /\
    set_run 1 2 ∅ [OpNext; OpNext; OpNext; OpRelease 1; OpNext] rs (ids a').
Proof.
  apply (allocator_refines_set 1 2); [lia|]. repeat constructor; simpl; lia.
Defined.

(** [String] prints exactly the maximal runs of reserved numbers, in
    increasing order, and terminates without panicking. *)
Theorem String_prints_runs a :
  exists runs, String_runs a = Ok runs /\ runs_ok a (low a) runs.
Proof. apply String_loop_spec; lia. Qed.
