(* ===== verification/Confirms.v ===== *)
(** * Confirms: publisher confirmations (confirms.go)

    The resequencer that hands confirmations to the listeners in publishing
    order, and the deferred confirmations.  Deferred confirmations are shared
    objects: [publish] returns the address of one, which the tables keep
    until it is resolved.  Calls run under the mutexes of the structure, so
    an execution is a sequence of operations. *)

From S2P Require Import Prelude Types Io.

(** ** Data *)

(** [type Confirmation struct] *)
Record Confirmation := MkConfirmation {
  DeliveryTag : Z; (** uint64 *)
  Ack : bool
}.

(** [type DeferredConfirmation struct]; [dc_closed] tells that [done] is
    closed. *)
Record DeferredConfirmation := MkDeferred {
  dc_DeliveryTag : Z;
  dc_closed : bool;
  dc_ack : bool
}.

(** A channel of confirmations: everything sent on it, and whether it is
    closed.  A send waits for the receiver; the listeners receive. *)
Record listener_chan := MkChan {
  lc_sent : list Confirmation;
  lc_closed : bool
}.

(** [type confirms struct], with the objects it refers to: deferred
    confirmations by address, listener channels by name. *)
Record confirms := MkConfirms {
  listeners : list nat;
  sequencer : gmap Z Confirmation;
  confirmations : gmap Z nat;
  published : Z;
  expecting : Z;
  dcs : list DeferredConfirmation;
  chans : gmap nat listener_chan
}.

Definition set_listeners x c :=
  MkConfirms x (sequencer c) (confirmations c) (published c) (expecting c) (dcs c) (chans c).
Definition set_sequencer x c :=
  MkConfirms (listeners c) x (confirmations c) (published c) (expecting c) (dcs c) (chans c).
Definition set_deferred x d c :=
  MkConfirms (listeners c) (sequencer c) x (published c) (expecting c) d (chans c).
Definition set_published x c :=
  MkConfirms (listeners c) (sequencer c) (confirmations c) x (expecting c) (dcs c) (chans c).
Definition set_expecting x c :=
  MkConfirms (listeners c) (sequencer c) (confirmations c) (published c) x (dcs c) (chans c).
Definition set_chans x c :=
  MkConfirms (listeners c) (sequencer c) (confirmations c) (published c) (expecting c) (dcs c) x.

Definition chan_of (c : confirms) (l : nat) : listener_chan :=
  default (MkChan [] false) (chans c !! l).
Definition sent (c : confirms) (l : nat) : list Confirmation := lc_sent (chan_of c l).
Definition lclosed (c : confirms) (l : nat) : bool := lc_closed (chan_of c l).

(** [l <- confirmation] and [close(l)] panic on a closed channel. *)
Definition chan_send (l : nat) (x : Confirmation) (c : confirms) : outcome confirms :=
  if lclosed c l then Panicked
  else Ok (set_chans (<[l := MkChan (sent c l ++ [x]) false]> (chans c)) c).

Definition chan_close (l : nat) (c : confirms) : outcome confirms :=
  if lclosed c l then Panicked
  else Ok (set_chans (<[l := MkChan (sent c l) true]> (chans c)) c).

(** ** Deferred confirmations *)

(** [close(dc.done)] *)
Definition close_done (a : nat) (c : confirms) : outcome confirms :=
  match dcs c !! a with
  | Some d =>
      if dc_closed d then Panicked
      else Ok (set_deferred (confirmations c)
                 (<[a := MkDeferred (dc_DeliveryTag d) true (dc_ack d)]> (dcs c)) c)
  | None => Panicked
  end.

Definition setAck (a : nat) (ack : bool) (c : confirms) : outcome confirms :=
  match dcs c !! a with
  | Some d =>
      close_done a (set_deferred (confirmations c)
        (<[a := MkDeferred (dc_DeliveryTag d) (dc_closed d) ack]> (dcs c)) c)
  | None => Panicked
  end.

Definition delete_deferred (tag : Z) (c : confirms) : confirms :=
  set_deferred (delete tag (confirmations c)) (dcs c) c.

Definition deferred_Add (tag : Z) (c : confirms) : nat * confirms :=
  let dc := length (dcs c) in
  (dc, set_deferred (<[tag := dc]> (confirmations c)) (dcs c ++ [MkDeferred tag false false]) c).

Definition deferred_remove (tag : Z) (c : confirms) : outcome confirms :=
  match confirmations c !! tag with
  | None => Ok c
  | Some dc =>
      let! c' := close_done dc c in
      Ok (delete_deferred tag c')
  end.

Definition deferred_Confirm (x : Confirmation) (c : confirms) : outcome confirms :=
  match confirmations c !! DeliveryTag x with
  | None => Ok c
  | Some dc =>
      let! c' := setAck dc (Ack x) c in
      Ok (delete_deferred (DeliveryTag x) c')
  end.

(** The body of the loops of [ConfirmMultiple] and [Close]. *)
Definition resolve (ack : bool) (kv : Z * nat) (c : confirms) : outcome confirms :=
  let! c' := setAck (snd kv) ack c in
  Ok (delete_deferred (fst kv) c').

Definition deferred_ConfirmMultiple (x : Confirmation) (c : confirms) : outcome confirms :=
  for_each (fun kv c => if fst kv <=? DeliveryTag x then resolve (Ack x) kv c else Ok c)
    (map_to_list (confirmations c)) c.

Definition deferred_Close (c : confirms) : outcome confirms :=
  for_each (resolve false) (map_to_list (confirmations c)) c.

(** [d.Acked()]; [d.Wait()] and [d.WaitContext(ctx)], where [None] is a call
    that does not return yet; when the context is done as well, [select]
    may take either case, so the results are a set. *)
Definition Acked (d : DeferredConfirmation) : bool := if dc_closed d then dc_ack d else false.
Definition Wait (d : DeferredConfirmation) : option bool :=
  if dc_closed d then Some (dc_ack d) else None.
Definition WaitContext (ctxErr : option goerror) (d : DeferredConfirmation)
  : list (bool * option goerror) :=
  (match ctxErr with Some e => [(false, Some e)] | None => [] end) ++
  (if dc_closed d then [(dc_ack d, None)] else []).

(** ** The resequencer *)

Definition newConfirms : confirms := MkConfirms [] ∅ ∅ 0 1 [] ∅.

Definition Listen (l : nat) (c : confirms) : confirms := set_listeners (listeners c ++ [l]) c.

Definition publish (c : confirms) : nat * confirms :=
  let c := set_published (uintw 64 (published c + 1)) c in
  deferred_Add (published c) c.

Definition unpublish (c : confirms) : outcome confirms :=
  let! c := deferred_remove (published c) c in
  Ok (set_published (uintw 64 (published c - 1)) c).

Definition confirm (x : Confirmation) (c : confirms) : outcome confirms :=
  let c := set_sequencer (delete (expecting c) (sequencer c)) c in
  let c := set_expecting (uintw 64 (expecting c + 1)) c in
  for_each (fun l => chan_send l x) (listeners c) c.

(** Every iteration removes an entry of the sequencer, so its size bounds
    them. *)
Fixpoint resequence_loop (fuel : nat) (c : confirms) : outcome confirms :=
  if expecting c <=? published c then
    match sequencer c !! expecting c with
    | None => Ok c
    | Some sequenced =>
        match fuel with
        | O => NoFuel
        | S fuel' => let! c' := confirm sequenced c in resequence_loop fuel' c'
        end
    end
  else Ok c.

Definition resequence (c : confirms) : outcome confirms :=
  resequence_loop (size (sequencer c)) c.

Definition One (x : Confirmation) (c : confirms) : outcome confirms :=
  let! c := deferred_Confirm x c in
  let! c :=
    (if expecting c =? DeliveryTag x then confirm x c
     else Ok (set_sequencer (<[DeliveryTag x := x]> (sequencer c)) c)) in
  resequence c.

(** [for c.expecting <= confirmed.DeliveryTag { c.confirm(...) }] *)
Fixpoint Multiple_loop (fuel : nat) (x : Confirmation) (c : confirms) : outcome confirms :=
  if expecting c <=? DeliveryTag x then
    match fuel with
    | O => NoFuel
    | S fuel' =>
        let! c' := confirm (MkConfirmation (expecting c) (Ack x)) c in
        Multiple_loop fuel' x c'
    end
  else Ok c.

Definition Multiple (x : Confirmation) (c : confirms) : outcome confirms :=
  let! c := deferred_ConfirmMultiple x c in
  let! c := Multiple_loop (Z.to_nat (DeliveryTag x + 1 - expecting c)) x c in
  resequence c.

Definition confirms_Close (c : confirms) : outcome confirms :=
  let! c := deferred_Close c in
  let! c := for_each chan_close (listeners c) c in
  Ok (set_listeners [] c).

(** ** Facts *)

Lemma obind_assoc {A B C} (c : outcome A) (f : A -> outcome B) (g : B -> outcome C) :
  obind (obind c f) g = obind c (fun a => obind (f a) g).
Proof. by destruct c. Qed.

(** What never goes wrong: listeners are distinct open channels, and the
    table of deferred confirmations refers to pending objects of its tags. *)
Record confirms_wf (c : confirms) : Prop := {
  cw_nodup : NoDup (listeners c);
  cw_open : forall l, l ∈ listeners c -> lclosed c l = false;
  cw_pending : forall t a, confirmations c !! t = Some a ->
    exists d, dcs c !! a = Some d /\ d = MkDeferred t false false;
  cw_sequencer : forall t x, sequencer c !! t = Some x -> DeliveryTag x = t;
  cw_expecting : 0 <= expecting c < 2 ^ 64;
  cw_published : 0 <= published c < 2 ^ 64
}.

(** [c'] differs from [c] in that [new] was sent to every listener. *)
Record delivers (c : confirms) (new : list Confirmation) (c' : confirms) : Prop := {
  dl_listeners : listeners c' = listeners c;
  dl_sent : forall l, sent c' l = sent c l ++ (if decide (l ∈ listeners c) then new else []);
  dl_closed : forall l, lclosed c' l = lclosed c l;
  dl_published : published c' = published c
}.

(** [new] are the confirmations of consecutive tags from [expecting] on. *)
Definition consecutive (c : confirms) (new : list Confirmation) (c' : confirms) : Prop :=
  DeliveryTag <$> new = seqZ (expecting c) (len new) /\ expecting c' = expecting c + len new.

Lemma delivers_refl c : delivers c [] c.
Proof. split; try done. intros l. case_decide; by rewrite app_nil_r. Qed.

Lemma delivers_trans c1 n1 c2 n2 c3 :
  delivers c1 n1 c2 -> delivers c2 n2 c3 -> delivers c1 (n1 ++ n2) c3.
Proof.
  intros [E1 S1 C1 P1] [E2 S2 C2 P2]. split; [congruence| |congruence|congruence].
  intros l. rewrite S2, S1, E1. case_decide; by rewrite <- app_assoc.
Qed.

Lemma consecutive_refl c : consecutive c [] c.
Proof. split; [done|]. unfold len. simpl. lia. Qed.

Lemma consecutive_trans c1 n1 c2 n2 c3 :
  consecutive c1 n1 c2 -> consecutive c2 n2 c3 -> consecutive c1 (n1 ++ n2) c3.
Proof.
  intros [T1 E1] [T2 E2]. pose proof (len_nonneg n1). pose proof (len_nonneg n2).
  split; [|rewrite len_app; lia].
  by rewrite fmap_app, T1, T2, len_app, E1, seqZ_app by lia.
Qed.

(** *** Channels *)

Lemma chan_of_insert c l k x :
  chan_of (set_chans (<[l := x]> (chans c)) c) k = if decide (l = k) then x else chan_of c k.
Proof.
  unfold chan_of. simpl. case_decide; [subst; by rewrite lookup_insert_eq|by rewrite lookup_insert_ne].
Qed.

(** Sending to distinct open listeners changes only what was sent to them. *)
Lemma send_all x ls c :
  NoDup ls -> (forall l, l ∈ ls -> lclosed c l = false) ->
  exists ch, for_each (fun l => chan_send l x) ls c = Ok (set_chans ch c) /\
    forall l, chan_of (set_chans ch c) l
              = MkChan (sent c l ++ (if decide (l ∈ ls) then [x] else [])) (lclosed c l).
Proof.
  revert c. induction ls as [|l ls IH]; intros c Hnd Hop.
  - exists (chans c). split; [by destruct c|]. intros k. rewrite decide_False by set_solver.
    rewrite app_nil_r. unfold sent, lclosed, chan_of. simpl. by destruct (default _ _).
  - apply list.NoDup_cons in Hnd as [Hl Hnd]. cbn [for_each]. unfold chan_send at 1.
    rewrite Hop by set_solver. cbn [obind].
    set (c1 := set_chans (<[l := MkChan (sent c l ++ [x]) false]> (chans c)) c).
    assert (forall k, k <> l -> chan_of c1 k = chan_of c k) as Hsame.
    { intros k Hk. unfold c1. rewrite chan_of_insert, decide_False by done. done. }
    destruct (IH c1 Hnd) as (ch & E & Hch).
    { intros k Hk. unfold lclosed. rewrite Hsame by set_solver. apply Hop. set_solver. }
    exists ch. split; [exact E|]. intros k. change (set_chans ch c) with (set_chans ch c1).
    rewrite Hch. unfold sent, lclosed. destruct (decide (k = l)) as [->|Hk].
    + unfold c1 at 1 2. rewrite chan_of_insert, decide_True by done. simpl.
      rewrite decide_False by done. rewrite decide_True by set_solver.
      rewrite app_nil_r. f_equal. symmetry. apply Hop. set_solver.
    + rewrite Hsame by done. f_equal. f_equal. apply decide_ext. set_solver.
Qed.

(** *** [confirm] *)

Lemma confirm_spec x c :
  confirms_wf c ->
  exists c', confirm x c = Ok c' /\ confirms_wf c' /\ delivers c [x] c' /\
    expecting c' = uintw 64 (expecting c + 1) /\
    sequencer c' = delete (expecting c) (sequencer c) /\
    confirmations c' = confirmations c /\ dcs c' = dcs c.
Proof.
  intros [Hnd Hop Hpe Hseq He Hp]. unfold confirm. simpl.
  set (c1 := set_expecting _ _).
  destruct (send_all x (listeners c) c1) as (ch & E & Hch); [done|exact Hop|].
  exists (set_chans ch c1). split; [exact E|].
  assert (forall l, lclosed (set_chans ch c1) l = lclosed c l) as Hcl.
  { intros l. unfold lclosed at 1. by rewrite Hch. }
  split; [|split_and!; try done].
  - split; simpl; try done.
    + intros l Hl. rewrite Hcl. auto.
    + intros t y [_ Hy]%lookup_delete_Some. auto.
    + apply Z.mod_pos_bound. lia.
  - split; try done. intros l. unfold sent at 1. by rewrite Hch.
Qed.

(** Before the counter wraps, [confirm] of the expected tag is a step of one. *)
Lemma confirm_consecutive x c c' :
  confirms_wf c -> DeliveryTag x = expecting c -> expecting c < 2 ^ 64 - 1 ->
  expecting c' = uintw 64 (expecting c + 1) -> consecutive c [x] c'.
Proof.
  intros Hwf Hx He E. unfold consecutive. rewrite E. destruct (cw_expecting c Hwf). split.
  - simpl. rewrite Hx. unfold len. simpl. by rewrite seqZ_cons by lia.
  - rewrite uintw_small by (unfold is_uint; lia). unfold len. simpl. lia.
Qed.

(** *** [resequence] and the loop of [Multiple] *)

(** The tables of deferred confirmations are not touched. *)
Definition same_deferred (c c' : confirms) : Prop :=
  confirmations c' = confirmations c /\ dcs c' = dcs c.

(** A run of confirmations of consecutive tags was sent to the listeners;
    the sequencer forgot the tags of the run. *)
Record advances (c : confirms) (new : list Confirmation) (c' : confirms) : Prop := {
  ad_wf : confirms_wf c';
  ad_delivers : delivers c new c';
  ad_consecutive : consecutive c new c';
  ad_sequencer : forall t, sequencer c' !! t =
    if decide (expecting c <= t < expecting c') then None else sequencer c !! t;
  ad_deferred : same_deferred c c'
}.

Lemma advances_refl c : confirms_wf c -> advances c [] c.
Proof.
  intros H. split; [done|apply delivers_refl|apply consecutive_refl| |done].
  intros t. by rewrite decide_False by lia.
Qed.

Lemma advances_trans c1 n1 c2 n2 c3 :
  advances c1 n1 c2 -> advances c2 n2 c3 -> advances c1 (n1 ++ n2) c3.
Proof.
  intros [_ D1 C1 S1 [F1 G1]] [W D2 C2 S2 [F2 G2]].
  split; [done|by eapply delivers_trans|by eapply consecutive_trans| |by split; congruence].
  intros t. rewrite S2, S1. destruct C1 as [_ E1], C2 as [_ E2].
  pose proof (len_nonneg n1). pose proof (len_nonneg n2).
  repeat case_decide; try done; lia.
Qed.

Lemma confirm_advances x c :
  confirms_wf c -> DeliveryTag x = expecting c -> expecting c < 2 ^ 64 - 1 ->
  exists c', confirm x c = Ok c' /\ advances c [x] c'.
Proof.
  intros Hwf Hx He. destruct (confirm_spec x c Hwf) as (c' & E & Hwf' & Hd & He' & Hs & Hc & Hdcs).
  exists c'. split; [done|]. assert (consecutive c [x] c') as Hcon by (by eapply confirm_consecutive).
  split; [done|done|done| |done]. intros t. rewrite Hs. destruct Hcon as [_ ->].
  unfold len. simpl. case_decide.
  - replace t with (expecting c) by lia. apply lookup_delete_eq.
  - apply lookup_delete_ne. lia.
Qed.

(** The sequencer is drained from the expected tag on, up to the first gap. *)
Lemma resequence_loop_spec fuel c :
  confirms_wf c -> published c < 2 ^ 64 - 1 -> (size (sequencer c) <= fuel)%nat ->
  exists new c', resequence_loop fuel c = Ok c' /\ advances c new c' /\
    (forall x, x ∈ new -> sequencer c !! DeliveryTag x = Some x) /\
    (expecting c' <= published c -> sequencer c !! expecting c' = None).
Proof.
  revert c. induction fuel as [|fuel IH]; intros c Hwf Hp Hf; cbn [resequence_loop];
    destruct (Z.leb_spec (expecting c) (published c)) as [Hle|Hgt].
  2, 4: exists [], c; split_and!; [done|by apply advances_refl|set_solver|lia].
  - assert (sequencer c = ∅) as E by (apply map_size_empty_iff; lia).
    exists [], c. rewrite E, lookup_empty. split_and!; [done|by apply advances_refl|set_solver|done].
  - destruct (sequencer c !! expecting c) as [x|] eqn:Ex;
      [|exists [], c; split_and!; [done|by apply advances_refl|set_solver|done]].
    pose proof (cw_sequencer c Hwf _ _ Ex) as Hx.
    destruct (confirm_advances x c Hwf Hx ltac:(lia)) as (c1 & E1 & H1). rewrite E1. cbn [obind].
    destruct H1 as [W1 D1 C1 S1 F1].
    assert (sequencer c1 = delete (expecting c) (sequencer c)) as Eseq.
    { apply map_eq. intros t. rewrite S1. destruct C1 as [_ ->]. unfold len. simpl.
      destruct (decide (t = expecting c)) as [->|].
      - by rewrite decide_True, lookup_delete_eq by lia.
      - by rewrite decide_False, lookup_delete_ne by lia. }
    destruct (IH c1) as (new & c2 & E2 & H2 & Hin & Hend).
    + done.
    + by rewrite (dl_published _ _ _ D1).
    + rewrite Eseq, map_size_delete_Some by eauto. lia.
    + exists (x :: new), c2. rewrite E2. split_and!; [done| | |].
      * by apply (advances_trans c [x] c1).
      * intros y [->|Hy]%elem_of_cons; [by rewrite Hx|]. specialize (Hin y Hy).
        rewrite Eseq in Hin. by apply lookup_delete_Some in Hin as [_ ?].
      * intros He. rewrite (dl_published _ _ _ D1) in Hend. specialize (Hend He).
        rewrite Eseq in Hend. rewrite lookup_delete_ne in Hend; [done|].
        pose proof (ad_consecutive _ _ _ H2) as [_ E]. destruct C1 as [_ E'].
        pose proof (len_nonneg new). change (len [x]) with 1 in E'. lia.
Qed.

Lemma Multiple_loop_spec fuel x c :
  confirms_wf c -> DeliveryTag x < 2 ^ 64 - 1 -> DeliveryTag x + 1 - expecting c <= Z.of_nat fuel ->
  exists new c', Multiple_loop fuel x c = Ok c' /\ advances c new c' /\
    expecting c' = Z.max (expecting c) (DeliveryTag x + 1) /\
    Forall (fun y => Ack y = Ack x) new.
Proof.
  revert c. induction fuel as [|fuel IH]; intros c Hwf Hx Hf; cbn [Multiple_loop];
    destruct (Z.leb_spec (expecting c) (DeliveryTag x)) as [Hle|Hgt]; try lia.
  1, 3: exists [], c; split_and!; [done|by apply advances_refl|lia|constructor].
  destruct (confirm_advances (MkConfirmation (expecting c) (Ack x)) c) as (c1 & E1 & H1);
    [done|done|lia|]. rewrite E1. cbn [obind].
  pose proof (ad_consecutive _ _ _ H1) as [_ E']. unfold len in E'. simpl in E'.
  destruct (IH c1) as (new & c2 & E2 & H2 & He & Hall); [apply H1|done|lia|].
  exists (MkConfirmation (expecting c) (Ack x) :: new), c2. rewrite E2. split_and!; [done| |lia|].
  - by apply (advances_trans c [_] c1).
  - by constructor.
Qed.

(** *** Deferred confirmations *)

(** [c'] is [c] with the pending deferred confirmations of the tags in [R]
    resolved to [ack] and dropped from the table. *)
Record resolved (ack : bool) (R : Z -> bool) (c c' : confirms) : Prop := {
  rs_rest : c' = set_deferred (confirmations c') (dcs c') c;
  rs_table : forall t, confirmations c' !! t = if R t then None else confirmations c !! t;
  rs_dcs : forall a, dcs c' !! a =
    (fun d => if bool_decide (confirmations c !! dc_DeliveryTag d = Some a) && R (dc_DeliveryTag d)
              then MkDeferred (dc_DeliveryTag d) true ack else d) <$> dcs c !! a
}.

Lemma resolved_none ack c : resolved ack (fun _ => false) c c.
Proof.
  split; [by destruct c|done|]. intros a. destruct (dcs c !! a); [|done]. simpl. by rewrite andb_false_r.
Qed.

Lemma resolved_ext ack R R' c c' : (forall t, R t = R' t) -> resolved ack R c c' -> resolved ack R' c c'.
Proof.
  intros HR [H1 H2 H3]. split; [done|..].
  - intros t. by rewrite <- HR.
  - intros a. rewrite H3. destruct (dcs c !! a); [|done]. simpl. by rewrite HR.
Qed.

Lemma resolved_trans ack R1 R2 c1 c2 c3 :
  resolved ack R1 c1 c2 -> resolved ack R2 c2 c3 -> resolved ack (fun t => R1 t || R2 t) c1 c3.
Proof.
  intros [E1 T1 D1] [E2 T2 D2]. split.
  - by rewrite E2, E1.
  - intros t. rewrite T2, T1. by destruct (R1 t), (R2 t).
  - intros a. rewrite D2, D1. destruct (dcs c1 !! a) as [d|]; [|done]. simpl. f_equal.
    destruct (bool_decide (confirmations c1 !! dc_DeliveryTag d = Some a)) eqn:Eb;
      destruct (R1 (dc_DeliveryTag d)) eqn:ER; simpl; rewrite T1, ER;
      rewrite ?Eb; simpl; try done.
Qed.

Lemma resolved_wf ack R c c' : resolved ack R c c' -> confirms_wf c -> confirms_wf c'.
Proof.
  intros [E T D] [Hnd Hop Hpe Hseq He Hp]. rewrite E. split; simpl; try done.
  intros t a Ha. rewrite T in Ha. destruct (R t) eqn:ER; [done|].
  destruct (Hpe t a Ha) as (d & Hd & ->). eexists. split; [|done].
  rewrite D, Hd. simpl. by rewrite ER, andb_false_r.
Qed.

(** Resolving one entry of the table. *)
Lemma resolve_one ack t a c d :
  confirms_wf c -> confirmations c !! t = Some a -> d = MkDeferred t true ack ->
  resolved ack (Z.eqb t) c
    (delete_deferred t (set_deferred (confirmations c) (<[a := d]> (dcs c)) c)).
Proof.
  intros Hwf Ha ->. destruct (cw_pending c Hwf t a Ha) as (d & Hd & ->).
  split; [done|..]; simpl.
  - intros t'. destruct (Z.eqb_spec t t') as [<-|]; [apply lookup_delete_eq|by apply lookup_delete_ne].
  - intros b. destruct (decide (a = b)) as [<-|Hab].
    + rewrite list_lookup_insert_eq by (by eapply lookup_lt_Some). rewrite Hd. simpl.
      by rewrite Z.eqb_refl, bool_decide_eq_true_2.
    + rewrite list_lookup_insert_ne by done. destruct (dcs c !! b) as [d|] eqn:Eb; [|done]. simpl.
      destruct (Z.eqb_spec t (dc_DeliveryTag d)) as [E|]; [|by rewrite andb_false_r].
      by rewrite bool_decide_eq_false_2 by congruence.
Qed.

Lemma resolve_spec ack t a c :
  confirms_wf c -> confirmations c !! t = Some a ->
  exists c', resolve ack (t, a) c = Ok c' /\ resolved ack (Z.eqb t) c c'.
Proof.
  intros Hwf Ha. destruct (cw_pending c Hwf t a Ha) as (d & Hd & ->).
  unfold resolve, setAck, close_done. simpl. rewrite Hd. simpl.
  rewrite list_lookup_insert_eq by (by eapply lookup_lt_Some). simpl.
  eexists. split; [done|]. rewrite list_insert_insert_eq. exact (resolve_one ack t a c _ Hwf Ha eq_refl).
Qed.

(** The loops over the table. *)
Lemma resolve_each ack (P : Z -> bool) kvs c :
  confirms_wf c -> NoDup kvs.*1 -> (forall t a, (t, a) ∈ kvs -> confirmations c !! t = Some a) ->
  exists c', for_each (fun kv c => if P (fst kv) then resolve ack kv c else Ok c) kvs c = Ok c' /\
    resolved ack (fun t => bool_decide (t ∈ kvs.*1) && P t) c c'.
Proof.
  revert c. induction kvs as [|[t a] kvs IH]; intros c Hwf Hnd Hin.
  - exists c. split; [done|]. eapply resolved_ext; [|apply resolved_none]. done.
  - rewrite fmap_cons in Hnd. apply list.NoDup_cons in Hnd as [Ht Hnd]. cbn [for_each fst].
    assert (exists c1, (if P t then resolve ack (t, a) c else Ok c) = Ok c1 /\
              resolved ack (fun t' => Z.eqb t t' && P t') c c1) as (c1 & -> & H1).
    { destruct (P t) eqn:EP.
      - destruct (resolve_spec ack t a c Hwf) as (c1 & E & H1); [apply Hin; by left|].
        exists c1. split; [done|]. eapply resolved_ext; [|exact H1]. intros t'.
        destruct (Z.eqb_spec t t') as [<-|]; [by rewrite EP|done].
      - exists c. split; [done|]. eapply resolved_ext; [|apply resolved_none]. intros t'.
        destruct (Z.eqb_spec t t') as [<-|]; [by rewrite EP|done]. }
    cbn [obind]. destruct (IH c1) as (c2 & E2 & H2); [by eapply resolved_wf|done|..].
    { intros t' a' Hin'. rewrite (rs_table _ _ _ _ H1).
      destruct (Z.eqb_spec t t') as [<-|]; [|apply Hin; by right].
      destruct Ht. apply list_elem_of_fmap. by exists (t, a'). }
    exists c2. split; [done|]. eapply resolved_ext; [|exact (resolved_trans _ _ _ _ _ _ H1 H2)].
    intros t'. simpl. destruct (Z.eqb_spec t t') as [<-|Hne]; destruct (P _); simpl;
      rewrite ?andb_false_r; try done.
    + by rewrite bool_decide_eq_true_2 by set_solver.
    + rewrite !andb_true_r. apply bool_decide_ext. set_solver.
Qed.

Lemma resolve_table ack (P : Z -> bool) c :
  confirms_wf c ->
  exists c', for_each (fun kv c => if P (fst kv) then resolve ack kv c else Ok c)
               (map_to_list (confirmations c)) c = Ok c' /\ resolved ack P c c'.
Proof.
  intros Hwf. destruct (resolve_each ack P (map_to_list (confirmations c)) c) as (c' & E & [H1 H2 H3]).
  - done.
  - apply NoDup_fst_map_to_list.
  - intros t a. apply elem_of_map_to_list.
  - exists c'. split; [done|].
    assert (forall t a, confirmations c !! t = Some a -> t ∈ (map_to_list (confirmations c)).*1) as Hk.
    { intros t a Ha. apply list_elem_of_fmap. exists (t, a). split; [done|].
      by apply elem_of_map_to_list. }
    split; [done|..].
    + intros t. rewrite H2. destruct (P t); rewrite ?andb_true_r, ?andb_false_r; [|done].
      case_bool_decide; [done|]. destruct (confirmations c !! t) eqn:E'; [|done]. naive_solver.
    + intros a. rewrite H3. destruct (dcs c !! a) as [d|]; [|done]. simpl. f_equal.
      destruct (bool_decide (confirmations c !! dc_DeliveryTag d = Some a)) eqn:E'; [|done].
      apply bool_decide_eq_true in E'. by rewrite (bool_decide_eq_true_2 (_ ∈ _)) by eauto.
Qed.

Lemma deferred_Confirm_spec x c :
  confirms_wf c ->
  exists c', deferred_Confirm x c = Ok c' /\ resolved (Ack x) (Z.eqb (DeliveryTag x)) c c'.
Proof.
  intros Hwf. unfold deferred_Confirm.
  destruct (confirmations c !! DeliveryTag x) as [a|] eqn:Ea; [by apply resolve_spec|].
  exists c. split; [done|]. split; [by destruct c|..].
  - intros t. destruct (Z.eqb_spec (DeliveryTag x) t) as [<-|]; done.
  - intros a. destruct (dcs c !! a) as [d|]; [|done]. simpl. f_equal.
    destruct (Z.eqb_spec (DeliveryTag x) (dc_DeliveryTag d)) as [<-|]; [by rewrite Ea|].
    by rewrite andb_false_r.
Qed.

(** *** Whole operations *)

(** [One]: the deferred confirmation of the tag is resolved, the confirmation
    is sent now or kept, and the sequencer is drained. *)
Lemma One_spec x c :
  confirms_wf c -> published c < 2 ^ 64 - 1 -> 0 <= DeliveryTag x < 2 ^ 64 - 1 ->
  exists c1 c2 c', resolved (Ack x) (Z.eqb (DeliveryTag x)) c c1 /\
    (if expecting c =? DeliveryTag x then advances c1 [x] c2
     else c2 = set_sequencer (<[DeliveryTag x := x]> (sequencer c1)) c1) /\
    One x c = Ok c' /\
    exists new, advances c2 new c' /\
      (forall y, y ∈ new -> sequencer c2 !! DeliveryTag y = Some y) /\
      (expecting c' <= published c -> sequencer c2 !! expecting c' = None).
Proof.
  intros Hwf Hp Hx. destruct (deferred_Confirm_spec x c Hwf) as (c1 & E1 & H1).
  pose proof (resolved_wf _ _ _ _ H1 Hwf) as Hwf1. pose proof (rs_rest _ _ _ _ H1) as Er.
  assert (expecting c1 = expecting c /\ published c1 = published c) as [He1 Hp1] by (by rewrite Er).
  unfold One. rewrite E1. cbn [obind].
  assert (exists c2, (if expecting c1 =? DeliveryTag x then confirm x c1
            else Ok (set_sequencer (<[DeliveryTag x := x]> (sequencer c1)) c1)) = Ok c2 /\
          confirms_wf c2 /\ published c2 = published c /\
          (if expecting c =? DeliveryTag x then advances c1 [x] c2
           else c2 = set_sequencer (<[DeliveryTag x := x]> (sequencer c1)) c1))
    as (c2 & E2 & Hwf2 & Hp2 & H2).
  { rewrite He1. destruct (Z.eqb_spec (expecting c) (DeliveryTag x)) as [E|E].
    - destruct (confirm_advances x c1 Hwf1) as (c2 & ? & Ha); [congruence|lia|].
      exists c2. split_and!; [done|apply Ha| |done]. by rewrite (dl_published _ _ _ (ad_delivers _ _ _ Ha)).
    - eexists. split; [done|]. split; [|by split; simpl].
      destruct Hwf1 as [W1 W2 W3 W4 W5 W6]. split; simpl; try done.
      intros t y [[<- <-]|[_ Hy]]%lookup_insert_Some; [done|auto]. }
  rewrite E2. cbn [obind].
  destruct (resequence_loop_spec (size (sequencer c2)) c2) as (new & c' & E3 & H3 & Hin & Hend);
    [done|lia|lia|].
  exists c1, c2, c'. split_and!; [done|done|done|]. exists new. rewrite Hp2 in Hend. done.
Qed.

Lemma Multiple_spec x c :
  confirms_wf c -> published c < 2 ^ 64 - 1 -> 0 <= DeliveryTag x < 2 ^ 64 - 1 ->
  exists c1 c2 c' new1 new2, resolved (Ack x) (fun t => t <=? DeliveryTag x) c c1 /\
    advances c1 new1 c2 /\ expecting c2 = Z.max (expecting c) (DeliveryTag x + 1) /\
    Forall (fun y => Ack y = Ack x) new1 /\
    Multiple x c = Ok c' /\ advances c2 new2 c'.
Proof.
  intros Hwf Hp Hx. destruct (resolve_table (Ack x) (fun t => t <=? DeliveryTag x) c Hwf) as (c1 & E1 & H1).
  pose proof (resolved_wf _ _ _ _ H1 Hwf) as Hwf1. pose proof (rs_rest _ _ _ _ H1) as Er.
  assert (expecting c1 = expecting c /\ published c1 = published c) as [He1 Hp1] by (by rewrite Er).
  unfold Multiple, deferred_ConfirmMultiple. rewrite E1. cbn [obind].
  destruct (Multiple_loop_spec (Z.to_nat (DeliveryTag x + 1 - expecting c1)) x c1)
    as (new1 & c2 & E2 & H2 & He2 & Ha); [done|lia|lia|]. rewrite E2. cbn [obind].
  pose proof (dl_published _ _ _ (ad_delivers _ _ _ H2)) as Hp2.
  destruct (resequence_loop_spec (size (sequencer c2)) c2) as (new & c' & E3 & H3 & _);
    [apply H2|lia|lia|].
  exists c1, c2, c', new1, new. rewrite He1 in He2. done.
Qed.

(** The effect on the listeners, whatever happens to the deferred
    confirmations: confirmations of consecutive tags are sent. *)
Definition progresses (c c' : confirms) : Prop :=
  listeners c' = listeners c /\ (forall l, lclosed c' l = lclosed c l) /\
  expecting c <= expecting c' /\
  exists new, DeliveryTag <$> new = seqZ (expecting c) (expecting c' - expecting c) /\
    forall l, l ∈ listeners c -> sent c' l = sent c l ++ new.

Lemma progresses_quiet c c' :
  listeners c' = listeners c -> chans c' = chans c -> expecting c' = expecting c -> progresses c c'.
Proof.
  intros E1 E2 E3. split_and!; [done| |lia|].
  - intros l. unfold lclosed, chan_of. by rewrite E2.
  - exists []. rewrite E3, Z.sub_diag. split; [done|]. intros l _. unfold sent, chan_of.
    by rewrite E2, app_nil_r.
Qed.

Lemma progresses_trans c1 c2 c3 : progresses c1 c2 -> progresses c2 c3 -> progresses c1 c3.
Proof.
  intros (L1 & C1 & E1 & n1 & T1 & S1) (L2 & C2 & E2 & n2 & T2 & S2).
  split_and!; [congruence|congruence|lia|]. exists (n1 ++ n2). split.
  - replace (expecting c3 - expecting c1)
      with ((expecting c2 - expecting c1) + (expecting c3 - expecting c2)) by lia.
    rewrite fmap_app, T1, T2, seqZ_app by lia. do 2 f_equal. lia.
  - intros l Hl. rewrite S2, S1 by congruence. by rewrite app_assoc.
Qed.

Lemma advances_progresses c new c' : advances c new c' -> progresses c c'.
Proof.
  intros [_ [L S C _] [T E] _ _]. pose proof (len_nonneg new). split_and!; [done|done|lia|].
  exists new. replace (expecting c' - expecting c) with (len new) by lia. split; [done|].
  intros l Hl. by rewrite S, decide_True.
Qed.

Lemma resolved_progresses ack R c c' : resolved ack R c c' -> progresses c c'.
Proof. intros [E _ _]. rewrite E. by apply progresses_quiet. Qed.

Lemma publish_wf c :
  confirms_wf c -> published c < 2 ^ 64 - 1 ->
  confirms_wf (snd (publish c)) /\ published (snd (publish c)) = published c + 1.
Proof.
  intros [Hnd Hop Hpe Hseq He Hp] Hlt.
  assert (uintw 64 (published c + 1) = published c + 1) as E
    by (apply uintw_small; unfold is_uint; lia).
  split; [|done]. split; simpl; try done; [|lia].
  intros t a [[<- <-]|[_ Ha]]%lookup_insert_Some.
  - eexists. split; [|done]. by rewrite list_lookup_middle.
  - destruct (Hpe t a Ha) as (d & Hd & ->). eexists. split; [|done]. by apply lookup_app_l_Some.
Qed.

Lemma unpublish_spec c :
  confirms_wf c -> 0 < published c ->
  exists c1, resolved false (Z.eqb (published c)) c c1 /\
    unpublish c = Ok (set_published (published c - 1) c1).
Proof.
  intros Hwf Hp. unfold unpublish, deferred_remove.
  assert (forall c1, published c1 = published c -> uintw 64 (published c1 - 1) = published c - 1) as Hw.
  { intros c1 ->. pose proof (cw_published c Hwf). apply uintw_small. unfold is_uint. lia. }
  destruct (confirmations c !! published c) as [a|] eqn:Ea.
  - destruct (cw_pending c Hwf _ a Ea) as (d & Hd & ->). unfold close_done. rewrite Hd. cbn [obind].
    eexists. split; [exact (resolve_one false _ a c _ Hwf Ea eq_refl)|]. simpl. by rewrite (Hw c).
  - destruct (deferred_Confirm_spec (MkConfirmation (published c) false) c Hwf) as (c1 & E & H1).
    unfold deferred_Confirm in E. simpl in E. rewrite Ea in E. injection E as <-.
    exists c. split; [exact H1|]. cbn [obind]. by rewrite (Hw c).
Qed.

(** *** Any order of arrival *)

Lemma drain_members c new c' :
  advances c new c' -> (forall y, y ∈ new -> sequencer c !! DeliveryTag y = Some y) ->
  forall x, sequencer c !! DeliveryTag x = Some x <->
            x ∈ new \/ sequencer c' !! DeliveryTag x = Some x.
Proof.
  intros [_ _ [T E] S _] Hin x. rewrite S. case_decide as Hr.
  - split; [|intros [Hx|]; [by apply Hin|done]]. intros Hx. left.
    assert (DeliveryTag x ∈ DeliveryTag <$> new) as (y & Hy & Hyn)%list_elem_of_fmap.
    { rewrite T. apply elem_of_seqZ. lia. }
    specialize (Hin y Hyn). rewrite <- Hy in Hin. congruence.
  - split; [by right|]. intros [Hx|]; [by apply Hin|done].
Qed.

(** After [recv] has been received: a prefix of the tags was sent to [l], the
    rest waits in the sequencer behind a gap. *)
Record sequencing (l : nat) (n : Z) (recv : list Confirmation) (c : confirms) : Prop := {
  sq_wf : confirms_wf c;
  sq_published : published c = n;
  sq_listens : l ∈ listeners c;
  sq_expecting : 1 <= expecting c <= n + 1;
  sq_sent : DeliveryTag <$> sent c l = seqZ 1 (expecting c - 1);
  sq_members : forall x, x ∈ recv <-> x ∈ sent c l \/ sequencer c !! DeliveryTag x = Some x;
  sq_ahead : forall t x, sequencer c !! t = Some x -> expecting c <= t;
  sq_gap : expecting c <= n -> sequencer c !! expecting c = None
}.

Lemma sent_tag_range l n recv c x : sequencing l n recv c -> x ∈ sent c l -> 1 <= DeliveryTag x < expecting c.
Proof.
  intros H Hx. assert (DeliveryTag x ∈ seqZ 1 (expecting c - 1)) as Hs%elem_of_seqZ; [|lia].
  rewrite <- (sq_sent _ _ _ _ H). by apply list_elem_of_fmap_2.
Qed.

(** Draining re-establishes the gap. *)
Lemma sequencing_drain l n recv c2 new c' :
  published c2 = n -> n < 2 ^ 64 - 1 -> l ∈ listeners c2 -> 1 <= expecting c2 <= n + 1 ->
  DeliveryTag <$> sent c2 l = seqZ 1 (expecting c2 - 1) ->
  (forall x, x ∈ recv <-> x ∈ sent c2 l \/ sequencer c2 !! DeliveryTag x = Some x) ->
  (forall t x, sequencer c2 !! t = Some x -> expecting c2 <= t <= n) ->
  advances c2 new c' ->
  (forall y, y ∈ new -> sequencer c2 !! DeliveryTag y = Some y) ->
  (expecting c' <= n -> sequencer c2 !! expecting c' = None) ->
  sequencing l n recv c'.
Proof.
  intros Hp Hn Hl He Hsent Hmem Hahead Had Hin Hgap.
  pose proof (drain_members _ _ _ Had Hin) as Hdrain.
  destruct Had as [Hwf [L S C P] [T E] Sq _]. pose proof (len_nonneg new).
  specialize (S l). rewrite decide_True in S by done.
  assert (expecting c' <= n + 1) as Hle.
  { destruct (decide (len new = 0)) as [|Hne]; [lia|].
    assert (expecting c' - 1 ∈ DeliveryTag <$> new) as (y & Hy & Hyn)%list_elem_of_fmap.
    { rewrite T. apply elem_of_seqZ. lia. }
    specialize (Hahead _ _ (Hin y Hyn)). lia. }
  split; [done|congruence|congruence|lia| | | |].
  - rewrite S, fmap_app, Hsent, T. rewrite E.
    replace (expecting c2 + len new - 1) with ((expecting c2 - 1) + len new) by lia.
    rewrite seqZ_app by lia. do 2 f_equal. lia.
  - intros x. rewrite Hmem, Hdrain, S, elem_of_app. tauto.
  - intros t x Ht. rewrite Sq in Ht. case_decide as Hr; [done|]. specialize (Hahead t x Ht). lia.
  - intros Hx. rewrite Sq. case_decide; [done|]. by apply Hgap.
Qed.

Lemma One_sequencing l n recv x c :
  n < 2 ^ 64 - 1 -> sequencing l n recv c -> 1 <= DeliveryTag x <= n ->
  DeliveryTag x ∉ DeliveryTag <$> recv -> (forall y, y ∈ recv -> DeliveryTag y <= n) ->
  exists c', One x c = Ok c' /\ sequencing l n (x :: recv) c'.
Proof.
  intros Hn Hsq Hx Hnew Hmax. pose proof (sent_tag_range _ _ _ _ x Hsq) as Hrange.
  destruct (Hsq) as [Hwf Hp Hl He Hsent Hmem Hahead Hgap].
  assert (forall t y, sequencer c !! t = Some y -> expecting c <= t <= n /\ DeliveryTag y = t) as Hseq.
  { intros t y Hy. pose proof (cw_sequencer c Hwf t y Hy) as <-.
    specialize (Hahead _ _ Hy). assert (y ∈ recv) by (apply Hmem; by right). auto. }
  destruct (One_spec x c) as (c1 & c2 & c' & Hr & H2 & E & new & Had & Hin & Hend); [done|lia|lia|].
  exists c'. split; [done|]. rewrite Hp in Hend.
  pose proof (rs_rest _ _ _ _ Hr) as Er.
  assert (sent c1 l = sent c l /\ sequencer c1 = sequencer c /\ expecting c1 = expecting c /\
          published c1 = n /\ listeners c1 = listeners c) as (S1 & Q1 & E1 & P1 & L1).
  { rewrite Er. done. }
  destruct (Z.eqb_spec (expecting c) (DeliveryTag x)) as [Ee|Ene].
  - destruct H2 as [Hwf2 [L2 S2 _ P2] [_ E2] Sq2 _]. specialize (S2 l).
    rewrite decide_True, S1 in S2 by (by rewrite L1). change (len [x]) with 1 in E2.
    apply (sequencing_drain l n _ c2 new c'); [congruence|done|congruence|lia| | | |done|done|done].
    + rewrite S2, fmap_app, Hsent, E2, E1. simpl. rewrite <- Ee.
      replace (expecting c + 1 - 1) with ((expecting c - 1) + 1) by lia.
      rewrite seqZ_app by lia. f_equal. replace (1 + (expecting c - 1)) with (expecting c) by lia. done.
    + intros y. rewrite elem_of_cons, S2, elem_of_app, list_elem_of_singleton, Hmem, Sq2, Q1.
      case_decide as Hd; [|tauto]. split; [|naive_solver].
      intros [->|[?|Hy]]; [by left; right|by left; left|].
      assert (DeliveryTag y = expecting c) as Hy' by lia. rewrite Hy', Hgap in Hy by lia. done.
    + intros t y Hy. rewrite Sq2, Q1 in Hy. case_decide; [done|]. destruct (Hseq t y Hy). lia.
  - subst c2. assert (expecting c < DeliveryTag x) as Hlt.
    { destruct (Z.lt_ge_cases (expecting c) (DeliveryTag x)); [done|]. destruct Hnew.
      assert (DeliveryTag x ∈ DeliveryTag <$> sent c l) as (y & Hy & Hin')%list_elem_of_fmap.
      { rewrite Hsent. apply elem_of_seqZ. lia. }
      rewrite Hy. apply list_elem_of_fmap_2, Hmem. by left. }
    apply (sequencing_drain l n _ (set_sequencer (<[DeliveryTag x := x]> (sequencer c1)) c1) new c');
      [exact P1|done|by simpl; rewrite L1|simpl; lia| | | |done|done|done]; simpl.
    + change (sent (set_sequencer _ c1) l) with (sent c1 l). by rewrite S1, E1.
    + intros y. change (sent (set_sequencer _ c1) l) with (sent c1 l).
      rewrite elem_of_cons, Hmem, S1, Q1.
      destruct (decide (DeliveryTag x = DeliveryTag y)) as [Hxy|Hxy].
      * rewrite <- Hxy, lookup_insert_eq. split; [|naive_solver].
        intros [->|Hy]; [by right|]. destruct Hnew. rewrite Hxy. apply list_elem_of_fmap_2, Hmem.
        by rewrite <- Hxy.
      * rewrite lookup_insert_ne by done. split; [intros [->|]; done|by right].
    + intros t y [[<- <-]|[_ Hy]]%lookup_insert_Some; [lia|]. rewrite Q1 in Hy.
      destruct (Hseq t y Hy). lia.
Qed.

Lemma Ones_sequencing l n cs recv c :
  n < 2 ^ 64 - 1 -> sequencing l n recv c ->
  NoDup (DeliveryTag <$> cs ++ recv) -> (forall y, y ∈ cs ++ recv -> 1 <= DeliveryTag y <= n) ->
  exists c' recv', for_each One cs c = Ok c' /\ sequencing l n recv' c' /\ recv' ≡ₚ cs ++ recv.
Proof.
  intros Hn. revert recv c. induction cs as [|x cs IH]; intros recv c Hsq Hnd Hb.
  - by exists c, recv.
  - simpl in Hnd. apply list.NoDup_cons in Hnd as [Hx Hnd]. cbn [for_each].
    destruct (One_sequencing l n recv x c) as (c1 & E1 & H1); [done|done|apply Hb; by left|..].
    { intros Hin. apply Hx. rewrite fmap_app. apply elem_of_app. by right. }
    { intros y Hy. apply Hb. set_solver. }
    rewrite E1. cbn [obind]. destruct (IH (x :: recv) c1) as (c' & recv' & E & H & P); [done|..].
    { rewrite <- Permutation_middle. simpl. apply list.NoDup_cons. done. }
    { intros y Hy. apply Hb. set_solver. }
    exists c', recv'. split_and!; [done|done|]. rewrite P. by rewrite <- Permutation_middle.
Qed.

(** *** Traffic *)

(** The operations of a channel in confirm mode; a publishing whose send
    fails is taken back at once. *)
Inductive confirm_op :=
  | OpPublish
  | OpPublishFailed
  | OpOne (x : Confirmation)
  | OpMultiple (x : Confirmation).

Definition confirm_step (o : confirm_op) (c : confirms) : outcome confirms :=
  match o with
  | OpPublish => Ok (snd (publish c))
  | OpPublishFailed => unpublish (snd (publish c))
  | OpOne x => One x c
  | OpMultiple x => Multiple x c
  end.

Definition op_tag_ok (o : confirm_op) : Prop :=
  match o with
  | OpPublish | OpPublishFailed => True
  | OpOne x | OpMultiple x => 0 <= DeliveryTag x < 2 ^ 64 - 1
  end.

Lemma confirm_step_spec o c :
  confirms_wf c -> published c + 1 < 2 ^ 64 - 1 -> op_tag_ok o ->
  exists c', confirm_step o c = Ok c' /\ confirms_wf c' /\ progresses c c' /\
    published c' <= published c + 1.
Proof.
  intros Hwf Hp Ho. destruct o as [| |x|x]; cbn [confirm_step].
  - destruct (publish_wf c Hwf) as [H1 H2]; [lia|]. eexists. split; [done|].
    split_and!; [done| |lia]. by apply progresses_quiet.
  - destruct (publish_wf c Hwf) as [H1 H2]; [lia|]. pose proof (cw_published c Hwf).
    destruct (unpublish_spec (snd (publish c)) H1) as (c1 & Hr & E); [lia|].
    rewrite H2 in E. eexists. split; [exact E|]. pose proof (resolved_wf _ _ _ _ Hr H1) as [W1 W2 W3 W4 W5 W6].
    pose proof (rs_rest _ _ _ _ Hr) as Er.
    assert (published c1 = published c + 1) as P1 by (rewrite Er; exact H2).
    split_and!; [split; [exact W1|exact W2|exact W3|exact W4|exact W5|simpl; lia]| |simpl; lia].
    rewrite Er. by apply progresses_quiet.
  - destruct (One_spec x c) as (c1 & c2 & c' & Hr & H2 & E & new & Had & _); [done|lia|done|].
    exists c'. split_and!; [done|apply Had| |].
    + apply (progresses_trans _ c1); [by eapply resolved_progresses|].
      apply (progresses_trans _ c2); [|by eapply advances_progresses].
      destruct (_ =? _); [by eapply advances_progresses|]. subst c2. by apply progresses_quiet.
    + rewrite (dl_published _ _ _ (ad_delivers _ _ _ Had)).
      assert (published c2 = published c1) as ->.
      { destruct (_ =? _); [apply (dl_published _ _ _ (ad_delivers _ _ _ H2))|by subst c2]. }
      rewrite (rs_rest _ _ _ _ Hr). simpl. lia.
  - destruct (Multiple_spec x c) as (c1 & c2 & c' & n1 & n2 & Hr & H1 & _ & _ & E & H2); [done|lia|done|].
    exists c'. split_and!; [done|apply H2| |].
    + apply (progresses_trans _ c1); [by eapply resolved_progresses|].
      by apply (progresses_trans _ c2); eapply advances_progresses.
    + rewrite (dl_published _ _ _ (ad_delivers _ _ _ H2)), (dl_published _ _ _ (ad_delivers _ _ _ H1)).
      rewrite (rs_rest _ _ _ _ Hr). simpl. lia.
Qed.

Lemma confirm_traffic os c :
  confirms_wf c -> published c + len os < 2 ^ 64 - 1 -> Forall op_tag_ok os ->
  exists c', for_each confirm_step os c = Ok c' /\ confirms_wf c' /\ progresses c c'.
Proof.
  intros Hwf Hp Hos. revert c Hwf Hp. induction Hos as [|o os Ho _ IH]; intros c Hwf Hp.
  - exists c. split_and!; [done|done|]. by apply progresses_quiet.
  - change (o :: os) with ([o] ++ os) in Hp. rewrite len_app in Hp. change (len [o]) with 1 in Hp.
    pose proof (len_nonneg os).
    destruct (confirm_step_spec o c Hwf) as (c1 & E1 & W1 & P1 & L1); [lia|done|].
    destruct (IH c1 W1) as (c2 & E2 & W2 & P2); [lia|].
    exists c2. cbn [for_each]. rewrite E1. cbn [obind]. split_and!; [done|done|].
    by eapply progresses_trans.
Qed.

(** [Close]. *)
Lemma close_all ls c :
  NoDup ls -> (forall l, l ∈ ls -> lclosed c l = false) ->
  exists ch, for_each chan_close ls c = Ok (set_chans ch c) /\
    forall l, chan_of (set_chans ch c) l = MkChan (sent c l) (bool_decide (l ∈ ls) || lclosed c l).
Proof.
  revert c. induction ls as [|l ls IH]; intros c Hnd Hop.
  - exists (chans c). split; [by destruct c|]. intros k. rewrite bool_decide_eq_false_2 by set_solver.
    unfold sent, lclosed, chan_of. simpl. by destruct (default _ _).
  - apply list.NoDup_cons in Hnd as [Hl Hnd]. cbn [for_each]. unfold chan_close at 1.
    rewrite Hop by set_solver. cbn [obind].
    set (c1 := set_chans (<[l := MkChan (sent c l) true]> (chans c)) c).
    assert (forall k, k <> l -> chan_of c1 k = chan_of c k) as Hsame.
    { intros k Hk. unfold c1. rewrite chan_of_insert, decide_False by done. done. }
    destruct (IH c1 Hnd) as (ch & E & Hch).
    { intros k Hk. unfold lclosed. rewrite Hsame by set_solver. apply Hop. set_solver. }
    exists ch. split; [exact E|]. intros k. change (set_chans ch c) with (set_chans ch c1).
    rewrite Hch. unfold sent, lclosed. destruct (decide (k = l)) as [->|Hk].
    + unfold c1 at 1 2. rewrite chan_of_insert, decide_True by done. simpl.
      by rewrite (bool_decide_eq_true_2 (l ∈ l :: ls)), orb_true_r by set_solver.
    + rewrite Hsame by done. do 2 f_equal. apply bool_decide_ext. set_solver.
Qed.

Lemma Close_spec c :
  confirms_wf c ->
  exists c1 c', confirms_Close c = Ok c' /\ resolved false (fun _ => true) c c1 /\ same_deferred c1 c' /\
    confirms_wf c' /\ published c' = published c /\ listeners c' = [] /\
    forall l, l ∈ listeners c -> lclosed c' l = true /\ sent c' l = sent c l.
Proof.
  intros Hwf. destruct (resolve_table false (fun _ => true) c Hwf) as (c1 & E1 & H1).
  pose proof (resolved_wf _ _ _ _ H1 Hwf) as Hwf1. pose proof (rs_rest _ _ _ _ H1) as Er.
  destruct (close_all (listeners c1) c1) as (ch & E2 & Hch); [apply Hwf1|apply Hwf1|].
  unfold confirms_Close, deferred_Close.
  replace (for_each (resolve false) (map_to_list (confirmations c)) c) with (Ok c1) by (symmetry; exact E1).
  cbn [obind]. rewrite E2. cbn [obind]. exists c1. eexists. split_and!; [done|done|done| | |done|].
  - destruct Hwf1 as [W1 W2 W3 W4 W5 W6].
    split; [apply NoDup_nil_2|simpl; set_solver|exact W3|exact W4|exact W5|exact W6].
  - simpl. by rewrite Er.
  - intros l Hl. unfold lclosed, sent.
    change (chan_of (set_listeners [] (set_chans ch c1)) l) with (chan_of (set_chans ch c1) l).
    rewrite Hch. simpl. split; [|by rewrite Er].
    rewrite bool_decide_eq_true_2; [done|]. by rewrite Er.
Qed.

(** ** Properties *)

(** C10: confirmations that arrive one by one in any order (a permutation of
    the tags 1..n that were published) are all handed to every listener,
    each once and in the order of publishing. *)
Theorem resequence_any_order l n cs c :
  confirms_wf c -> l ∈ listeners c -> sent c l = [] -> expecting c = 1 -> sequencer c = ∅ ->
  published c = n -> n < 2 ^ 64 - 1 -> (DeliveryTag <$> cs) ≡ₚ seqZ 1 n ->
  exists c', for_each One cs c = Ok c' /\ expecting c' = n + 1 /\ sequencer c' = ∅ /\
    sent c' l ≡ₚ cs /\ DeliveryTag <$> sent c' l = seqZ 1 n.
Proof.
  intros Hwf Hl Hs He Hq Hp Hn Hcs. pose proof (cw_published c Hwf).
  destruct (Ones_sequencing l n cs [] c) as (c' & recv & E & Hsq & Hperm); [done|..].
  { split; try done; [lia|by rewrite Hs, He| | |]; rewrite ?Hs, ?Hq; try done.
    - intros x. rewrite lookup_empty. set_solver. }
  { rewrite app_nil_r, Hcs. apply NoDup_seqZ. }
  { intros y Hy. rewrite app_nil_r in Hy. assert (DeliveryTag y ∈ seqZ 1 n) as Hy'%elem_of_seqZ; [|lia].
    rewrite <- Hcs. by apply list_elem_of_fmap_2. }
  rewrite app_nil_r in Hperm. pose proof (sent_tag_range l n recv c') as Hrange.
  destruct Hsq as [Hwf' Hp' Hl' He' Hsent Hmem Hahead Hgap].
  assert (forall x, x ∈ recv -> 1 <= DeliveryTag x <= n) as Hb.
  { intros x Hx. assert (DeliveryTag x ∈ seqZ 1 n) as Hy'%elem_of_seqZ; [|lia].
    rewrite <- Hcs, <- Hperm. by apply list_elem_of_fmap_2. }
  assert (expecting c' = n + 1) as Ee.
  { destruct (Z.eq_dec (expecting c') (n + 1)); [done|].
    assert (expecting c' ∈ DeliveryTag <$> recv) as (x & Hx & Hin)%list_elem_of_fmap.
    { rewrite Hperm, Hcs. apply elem_of_seqZ. lia. }
    apply Hmem in Hin as [Hin|Hin]; [|rewrite <- Hx, Hgap in Hin by lia; done].
    assert (DeliveryTag x ∈ DeliveryTag <$> sent c' l) as Hs' by (by apply list_elem_of_fmap_2).
    rewrite Hsent in Hs'. apply elem_of_seqZ in Hs'. lia. }
  assert (sequencer c' = ∅) as Eq.
  { apply map_empty. intros t. destruct (sequencer c' !! t) as [x|] eqn:Ex; [|done].
    pose proof (cw_sequencer c' Hwf' t x Ex) as Ht. pose proof (Hahead t x Ex).
    assert (x ∈ recv) as Hx by (apply Hmem; right; congruence). apply Hb in Hx. lia. }
  exists c'. split_and!; [done|done|done| |by rewrite Hsent, Ee; f_equal; lia].
  rewrite <- Hperm. apply NoDup_Permutation.
  - apply (NoDup_fmap_1 DeliveryTag). rewrite Hsent. apply NoDup_seqZ.
  - apply (NoDup_fmap_1 DeliveryTag). rewrite Hperm, Hcs. apply NoDup_seqZ.
  - intros x. rewrite Hmem, Eq, lookup_empty. naive_solver.
Qed.

Lemma newConfirms_wf : confirms_wf newConfirms.
Proof. split; simpl; try done. apply NoDup_nil_2. Qed.

Lemma Listen_wf l c :
  confirms_wf c -> l ∉ listeners c -> lclosed c l = false -> confirms_wf (Listen l c).
Proof.
  intros [W1 W2 W3 W4 W5 W6] Hl Ho. split; [|..|exact W6]; simpl; try done.
  - apply list.NoDup_app. split_and!; [done|set_solver|apply NoDup_singleton].
  - intros k Hk. destruct (decide (k = l)) as [->|]; [exact Ho|]. apply W2. set_solver.
Qed.

(** Two messages published, one listener. *)
Definition two_published : confirms := snd (publish (snd (publish (Listen 0 newConfirms)))).

Lemma two_published_wf : confirms_wf two_published.
Proof.
  apply publish_wf; [|by vm_compute]. apply publish_wf; [|by vm_compute].
  apply Listen_wf; [apply newConfirms_wf|set_solver|done].
Qed.

Lemma resequence_any_order_witness :
  exists c', for_each One [MkConfirmation 2 true; MkConfirmation 1 false] two_published = Ok c' /\
    expecting c' = 2 + 1 /\ sequencer c' = ∅ /\
    sent c' 0%nat ≡ₚ [MkConfirmation 2 true; MkConfirmation 1 false] /\
    DeliveryTag <$> sent c' 0%nat = seqZ 1 2.
Proof.
  apply (resequence_any_order 0 2 [MkConfirmation 2 true; MkConfirmation 1 false] two_published).
  - apply two_published_wf.
  - by left.
  - by vm_compute.
  - by vm_compute.
  - by vm_compute.
  - by vm_compute.
  - by vm_compute.
  - apply Permutation_swap.
Defined.



(** C12: a deferred confirmation is resolved by the first confirmation that
    covers its tag, with the outcome of that confirmation, and [Close]
    resolves the remaining ones negatively; nothing else about deferred
    confirmations changes, so a resolved one keeps its outcome and its
    channel is never closed twice. *)
Theorem deferred_resolution x c :
  confirms_wf c -> published c < 2 ^ 64 - 1 -> 0 <= DeliveryTag x < 2 ^ 64 - 1 ->
  let resolves ack R c' := exists c1, resolved ack R c c1 /\ same_deferred c1 c' /\ confirms_wf c' in
  (exists c', One x c = Ok c' /\ resolves (Ack x) (Z.eqb (DeliveryTag x)) c') /\
  (exists c', Multiple x c = Ok c' /\ resolves (Ack x) (fun t => t <=? DeliveryTag x) c') /\
  (exists c', confirms_Close c = Ok c' /\ resolves false (fun _ => true) c' /\ listeners c' = [] /\
     forall l, l ∈ listeners c -> lclosed c' l = true /\ sent c' l = sent c l).
Proof.
  intros Hwf Hp Hx resolves. split_and!.
  - destruct (One_spec x c) as (c1 & c2 & c' & Hr & H2 & E & new & Had & _); [done|done|done|].
    exists c'. split; [done|]. exists c1. split_and!; [done| |apply Had].
    destruct (ad_deferred _ _ _ Had) as [F1 F2].
    destruct (_ =? _); [|by subst c2]. destruct (ad_deferred _ _ _ H2) as [G1 G2]. split; congruence.
  - destruct (Multiple_spec x c) as (c1 & c2 & c' & n1 & n2 & Hr & H1 & _ & _ & E & H2); [done..|].
    exists c'. split; [done|]. exists c1. split_and!; [done| |apply H2].
    destruct (ad_deferred _ _ _ H1) as [F1 F2], (ad_deferred _ _ _ H2) as [G1 G2]. split; congruence.
  - destruct (Close_spec c Hwf) as (c1 & c' & E & H1 & Hd & W & _ & Hl & Hcl).
    exists c'. split_and!; [done|by exists c1|done|done].
Qed.

Lemma deferred_resolution_witness :
  let x := MkConfirmation 1 true in
  let c := two_published in
  let resolves ack R c' := exists c1, resolved ack R c c1 /\ same_deferred c1 c' /\ confirms_wf c' in
  (exists c', One x c = Ok c' /\ resolves (Ack x) (Z.eqb (DeliveryTag x)) c') /\
  (exists c', Multiple x c = Ok c' /\ resolves (Ack x) (fun t => t <=? DeliveryTag x) c') /\
  (exists c', confirms_Close c = Ok c' /\ resolves false (fun _ => true) c' /\ listeners c' = [] /\
     forall l, l ∈ listeners c -> lclosed c' l = true /\ sent c' l = sent c l).
Proof.
  apply (deferred_resolution (MkConfirmation 1 true) two_published);
    [apply two_published_wf|by vm_compute|by vm_compute].
Defined.

(** a negative confirmation that waits in the sequencer is overridden
    by a later [multiple] confirmation of a higher tag: tag 2 is nacked and
    then tag 3 is acked with [multiple]; the listener is told that 2 was
    acked, while its deferred confirmation says that it was not. *)
Theorem multiple_overrides_nack :
  let c := snd (publish two_published) in
  exists c', (let! c1 := One (MkConfirmation 2 false) c in Multiple (MkConfirmation 3 true) c1) = Ok c' /\
    MkConfirmation 2 true ∈ sent c' 0%nat /\ (MkConfirmation 2 false ∉ sent c' 0%nat) /\
    (Wait <$> dcs c' !! 1%nat) = Some (Some false).
Proof.
  eexists. split; [by vm_compute|]. split_and!; [|by vm_compute; set_solver|by vm_compute].
  by vm_compute; right; left.
Qed.

(** A [multiple] confirmation of the largest delivery tag never
    returns: the expected tag wraps around below it, whatever the number of
    iterations. *)
Theorem multiple_max_tag_diverges fuel ack c :
  confirms_wf c -> Multiple_loop fuel (MkConfirmation (2 ^ 64 - 1) ack) c = NoFuel.
Proof.
  revert c. induction fuel as [|fuel IH]; intros c Hwf; cbn [Multiple_loop DeliveryTag];
    pose proof (cw_expecting c Hwf); rewrite (proj2 (Z.leb_le _ _)) by lia; [done|].
  destruct (confirm_spec (MkConfirmation (expecting c) ack) c Hwf) as (c' & E & Hwf' & _).
  cbn [Ack]. rewrite E. by apply IH.
Qed.

Lemma multiple_max_tag_diverges_witness :
  Multiple_loop 5 (MkConfirmation (2 ^ 64 - 1) true) two_published = NoFuel.
Proof. apply (multiple_max_tag_diverges 5 true two_published). apply two_published_wf. Defined.
