(* ===== verification/Delivery.v ===== *)
(** * Delivery: deliveries and returns (delivery.go, return.go)

    The flattened structs handed to the application and their construction
    from the messages with content; acknowledging through the
    [Acknowledger] interface. *)

From S2P Require Import Prelude Types Io SpecBasic Spec091.

(** [type Delivery struct]; [d_Acknowledger] refers to the channel. *)
Record Delivery := MkDelivery {
  d_Acknowledger : option nat;
  d_Headers : Table;
  d_ContentType : string;
  d_ContentEncoding : string;
  d_DeliveryMode : Z;
  d_Priority : Z;
  d_CorrelationId : string;
  d_ReplyTo : string;
  d_Expiration : string;
  d_MessageId : string;
  d_Timestamp : Time;
  d_Type : string;
  d_UserId : string;
  d_AppId : string;
  d_ConsumerTag : string;
  d_MessageCount : Z;
  d_DeliveryTag : Z;
  d_Redelivered : bool;
  d_Exchange : string;
  d_RoutingKey : string;
  d_Body : list byte
}.

(** [newDelivery(channel, msg)], for a message with content. *)
Definition newDelivery (channel : nat) (msg : message) : Delivery :=
  let '(props, body) := default (zeroProperties, []) (message_getContent msg) in
  let delivery ConsumerTag MessageCount DeliveryTag Redelivered Exchange RoutingKey :=
    MkDelivery (Some channel) (p_Headers props) (p_ContentType props) (p_ContentEncoding props)
      (p_DeliveryMode props) (p_Priority props) (p_CorrelationId props) (p_ReplyTo props)
      (p_Expiration props) (p_MessageId props) (p_Timestamp props) (p_Type props)
      (p_UserId props) (p_AppId props)
      ConsumerTag MessageCount DeliveryTag Redelivered Exchange RoutingKey body in
  match msg with
  | M_basicDeliver m =>
      delivery (basicDeliver_ConsumerTag m) 0 (basicDeliver_DeliveryTag m)
        (basicDeliver_Redelivered m) (basicDeliver_Exchange m) (basicDeliver_RoutingKey m)
  | M_basicGetOk m =>
      delivery EmptyString (basicGetOk_MessageCount m) (basicGetOk_DeliveryTag m)
        (basicGetOk_Redelivered m) (basicGetOk_Exchange m) (basicGetOk_RoutingKey m)
  | _ => delivery EmptyString 0 0 false EmptyString EmptyString
  end.

(** [type Return struct] *)
Record Return := MkReturn {
  r_ReplyCode : Z;
  r_ReplyText : string;
  r_Exchange : string;
  r_RoutingKey : string;
  r_ContentType : string;
  r_ContentEncoding : string;
  r_Headers : Table;
  r_DeliveryMode : Z;
  r_Priority : Z;
  r_CorrelationId : string;
  r_ReplyTo : string;
  r_Expiration : string;
  r_MessageId : string;
  r_Timestamp : Time;
  r_Type : string;
  r_UserId : string;
  r_AppId : string;
  r_Body : list byte
}.

Definition newReturn (msg : basicReturn) : Return :=
  let '(props, body) := basicReturn_getContent msg in
  MkReturn (basicReturn_ReplyCode msg) (basicReturn_ReplyText msg)
    (basicReturn_Exchange msg) (basicReturn_RoutingKey msg)
    (p_ContentType props) (p_ContentEncoding props) (p_Headers props) (p_DeliveryMode props)
    (p_Priority props) (p_CorrelationId props) (p_ReplyTo props) (p_Expiration props)
    (p_MessageId props) (p_Timestamp props) (p_Type props) (p_UserId props) (p_AppId props) body.

(** ** Acknowledging *)

Definition errDeliveryNotInitialized : goerror := TextError "delivery not initialized".

(** [type Acknowledger interface], over a state and a reference to the
    implementing object. *)
Class Acknowledger (St : Type) := {
  Acknowledger_Ack : nat -> Z -> bool -> St -> outcome (option goerror * St);
  Acknowledger_Nack : nat -> Z -> bool -> bool -> St -> outcome (option goerror * St);
  Acknowledger_Reject : nat -> Z -> bool -> St -> outcome (option goerror * St)
}.

Section Delegation.
Context `{Acknowledger St}.

Definition Delivery_Ack (d : Delivery) (multiple : bool) (s : St) : outcome (option goerror * St) :=
  match d_Acknowledger d with
  | None => Ok (Some errDeliveryNotInitialized, s)
  | Some a => Acknowledger_Ack a (d_DeliveryTag d) multiple s
  end.

Definition Delivery_Reject (d : Delivery) (requeue : bool) (s : St) : outcome (option goerror * St) :=
  match d_Acknowledger d with
  | None => Ok (Some errDeliveryNotInitialized, s)
  | Some a => Acknowledger_Reject a (d_DeliveryTag d) requeue s
  end.

Definition Delivery_Nack (d : Delivery) (multiple requeue : bool) (s : St) : outcome (option goerror * St) :=
  match d_Acknowledger d with
  | None => Ok (Some errDeliveryNotInitialized, s)
  | Some a => Acknowledger_Nack a (d_DeliveryTag d) multiple requeue s
  end.
End Delegation.
