(* ===== verification/Consumers.v ===== *)
(** * Consumers: delivering to consumers (consumers.go)

    Consumer tags; the table from tags to the channels of the buffering
    goroutines, and the goroutines themselves, as a transition system: a
    goroutine receives deliveries, queues them and hands them to the consumer
    in its own time.  Sends between goroutines on the unbuffered [in] channels
    are rendezvous steps. *)

From stdpp Require Import pretty.
From S2P Require Import Prelude Types Io Delivery.

(** ** Consumer tags *)

Definition consumerTagLengthMax : Z := 0xFF.

(** [atomic.AddUint64(&consumerSeq, 1)] gives the new value of the counter;
    the result is the counter and the tag. *)
Definition commandNameBasedUniqueConsumerTag (consumerSeq : Z) (commandName : string) : Z * string :=
  let consumerSeq := uintw 64 (consumerSeq + 1) in
  let tagPrefix := "ctag-" in
  let tagInfix := commandName in
  let tagSuffix := "-" +:+ pretty consumerSeq in
  let tagInfix :=
    if consumerTagLengthMax <? slen tagPrefix + slen tagInfix + slen tagSuffix
    then "streadway/amqp" else tagInfix in
  (consumerSeq, tagPrefix +:+ tagInfix +:+ tagSuffix).

(** ** The buffering goroutine *)

(** Where [buffer] is: at [range in], at the [select], or returned (with
    [out] closed). *)
Inductive phase := Ranging | Draining | Finished.

(** A goroutine and its channels.  [b_recv] is everything received from [in]
    and [b_out] everything handed to the consumer. *)
Record buffer := MkBuffer {
  b_phase : phase;
  b_in_closed : bool;
  b_inflight : bool; (** [inflight != nil] *)
  b_queue : list Delivery;
  b_recv : list Delivery;
  b_out : list Delivery
}.

(** [go subs.buffer(in, consumer)] *)
Definition new_buffer : buffer := MkBuffer Ranging false true [] [] [].

(** A rendezvous on [in]: the [range] or the [inflight] case of the
    [select]; [None] when the goroutine is not receiving. *)
Definition buffer_receive (d : Delivery) (b : buffer) : option buffer :=
  if b_in_closed b then None
  else
    match b_phase b with
    | Ranging =>
        Some (MkBuffer Draining false (b_inflight b) (b_queue b ++ [d]) (b_recv b ++ [d]) (b_out b))
    | Draining =>
        if b_inflight b then
          Some (MkBuffer Draining false true (b_queue b ++ [d]) (b_recv b ++ [d]) (b_out b))
        else None
    | Finished => None
    end.

Definition close_in (b : buffer) : buffer :=
  MkBuffer (b_phase b) true (b_inflight b) (b_queue b) (b_recv b) (b_out b).

(** The other steps of the goroutine, as the list of its choices: the end of
    the [range]; the closed, [inflight] and [out] cases of the [select]. *)
Definition buffer_choices (closed : bool) (b : buffer) : list buffer :=
  match b_phase b with
  | Ranging =>
      if b_in_closed b
      then [MkBuffer Finished true (b_inflight b) (b_queue b) (b_recv b) (b_out b)] else []
  | Draining =>
      (if closed
       then [MkBuffer Finished (b_in_closed b) (b_inflight b) (b_queue b) (b_recv b) (b_out b)]
       else []) ++
      (if b_inflight b && b_in_closed b
       then [MkBuffer Draining true false (b_queue b) (b_recv b) (b_out b)] else []) ++
      (match b_queue b with
       | [] => []
       | d :: queue =>
           [MkBuffer (match queue with [] => Ranging | _ => Draining end)
              (b_in_closed b) (b_inflight b) queue (b_recv b) (b_out b ++ [d])]
       end)
  | Finished => []
  end.

Definition buffer_step (closed : bool) (b b' : buffer) : Prop := b' ∈ buffer_choices closed b.

(** ** The table of consumers *)

(** [type consumers struct]; goroutines by number, in the order of their
    start. *)
Record consumers := MkConsumers {
  c_closed : bool;
  c_chans : gmap string nat;
  c_bufs : list buffer
}.

Definition makeConsumers : consumers := MkConsumers false ∅ [].

(** [close(ch)], which panics on a closed channel. *)
Definition close_chan (i : nat) (c : consumers) : outcome consumers :=
  match c_bufs c !! i with
  | Some b =>
      if b_in_closed b then Panicked
      else Ok (MkConsumers (c_closed c) (c_chans c) (<[i := close_in b]> (c_bufs c)))
  | None => Panicked
  end.

Definition consumers_add (tag : string) (c : consumers) : outcome consumers :=
  let! c :=
    (match c_chans c !! tag with
     | Some prev => close_chan prev c
     | None => Ok c
     end) in
  let in_ := length (c_bufs c) in
  Ok (MkConsumers (c_closed c) (<[tag := in_]> (c_chans c)) (c_bufs c ++ [new_buffer])).

Definition consumers_cancel (tag : string) (c : consumers) : outcome (bool * consumers) :=
  match c_chans c !! tag with
  | Some ch =>
      let! c := close_chan ch (MkConsumers (c_closed c) (delete tag (c_chans c)) (c_bufs c)) in
      Ok (true, c)
  | None => Ok (false, c)
  end.

(** Up to [subs.Wait()], which returns when [all_finished]. *)
Definition consumers_close (c : consumers) : outcome consumers :=
  if c_closed c then Panicked
  else
    for_each (fun kv c => close_chan (snd kv)
                            (MkConsumers (c_closed c) (delete (fst kv) (c_chans c)) (c_bufs c)))
      (map_to_list (c_chans c)) (MkConsumers true (c_chans c) (c_bufs c)).

Definition all_finished (c : consumers) : bool :=
  forallb (fun b => match b_phase b with Finished => true | _ => false end) (c_bufs c).

(** [buffer <- msg] waits for the goroutine: [None] is a call that has to
    wait (all but goroutine steps are then blocked, the lock being held). *)
Definition consumers_send (tag : string) (msg : Delivery) (c : consumers) : option (bool * consumers) :=
  match c_chans c !! tag with
  | None => Some (false, c)
  | Some i =>
      b ← c_bufs c !! i;
      b' ← buffer_receive msg b;
      Some (true, MkConsumers (c_closed c) (c_chans c) (<[i := b']> (c_bufs c)))
  end.

(** ** Executions *)

(** One call that completes, or one step of one goroutine. *)
Inductive consumers_step : consumers -> consumers -> Prop :=
  | step_add tag c c' : consumers_add tag c = Ok c' -> consumers_step c c'
  | step_cancel tag r c c' : consumers_cancel tag c = Ok (r, c') -> consumers_step c c'
  | step_send tag msg r c c' : consumers_send tag msg c = Some (r, c') -> consumers_step c c'
  | step_close c c' : consumers_close c = Ok c' -> consumers_step c c'
  | step_goroutine i b b' c :
      c_bufs c !! i = Some b -> buffer_step (c_closed c) b b' ->
      consumers_step c (MkConsumers (c_closed c) (c_chans c) (<[i := b']> (c_bufs c))).

(** ** Facts: the goroutine *)

(** The order of deliveries is kept and none is lost or made up; waiting at
    the [range] the queue is empty, at the [select] it is not; [inflight] is
    dropped only after [in] was closed; without a close of the consumers the
    goroutine returns only with an empty queue. *)
Record buffer_wf (closed : bool) (b : buffer) : Prop := {
  bw_order : b_recv b = b_out b ++ b_queue b;
  bw_ranging : b_phase b = Ranging -> b_queue b = [];
  bw_draining : b_phase b = Draining -> b_queue b <> [];
  bw_inflight : b_inflight b = false -> b_in_closed b = true;
  bw_finished : b_phase b = Finished -> closed = true \/ (b_queue b = [] /\ b_in_closed b = true)
}.

Lemma new_buffer_wf closed : buffer_wf closed new_buffer.
Proof. by split. Qed.

Lemma close_in_wf closed b : buffer_wf closed b -> buffer_wf closed (close_in b).
Proof. intros [H1 H2 H3 H4 H5]. split; simpl; try done. intros Hf. destruct (H5 Hf) as [|[]]; auto. Qed.

Lemma buffer_wf_close b : buffer_wf false b -> buffer_wf true b.
Proof. intros []. split; auto. Qed.

Lemma buffer_receive_wf closed d b b' :
  buffer_wf closed b -> buffer_receive d b = Some b' ->
  buffer_wf closed b' /\ b_recv b' = b_recv b ++ [d] /\ b_in_closed b' = b_in_closed b.
Proof.
  intros [H1 H2 H3 H4 H5] E. unfold buffer_receive in E.
  destruct (b_in_closed b) eqn:Ec; [done|].
  destruct (b_phase b); [|destruct (b_inflight b) eqn:Ei|]; simplify_eq/=;
    (split; [|done]); split; simpl; rewrite ?H1, ?app_assoc; try done; intros; by destruct (b_queue b).
Qed.

Lemma buffer_step_wf closed b b' :
  buffer_wf closed b -> buffer_step closed b b' ->
  buffer_wf closed b' /\ b_recv b' = b_recv b /\ b_in_closed b' = b_in_closed b.
Proof.
  intros [H1 H2 H3 H4 H5] Hs. unfold buffer_step, buffer_choices in Hs.
  destruct (b_phase b) eqn:Ep.
  - destruct (b_in_closed b) eqn:Ec; [|by apply not_elem_of_nil in Hs].
    apply list_elem_of_singleton in Hs as ->. split; [|done]. split; simpl; auto.
  - rewrite !elem_of_app in Hs. destruct Hs as [Hs|[Hs|Hs]].
    + destruct closed; [|by apply not_elem_of_nil in Hs].
      apply list_elem_of_singleton in Hs as ->. split; [|done]. split; simpl; auto; done.
    + destruct (b_inflight b && b_in_closed b) eqn:Eb; [|by apply not_elem_of_nil in Hs].
      apply andb_true_iff in Eb as [Ei Ec].
      apply list_elem_of_singleton in Hs as ->. split; [|done]. split; simpl; auto; done.
    + destruct (b_queue b) as [|d q] eqn:Eq; [by apply not_elem_of_nil in Hs|].
      apply list_elem_of_singleton in Hs as ->. split; [|done].
      split; simpl; rewrite ?H1, <- ?app_assoc; auto; by destruct q.
  - by apply not_elem_of_nil in Hs.
Qed.

(** After [in] is closed every step of the goroutine brings it closer to its
    end. *)
Definition buffer_measure (b : buffer) : nat :=
  match b_phase b with
  | Finished => 0
  | Ranging => 1
  | Draining => 1 + 2 * length (b_queue b) + (if b_inflight b then 1 else 0)
  end.

Lemma buffer_step_decreases closed b b' :
  b_in_closed b = true -> buffer_step closed b b' -> (buffer_measure b' < buffer_measure b)%nat.
Proof.
  intros Hc Hs. unfold buffer_step, buffer_choices in Hs. unfold buffer_measure at 2.
  rewrite Hc in Hs. destruct (b_phase b) eqn:Ep.
  - apply list_elem_of_singleton in Hs as ->. unfold buffer_measure. simpl. lia.
  - rewrite andb_true_r, !elem_of_app in Hs. destruct Hs as [Hs|[Hs|Hs]].
    + destruct closed; [|by apply not_elem_of_nil in Hs].
      apply list_elem_of_singleton in Hs as ->. unfold buffer_measure. simpl. lia.
    + destruct (b_inflight b); [|by apply not_elem_of_nil in Hs].
      apply list_elem_of_singleton in Hs as ->. unfold buffer_measure. simpl. lia.
    + destruct (b_queue b) as [|d q] eqn:Eq; [by apply not_elem_of_nil in Hs|].
      apply list_elem_of_singleton in Hs as ->. unfold buffer_measure. simpl.
      destruct q; simpl; [lia|]. destruct (b_inflight b); lia.
  - by apply not_elem_of_nil in Hs.
Qed.

(** A goroutine that has not returned is receiving or can take a step. *)
Lemma buffer_progress closed b :
  buffer_wf closed b -> b_phase b = Finished \/ (exists b', buffer_step closed b b') \/
  (b_in_closed b = false /\ forall d, exists b', buffer_receive d b = Some b').
Proof.
  intros [H1 H2 H3 H4 H5]. unfold buffer_step, buffer_choices, buffer_receive.
  destruct (b_phase b) eqn:Ep; [|right; left|by left].
  - destruct (b_in_closed b) eqn:Ec; right; [left|right]; eauto.
    eexists. by apply list_elem_of_singleton.
  - destruct (b_queue b) as [|d q] eqn:Eq; [by destruct (H3 eq_refl)|].
    eexists. rewrite !elem_of_app. right. right. by apply list_elem_of_singleton.
Qed.

Lemma buffer_steps_keep closed b b' :
  buffer_wf closed b -> rtc (buffer_step closed) b b' ->
  buffer_wf closed b' /\ b_recv b' = b_recv b /\ b_in_closed b' = b_in_closed b.
Proof.
  intros Hwf Hr. induction Hr as [|b b1 b2 Hs _ IH]; [done|].
  destruct (buffer_step_wf _ _ _ Hwf Hs) as (W & R & C). destruct (IH W) as (W' & R' & C').
  split_and!; [done|congruence|congruence].
Qed.

(** ** Facts: the table *)

(** The table holds exactly the goroutines whose channel is open, one tag
    each. *)
Record consumers_wf (c : consumers) : Prop := {
  kw_bufs : forall i b, c_bufs c !! i = Some b -> buffer_wf (c_closed c) b;
  kw_open : forall tag i, c_chans c !! tag = Some i ->
    exists b, c_bufs c !! i = Some b /\ b_in_closed b = false;
  kw_inj : forall tag tag' i, c_chans c !! tag = Some i -> c_chans c !! tag' = Some i -> tag = tag';
  kw_owned : forall i b, c_bufs c !! i = Some b -> b_in_closed b = false ->
    exists tag, c_chans c !! tag = Some i
}.

Lemma makeConsumers_wf : consumers_wf makeConsumers.
Proof. split; simpl; intros; by simplify_map_eq. Qed.

(** Removing a tag and closing its channel. *)
Lemma close_entry tag i c :
  consumers_wf c -> c_chans c !! tag = Some i ->
  exists b, c_bufs c !! i = Some b /\ b_in_closed b = false /\
    consumers_wf (MkConsumers (c_closed c) (delete tag (c_chans c)) (<[i := close_in b]> (c_bufs c))).
Proof.
  intros [H1 H2 H3 H4] Ht. destruct (H2 tag i Ht) as (b & Hb & Hc). exists b. split_and!; [done|done|].
  assert (i < length (c_bufs c))%nat as Hi by (by eapply lookup_lt_Some). split; simpl.
  - intros j b' Hj. destruct (decide (i = j)) as [<-|Hij].
    + rewrite list_lookup_insert_eq in Hj by done. simplify_eq. apply close_in_wf. eauto.
    + rewrite list_lookup_insert_ne in Hj by done. eauto.
  - intros tag' j [Hne Hj]%lookup_delete_Some.
    assert (i <> j) by (intros <-; apply Hne; eauto). rewrite list_lookup_insert_ne by done. eauto.
  - intros t t' j [_ Hj]%lookup_delete_Some [_ Hj']%lookup_delete_Some. eauto.
  - intros j b' Hj Hc'. destruct (decide (i = j)) as [<-|Hij].
    + rewrite list_lookup_insert_eq in Hj by done. by simplify_eq.
    + rewrite list_lookup_insert_ne in Hj by done. destruct (H4 j b' Hj Hc') as (t & Hjt).
      exists t. apply lookup_delete_Some. split; [|done]. intros <-. congruence.
Qed.

Lemma close_chan_ok i c b :
  c_bufs c !! i = Some b -> b_in_closed b = false ->
  close_chan i c = Ok (MkConsumers (c_closed c) (c_chans c) (<[i := close_in b]> (c_bufs c))).
Proof. intros Hb Hc. unfold close_chan. by rewrite Hb, Hc. Qed.

(** A fresh goroutine under a tag that is not in the table. *)
Lemma add_entry tag c :
  consumers_wf c -> c_chans c !! tag = None ->
  consumers_wf (MkConsumers (c_closed c) (<[tag := length (c_bufs c)]> (c_chans c))
                  (c_bufs c ++ [new_buffer])).
Proof.
  intros [H1 H2 H3 H4] Ht.
  assert (forall t i, c_chans c !! t = Some i -> i < length (c_bufs c))%nat as Hlt.
  { intros t i Hi. destruct (H2 t i Hi) as (b & Hb & _). by eapply lookup_lt_Some. }
  split; simpl.
  - intros i b [Hb|[_ Hb]]%lookup_app_Some; [eauto|].
    apply list_lookup_singleton_Some in Hb as [_ <-]. apply new_buffer_wf.
  - intros t i [[<- <-]|[_ Hi]]%lookup_insert_Some.
    + exists new_buffer. by rewrite list_lookup_middle.
    + destruct (H2 t i Hi) as (b & Hb & Hc). exists b. split; [by apply lookup_app_l_Some|done].
  - intros t t' i [[<- <-]|[Hne Hi]]%lookup_insert_Some [[<- Hi']|[Hne' Hi']]%lookup_insert_Some;
      try done; try (apply Hlt in Hi'; lia); [|eauto]. subst i. apply Hlt in Hi. lia.
  - intros i b [Hb|[Hge Hb]]%lookup_app_Some Hc.
    + destruct (H4 i b Hb Hc) as (t & Hi). exists t. rewrite lookup_insert_ne; [done|]. congruence.
    + apply list_lookup_singleton_Some in Hb as [Hb _]. exists tag.
      replace i with (length (c_bufs c)) by lia. apply lookup_insert_eq.
Qed.

Lemma consumers_add_spec tag c :
  consumers_wf c ->
  exists c', consumers_add tag c = Ok c' /\ consumers_wf c' /\
    c_chans c' = <[tag := length (c_bufs c)]> (c_chans c) /\
    c_bufs c' !! length (c_bufs c) = Some new_buffer /\
    (forall i, c_chans c !! tag = Some i -> b_in_closed <$> c_bufs c' !! i = Some true).
Proof.
  intros Hwf. unfold consumers_add. destruct (c_chans c !! tag) as [i|] eqn:Ht; cbn [obind].
  - destruct (close_entry tag i c Hwf Ht) as (b & Hb & Hc & Hwf').
    rewrite (close_chan_ok i c b Hb Hc). cbn [obind c_bufs c_chans c_closed].
    assert (i < length (c_bufs c))%nat as Hi by (by eapply lookup_lt_Some).
    pose proof (add_entry tag _ Hwf' (lookup_delete_eq _ _)) as Hadd. simpl in Hadd.
    rewrite insert_delete_eq in Hadd. rewrite length_insert in *.
    eexists. split_and!; [done|done|done| |].
    + simpl. rewrite lookup_app_r by (rewrite length_insert; lia).
      by rewrite length_insert, Nat.sub_diag.
    + intros j [= <-]. simpl. rewrite lookup_app_l by (rewrite length_insert; lia).
      by rewrite list_lookup_insert_eq.
  - eexists. split_and!; [done|by apply add_entry|done| |done]. simpl. by rewrite list_lookup_middle.
Qed.

Lemma consumers_cancel_spec tag c :
  consumers_wf c ->
  exists r c', consumers_cancel tag c = Ok (r, c') /\ consumers_wf c' /\
    c_closed c' = c_closed c /\ c_chans c' = delete tag (c_chans c) /\
    match c_chans c !! tag with
    | Some i => r = true /\ exists b, c_bufs c !! i = Some b /\ c_bufs c' !! i = Some (close_in b)
    | None => r = false /\ c_bufs c' = c_bufs c
    end.
Proof.
  intros Hwf. unfold consumers_cancel. destruct (c_chans c !! tag) as [i|] eqn:Ht.
  - destruct (close_entry tag i c Hwf Ht) as (b & Hb & Hc & Hwf').
    erewrite close_chan_ok by done. cbn [obind]. eexists _, _.
    split_and!; [done|done|done|done|done|]. exists b. split; [done|]. simpl.
    apply list_lookup_insert_eq. by eapply lookup_lt_Some.
  - exists false, c. split_and!; [done|done|done|by rewrite delete_id|done|done].
Qed.

(** The loop of [close]. *)
Lemma close_entries kvs c :
  consumers_wf c -> NoDup kvs.*1 -> (forall tag i, (tag, i) ∈ kvs -> c_chans c !! tag = Some i) ->
  exists c', for_each (fun kv c => close_chan (snd kv)
                         (MkConsumers (c_closed c) (delete (fst kv) (c_chans c)) (c_bufs c))) kvs c = Ok c' /\
    consumers_wf c' /\ c_closed c' = c_closed c /\ length (c_bufs c') = length (c_bufs c) /\
    forall tag, c_chans c' !! tag = if decide (tag ∈ kvs.*1) then None else c_chans c !! tag.
Proof.
  revert c. induction kvs as [|[tag i] kvs IH]; intros c Hwf Hnd Hin.
  - exists c. split_and!; try done.
  - rewrite fmap_cons in *. apply list.NoDup_cons in Hnd as [Ht Hnd]. cbn [for_each fst snd].
    destruct (close_entry tag i c Hwf) as (b & Hb & Hc & Hwf'); [apply Hin; by left|].
    erewrite close_chan_ok by done. cbn [obind c_closed c_chans c_bufs].
    destruct (IH _ Hwf' Hnd) as (c' & E & W & Cl & L & D).
    { intros t j Hj. simpl. rewrite lookup_delete_ne; [apply Hin; by right|].
      intros ->. apply Ht. apply list_elem_of_fmap. by exists (t, j). }
    exists c'. split_and!; [done|done|done|by rewrite L; simpl; rewrite length_insert|].
    intros t. rewrite D. simpl. destruct (decide (t = tag)) as [->|Hne].
    + rewrite (decide_True (P := tag ∈ tag :: _)) by (by left). rewrite lookup_delete_eq. by case_decide.
    + rewrite lookup_delete_ne by done. repeat case_decide; try done; set_solver.
Qed.

Lemma consumers_close_spec c :
  consumers_wf c -> c_closed c = false ->
  exists c', consumers_close c = Ok c' /\ consumers_wf c' /\ c_closed c' = true /\ c_chans c' = ∅ /\
    length (c_bufs c') = length (c_bufs c).
Proof.
  intros Hwf Hc. unfold consumers_close. rewrite Hc.
  destruct (close_entries (map_to_list (c_chans c)) (MkConsumers true (c_chans c) (c_bufs c)))
    as (c' & E & W & Cl & L & D).
  - destruct Hwf as [H1 H2 H3 H4]. split; try done. intros i b Hb. simpl.
    apply buffer_wf_close. rewrite <- Hc. eauto.
  - apply NoDup_fst_map_to_list.
  - intros tag i. apply elem_of_map_to_list.
  - exists c'. split_and!; [done|done|done| |done]. apply map_empty. intros tag. rewrite D.
    case_decide as Ht; [done|]. simpl. destruct (c_chans c !! tag) as [i|] eqn:Ei; [|done].
    destruct Ht. apply list_elem_of_fmap. exists (tag, i). split; [done|].
    by apply elem_of_map_to_list.
Qed.

(** Replacing the state of a goroutine by one with the same [in]. *)
Lemma set_buffer_wf i b b' c :
  consumers_wf c -> c_bufs c !! i = Some b -> buffer_wf (c_closed c) b' ->
  b_in_closed b' = b_in_closed b ->
  consumers_wf (MkConsumers (c_closed c) (c_chans c) (<[i := b']> (c_bufs c))).
Proof.
  intros [H1 H2 H3 H4] Hb Hb' Hc.
  assert (i < length (c_bufs c))%nat as Hi by (by eapply lookup_lt_Some). split; simpl; [..|done|].
  - intros j x Hj. destruct (decide (i = j)) as [<-|Hij].
    + rewrite list_lookup_insert_eq in Hj by done. by simplify_eq.
    + rewrite list_lookup_insert_ne in Hj by done. eauto.
  - intros tag j Hj. destruct (H2 tag j Hj) as (x & Hx & Hcx).
    destruct (decide (i = j)) as [<-|Hij].
    + exists b'. rewrite list_lookup_insert_eq by done. split; [done|]. congruence.
    + exists x. by rewrite list_lookup_insert_ne.
  - intros j x Hj Hcx. destruct (decide (i = j)) as [<-|Hij].
    + rewrite list_lookup_insert_eq in Hj by done. simplify_eq. apply (H4 i b); [done|congruence].
    + rewrite list_lookup_insert_ne in Hj by done. eauto.
Qed.

Lemma consumers_step_wf c c' : consumers_wf c -> consumers_step c c' -> consumers_wf c'.
Proof.
  intros Hwf Hs. destruct Hs as [tag c c' E|tag r c c' E|tag msg r c c' E|c c' E|i b b' c Hb Hs].
  - destruct (consumers_add_spec tag c Hwf) as (c1 & E1 & W & _). congruence.
  - destruct (consumers_cancel_spec tag c Hwf) as (r1 & c1 & E1 & W & _). congruence.
  - unfold consumers_send in E. destruct (c_chans c !! tag) as [i|] eqn:Ht; [|by simplify_eq].
    apply bind_Some in E as (b & Hb & E). apply bind_Some in E as (b' & Hr & E). simplify_eq.
    destruct (buffer_receive_wf (c_closed c) msg b b') as (W & _ & C);
      [by eapply kw_bufs|done|by eapply set_buffer_wf].
  - destruct (c_closed c) eqn:Hc; [unfold consumers_close in E; by rewrite Hc in E|].
    destruct (consumers_close_spec c Hwf Hc) as (c1 & E1 & W & _). congruence.
  - destruct (buffer_step_wf (c_closed c) b b') as (W & _ & C);
      [by eapply kw_bufs|done|by eapply set_buffer_wf].
Qed.

Lemma reachable_wf c : rtc consumers_step makeConsumers c -> consumers_wf c.
Proof.
  intros Hr. pose proof makeConsumers_wf as Hwf.
  induction Hr as [|c1 c2 c3 Hs _ IH]; [done|]. by eapply IH, consumers_step_wf.
Qed.

Lemma buffer_terminates closed b : b_in_closed b = true -> sn (buffer_step closed) b.
Proof.
  remember (buffer_measure b) as n eqn:En. revert b En.
  induction n as [n IH] using lt_wf_ind. intros b -> Hc. constructor. intros b' Hs.
  pose proof (buffer_step_decreases _ _ _ Hc Hs) as Hlt.
  eapply IH; [exact Hlt|done|]. unfold flip, buffer_step, buffer_choices in Hs. rewrite Hc in Hs.
  destruct (b_phase b); [| |by apply not_elem_of_nil in Hs].
  - by apply list_elem_of_singleton in Hs as ->.
  - destruct closed, (b_inflight b), (b_queue b); simpl in Hs; set_solver.
Qed.

(** ** Facts: consumer tags *)

Lemma pretty_N_go_length k x s :
  (x < 10 ^ N.of_nat k)%N -> (String.length (pretty_N_go x s) <= k + String.length s)%nat.
Proof.
  revert x s. induction k as [|k IH]; intros x s Hx.
  - simpl in Hx. assert (x = 0%N) as -> by lia. rewrite pretty_N_go_0. lia.
  - destruct (decide (x = 0%N)) as [->|Hne]; [rewrite pretty_N_go_0; lia|].
    rewrite pretty_N_go_step by lia. etrans; [apply IH|simpl; lia].
    apply N.Div0.div_lt_upper_bound. rewrite Nat2N.inj_succ, N.pow_succ_r' in Hx. lia.
Qed.

Lemma pretty_uint64_length z : is_uint 64 z -> (String.length (pretty z) <= 20)%nat.
Proof.
  intros Hz. destruct z as [|p|p]; [simpl; lia| |unfold is_uint in Hz; lia].
  unfold pretty, pretty_Z, pretty, pretty_positive, pretty, pretty_N. case_decide; [done|].
  etrans; [apply (pretty_N_go_length 20)|simpl; lia].
  unfold is_uint in Hz. change (10 ^ N.of_nat 20)%N with 100000000000000000000%N. lia.
Qed.

Lemma slen_app s t : slen (s +:+ t) = slen s + slen t.
Proof.
  unfold slen. enough (String.length (s +:+ t) = String.length s + String.length t)%nat by lia.
  induction s; simpl; [done|lia].
Qed.

Lemma string_app_inv s1 s2 t1 t2 :
  s1 +:+ t1 = s2 +:+ t2 -> String.length s1 = String.length s2 -> s1 = s2 /\ t1 = t2.
Proof.
  revert s2. induction s1 as [|c s1 IH]; intros [|c' s2]; simpl; intros E L; try lia; [done|].
  injection E as -> E. injection L as L. destruct (IH s2 E L) as [-> ->]. done.
Qed.

Lemma tag_suffix_length n : is_uint 64 n -> slen ("-" +:+ pretty n) <= 21.
Proof.
  intros Hn%pretty_uint64_length. rewrite slen_app. unfold slen. simpl String.length at 1. lia.
Qed.

(** ** Properties *)

(** A generated consumer tag has at most 255 bytes, whatever the name of
    the command, so that it survives as a short string; and two tags are
    equal only when they come from the same value of the counter. *)
Theorem consumer_tags_unique name n m :
  let '(n', tag1) := commandNameBasedUniqueConsumerTag n name in
  let '(m', tag2) := commandNameBasedUniqueConsumerTag m name in
  slen tag1 <= consumerTagLengthMax /\ (tag1 = tag2 -> n' = m').
Proof.
  unfold commandNameBasedUniqueConsumerTag, consumerTagLengthMax.
  set (n' := uintw 64 (n + 1)). set (m' := uintw 64 (m + 1)).
  assert (is_uint 64 n' /\ is_uint 64 m') as [Hn Hm] by (split; apply uintw_range; lia).
  pose proof (tag_suffix_length n' Hn) as Ln. pose proof (tag_suffix_length m' Hm) as Lm.
  set (sn := "-" +:+ pretty n') in *. set (sm := "-" +:+ pretty m') in *.
  assert (sn = sm -> n' = m') as Hinj.
  { intros E. apply (inj (@pretty Z _)). exact (proj2 (string_app_inv "-" "-" _ _ E eq_refl)). }
  pose proof (slen_nonneg sn). pose proof (slen_nonneg sm). pose proof (slen_nonneg name).
  change (slen "ctag-") with 5.
  destruct (Z.ltb_spec 0xFF (5 + slen name + slen sn)), (Z.ltb_spec 0xFF (5 + slen name + slen sm));
    rewrite !slen_app; change (slen "ctag-") with 5; change (slen "streadway/amqp") with 14;
    (split; [lia|]); intros E;
    apply string_app_inv in E as [_ E]; try done.
  - apply string_app_inv in E as [_ E]; auto.
  - apply (f_equal slen) in E. rewrite !slen_app in E. change (slen "streadway/amqp") with 14 in E. lia.
  - apply (f_equal slen) in E. rewrite !slen_app in E. change (slen "streadway/amqp") with 14 in E. lia.
  - apply string_app_inv in E as [_ E]; auto.
Qed.

(** C31: in every reachable state and for every consumer, what was handed to
    the consumer followed by what is queued for it is exactly what arrived
    for it, in order; and unless the consumers were closed, a goroutine that
    has returned has handed over everything.  A delivery for a tag that is in
    the table goes to the one goroutine of that tag, whose channel is open. *)
Theorem deliveries_in_order c i b :
  rtc consumers_step makeConsumers c -> c_bufs c !! i = Some b ->
  b_recv b = b_out b ++ b_queue b /\
  (b_phase b = Finished -> c_closed c = false -> b_out b = b_recv b) /\
  (b_in_closed b = false <-> exists tag, c_chans c !! tag = Some i).
Proof.
  intros Hr Hb. destruct (reachable_wf c Hr) as [H1 H2 H3 H4]. destruct (H1 i b Hb) as [B1 B2 B3 B4 B5].
  split_and!; [done| |split; [by apply H4|]].
  - intros Hf Hc. destruct (B5 Hf) as [Hc'|[Hq _]]; [congruence|]. by rewrite B1, Hq, app_nil_r.
  - intros (tag & Ht). destruct (H2 tag i Ht) as (b' & Hb' & ?). congruence.
Qed.

Definition one_consumer : consumers := MkConsumers false {["t" := 0%nat]} [new_buffer].

(** Two deliveries have come, and the first was handed over. *)
Definition delivery_of (tag : Z) : Delivery :=
  MkDelivery None [] "" "" 0 0 "" "" "" "" zeroTime "" "" "" "t" 0 tag false "" "" [].
Definition two_waiting : buffer :=
  MkBuffer Draining false true [delivery_of 1; delivery_of 2] [delivery_of 1; delivery_of 2] [].
Definition half_drained : buffer :=
  MkBuffer Draining false true [delivery_of 2] [delivery_of 1; delivery_of 2] [delivery_of 1].

Definition consumer_with (b : buffer) : consumers := MkConsumers false {["t" := 0%nat]} [b].
Definition consuming : consumers := consumer_with half_drained.

Lemma consuming_reachable : rtc consumers_step makeConsumers consuming.
Proof.
  apply (rtc_l _ _ one_consumer); [apply (step_add "t"); by vm_compute|].
  apply (rtc_l _ _ (consumer_with (MkBuffer Draining false true [delivery_of 1] [delivery_of 1] [])));
    [apply (step_send "t" (delivery_of 1) true); by vm_compute|].
  apply (rtc_l _ _ (consumer_with two_waiting)); [apply (step_send "t" (delivery_of 2) true); by vm_compute|].
  apply rtc_once, (step_goroutine 0 two_waiting half_drained (consumer_with two_waiting)); [done|]. vm_compute. by left.
Qed.

Lemma deliveries_in_order_witness :
  b_recv half_drained = b_out half_drained ++ b_queue half_drained /\
  (b_phase half_drained = Finished -> c_closed consuming = false -> b_out half_drained = b_recv half_drained) /\
  (b_in_closed half_drained = false <-> exists tag, c_chans consuming !! tag = Some 0%nat).
Proof. apply (deliveries_in_order consuming 0 half_drained consuming_reachable). reflexivity. Defined.

(** No call on the consumers of a channel panics, a second [close]
    apart: in every reachable state [add] starts a goroutine under the tag
    and closes the one it displaces, [cancel] closes the goroutine of its
    tag and reports whether there was one, and [close] empties the table. *)
Theorem consumers_calls_succeed tag c :
  rtc consumers_step makeConsumers c ->
  (exists c', consumers_add tag c = Ok c' /\
     c_chans c' = <[tag := length (c_bufs c)]> (c_chans c) /\
     (forall i, c_chans c !! tag = Some i -> b_in_closed <$> c_bufs c' !! i = Some true)) /\
  (exists r c', consumers_cancel tag c = Ok (r, c') /\ c_chans c' = delete tag (c_chans c) /\
     (r = true <-> is_Some (c_chans c !! tag))) /\
  (c_closed c = true \/ exists c', consumers_close c = Ok c' /\ c_chans c' = ∅).
Proof.
  intros Hr. pose proof (reachable_wf c Hr) as Hwf. split_and!.
  - destruct (consumers_add_spec tag c Hwf) as (c' & E & _ & Hc & _ & Hi). eauto.
  - destruct (consumers_cancel_spec tag c Hwf) as (r & c' & E & _ & _ & Hc & Hi).
    exists r, c'. split_and!; [done|done|]. destruct (c_chans c !! tag); destruct Hi as [-> _];
      split; try done; by intros [].
  - destruct (c_closed c) eqn:Hc; [by left|right].
    destruct (consumers_close_spec c Hwf Hc) as (c' & E & _ & _ & Hm & _). eauto.
Qed.

Lemma consumers_calls_succeed_witness :
  (exists c', consumers_add "t" one_consumer = Ok c' /\
     c_chans c' = <["t" := length (c_bufs one_consumer)]> (c_chans one_consumer) /\
     (forall i, c_chans one_consumer !! "t" = Some i -> b_in_closed <$> c_bufs c' !! i = Some true)) /\
  (exists r c', consumers_cancel "t" one_consumer = Ok (r, c') /\
     c_chans c' = delete "t" (c_chans one_consumer) /\
     (r = true <-> is_Some (c_chans one_consumer !! "t"))) /\
  (c_closed one_consumer = true \/ exists c', consumers_close one_consumer = Ok c' /\ c_chans c' = ∅).
Proof.
  apply (consumers_calls_succeed "t" one_consumer).
  apply rtc_once. apply (step_add "t"). by vm_compute.
Defined.

(** C32: once its channel is closed (by [cancel], by a conflicting [add] or
    by [close]) a goroutine returns after finitely many steps however the
    [select] chooses, it never gets stuck before, and unless the consumers
    were closed it has then handed everything it received to the consumer. *)
Theorem buffer_drains closed b :
  buffer_wf closed b -> b_in_closed b = true ->
  sn (buffer_step closed) b /\
  forall b', rtc (buffer_step closed) b b' -> nf (buffer_step closed) b' ->
    b_phase b' = Finished /\ (closed = false -> b_out b' = b_recv b).
Proof.
  intros Hwf Hc. split; [by apply buffer_terminates|]. intros b' Hr Hn.
  destruct (buffer_steps_keep _ _ _ Hwf Hr) as (Hwf' & R & C).
  destruct (buffer_progress closed b' Hwf') as [Hf|[[b2 Hs]|[Hc' _]]].
  - split; [done|]. intros ->. destruct (bw_finished _ _ Hwf' Hf) as [|[Hq _]]; [done|].
    by rewrite <- R, (bw_order _ _ Hwf'), Hq, app_nil_r.
  - destruct Hn. by exists b2.
  - congruence.
Qed.

Definition sample_delivery : Delivery :=
  MkDelivery None [] "" "" 0 0 "" "" "" "" zeroTime "" "" "" "t" 0 7 false "" "" [].

Definition cancelled_buffer : buffer :=
  MkBuffer Draining true true [sample_delivery] [sample_delivery] [].

Lemma buffer_drains_witness :
  sn (buffer_step false) cancelled_buffer /\
  forall b', rtc (buffer_step false) cancelled_buffer b' -> nf (buffer_step false) b' ->
    b_phase b' = Finished /\ (false = false -> b_out b' = b_recv cancelled_buffer).
Proof. apply (buffer_drains false cancelled_buffer); [by split|done]. Defined.
