(* ===== verification/Auth.v ===== *)
(** * Auth: SASL mechanisms (auth.go) *)

From S2P Require Import Prelude Types Io Wire.

(** [type Authentication interface] by implementation; [CustomAuth] is one of
    the application's, by what its methods return. *)
Inductive Authentication :=
  | PlainAuth (Username Password : string)
  | AMQPlainAuth (Username Password : string)
  | ExternalAuth
  | CustomAuth (mechanism response : string).

Definition Mechanism (auth : Authentication) : string :=
  match auth with
  | PlainAuth _ _ => "PLAIN"
  | AMQPlainAuth _ _ => "AMQPLAIN"
  | ExternalAuth => "EXTERNAL"
  | CustomAuth m _ => m
  end.

(** The NUL octet. *)
Definition nul : string := String Ascii.zero EmptyString.

(** The entries of the credentials table in one order of iteration. *)
Definition credentials (u p : string) (login_first : bool) : Table :=
  if login_first then [("LOGIN", VString u); ("PASSWORD", VString p)]
  else [("PASSWORD", VString p); ("LOGIN", VString u)].

Definition Response (login_first : bool) (auth : Authentication) : string :=
  match auth with
  | PlainAuth u p => nul +:+ u +:+ nul +:+ p
  | AMQPlainAuth u p =>
      match run_writer (writeTable (credentials u p login_first)) with
      | (Some _, _) => EmptyString
      | (None, buf) => string_of_bytes (drop 4 buf)
      end
  | ExternalAuth => nul +:+ "*" +:+ nul +:+ "*"
  | CustomAuth _ r => r
  end.

(** The first mechanism of the client that the server supports. *)
Fixpoint pickSASLMechanism (client : list Authentication) (serverMechanisms : list string)
  : option Authentication :=
  match client with
  | [] => None
  | auth :: r =>
      if existsb (fun mech => bool_decide (Mechanism auth = mech)) serverMechanisms
      then Some auth
      else pickSASLMechanism r serverMechanisms
  end.
