(* ===== verification/State.v ===== *)
(** * State: connections, channels and what they share

    The structs [Connection] and [Channel] with the objects they refer to:
    channels by address, so that a channel that left the registry is still
    there for its holders; listeners by name; the buffered writer and the
    transport as bytes.  Calls are state passing over [Connection]: a call
    runs as one step, and the goroutines the code starts are recorded to run
    as steps of their own. *)

From S2P Require Import Prelude Types Io Spec091 Frame Allocator Confirms Delivery Consumers Auth.

(** ** Listeners *)

(** The Go channels handed to the [Notify...] methods, by kind and name. *)
Inductive listener :=
  | LClose (n : nat)
  | LFlow (n : nat)
  | LReturn (n : nat)
  | LCancel (n : nat)
  | LBlock (n : nat).

#[export] Instance listener_eq_dec : EqDecision listener.
Proof. solve_decision. Defined.

(** [type Blocking struct] *)
Record Blocking := MkBlocking { Blocking_Active : bool; Blocking_Reason : string }.

Inductive notice :=
  | NError (e : Error)
  | NFlow (active : bool)
  | NReturn (r : Return)
  | NCancel (tag : string)
  | NBlocking (b : Blocking).

(** What becomes visible outside: notifications, closed listeners, replies
    handed to a waiting call of the connection ([None]) or of a channel, and
    the close of the transport. *)
Inductive event :=
  | Notified (l : listener) (n : notice)
  | ListenerClosed (l : listener)
  | Rpc (target : option nat) (m : option message)
  | TransportClosed.

(** ** Channels *)

(** The value of [ch.recv]. *)
Inductive recv_state := RecvMethod | RecvHeader | RecvContent.

(** [type Channel struct].  [ch_shut] tells that [destructor] has run, which
    also closes [ch.close]; [ch_body_cap] that [cap(ch.body) > 0]. *)
Record Channel := MkChannel {
  ch_id : Z;
  ch_closed : bool;
  ch_shut : bool;
  ch_noNotify : bool;
  ch_closes : list nat;
  ch_flows : list nat;
  ch_returns : list nat;
  ch_cancels : list nat;
  ch_confirms : confirms;
  ch_confirming : bool;
  ch_consumers : consumers;
  ch_errors : list Error;
  ch_errors_closed : bool;
  ch_recv : recv_state;
  ch_message : option message;
  ch_header : option headerFrame;
  ch_body : list byte;
  ch_body_cap : bool
}.

Definition newChannel (id : Z) : Channel :=
  MkChannel id false false false [] [] [] [] newConfirms false makeConsumers [] false
    RecvMethod None None [] false.

Definition with_closed (x : bool) (c : Channel) : Channel :=
  MkChannel (ch_id c) x (ch_shut c) (ch_noNotify c) (ch_closes c) (ch_flows c) (ch_returns c)
    (ch_cancels c) (ch_confirms c) (ch_confirming c) (ch_consumers c) (ch_errors c)
    (ch_errors_closed c) (ch_recv c) (ch_message c) (ch_header c) (ch_body c) (ch_body_cap c).
Definition with_confirms (x : confirms) (c : Channel) : Channel :=
  MkChannel (ch_id c) (ch_closed c) (ch_shut c) (ch_noNotify c) (ch_closes c) (ch_flows c) (ch_returns c)
    (ch_cancels c) x (ch_confirming c) (ch_consumers c) (ch_errors c)
    (ch_errors_closed c) (ch_recv c) (ch_message c) (ch_header c) (ch_body c) (ch_body_cap c).
Definition with_confirming (x : bool) (c : Channel) : Channel :=
  MkChannel (ch_id c) (ch_closed c) (ch_shut c) (ch_noNotify c) (ch_closes c) (ch_flows c) (ch_returns c)
    (ch_cancels c) (ch_confirms c) x (ch_consumers c) (ch_errors c)
    (ch_errors_closed c) (ch_recv c) (ch_message c) (ch_header c) (ch_body c) (ch_body_cap c).
Definition with_consumers (x : consumers) (c : Channel) : Channel :=
  MkChannel (ch_id c) (ch_closed c) (ch_shut c) (ch_noNotify c) (ch_closes c) (ch_flows c) (ch_returns c)
    (ch_cancels c) (ch_confirms c) (ch_confirming c) x (ch_errors c)
    (ch_errors_closed c) (ch_recv c) (ch_message c) (ch_header c) (ch_body c) (ch_body_cap c).
Definition with_listeners (closes flows returns cancels : list nat) (c : Channel) : Channel :=
  MkChannel (ch_id c) (ch_closed c) (ch_shut c) (ch_noNotify c) closes flows returns
    cancels (ch_confirms c) (ch_confirming c) (ch_consumers c) (ch_errors c)
    (ch_errors_closed c) (ch_recv c) (ch_message c) (ch_header c) (ch_body c) (ch_body_cap c).
Definition with_errors (x : list Error) (c : Channel) : Channel :=
  MkChannel (ch_id c) (ch_closed c) (ch_shut c) (ch_noNotify c) (ch_closes c) (ch_flows c) (ch_returns c)
    (ch_cancels c) (ch_confirms c) (ch_confirming c) (ch_consumers c) x
    (ch_errors_closed c) (ch_recv c) (ch_message c) (ch_header c) (ch_body c) (ch_body_cap c).
(** [close(ch.errors); close(ch.close); ch.noNotify = true], the destructor
    having run. *)
Definition with_shut (c : Channel) : Channel :=
  MkChannel (ch_id c) (ch_closed c) true true (ch_closes c) (ch_flows c) (ch_returns c)
    (ch_cancels c) (ch_confirms c) (ch_confirming c) (ch_consumers c) (ch_errors c)
    true (ch_recv c) (ch_message c) (ch_header c) (ch_body c) (ch_body_cap c).
(** The reassembly state. *)
Definition with_assembly (r : recv_state) (m : option message) (h : option headerFrame)
  (b : list byte) (cap : bool) (c : Channel) : Channel :=
  MkChannel (ch_id c) (ch_closed c) (ch_shut c) (ch_noNotify c) (ch_closes c) (ch_flows c) (ch_returns c)
    (ch_cancels c) (ch_confirms c) (ch_confirming c) (ch_consumers c) (ch_errors c)
    (ch_errors_closed c) r m h b cap.

(** ** Connections *)

(** The goroutines started with [go] by the code of the connection. *)
Inductive goroutine :=
  | GoShutdown (code : Z) (cause : goerror) (** [go c.shutdown(&Error{code, cause.Error()})] *)
  | GoCloseWith (e : Error).                (** [go func() { c.closeWith(e) }()] *)

(** What the handshake fills in: the server's version, properties and locales,
    and the settled [Config.SASL], [Config.Locale] and [Config.Vhost]. *)
Record conn_info := MkInfo {
  ci_Major : Z;
  ci_Minor : Z;
  ci_Properties : Table;
  ci_Locales : list string;
  ci_SASL : list Authentication;
  ci_Locale : string;
  ci_Vhost : string
}.

(** The transport and the buffered writer over it: writes fail, and the
    writer has not met this yet ([Broken]) or has ([Failed]), after which it
    refuses every write with the same error. *)
Inductive transport :=
  | Working
  | Broken (e : goerror)
  | Failed (e : goerror).

(** [type Connection struct], with the objects it refers to.  [cn_shut] tells
    that [destructor] has run; [cn_buf] is what the buffered writer holds and
    [cn_wire] what was given to the transport (a buffered writer that fills up
    only hands its bytes over earlier).  [cn_go] are goroutines to run, [cn_log] what
    happened. *)
Record Connection := MkConnection {
  cn_closed : bool;
  cn_shut : bool;
  cn_noNotify : bool;
  cn_closes : list nat;
  cn_blocks : list nat;
  cn_channels : gmap Z nat;
  cn_allocator : option allocator;
  cn_errors : list Error;
  cn_errors_closed : bool;
  cn_ChannelMax : Z;
  cn_FrameSize : Z;
  cn_Heartbeat : Z;
  cn_objs : list Channel;
  cn_buf : list byte;
  cn_wire : list byte;
  cn_transport : transport;
  cn_lclosed : list listener;
  cn_go : list goroutine;
  cn_log : list event;
  cn_info : conn_info
}.

(** ** Calls *)

Definition M (A : Type) : Type := Connection -> outcome (A * Connection).

Definition mret {A} (a : A) : M A := fun c => Ok (a, c).
Definition mpanic {A} : M A := fun c => Panicked.
Definition mbind {A B} (m : M A) (k : A -> M B) : M B := fun c =>
  match m c with
  | Ok (a, c') => k a c'
  | Err e => Err e
  | Panicked => Panicked
  | NoFuel => NoFuel
  end.

Declare Scope m_scope.
Delimit Scope m_scope with m.
#[global] Open Scope m_scope.
Notation "'do' x <- m ; k" := (mbind m (fun x => k))
  (at level 200, x name, m at level 100, k at level 200, right associativity) : m_scope.
Notation "m1 >> m2" := (mbind m1 (fun _ => m2)) (at level 200, right associativity) : m_scope.

Definition gets {A} (f : Connection -> A) : M A := fun c => Ok (f c, c).
Definition modify (f : Connection -> Connection) : M unit := fun c => Ok (tt, f c).

(** [for _, x := range xs { f(x) }] *)
Fixpoint mfor {A} (f : A -> M unit) (xs : list A) : M unit :=
  match xs with
  | [] => mret tt
  | x :: r => f x >> mfor f r
  end.

(** Running code that may panic on a part of the state. *)
Definition mlift {A} (o : outcome A) : M A := fun c => let! a := o in Ok (a, c).

(** *** Fields *)

Definition with_objs (x : list Channel) (c : Connection) : Connection :=
  MkConnection (cn_closed c) (cn_shut c) (cn_noNotify c) (cn_closes c) (cn_blocks c) (cn_channels c)
    (cn_allocator c) (cn_errors c) (cn_errors_closed c) (cn_ChannelMax c) (cn_FrameSize c)
    (cn_Heartbeat c) x (cn_buf c) (cn_wire c) (cn_transport c) (cn_lclosed c) (cn_go c) (cn_log c) (cn_info c).
Definition with_registry (x : gmap Z nat) (a : option allocator) (c : Connection) : Connection :=
  MkConnection (cn_closed c) (cn_shut c) (cn_noNotify c) (cn_closes c) (cn_blocks c) x
    a (cn_errors c) (cn_errors_closed c) (cn_ChannelMax c) (cn_FrameSize c)
    (cn_Heartbeat c) (cn_objs c) (cn_buf c) (cn_wire c) (cn_transport c) (cn_lclosed c) (cn_go c) (cn_log c) (cn_info c).
Definition with_cn_closed (x : bool) (c : Connection) : Connection :=
  MkConnection x (cn_shut c) (cn_noNotify c) (cn_closes c) (cn_blocks c) (cn_channels c)
    (cn_allocator c) (cn_errors c) (cn_errors_closed c) (cn_ChannelMax c) (cn_FrameSize c)
    (cn_Heartbeat c) (cn_objs c) (cn_buf c) (cn_wire c) (cn_transport c) (cn_lclosed c) (cn_go c) (cn_log c) (cn_info c).
(** [c.noNotify = true], the destructor having run. *)
Definition with_cn_shut (c : Connection) : Connection :=
  MkConnection (cn_closed c) true true (cn_closes c) (cn_blocks c) (cn_channels c)
    (cn_allocator c) (cn_errors c) (cn_errors_closed c) (cn_ChannelMax c) (cn_FrameSize c)
    (cn_Heartbeat c) (cn_objs c) (cn_buf c) (cn_wire c) (cn_transport c) (cn_lclosed c) (cn_go c) (cn_log c) (cn_info c).
Definition with_cn_listeners (closes blocks : list nat) (c : Connection) : Connection :=
  MkConnection (cn_closed c) (cn_shut c) (cn_noNotify c) closes blocks (cn_channels c)
    (cn_allocator c) (cn_errors c) (cn_errors_closed c) (cn_ChannelMax c) (cn_FrameSize c)
    (cn_Heartbeat c) (cn_objs c) (cn_buf c) (cn_wire c) (cn_transport c) (cn_lclosed c) (cn_go c) (cn_log c) (cn_info c).
Definition with_cn_errors (x : list Error) (closed : bool) (c : Connection) : Connection :=
  MkConnection (cn_closed c) (cn_shut c) (cn_noNotify c) (cn_closes c) (cn_blocks c) (cn_channels c)
    (cn_allocator c) x closed (cn_ChannelMax c) (cn_FrameSize c)
    (cn_Heartbeat c) (cn_objs c) (cn_buf c) (cn_wire c) (cn_transport c) (cn_lclosed c) (cn_go c) (cn_log c) (cn_info c).
Definition with_tuning (chmax fsize hb : Z) (c : Connection) : Connection :=
  MkConnection (cn_closed c) (cn_shut c) (cn_noNotify c) (cn_closes c) (cn_blocks c) (cn_channels c)
    (cn_allocator c) (cn_errors c) (cn_errors_closed c) chmax fsize
    hb (cn_objs c) (cn_buf c) (cn_wire c) (cn_transport c) (cn_lclosed c) (cn_go c) (cn_log c) (cn_info c).
Definition with_writer (buf wire : list byte) (c : Connection) : Connection :=
  MkConnection (cn_closed c) (cn_shut c) (cn_noNotify c) (cn_closes c) (cn_blocks c) (cn_channels c)
    (cn_allocator c) (cn_errors c) (cn_errors_closed c) (cn_ChannelMax c) (cn_FrameSize c)
    (cn_Heartbeat c) (cn_objs c) buf wire (cn_transport c) (cn_lclosed c) (cn_go c) (cn_log c) (cn_info c).
Definition with_transport (x : transport) (c : Connection) : Connection :=
  MkConnection (cn_closed c) (cn_shut c) (cn_noNotify c) (cn_closes c) (cn_blocks c) (cn_channels c)
    (cn_allocator c) (cn_errors c) (cn_errors_closed c) (cn_ChannelMax c) (cn_FrameSize c)
    (cn_Heartbeat c) (cn_objs c) (cn_buf c) (cn_wire c) x (cn_lclosed c) (cn_go c) (cn_log c) (cn_info c).
Definition with_lclosed (x : list listener) (c : Connection) : Connection :=
  MkConnection (cn_closed c) (cn_shut c) (cn_noNotify c) (cn_closes c) (cn_blocks c) (cn_channels c)
    (cn_allocator c) (cn_errors c) (cn_errors_closed c) (cn_ChannelMax c) (cn_FrameSize c)
    (cn_Heartbeat c) (cn_objs c) (cn_buf c) (cn_wire c) (cn_transport c) x (cn_go c) (cn_log c) (cn_info c).
Definition with_go (x : list goroutine) (c : Connection) : Connection :=
  MkConnection (cn_closed c) (cn_shut c) (cn_noNotify c) (cn_closes c) (cn_blocks c) (cn_channels c)
    (cn_allocator c) (cn_errors c) (cn_errors_closed c) (cn_ChannelMax c) (cn_FrameSize c)
    (cn_Heartbeat c) (cn_objs c) (cn_buf c) (cn_wire c) (cn_transport c) (cn_lclosed c) x (cn_log c) (cn_info c).
Definition with_log (x : list event) (c : Connection) : Connection :=
  MkConnection (cn_closed c) (cn_shut c) (cn_noNotify c) (cn_closes c) (cn_blocks c) (cn_channels c)
    (cn_allocator c) (cn_errors c) (cn_errors_closed c) (cn_ChannelMax c) (cn_FrameSize c)
    (cn_Heartbeat c) (cn_objs c) (cn_buf c) (cn_wire c) (cn_transport c) (cn_lclosed c) (cn_go c) x (cn_info c).

Definition with_info (x : conn_info) (c : Connection) : Connection :=
  MkConnection (cn_closed c) (cn_shut c) (cn_noNotify c) (cn_closes c) (cn_blocks c) (cn_channels c)
    (cn_allocator c) (cn_errors c) (cn_errors_closed c) (cn_ChannelMax c) (cn_FrameSize c)
    (cn_Heartbeat c) (cn_objs c) (cn_buf c) (cn_wire c) (cn_transport c) (cn_lclosed c) (cn_go c)
    (cn_log c) x.

(** *** Primitives *)

(** Access through a channel reference; every reference is to an object. *)
Definition get_chan (a : nat) : M Channel := fun c =>
  match cn_objs c !! a with
  | Some ch => Ok (ch, c)
  | None => Panicked
  end.
Definition upd_chan (a : nat) (f : Channel -> Channel) : M unit :=
  do ch <- get_chan a;
  modify (fun c => with_objs (<[a := f ch]> (cn_objs c)) c).

Definition emit (e : event) : M unit := modify (fun c => with_log (cn_log c ++ [e]) c).
Definition start (g : goroutine) : M unit := modify (fun c => with_go (cn_go c ++ [g]) c).

(** [l <- n] and [close(l)], which panic on a closed channel. *)
Definition notify (l : listener) (n : notice) : M unit :=
  do closed <- gets cn_lclosed;
  if bool_decide (l ∈ closed) then mpanic else emit (Notified l n).
Definition close_listener (l : listener) : M unit :=
  do closed <- gets cn_lclosed;
  if bool_decide (l ∈ closed) then mpanic
  else modify (with_lclosed (l :: closed)) >> emit (ListenerClosed l).
