(* ===== verification/Channel.v ===== *)
(** * Channel: the operations of a channel (channel.go)

    Sending with content split into frames, the reassembly of received
    frames, the dispatch of methods, and shutdown.  The operations of the
    connection a channel calls ([send], [sendUnflushed], [releaseChannel],
    [closeChannel] of connection.go) come with them. *)

From S2P Require Import Prelude Types Io SpecChannel SpecExchange SpecQueue SpecBasic SpecTx.
From S2P Require Import Spec091 Frame Allocator Confirms Delivery Consumers State.

(** ** Connection: sending *)

(** A frame is encoded before it is written, so its own errors come first. *)
Definition writer_WriteFrameNoFlush (f : frame) : M (option goerror) := fun c =>
  let '(err, buf) := WriteFrameNoFlush f (cn_buf c) in
  match err, cn_transport c with
  | None, Failed e => Ok (Some e, c)
  | _, _ => Ok (err, with_writer buf (cn_wire c) c)
  end.

(** [buf.Flush()] of an empty buffer does not write. *)
Definition writer_Flush : M (option goerror) := fun c =>
  match cn_transport c with
  | Failed e => Ok (Some e, c)
  | Broken e =>
      match cn_buf c with
      | [] => Ok (None, c)
      | _ => Ok (Some e, with_transport (Failed e) c)
      end
  | Working => Ok (None, with_writer [] (cn_wire c ++ cn_buf c) c)
  end.

Definition writer_WriteFrame (f : frame) : M (option goerror) :=
  do err <- writer_WriteFrameNoFlush f;
  match err with
  | Some e => mret (Some e)
  | None => writer_Flush
  end.

(** The hint to the heartbeater ([c.sends]) is left out: timers are not
    modelled. *)
Definition Connection_send (f : frame) : M (option goerror) :=
  do closed <- gets cn_closed;
  if closed : bool then mret (Some (AmqpError ErrClosed))
  else
    do err <- writer_WriteFrame f;
    match err with
    | Some e => start (GoShutdown FrameError e) >> mret (Some e)
    | None => mret None
    end.

Definition Connection_sendUnflushed (f : frame) : M (option goerror) :=
  do closed <- gets cn_closed;
  if closed : bool then mret (Some (AmqpError ErrClosed))
  else
    do err <- writer_WriteFrameNoFlush f;
    match err with
    | Some e => start (GoShutdown FrameError e) >> mret (Some e)
    | None => mret None
    end.

(** [c.endSendUnflushed()] *)
Definition Connection_flush : M (option goerror) := writer_Flush.

(** ** Shutdown *)

Definition setClosed (a : nat) : M unit := upd_chan a (with_closed true).

Definition Channel_IsClosed (a : nat) : M bool :=
  do ch <- get_chan a; mret (ch_closed ch).

(** The function [destructor.Do] runs once. *)
Definition Channel_destructor (a : nat) (e : option Error) : M unit :=
  do ch <- get_chan a;
  match e with
  | Some e =>
      mfor (fun l => notify (LClose l) (NError e)) (ch_closes ch) >>
      upd_chan a (fun ch => with_errors (ch_errors ch ++ [e]) ch)
  | None => mret tt
  end >>
  do ch <- get_chan a;
  do subs <- mlift (consumers_close (ch_consumers ch));
  upd_chan a (with_consumers subs) >>
  mfor (fun l => close_listener (LClose l)) (ch_closes ch) >>
  mfor (fun l => close_listener (LFlow l)) (ch_flows ch) >>
  mfor (fun l => close_listener (LReturn l)) (ch_returns ch) >>
  mfor (fun l => close_listener (LCancel l)) (ch_cancels ch) >>
  upd_chan a (with_listeners [] [] [] []) >>
  do confirms <- mlift (confirms_Close (ch_confirms ch));
  upd_chan a (with_confirms confirms) >>
  upd_chan a with_shut.

Definition Channel_shutdown (a : nat) (e : option Error) : M unit :=
  setClosed a >>
  do ch <- get_chan a;
  if ch_shut ch then mret tt else Channel_destructor a e.

(** [c.allocator.release(int(ch.id))] of a non-nil allocator. *)
Definition allocator_release (al : option allocator) (n : Z) : outcome (option allocator) :=
  match al with
  | None => Panicked
  | Some al => let! al := release al n in Ok (Some al)
  end.

Definition releaseChannel (a : nat) : M unit :=
  do closed <- gets cn_closed;
  if closed : bool then mret tt
  else
    do ch <- get_chan a;
    do channels <- gets cn_channels;
    if bool_decide (channels !! ch_id ch = Some a) then
      do al <- gets cn_allocator;
      do al <- mlift (allocator_release al (ch_id ch));
      modify (with_registry (delete (ch_id ch) channels) al)
    else mret tt.

Definition closeChannel (a : nat) (e : option Error) : M unit :=
  Channel_shutdown a e >> releaseChannel a.

(** ** Sending *)

Definition frameHeaderSize : Z := 1 + 2 + 4 + 1.

Definition sendClosed (a : nat) (msg : message) : M (option goerror) :=
  match msg with
  | M_channelCloseOk _ =>
      do ch <- get_chan a;
      Connection_send (F_method (Mk_methodFrame (ch_id ch) 0 0 (Some msg)))
  | _ => mret (Some (AmqpError ErrClosed))
  end.

(** [for i, j := 0, size; i < len(body); i, j = j, j+size { ... }]; the
    slice expression [body[i:j]] panics when [j] is below [i]. *)
Fixpoint send_body (fuel : nat) (id size : Z) (body : list byte) (i j : Z) : M (option goerror) :=
  if i <? len body then
    match fuel with
    | O => fun _ => NoFuel
    | S fuel' =>
        let j := if len body <? j then len body else j in
        if j <? i then mpanic
        else
          do err <- Connection_sendUnflushed
                      (F_body (Mk_bodyFrame id (take (Z.to_nat (j - i)) (drop (Z.to_nat i) body))));
          match err with
          | Some e => mret (Some e)
          | None => send_body fuel' id size body j (j + size)
          end
    end
  else mret None.

(** The frames of a message with content, up to the first error. *)
Definition send_content (id size : Z) (msg : message) (props : properties) (body : list byte)
  : M (option goerror) :=
  do err <- Connection_sendUnflushed (F_method (Mk_methodFrame id 0 0 (Some msg)));
  match err with
  | Some e => mret (Some e)
  | None =>
      do err <- Connection_sendUnflushed
                  (F_header (Mk_headerFrame id (fst (message_id msg)) 0 (uintw 64 (len body)) props));
      match err with
      | Some e => mret (Some e)
      | None => send_body (length body) id size body 0 size
      end
  end.

Definition sendOpen (a : nat) (msg : message) : M (option goerror) :=
  match message_getContent msg with
  | Some (props, body) =>
      do FrameSize <- gets cn_FrameSize;
      let size := if 0 <? FrameSize then FrameSize - frameHeaderSize else len body in
      do closed <- Channel_IsClosed a;
      if closed : bool then sendClosed a msg
      else
        do ch <- get_chan a;
        do err <- send_content (ch_id ch) size msg props body;
        do endError <- Connection_flush;
        mret (match err with Some e => Some e | None => endError end)
  | None =>
      do closed <- Channel_IsClosed a;
      if closed : bool then sendClosed a msg
      else
        do ch <- get_chan a;
        Connection_send (F_method (Mk_methodFrame (ch_id ch) 0 0 (Some msg)))
  end.

Definition Channel_send (a : nat) (msg : message) : M (option goerror) :=
  do closed <- Channel_IsClosed a;
  if closed : bool then sendClosed a msg else sendOpen a msg.

(** ** Receiving *)

(** [ch.consumers.send(...)]; a send that would wait for ever does not
    return. *)
Definition deliver (a : nat) (tag : string) (d : Delivery) : M unit :=
  do ch <- get_chan a;
  match consumers_send tag d (ch_consumers ch) with
  | Some (_, subs) => upd_chan a (with_consumers subs)
  | None => fun _ => NoFuel
  end.

Definition confirm_with (a : nat) (f : confirms -> outcome confirms) : M unit :=
  do ch <- get_chan a;
  if ch_confirming ch then
    do confirms <- mlift (f (ch_confirms ch));
    upd_chan a (with_confirms confirms)
  else mret tt.

(** Errors of [ch.send] are only logged. *)
Definition dispatch (a : nat) (msg : option message) : M unit :=
  match msg with
  | Some (M_channelClose m) =>
      Channel_send a (M_channelCloseOk Mk_channelCloseOk) >>
      closeChannel a (Some (newError (channelClose_ReplyCode m) (channelClose_ReplyText m)))
  | Some (M_channelFlow m) =>
      do ch <- get_chan a;
      mfor (fun l => notify (LFlow l) (NFlow (channelFlow_Active m))) (ch_flows ch) >>
      (Channel_send a (M_channelFlowOk (Mk_channelFlowOk (channelFlow_Active m))) >> mret tt)
  | Some (M_basicCancel m) =>
      do ch <- get_chan a;
      mfor (fun l => notify (LCancel l) (NCancel (basicCancel_ConsumerTag m))) (ch_cancels ch) >>
      do ch <- get_chan a;
      do r <- mlift (consumers_cancel (basicCancel_ConsumerTag m) (ch_consumers ch));
      upd_chan a (with_consumers (snd r))
  | Some (M_basicReturn m) =>
      let ret := newReturn m in
      do ch <- get_chan a;
      mfor (fun l => notify (LReturn l) (NReturn ret)) (ch_returns ch)
  | Some (M_basicAck m) =>
      confirm_with a
        ((if basicAck_Multiple m then Multiple else One) (MkConfirmation (basicAck_DeliveryTag m) true))
  | Some (M_basicNack m) =>
      confirm_with a
        ((if basicNack_Multiple m then Multiple else One) (MkConfirmation (basicNack_DeliveryTag m) false))
  | Some (M_basicDeliver m) =>
      deliver a (basicDeliver_ConsumerTag m) (newDelivery a (M_basicDeliver m))
  | msg =>
      (* select on ch.close, or hand over to the waiting call *)
      do ch <- get_chan a;
      if ch_shut ch then mret tt else emit (Rpc (Some a) msg)
  end.

Definition transition (a : nat) (r : recv_state) : M unit :=
  upd_chan a (fun ch => with_assembly r (ch_message ch) (ch_header ch) (ch_body ch) (ch_body_cap ch) ch).

(** [make([]byte, 0, n)] panics beyond the address space of the runtime
    (64-bit platforms). *)
Definition maxAlloc : Z := 2 ^ 48.

Definition recvMethod (a : nat) (f : frame) : M unit :=
  match f with
  | F_method frame =>
      match mf_Method frame with
      | Some msg =>
          match message_getContent msg with
          | Some _ =>
              upd_chan a (fun ch =>
                with_assembly RecvHeader (Some msg) (ch_header ch) [] false ch)
          | None => dispatch a (Some msg) >> transition a RecvMethod
          end
      | None => dispatch a None >> transition a RecvMethod
      end
  | F_header _ => transition a RecvMethod
  | F_body _ => transition a RecvMethod
  | _ => mpanic
  end.

(** [ch.message.setContent(ch.header.Properties, ch.body); ch.dispatch(ch.message);
    ch.transition(recvMethod)] *)
Definition complete (a : nat) : M unit :=
  do ch <- get_chan a;
  match ch_message ch, ch_header ch with
  | Some msg, Some header =>
      let msg := message_setContent msg (hf_Properties header) (ch_body ch) in
      upd_chan a (with_assembly (ch_recv ch) (Some msg) (Some header) (ch_body ch) (ch_body_cap ch)) >>
      dispatch a (Some msg) >>
      transition a RecvMethod
  | _, _ => mpanic
  end.

Definition recvHeader (a : nat) (f : frame) : M unit :=
  match f with
  | F_method _ => recvMethod a f
  | F_header frame =>
      upd_chan a (fun ch =>
        with_assembly (ch_recv ch) (ch_message ch) (Some frame) (ch_body ch) (ch_body_cap ch) ch) >>
      if hf_Size frame =? 0 then complete a else transition a RecvContent
  | F_body _ => transition a RecvMethod
  | _ => mpanic
  end.

Definition recvContent (a : nat) (f : frame) : M unit :=
  match f with
  | F_method _ => recvMethod a f
  | F_header _ => transition a RecvMethod
  | F_body frame =>
      do ch <- get_chan a;
      match ch_header ch with
      | None => mpanic
      | Some header =>
          if negb (ch_body_cap ch) && (maxAlloc <? hf_Size header) then mpanic
          else
            let body := ch_body ch ++ bf_Body frame in
            upd_chan a (with_assembly (ch_recv ch) (ch_message ch) (Some header) body true) >>
            if hf_Size header <=? len body then complete a else transition a RecvContent
      end
  | _ => mpanic
  end.

(** [channel.recv(channel, f)] *)
Definition Channel_recv (a : nat) (f : frame) : M unit :=
  do ch <- get_chan a;
  match ch_recv ch with
  | RecvMethod => recvMethod a f
  | RecvHeader => recvHeader a f
  | RecvContent => recvContent a f
  end.
