(* ===== verification/ChannelFacts.v ===== *)
(** * ChannelFacts: splitting content into frames and putting it together

    What [sendOpen] writes, what the reassembly makes of received frames, and
    that the two fit. *)

From S2P Require Import Prelude Types Io WireCodec SpecChannel SpecBasic Spec091 Frame FrameFacts.
From S2P Require Import Allocator Confirms Delivery Consumers State Channel.

(** ** Calls that succeed *)

(** Running a call that returns. *)
Lemma mbind_ok {A B} (m : M A) (k : A -> M B) c a c' : m c = Ok (a, c') -> mbind m k c = k a c'.
Proof. unfold mbind. by intros ->. Qed.

Lemma mbind_assoc {A B C} (m : M A) (k : A -> M B) (k' : B -> M C) c :
  mbind (mbind m k) k' c = mbind m (fun a => mbind (k a) k') c.
Proof. unfold mbind. by destruct (m c) as [[]| | |]. Qed.

Lemma get_chan_ok a c ch : cn_objs c !! a = Some ch -> get_chan a c = Ok (ch, c).
Proof. unfold get_chan. by intros ->. Qed.

Lemma upd_chan_ok a f c ch :
  cn_objs c !! a = Some ch -> upd_chan a f c = Ok (tt, with_objs (<[a := f ch]> (cn_objs c)) c).
Proof. intros H. unfold upd_chan. by rewrite (mbind_ok _ _ _ _ _ (get_chan_ok _ _ _ H)). Qed.

Lemma upd_chan_lookup a f c ch :
  cn_objs c !! a = Some ch ->
  cn_objs (with_objs (<[a := f ch]> (cn_objs c)) c) !! a = Some (f ch).
Proof. intros H. simpl. apply list_lookup_insert_eq. by eapply lookup_lt_Some. Qed.

Lemma mfor_app {A} (f : A -> M unit) xs ys c : mfor f (xs ++ ys) c = mbind (mfor f xs) (fun _ => mfor f ys) c.
Proof.
  revert c. induction xs as [|x xs IH]; intros c; [done|]. cbn [mfor app].
  rewrite mbind_assoc. unfold mbind at 1 2. destruct (f x c) as [[[] c']| | |]; [|done..]. apply IH.
Qed.

(** ** Writing *)

(** [c] with more bytes in the buffered writer. *)
Definition buffered (bs : list byte) (c : Connection) : Connection :=
  with_writer (cn_buf c ++ bs) (cn_wire c) c.

Lemma buffered_nil c : buffered [] c = c.
Proof. unfold buffered. rewrite app_nil_r. by destruct c. Qed.

Lemma buffered_app b1 b2 c : buffered b2 (buffered b1 c) = buffered (b1 ++ b2) c.
Proof. unfold buffered. simpl. by rewrite app_assoc. Qed.

Lemma sendUnflushed_ok f bs c :
  cn_closed c = false -> cn_transport c = Working -> emits (frame_write f) bs ->
  Connection_sendUnflushed f c = Ok (None, buffered bs c).
Proof.
  intros Hc Hb He. unfold Connection_sendUnflushed, mbind, gets. rewrite Hc.
  unfold writer_WriteFrameNoFlush, WriteFrameNoFlush. by rewrite He, Hb.
Qed.

Lemma send_ok f bs c :
  cn_closed c = false -> cn_transport c = Working -> emits (frame_write f) bs ->
  Connection_send f c = Ok (None, with_writer [] (cn_wire c ++ cn_buf c ++ bs) c).
Proof.
  intros Hc Hb He. unfold Connection_send, mbind, gets. rewrite Hc.
  unfold writer_WriteFrame, writer_WriteFrameNoFlush, WriteFrameNoFlush, mbind. rewrite He, Hb.
  unfold writer_Flush. simpl. by rewrite Hb.
Qed.

(** ** Splitting *)

(** The reference: pieces of [n] bytes, the last one shorter. *)
Fixpoint chunks (fuel n : nat) (body : list byte) : list (list byte) :=
  match fuel, body with
  | S fuel', _ :: _ => take n body :: chunks fuel' n (drop n body)
  | _, _ => []
  end.

Lemma chunks_concat fuel n body :
  (0 < n)%nat -> (length body <= fuel)%nat -> concat (chunks fuel n body) = body.
Proof.
  intros Hn. revert body. induction fuel as [|fuel IH]; intros body Hf; [by destruct body; simpl in *; [|lia]|].
  destruct body as [|b body]; [done|]. cbn [chunks concat]. rewrite IH; [apply take_drop|].
  rewrite length_drop. simpl in *. lia.
Qed.

Lemma chunks_sizes fuel n body :
  (0 < n)%nat -> Forall (fun x => (0 < length x <= n)%nat) (chunks fuel n body).
Proof.
  intros Hn. revert body. induction fuel as [|fuel IH]; intros body; [constructor|].
  destruct body as [|b body]; [constructor|]. cbn [chunks]. constructor; [|apply IH].
  rewrite length_take. simpl. lia.
Qed.

(** The frames of a message with content. *)
Definition content_frames (id size : Z) (msg : message) (props : properties) (body : list byte) : list frame :=
  F_method (Mk_methodFrame id 0 0 (Some msg)) ::
  F_header (Mk_headerFrame id (fst (message_id msg)) 0 (uintw 64 (len body)) props) ::
  ((fun x => F_body (Mk_bodyFrame id x)) <$> chunks (length body) (Z.to_nat size) body).

Lemma emits_body id x : exists bs, emits (frame_write (F_body (Mk_bodyFrame id x))) bs.
Proof.
  eexists. cbn [frame_write]. unfold bodyFrame_write. cbn [bf_ChannelId bf_Body]. apply emits_writeFrame.
Qed.

(** Frame after frame, up to the first error. *)
Fixpoint send_frames (fs : list frame) : M (option goerror) :=
  match fs with
  | [] => mret None
  | f :: r =>
      do err <- Connection_sendUnflushed f;
      match err with Some e => mret (Some e) | None => send_frames r end
  end.

(** The loop sends the pieces of what is left. *)
Lemma send_body_frames fuel id size body i c :
  0 < size -> 0 <= i -> (length (drop (Z.to_nat i) body) <= fuel)%nat ->
  send_body fuel id size body i (i + size) c =
  send_frames ((fun x => F_body (Mk_bodyFrame id x)) <$> chunks fuel (Z.to_nat size) (drop (Z.to_nat i) body)) c.
Proof.
  intros Hs. revert i c. induction fuel as [|fuel IH]; intros i c Hi Hf; cbn [send_body];
    destruct (Z.ltb_spec i (len body)) as [Hlt|Hge].
  - rewrite length_drop in Hf. unfold len in Hlt. lia.
  - done.
  - set (rest := drop (Z.to_nat i) body) in *.
    assert (length rest = length body - Z.to_nat i)%nat as Hl by apply length_drop.
    unfold len in Hlt. assert (rest <> []) as Hne by (intros E; rewrite E in Hl; simpl in Hl; lia).
    set (j := if len body <? i + size then len body else i + size).
    assert (i < j <= i + size /\ j <= len body /\ (j = i + size \/ j = len body)) as (Hj & Hj' & Hjc).
    { unfold j, len. destruct (Z.ltb_spec (Z.of_nat (length body)) (i + size)); lia. }
    assert (take (Z.to_nat (j - i)) rest = take (Z.to_nat size) rest) as Et.
    { destruct Hjc as [->| ->]; [f_equal; lia|]. rewrite !take_ge; [done|unfold len in *; lia..]. }
    assert (drop (Z.to_nat j) body = drop (Z.to_nat size) rest) as Ed.
    { unfold rest. rewrite drop_drop. destruct Hjc as [->| ->]; [f_equal; lia|].
      rewrite !drop_ge; [done|unfold len in *; lia..]. }
    rewrite (proj2 (Z.ltb_ge _ _)) by lia. rewrite Et.
    destruct rest as [|r0 rest'] eqn:Er; [done|]. cbn [chunks]. rewrite <- Er in *. rewrite fmap_cons.
    cbn [send_frames]. unfold mbind.
    destruct (Connection_sendUnflushed _ c) as [[[e|] c1]| | |]; [done| |done..].
    rewrite IH, Ed; [done|lia|]. rewrite Ed, length_drop. lia.
  - by rewrite drop_ge by (unfold len in Hge; lia).
Qed.

Lemma send_content_frames id size msg props body c :
  0 < size \/ body = [] ->
  send_content id size msg props body c = send_frames (content_frames id size msg props body) c.
Proof.
  intros Hs. unfold send_content, content_frames. cbn [send_frames]. unfold mbind at 1 3.
  destruct (Connection_sendUnflushed _ c) as [[[e|] c1]| | |]; [done| |done..]. unfold mbind.
  destruct (Connection_sendUnflushed _ c1) as [[[e|] c2]| | |]; [done| |done..].
  destruct Hs as [Hs| ->]; [|done]. exact (send_body_frames (length body) id size body 0 c2 Hs ltac:(done) ltac:(done)).
Qed.

Lemma send_frames_ok fs c :
  cn_closed c = false -> cn_transport c = Working ->
  Forall (fun f => exists bs, emits (frame_write f) bs) fs ->
  exists bs, send_frames fs c = Ok (None, buffered bs c) /\ emits (write_frames fs) bs.
Proof.
  intros Hc Hb H. revert c Hc Hb. induction H as [|f fs [b1 E1] _ IH]; intros c Hc Hb.
  - exists []. rewrite buffered_nil. split; [done|apply emits_wnil].
  - cbn [send_frames]. rewrite (mbind_ok _ _ _ _ _ (sendUnflushed_ok _ _ _ Hc Hb E1)).
    destruct (IH (buffered b1 c) Hc Hb) as (b2 & E2 & W2). exists (b1 ++ b2).
    rewrite E2, buffered_app. split; [done|]. cbn [write_frames foldr].
    apply emits_seq; [by apply emits_WriteFrame|exact W2].
Qed.

Lemma send_content_ok id size msg props body c :
  cn_closed c = false -> cn_transport c = Working -> 0 < size \/ body = [] ->
  Forall frame_ok (content_frames id size msg props body) ->
  exists bs, send_content id size msg props body c = Ok (None, buffered bs c) /\
    emits (write_frames (content_frames id size msg props body)) bs.
Proof.
  intros Hc Hb Hs Hok. rewrite (send_content_frames _ _ _ _ _ _ Hs). apply send_frames_ok; [done|done|].
  eapply Forall_impl; [|exact Hok]. intros f Hf. destruct (frame_codec _ Hf) as (bs & E & _). by exists bs.
Qed.

(** The piece size of [sendOpen]. *)
Definition piece_size (FrameSize : Z) (body : list byte) : Z :=
  if 0 <? FrameSize then FrameSize - frameHeaderSize else len body.

Lemma size_positive fs body :
  fs <= 0 \/ frameHeaderSize < fs -> 0 < piece_size fs body \/ body = [].
Proof.
  unfold piece_size, frameHeaderSize. intros Hs. destruct (Z.ltb_spec 0 fs); [lia|].
  destruct body as [|b body]; [by right|left]. unfold len. simpl. lia.
Qed.

Lemma sendOpen_ok a msg c ch props body :
  cn_objs c !! a = Some ch -> ch_closed ch = false -> cn_closed c = false -> cn_transport c = Working ->
  message_getContent msg = Some (props, body) ->
  (cn_FrameSize c <= 0 \/ frameHeaderSize < cn_FrameSize c) ->
  Forall frame_ok (content_frames (ch_id ch) (piece_size (cn_FrameSize c) body) msg props body) ->
  exists bs, sendOpen a msg c = Ok (None, with_writer [] (cn_wire c ++ cn_buf c ++ bs) c) /\
    emits (write_frames (content_frames (ch_id ch) (piece_size (cn_FrameSize c) body) msg props body)) bs.
Proof.
  intros Ha Hch Hc Hb Hm Hfs Hok. unfold sendOpen. rewrite Hm.
  pose proof (size_positive _ body Hfs) as Hs.
  destruct (send_content_ok _ _ _ _ _ c Hc Hb Hs Hok) as (bs & E & W). exists bs. split; [|exact W].
  unfold Channel_IsClosed, mbind, gets, mret. cbv zeta. rewrite (get_chan_ok _ _ _ Ha), Hch.
  unfold piece_size in E. rewrite (get_chan_ok _ _ _ Ha), E. unfold Connection_flush, writer_Flush. simpl. by rewrite Hb.
Qed.

(** ** Reassembly *)

Lemma len_pos {A} (l : list A) : l <> [] -> 0 < len l.
Proof. destruct l; [done|]. unfold len. simpl. lia. Qed.

Definition set_chan (a : nat) (ch : Channel) (c : Connection) : Connection :=
  with_objs (<[a := ch]> (cn_objs c)) c.

Lemma set_chan_set a x y c : set_chan a x (set_chan a y c) = set_chan a x c.
Proof. unfold set_chan. simpl. by rewrite list_insert_insert_eq. Qed.

Lemma set_chan_id a ch c : cn_objs c !! a = Some ch -> set_chan a ch c = c.
Proof. intros H. unfold set_chan. rewrite list_insert_id by done. by destruct c. Qed.

Lemma with_assembly_twice r m h b k r' m' h' b' k' ch :
  with_assembly r m h b k (with_assembly r' m' h' b' k' ch) = with_assembly r m h b k ch.
Proof. done. Qed.

Section Reassembly.
Context (a : nat) (c : Connection) (Ha : (a < length (cn_objs c))%nat).

Lemma get_set ch : get_chan a (set_chan a ch c) = Ok (ch, set_chan a ch c).
Proof. apply get_chan_ok. by apply list_lookup_insert_eq. Qed.

Lemma upd_set f ch : upd_chan a f (set_chan a ch c) = Ok (tt, set_chan a (f ch) c).
Proof.
  rewrite (upd_chan_ok a f _ ch) by (by apply list_lookup_insert_eq).
  change (with_objs _ (set_chan a ch c)) with (set_chan a (f ch) (set_chan a ch c)).
  by rewrite set_chan_set.
Qed.

Lemma transition_set r ch :
  transition a r (set_chan a ch c)
  = Ok (tt, set_chan a (with_assembly r (ch_message ch) (ch_header ch) (ch_body ch) (ch_body_cap ch) ch) c).
Proof. unfold transition. by rewrite upd_set. Qed.

(** A method with content starts over, whatever was being received. *)
Lemma recv_method id x y msg ch :
  is_Some (message_getContent msg) ->
  Channel_recv a (F_method (Mk_methodFrame id x y (Some msg))) (set_chan a ch c)
  = Ok (tt, set_chan a (with_assembly RecvHeader (Some msg) (ch_header ch) [] false ch) c).
Proof.
  intros [pb Hm]. unfold Channel_recv. rewrite (mbind_ok _ _ _ _ _ (get_set ch)).
  assert (recvMethod a (F_method (Mk_methodFrame id x y (Some msg))) (set_chan a ch c)
    = Ok (tt, set_chan a (with_assembly RecvHeader (Some msg) (ch_header ch) [] false ch) c)) as E.
  { unfold recvMethod. cbn [mf_Method]. rewrite Hm. by rewrite upd_set. }
  by destruct (ch_recv ch).
Qed.

(** What happens when the content is complete. *)
Definition completed (msg : message) (header : headerFrame) (body : list byte) (r : recv_state)
  (cap : bool) (ch : Channel) : outcome (unit * Connection) :=
  let msg' := message_setContent msg (hf_Properties header) body in
  (dispatch a (Some msg') >> transition a RecvMethod)
    (set_chan a (with_assembly r (Some msg') (Some header) body cap ch) c).

Lemma complete_set msg header body r cap ch :
  complete a (set_chan a (with_assembly r (Some msg) (Some header) body cap ch) c)
  = completed msg header body r cap ch.
Proof.
  unfold complete, completed. rewrite (mbind_ok _ _ _ _ _ (get_set _)).
  cbn [ch_message ch_header ch_body ch_recv ch_body_cap with_assembly].
  by rewrite (mbind_ok _ _ _ _ _ (upd_set _ _)), with_assembly_twice.
Qed.

(** A frame of content on the channel [id]. *)
Definition content_frame (id : Z) (f : frame) : Prop :=
  match f with
  | F_method mf =>
      mf_ChannelId mf = id /\ exists msg, mf_Method mf = Some msg /\ is_Some (message_getContent msg)
  | F_header hf => hf_ChannelId hf = id
  | F_body bf => bf_ChannelId bf = id
  | _ => False
  end.

(** [step] hands the frames of content on channel [id] to the channel. *)
Context (id : Z) (step : frame -> M unit)
  (Hstep : forall f ch, content_frame id f -> step f (set_chan a ch c) = Channel_recv a f (set_chan a ch c)).

(** Body frames up to the announced size. *)
Lemma recv_bodies xs msg header acc cap ch :
  xs <> [] -> Forall (fun x => x <> []) xs ->
  hf_Size header = len (acc ++ concat xs) -> hf_Size header <= maxAlloc ->
  mfor step ((fun x => F_body (Mk_bodyFrame id x)) <$> xs)
    (set_chan a (with_assembly RecvContent (Some msg) (Some header) acc cap ch) c)
  = mbind (fun _ => completed msg header (acc ++ concat xs) RecvContent true ch) (fun _ => mret tt) c.
Proof.
  intros Hne Hxs. revert acc cap. induction Hxs as [|x xs Hx Hxs IH]; intros acc cap Hsz Hmax; [done|].
  rewrite fmap_cons. cbn [mfor].
  assert (step (F_body (Mk_bodyFrame id x))
            (set_chan a (with_assembly RecvContent (Some msg) (Some header) acc cap ch) c)
          = (if hf_Size header <=? len (acc ++ x) then completed msg header (acc ++ x) RecvContent true ch
             else Ok (tt, set_chan a (with_assembly RecvContent (Some msg) (Some header) (acc ++ x) true ch) c)))
    as E.
  { rewrite Hstep by done. unfold Channel_recv. rewrite (mbind_ok _ _ _ _ _ (get_set _)).
    cbn [ch_recv with_assembly]. unfold recvContent. rewrite (mbind_ok _ _ _ _ _ (get_set _)).
    cbn [ch_header ch_recv ch_message ch_body ch_body_cap with_assembly bf_Body].
    rewrite (proj2 (Z.ltb_ge maxAlloc (hf_Size header))) by done. rewrite andb_false_r.
    rewrite (mbind_ok _ _ _ _ _ (upd_set _ _)), with_assembly_twice. cbv zeta.
    destruct (_ <=? _); [apply complete_set|]. rewrite transition_set. by rewrite with_assembly_twice. }
  destruct xs as [|y xs].
  - cbn [concat fmap list_fmap mfor] in *. rewrite app_nil_r in *. unfold mbind. rewrite E.
    by rewrite (proj2 (Z.leb_le _ _)) by lia.
  - unfold mbind at 1. rewrite E. cbn [concat] in Hsz. rewrite (proj2 (Z.leb_gt _ _)).
    + rewrite IH; [|done| |done].
      * cbn [concat]. by rewrite <- app_assoc.
      * rewrite Hsz. cbn [concat]. by rewrite <- app_assoc.
    + apply list.Forall_cons in Hxs as [Hy _]. rewrite Hsz, !len_app.
      pose proof (len_nonneg (concat xs)). pose proof (len_pos y Hy). lia.
Qed.

(** A method, its header and its body make one message, whatever state they
    find the channel in. *)
Lemma recv_content x y msg header xs ch :
  hf_ChannelId header = id -> is_Some (message_getContent msg) -> Forall (fun x => x <> []) xs ->
  hf_Size header = len (concat xs) -> hf_Size header <= maxAlloc ->
  exists r cap,
    mfor step
      (F_method (Mk_methodFrame id x y (Some msg)) :: F_header header ::
       ((fun x => F_body (Mk_bodyFrame id x)) <$> xs)) (set_chan a ch c)
    = mbind (fun _ => completed msg header (concat xs) r cap ch) (fun _ => mret tt) c.
Proof.
  intros Hid Hm Hxs Hsz Hmax. cbn [mfor].
  assert (step (F_method (Mk_methodFrame id x y (Some msg))) (set_chan a ch c)
    = Ok (tt, set_chan a (with_assembly RecvHeader (Some msg) (ch_header ch) [] false ch) c)) as E0.
  { rewrite Hstep by (split; [done|by exists msg]). by apply recv_method. }
  rewrite (mbind_ok _ _ _ _ _ E0).
  assert (forall m k, step (F_header header)
       (set_chan a (with_assembly RecvHeader (Some msg) m [] k ch) c)
     = if hf_Size header =? 0 then completed msg header [] RecvHeader k ch
       else Ok (tt, set_chan a (with_assembly RecvContent (Some msg) (Some header) [] k ch) c)) as E.
  { intros m k. rewrite Hstep by done. unfold Channel_recv. rewrite (mbind_ok _ _ _ _ _ (get_set _)).
    cbn [ch_recv with_assembly]. unfold recvHeader. rewrite (mbind_ok _ _ _ _ _ (upd_set _ _)).
    rewrite with_assembly_twice. cbn [ch_header ch_recv ch_message ch_body ch_body_cap with_assembly].
    destruct (_ =? _); [apply (complete_set msg header [] RecvHeader k ch)|].
    rewrite transition_set. by rewrite with_assembly_twice. }
  destruct xs as [|b xs].
  - exists RecvHeader, false. unfold mbind at 1. rewrite E, Hsz. cbn [fmap list_fmap mfor concat]. done.
  - exists RecvContent, true. unfold mbind at 1. rewrite E.
    rewrite (proj2 (Z.eqb_neq _ _)).
    + by rewrite (recv_bodies (b :: xs) msg header [] false ch).
    + apply list.Forall_cons in Hxs as [Hb _]. rewrite Hsz. cbn [concat]. rewrite len_app.
      pose proof (len_nonneg (concat xs)). pose proof (len_pos b Hb). lia.
Qed.
End Reassembly.
