(* ===== verification/ChannelApi.v ===== *)
(** * ChannelApi: the methods of a channel (channel.go)

    Request and reply, and every method an application calls.  A method that
    waits is given the case of its [select] that fires ([reply]): what the
    reader hands over on [ch.rpc], or what is received from [ch.errors]. *)

From S2P Require Import Prelude Types Io SpecChannel SpecExchange SpecQueue SpecBasic SpecTx.
From S2P Require Import Spec091 Frame Allocator Confirms Delivery Consumers State Channel.

(** ** Request and reply *)

Inductive reply :=
  | FromErrors (e : option Error)   (** [e, ok := <-ch.errors]; [None] is [!ok] *)
  | FromRpc (m : option message).   (** [msg := <-ch.rpc]; [None] is [nil] *)

(** [reflect.TypeOf(msg) == reflect.TypeOf(try)]: message types and their ids
    are in bijection. *)
Definition same_type (msg try_ : message) : bool := bool_decide (message_id msg = message_id try_).

(** [ch.call(req, res...)]: the error, and the message stored in the matching
    result. *)
Definition Channel_call (a : nat) (req : message) (res : list message) (r : reply)
  : M (option goerror * option message) :=
  do err <- Channel_send a req;
  match err with
  | Some e => mret (Some e, None)
  | None =>
      if message_wait req then
        match r with
        | FromErrors (Some e) =>
            upd_chan a (fun ch => with_errors (drop 1 (ch_errors ch)) ch) >>
            mret (Some (AmqpError e), None)
        | FromErrors None => mret (Some (AmqpError ErrClosed), None)
        | FromRpc (Some msg) =>
            if existsb (same_type msg) res then mret (None, Some msg)
            else mret (Some (AmqpError ErrCommandInvalid), None)
        | FromRpc None => mret (Some (AmqpError ErrClosed), None)
        end
      else mret (None, None)
  end.

(** [return ch.call(req, res)] *)
Definition call_ (a : nat) (req res : message) (r : reply) : M (option goerror) :=
  do x <- Channel_call a req [res] r; mret (fst x).

Definition Channel_open (a : nat) (r : reply) : M (option goerror) :=
  call_ a (M_channelOpen (Mk_channelOpen "")) (M_channelOpenOk (Mk_channelOpenOk "")) r.

(** [if err := args.Validate(); err != nil { return err }] *)
Definition validated (args : Table) (k : M (option goerror)) : M (option goerror) :=
  match Validate args with
  | Some e => mret (Some (FieldError e))
  | None => k
  end.

(** ** Closing and listening *)

Definition Channel_Close (a : nat) (r : reply) : M (option goerror) :=
  do closed <- Channel_IsClosed a;
  if closed : bool then mret None
  else
    do err <- call_ a (M_channelClose (Mk_channelClose replySuccess "" 0 0))
                (M_channelCloseOk Mk_channelCloseOk) r;
    (closeChannel a None >> mret err).

Definition register (a : nat) (l : listener) (f : Channel -> Channel) : M unit :=
  do ch <- get_chan a;
  if ch_noNotify ch then close_listener l else upd_chan a f.

Definition Channel_NotifyClose (a l : nat) : M unit :=
  register a (LClose l) (fun ch =>
    with_listeners (ch_closes ch ++ [l]) (ch_flows ch) (ch_returns ch) (ch_cancels ch) ch).
Definition NotifyFlow (a l : nat) : M unit :=
  register a (LFlow l) (fun ch =>
    with_listeners (ch_closes ch) (ch_flows ch ++ [l]) (ch_returns ch) (ch_cancels ch) ch).
Definition NotifyReturn (a l : nat) : M unit :=
  register a (LReturn l) (fun ch =>
    with_listeners (ch_closes ch) (ch_flows ch) (ch_returns ch ++ [l]) (ch_cancels ch) ch).
Definition NotifyCancel (a l : nat) : M unit :=
  register a (LCancel l) (fun ch =>
    with_listeners (ch_closes ch) (ch_flows ch) (ch_returns ch) (ch_cancels ch ++ [l]) ch).

(** The confirmation channel is closed at once when nothing will be sent. *)
Definition NotifyPublish (a l : nat) : M unit :=
  do ch <- get_chan a;
  if ch_noNotify ch then
    do confirms <- mlift (chan_close l (ch_confirms ch));
    upd_chan a (with_confirms confirms)
  else upd_chan a (with_confirms (Listen l (ch_confirms ch))).

(** The goroutine of [NotifyConfirm]: what goes to [ack] and to [nack]. *)
Definition NotifyConfirm_split (cs : list Confirmation) : list Z * list Z :=
  (DeliveryTag <$> filter (fun c => Ack c = true) cs,
   DeliveryTag <$> filter (fun c => Ack c = false) cs).

(** ** Consuming *)

Definition Qos (a : nat) (prefetchCount prefetchSize : Z) (global : bool) (r : reply) : M (option goerror) :=
  call_ a (M_basicQos (Mk_basicQos (uintw 32 prefetchSize) (uintw 16 prefetchCount) global))
    (M_basicQosOk Mk_basicQosOk) r.

Definition cancel_consumer (a : nat) (tag : string) : M unit :=
  do ch <- get_chan a;
  do x <- mlift (consumers_cancel tag (ch_consumers ch));
  upd_chan a (with_consumers (snd x)).

Definition Channel_Cancel (a : nat) (consumer : string) (noWait : bool) (r : reply) : M (option goerror) :=
  let req := M_basicCancel (Mk_basicCancel consumer noWait) in
  do x <- Channel_call a req [M_basicCancelOk (Mk_basicCancelOk "")] r;
  match fst x with
  | Some e => mret (Some e)
  | None =>
      (if message_wait req then
         cancel_consumer a (match snd x with
                            | Some (M_basicCancelOk res) => basicCancelOk_ConsumerTag res
                            | _ => ""
                            end)
       else cancel_consumer a consumer) >>
      mret None
  end.

(** [fresh] is what [uniqueConsumerTag()] returns; the result is the number of
    the goroutine that feeds the returned channel. *)
Definition Consume (a : nat) (queue consumer : string) (autoAck exclusive noLocal noWait : bool)
  (args : Table) (fresh : string) (r : reply) : M (option goerror * option nat) :=
  match Validate args with
  | Some e => mret (Some (FieldError e), None)
  | None =>
      let consumer := if bool_decide (consumer = "") then fresh else consumer in
      let req := M_basicConsume (Mk_basicConsume 0 queue consumer noLocal autoAck exclusive noWait args) in
      do ch <- get_chan a;
      let deliveries := length (c_bufs (ch_consumers ch)) in
      do subs <- mlift (consumers_add consumer (ch_consumers ch));
      upd_chan a (with_consumers subs) >>
      do err <- call_ a req (M_basicConsumeOk (Mk_basicConsumeOk "")) r;
      match err with
      | Some e => cancel_consumer a consumer >> mret (Some e, None)
      | None => mret (None, Some deliveries)
      end
  end.

(** With a context that is done ([ctxErr]) nothing is sent.  The goroutine
    that waits for the context runs [Channel_Cancel a consumer false]. *)
Definition ConsumeWithContext (a : nat) (ctxErr : option goerror) (queue consumer : string)
  (autoAck exclusive noLocal noWait : bool) (args : Table) (fresh : string) (r : reply)
  : M (option goerror * option nat) :=
  match Validate args with
  | Some e => mret (Some (FieldError e), None)
  | None =>
      match ctxErr with
      | Some e => mret (Some e, None)
      | None => Consume a queue consumer autoAck exclusive noLocal noWait args fresh r
      end
  end.

(** The zero [Delivery{}]. *)
Definition zeroDelivery : Delivery :=
  MkDelivery None [] "" "" 0 0 "" "" "" "" zeroTime "" "" "" "" 0 0 false "" "" [].

Definition Get (a : nat) (queue : string) (autoAck : bool) (r : reply)
  : M (Delivery * bool * option goerror) :=
  do x <- Channel_call a (M_basicGet (Mk_basicGet 0 queue autoAck))
            [M_basicGetOk (Mk_basicGetOk 0 false "" "" 0 zeroProperties []);
             M_basicGetEmpty (Mk_basicGetEmpty "")] r;
  mret (match fst x, snd x with
        | Some e, _ => (zeroDelivery, false, Some e)
        | None, Some (M_basicGetOk res) =>
            if 0 <? basicGetOk_DeliveryTag res
            then (newDelivery a (M_basicGetOk res), true, None)
            else (zeroDelivery, false, None)
        | None, _ => (zeroDelivery, false, None)
        end).

(** ** Queues *)

(** [type Queue struct] *)
Record Queue := MkQueue { Queue_Name : string; Queue_Messages : Z; Queue_Consumers : Z }.

Definition zeroQueueDeclareOk : message := M_queueDeclareOk (Mk_queueDeclareOk "" 0 0).

Definition queue_declare (passive : bool) (a : nat) (name : string)
  (durable autoDelete exclusive noWait : bool) (args : Table) (r : reply) : M (Queue * option goerror) :=
  match Validate args with
  | Some e => mret (MkQueue "" 0 0, Some (FieldError e))
  | None =>
      let req := M_queueDeclare
        (Mk_queueDeclare 0 name passive durable exclusive autoDelete noWait args) in
      do x <- Channel_call a req [zeroQueueDeclareOk] r;
      mret (match fst x with
            | Some e => (MkQueue "" 0 0, Some e)
            | None =>
                if message_wait req then
                  match snd x with
                  | Some (M_queueDeclareOk res) =>
                      (MkQueue (queueDeclareOk_Queue res) (queueDeclareOk_MessageCount res)
                         (queueDeclareOk_ConsumerCount res), None)
                  | _ => (MkQueue "" 0 0, None)
                  end
                else (MkQueue name 0 0, None)
            end)
  end.

Definition QueueDeclare := queue_declare false.
Definition QueueDeclarePassive := queue_declare true.

Definition QueueInspect (a : nat) (name : string) (r : reply) : M (Queue * option goerror) :=
  do x <- Channel_call a (M_queueDeclare (Mk_queueDeclare 0 name true false false false false []))
            [zeroQueueDeclareOk] r;
  mret (match snd x with
        | Some (M_queueDeclareOk res) =>
            MkQueue name (queueDeclareOk_MessageCount res) (queueDeclareOk_ConsumerCount res)
        | _ => MkQueue name 0 0
        end, fst x).

Definition QueueBind (a : nat) (name key exchange : string) (noWait : bool) (args : Table) (r : reply)
  : M (option goerror) :=
  validated args
    (call_ a (M_queueBind (Mk_queueBind 0 name exchange key noWait args)) (M_queueBindOk Mk_queueBindOk) r).

Definition QueueUnbind (a : nat) (name key exchange : string) (args : Table) (r : reply)
  : M (option goerror) :=
  validated args
    (call_ a (M_queueUnbind (Mk_queueUnbind 0 name exchange key args)) (M_queueUnbindOk Mk_queueUnbindOk) r).

Definition QueuePurge (a : nat) (name : string) (noWait : bool) (r : reply) : M (Z * option goerror) :=
  do x <- Channel_call a (M_queuePurge (Mk_queuePurge 0 name noWait)) [M_queuePurgeOk (Mk_queuePurgeOk 0)] r;
  mret (match snd x with Some (M_queuePurgeOk res) => queuePurgeOk_MessageCount res | _ => 0 end, fst x).

Definition QueueDelete (a : nat) (name : string) (ifUnused ifEmpty noWait : bool) (r : reply)
  : M (Z * option goerror) :=
  do x <- Channel_call a (M_queueDelete (Mk_queueDelete 0 name ifUnused ifEmpty noWait))
            [M_queueDeleteOk (Mk_queueDeleteOk 0)] r;
  mret (match snd x with Some (M_queueDeleteOk res) => queueDeleteOk_MessageCount res | _ => 0 end, fst x).

(** ** Exchanges *)

Definition exchange_declare (passive : bool) (a : nat) (name kind : string)
  (durable autoDelete internal noWait : bool) (args : Table) (r : reply) : M (option goerror) :=
  validated args
    (call_ a (M_exchangeDeclare
                (Mk_exchangeDeclare 0 name kind passive durable autoDelete internal noWait args))
       (M_exchangeDeclareOk Mk_exchangeDeclareOk) r).

Definition ExchangeDeclare := exchange_declare false.
Definition ExchangeDeclarePassive := exchange_declare true.

Definition ExchangeDelete (a : nat) (name : string) (ifUnused noWait : bool) (r : reply)
  : M (option goerror) :=
  call_ a (M_exchangeDelete (Mk_exchangeDelete 0 name ifUnused noWait))
    (M_exchangeDeleteOk Mk_exchangeDeleteOk) r.

Definition ExchangeBind (a : nat) (destination key source : string) (noWait : bool) (args : Table) (r : reply)
  : M (option goerror) :=
  validated args
    (call_ a (M_exchangeBind (Mk_exchangeBind 0 destination source key noWait args))
       (M_exchangeBindOk Mk_exchangeBindOk) r).

Definition ExchangeUnbind (a : nat) (destination key source : string) (noWait : bool) (args : Table) (r : reply)
  : M (option goerror) :=
  validated args
    (call_ a (M_exchangeUnbind (Mk_exchangeUnbind 0 destination source key noWait args))
       (M_exchangeUnbindOk Mk_exchangeUnbindOk) r).

(** ** Publishing *)

(** [type Publishing struct] *)
Record Publishing := MkPublishing {
  pub_Headers : Table;
  pub_ContentType : string;
  pub_ContentEncoding : string;
  pub_DeliveryMode : Z;
  pub_Priority : Z;
  pub_CorrelationId : string;
  pub_ReplyTo : string;
  pub_Expiration : string;
  pub_MessageId : string;
  pub_Timestamp : Time;
  pub_Type : string;
  pub_UserId : string;
  pub_AppId : string;
  pub_Body : list byte
}.

Definition publishing_properties (msg : Publishing) : properties :=
  MkProperties (pub_ContentType msg) (pub_ContentEncoding msg) (pub_Headers msg) (pub_DeliveryMode msg)
    (pub_Priority msg) (pub_CorrelationId msg) (pub_ReplyTo msg) (pub_Expiration msg)
    (pub_MessageId msg) (pub_Timestamp msg) (pub_Type msg) (pub_UserId msg) (pub_AppId msg) "".

(** The result is the address of the deferred confirmation. *)
Definition PublishWithDeferredConfirm (a : nat) (exchange key : string) (mandatory immediate : bool)
  (msg : Publishing) : M (option nat * option goerror) :=
  match Validate (pub_Headers msg) with
  | Some e => mret (None, Some (FieldError e))
  | None =>
      do ch <- get_chan a;
      do dc <- (if ch_confirming ch then
                  let '(dc, confirms) := publish (ch_confirms ch) in
                  upd_chan a (with_confirms confirms) >> mret (Some dc)
                else mret None);
      do err <- Channel_send a (M_basicPublish
                  (Mk_basicPublish 0 exchange key mandatory immediate
                     (publishing_properties msg) (pub_Body msg)));
      match err with
      | Some e =>
          do ch <- get_chan a;
          (if ch_confirming ch then
             do confirms <- mlift (unpublish (ch_confirms ch));
             upd_chan a (with_confirms confirms)
           else mret tt) >>
          mret (None, Some e)
      | None => mret (dc, None)
      end
  end.

Definition Publish (a : nat) (exchange key : string) (mandatory immediate : bool) (msg : Publishing)
  : M (option goerror) :=
  do x <- PublishWithDeferredConfirm a exchange key mandatory immediate msg;
  mret (snd x).

(** The context is not used. *)
Definition PublishWithContext := Publish.
Definition PublishWithDeferredConfirmWithContext := PublishWithDeferredConfirm.

(** ** Transactions, flow, confirm mode, recovery *)

Definition Tx (a : nat) (r : reply) : M (option goerror) :=
  call_ a (M_txSelect Mk_txSelect) (M_txSelectOk Mk_txSelectOk) r.
Definition TxCommit (a : nat) (r : reply) : M (option goerror) :=
  call_ a (M_txCommit Mk_txCommit) (M_txCommitOk Mk_txCommitOk) r.
Definition TxRollback (a : nat) (r : reply) : M (option goerror) :=
  call_ a (M_txRollback Mk_txRollback) (M_txRollbackOk Mk_txRollbackOk) r.

Definition Flow (a : nat) (active : bool) (r : reply) : M (option goerror) :=
  call_ a (M_channelFlow (Mk_channelFlow active)) (M_channelFlowOk (Mk_channelFlowOk false)) r.

Definition Confirm (a : nat) (noWait : bool) (r : reply) : M (option goerror) :=
  do err <- call_ a (M_confirmSelect (Mk_confirmSelect noWait)) (M_confirmSelectOk Mk_confirmSelectOk) r;
  match err with
  | Some e => mret (Some e)
  | None => upd_chan a (with_confirming true) >> mret None
  end.

Definition Recover (a : nat) (requeue : bool) (r : reply) : M (option goerror) :=
  call_ a (M_basicRecover (Mk_basicRecover requeue)) (M_basicRecoverOk Mk_basicRecoverOk) r.

(** ** Acknowledging *)

Definition Channel_Ack (a : nat) (tag : Z) (multiple : bool) : M (option goerror) :=
  Channel_send a (M_basicAck (Mk_basicAck tag multiple)).
Definition Channel_Nack (a : nat) (tag : Z) (multiple requeue : bool) : M (option goerror) :=
  Channel_send a (M_basicNack (Mk_basicNack tag multiple requeue)).
Definition Channel_Reject (a : nat) (tag : Z) (requeue : bool) : M (option goerror) :=
  Channel_send a (M_basicReject (Mk_basicReject tag requeue)).

(** A channel acknowledges its deliveries. *)
#[export] Instance channel_acknowledger : Acknowledger Connection := {
  Acknowledger_Ack := Channel_Ack;
  Acknowledger_Nack := Channel_Nack;
  Acknowledger_Reject := Channel_Reject
}.

Definition GetNextPublishSeqNo (a : nat) : M Z :=
  do ch <- get_chan a; mret (uintw 64 (published (ch_confirms ch) + 1)).
