(* ===== verification/Connection.v ===== *)
(** * Connection: the operations of a connection (connection.go)

    Demultiplexing of received frames, the registry of channels, shutdown,
    the handshake with its negotiation, and the methods of the API. *)

From stdpp Require Import pretty.
From S2P Require Import Prelude Types Io SpecConnection SpecChannel Spec091 Frame FrameFacts.
From S2P Require Import Allocator Confirms Delivery Consumers State Channel ChannelApi Auth.

Definition maxChannelMax : Z := 2 * 2 ^ 15 - 1.
Definition defaultChannelMax : Z := uintw 16 (2 * 2 ^ 10 - 1).

(** ** Shutdown *)

(** The function [destructor.Do] runs once; the channels are shut down in
    some order. *)
Definition Connection_destructor (err : option Error) : M unit :=
  do closes <- gets cn_closes;
  match err with
  | Some e =>
      mfor (fun l => notify (LClose l) (NError e)) closes >>
      modify (fun c => with_cn_errors (cn_errors c ++ [e]) (cn_errors_closed c) c)
  | None => mret tt
  end >>
  modify (fun c => with_cn_errors (cn_errors c) true c) >>
  mfor (fun l => close_listener (LClose l)) closes >>
  do blocks <- gets cn_blocks;
  mfor (fun l => close_listener (LBlock l)) blocks >>
  do channels <- gets cn_channels;
  mfor (fun kv => Channel_shutdown (snd kv) err) (map_to_list channels) >>
  emit TransportClosed >>
  modify (with_registry ∅ None) >>
  modify with_cn_shut.

Definition Connection_shutdown (err : option Error) : M unit :=
  modify (with_cn_closed true) >>
  do shut <- gets cn_shut;
  if shut : bool then mret tt else Connection_destructor err.

(** ** Channels *)

(** [c.channels[uint16(id)] = ch]; the allocator is nil before the
    connection is tuned. *)
Definition allocateChannel : M (option goerror * option nat) :=
  do closed <- gets cn_closed;
  if closed : bool then mret (Some (AmqpError ErrClosed), None)
  else
    do al <- gets cn_allocator;
    match al with
    | None => mpanic
    | Some al =>
        do x <- mlift (next al);
        match fst x with
        | None =>
            modify (fun c => with_registry (cn_channels c) (Some (snd x)) c) >>
            mret (Some (AmqpError ErrChannelMax), None)
        | Some id =>
            do objs <- gets cn_objs;
            let ch := length objs in
            modify (with_objs (objs ++ [newChannel (uintw 16 id)])) >>
            modify (fun c => with_registry (<[uintw 16 id := ch]> (cn_channels c)) (Some (snd x)) c) >>
            mret (None, Some ch)
        end
    end.

Definition openChannel (r : reply) : M (option goerror * option nat) :=
  do x <- allocateChannel;
  match x with
  | (None, Some ch) =>
      do err <- Channel_open ch r;
      match err with
      | Some e => releaseChannel ch >> mret (Some e, None)
      | None => mret (None, Some ch)
      end
  | (err, _) => mret (err, None)
  end.

Definition Connection_Channel := openChannel.

(** ** Request and reply *)

Definition Connection_call (req : option message) (res : list message) (r : reply)
  : M (option goerror * option message) :=
  do err <- (match req with
             | Some m => Connection_send (F_method (Mk_methodFrame 0 0 0 (Some m)))
             | None => mret None
             end);
  match err with
  | Some e => mret (Some e, None)
  | None =>
      match r with
      | FromErrors (Some e) =>
          modify (fun c => with_cn_errors (drop 1 (cn_errors c)) (cn_errors_closed c) c) >>
          mret (Some (AmqpError e), None)
      | FromErrors None => mret (Some (AmqpError ErrClosed), None)
      | FromRpc (Some msg) =>
          if existsb (same_type msg) res then mret (None, Some msg)
          else mret (Some (AmqpError ErrCommandInvalid), None)
      | FromRpc None => mret (Some (AmqpError ErrCommandInvalid), None)
      end
  end.

(** The request of [Close], [CloseDeadline] and [closeWith], after which the
    connection is shut down. *)
Definition close_call (code : Z) (text : string) (err : option Error) (r : reply) : M (option goerror) :=
  do closed <- gets cn_closed;
  if closed : bool then mret (Some (AmqpError ErrClosed))
  else
    do x <- Connection_call (Some (M_connectionClose (Mk_connectionClose code text 0 0)))
              [M_connectionCloseOk Mk_connectionCloseOk] r;
    (Connection_shutdown err >> mret (fst x)).

Definition Connection_Close (r : reply) : M (option goerror) := close_call replySuccess "kthxbai" None r.

Definition Connection_IsClosed : M bool := gets cn_closed.

(** [derr] is what setting the deadline of the transport returns. *)
Definition CloseDeadline (derr : option goerror) (r : reply) : M (option goerror) :=
  match derr with
  | Some e =>
      do closed <- gets cn_closed;
      if closed : bool then mret (Some (AmqpError ErrClosed))
      else Connection_shutdown None >> mret (Some e)
  | None => close_call replySuccess "kthxbai" None r
  end.

Definition closeWith (e : Error) (r : reply) : M (option goerror) :=
  close_call (uintw 16 (Error_Code e)) (Error_Reason e) (Some e) r.

Definition UpdateSecret (newSecret reason : string) (r : reply) : M (option goerror) :=
  do closed <- gets cn_closed;
  if closed : bool then mret (Some (AmqpError ErrClosed))
  else
    do x <- Connection_call (Some (M_connectionUpdateSecret (Mk_connectionUpdateSecret newSecret reason)))
              [M_connectionUpdateSecretOk Mk_connectionUpdateSecretOk] r;
    mret (fst x).

Definition Connection_NotifyClose (l : nat) : M unit :=
  do noNotify <- gets cn_noNotify;
  if noNotify : bool then close_listener (LClose l)
  else modify (fun c => with_cn_listeners (cn_closes c ++ [l]) (cn_blocks c) c).

Definition NotifyBlocked (l : nat) : M unit :=
  do noNotify <- gets cn_noNotify;
  if noNotify : bool then close_listener (LBlock l)
  else modify (fun c => with_cn_listeners (cn_closes c) (cn_blocks c ++ [l]) c).

(** ** Demultiplexing *)

Definition dispatch0 (f : frame) : M unit :=
  match f with
  | F_method mf =>
      match mf_Method mf with
      | Some (M_connectionClose m) =>
          Connection_send (F_method (Mk_methodFrame 0 0 0 (Some (M_connectionCloseOk Mk_connectionCloseOk)))) >>
          Connection_shutdown (Some (newError (connectionClose_ReplyCode m) (connectionClose_ReplyText m)))
      | Some (M_connectionBlocked m) =>
          do blocks <- gets cn_blocks;
          mfor (fun l => notify (LBlock l) (NBlocking (MkBlocking true (connectionBlocked_Reason m)))) blocks
      | Some (M_connectionUnblocked _) =>
          do blocks <- gets cn_blocks;
          mfor (fun l => notify (LBlock l) (NBlocking (MkBlocking false ""))) blocks
      | m =>
          (* select on c.close, or hand over to the waiting call *)
          do shut <- gets cn_shut;
          if shut : bool then mret tt else emit (Rpc None m)
      end
  | F_heartbeat _ => mret tt
  | _ => start (GoCloseWith ErrUnexpectedFrame)
  end.

(** [updateChannel(f, channel)] of types.go. *)
Definition updateChannel (f : frame) (a : nat) : M unit :=
  match f with
  | F_method mf =>
      match mf_Method mf with
      | Some (M_channelClose _) => setClosed a
      | _ => mret tt
      end
  | _ => mret tt
  end.

Definition dispatchClosed (f : frame) (id : Z) : M unit :=
  match f with
  | F_method mf =>
      match mf_Method mf with
      | Some (M_channelClose _) =>
          Connection_send (F_method (Mk_methodFrame id 0 0 (Some (M_channelCloseOk Mk_channelCloseOk)))) >>
          mret tt
      | Some (M_channelCloseOk _) => mret tt
      | _ => start (GoCloseWith ErrClosed)
      end
  | _ => mret tt
  end.

Definition dispatchN (f : frame) (id : Z) : M unit :=
  do channels <- gets cn_channels;
  match channels !! id with
  | Some channel => updateChannel f channel >> Channel_recv channel f
  | None => dispatchClosed f id
  end.

(** [f.channel()] panics for a protocol header, which is never received. *)
Definition demux (f : frame) : M unit :=
  match frame_channel f with
  | None => mpanic
  | Some id => if id =? 0 then dispatch0 f else dispatchN f id
  end.

(** [isCapable(featureName)] over the server's properties. *)
Definition isCapable (Properties : Table) (featureName : string) : bool :=
  match table_get Properties "capabilities" with
  | Some (VTable capabilities) =>
      match table_get capabilities featureName with
      | Some (VBool b) => b
      | _ => false
      end
  | _ => false
  end.

(** ** Negotiation *)

Definition max (a b : Z) : Z := if b <? a then a else b.
Definition min (a b : Z) : Z := if a <? b then a else b.

Definition maxUInt16 (a b : Z) : Z := if b <? a then a else b.
Definition minUInt16 (a b : Z) : Z := if a <? b then a else b.

Definition pickUInt16 (client server : Z) : Z :=
  if (client =? 0) || (server =? 0) then maxUInt16 client server else minUInt16 client server.

Definition pick (client server : Z) : Z :=
  if (client =? 0) || (server =? 0) then max client server else min client server.

(** The channel limit of [openTune]. *)
Definition tune_ChannelMax (client server : Z) : Z :=
  let m := pickUInt16 client server in
  let m := if m =? 0 then defaultChannelMax else m in
  minUInt16 m maxChannelMax.

(** [time.Second * time.Duration(pick(int(config.Heartbeat/time.Second),
    int(tune.Heartbeat)))]; division of durations truncates. *)
Definition tune_Heartbeat (client server : Z) : Z :=
  sintw 64 (Second * pick (Z.quot client Second) server).

(** ** The handshake *)

(** The fields of [Config] the handshake uses. *)
Record Config := MkConfig {
  cfg_SASL : list Authentication;
  cfg_Vhost : string;
  cfg_ChannelMax : Z; (** uint16 *)
  cfg_FrameSize : Z;
  cfg_Heartbeat : Z;  (** time.Duration *)
  cfg_Properties : Table;
  cfg_Locale : string
}.

Definition NewConnectionProperties : Table :=
  [("product", VString "AMQP 0.9.1 Client"); ("version", VString "1.10.0"); ("platform", VString "golang")].

Definition client_capabilities : GoValue :=
  VTable [("connection.blocked", VBool true); ("consumer_cancel_notify", VBool true);
          ("basic.nack", VBool true); ("publisher_confirms", VBool true)].

(** [strings.Split(s, sep)] with a separator of one character. *)
Fixpoint Split (sep : Ascii.ascii) (s : string) : list string :=
  match s with
  | EmptyString => [EmptyString]
  | String c r =>
      if Ascii.eqb c sep then EmptyString :: Split sep r
      else match Split sep r with
           | w :: ws => String c w :: ws
           | [] => [String c EmptyString]
           end
  end.

Definition space : Ascii.ascii := Ascii.ascii_of_nat 32.

(** [c.openComplete()] only clears the deadline of the transport. *)
Definition openVhost (config : Config) (r : reply) : M (option goerror) :=
  do x <- Connection_call (Some (M_connectionOpen (Mk_connectionOpen (cfg_Vhost config) "" false)))
            [M_connectionOpenOk (Mk_connectionOpenOk "")] r;
  match fst x with
  | Some _ => mret (Some (AmqpError ErrVhost))
  | None =>
      modify (fun c => with_info
        (MkInfo (ci_Major (cn_info c)) (ci_Minor (cn_info c)) (ci_Properties (cn_info c))
           (ci_Locales (cn_info c)) (ci_SASL (cn_info c)) (ci_Locale (cn_info c)) (cfg_Vhost config)) c) >>
      mret None
  end.

(** [hb] is the channel on which the heartbeater hears of the close;
    [login_first] an order of iteration for [auth.Response()]. *)
Definition openTune (config : Config) (auth : Authentication) (login_first : bool) (hb : nat)
  (rtune ropen : reply) : M (option goerror) :=
  let props := if (len (cfg_Properties config) =? 0) then NewConnectionProperties else cfg_Properties config in
  let props := table_set "capabilities" client_capabilities props in
  do x <- Connection_call
            (Some (M_connectionStartOk
               (Mk_connectionStartOk props (Mechanism auth) (Response login_first auth) (cfg_Locale config))))
            [M_connectionTune (Mk_connectionTune 0 0 0)] rtune;
  match x with
  | (None, Some (M_connectionTune tune)) =>
      let ChannelMax := tune_ChannelMax (cfg_ChannelMax config) (connectionTune_ChannelMax tune) in
      let FrameSize := pick (cfg_FrameSize config) (connectionTune_FrameMax tune) in
      let Heartbeat := tune_Heartbeat (cfg_Heartbeat config) (connectionTune_Heartbeat tune) in
      modify (fun c => with_registry (cn_channels c) (Some (newAllocator 1 ChannelMax)) c) >>
      modify (with_tuning ChannelMax FrameSize Heartbeat) >>
      Connection_NotifyClose hb >>
      do err <- Connection_send (F_method (Mk_methodFrame 0 0 0 (Some (M_connectionTuneOk
                  (Mk_connectionTuneOk (uintw 16 ChannelMax) (uintw 32 FrameSize)
                     (uintw 16 (Z.quot Heartbeat Second)))))));
      match err with
      | Some e => mret (Some e)
      | None => openVhost config ropen
      end
  | _ => mret (Some (AmqpError ErrCredentials))
  end.

Definition openStart (config : Config) (login_first : bool) (hb : nat) (rstart rtune ropen : reply)
  : M (option goerror) :=
  do x <- Connection_call None [M_connectionStart (Mk_connectionStart 0 0 [] "" "")] rstart;
  match x with
  | (None, Some (M_connectionStart start)) =>
      let locales := Split space (connectionStart_Locales start) in
      modify (fun c => with_info
        (MkInfo (connectionStart_VersionMajor start) (connectionStart_VersionMinor start)
           (connectionStart_ServerProperties start) locales
           (ci_SASL (cn_info c)) (ci_Locale (cn_info c)) (ci_Vhost (cn_info c))) c) >>
      match pickSASLMechanism (cfg_SASL config) (Split space (connectionStart_Mechanisms start)) with
      | None => mret (Some (AmqpError ErrSASL))
      | Some auth =>
          modify (fun c => with_info
            (MkInfo (ci_Major (cn_info c)) (ci_Minor (cn_info c)) (ci_Properties (cn_info c))
               (ci_Locales (cn_info c)) [auth] (cfg_Locale config) (ci_Vhost (cn_info c))) c) >>
          openTune config auth login_first hb rtune ropen
      end
  | (err, _) => mret err
  end.

Definition Connection_open (config : Config) (login_first : bool) (hb : nat) (rstart rtune ropen : reply)
  : M (option goerror) :=
  do err <- Connection_send F_protocolHeader;
  match err with
  | Some e => mret (Some e)
  | None => openStart config login_first hb rstart rtune ropen
  end.

(** The connection [Open] starts from. *)
Definition initial_connection : Connection :=
  MkConnection false false false [] [] ∅ None [] false 0 0 0 [] [] [] Working [] [] []
    (MkInfo 0 0 [] [] [] "" "").

(** ** The reader *)

(** [%q] on the texts of the library's own errors, which have no character
    to escape. *)
Definition quote (s : string) : string :=
  let q := String (Ascii.ascii_of_nat 34) EmptyString in q +:+ s +:+ q.

(** [err.Error()] of the errors that can end the reader (a table is only
    validated when it is written, so [FieldError] is not one of them). *)
Definition error_text (e : goerror) : string :=
  match e with
  | EOF => "EOF"
  | ErrUnexpectedEOF => "unexpected EOF"
  | AmqpError e => "Exception (" +:+ pretty (Error_Code e) +:+ ") Reason: " +:+ quote (Error_Reason e)
  | TextError t => t
  | FieldError _ => ""
  | TransportError t => t
  end.

(** The goroutine [c.reader(conn)]: every frame is demultiplexed before the
    next is read; an error shuts the connection down. *)
Fixpoint reader_run (fuel : nat) (r : rdr) : M unit :=
  match fuel with
  | O => fun _ => NoFuel
  | S fuel' =>
      match ReadFrame r with
      | (Ok f, r') => demux f >> reader_run fuel' r'
      | (Err e, _) => Connection_shutdown (Some (MkError FrameError (error_text e) false false))
      | (Panicked, _) => mpanic
      | (NoFuel, _) => fun _ => NoFuel
      end
  end.

Definition Connection_reader (r : rdr) : M unit := reader_run (S (length (rd_bytes r))) r.
