(* ===== verification/Heartbeat.v ===== *)
(** * Heartbeat: the heartbeater of a connection (connection.go)

    The goroutine [c.heartbeater(interval, done)] as a state machine over the
    events its [select] receives.  Times are nanoseconds. *)

From Stdlib Require Import Sorting.Sorted.
From S2P Require Import Prelude Types Io WireFacts WireCodec Spec091 Frame FrameFacts State Channel.
From S2P Require Import ChannelFacts Connection.

(** ** Model *)

(** The result of [conn.SetReadDeadline(...)]: no error, a [*net.OpError], or
    another error. *)
Inductive deadline_result := DeadlineSet | DeadlineOpError | DeadlineError.

(** What the [select] receives: a time from [c.sends] (with [ok] when it is
    not closed), a tick, a connection from [c.deadlines] at the time [now],
    the close of the connection. *)
Inductive hb_event :=
  | HbSent (at_ : Z) (ok : bool)
  | HbTick (at_ : Z)
  | HbDeadline (now : Z) (r : deadline_result)
  | HbDone.

Definition maxServerHeartbeatsInFlight : Z := 3.

(** One turn of the loop: the new [lastSent], or [None] when the goroutine
    returns, and the read deadline that was set.  There is a ticker only for
    a positive interval. *)
Definition heartbeater_step (interval lastSent : Z) (ev : hb_event) : M (option Z * option Z) :=
  match ev with
  | HbSent at_ ok => mret (if ok then Some at_ else None, None)
  | HbTick at_ =>
      if interval - Second <? at_ - lastSent then
        do err <- Connection_send (F_heartbeat (Mk_heartbeatFrame 0));
        mret (match err with Some _ => None | None => Some lastSent end, None)
      else mret (Some lastSent, None)
  | HbDeadline now r =>
      mret (if 0 <? interval then
              match r with
              | DeadlineError => (None, None)
              | DeadlineOpError => (Some lastSent, None)
              | DeadlineSet => (Some lastSent, Some (now + maxServerHeartbeatsInFlight * interval))
              end
            else (Some lastSent, None))
  | HbDone => mret (None, None)
  end.

(** The loop over the events of an execution. *)
Fixpoint heartbeater (interval lastSent : Z) (evs : list hb_event) : M (option Z) :=
  match evs with
  | [] => mret (Some lastSent)
  | ev :: r =>
      do x <- heartbeater_step interval lastSent ev;
      match fst x with
      | None => mret None
      | Some lastSent => heartbeater interval lastSent r
      end
  end.

(** ** Specification *)

Definition event_time (ev : hb_event) : list Z :=
  match ev with
  | HbSent t _ | HbTick t | HbDeadline t _ => [t]
  | HbDone => []
  end.

(** The events of a connection that stays open. *)
Definition alive (ev : hb_event) : Prop :=
  match ev with
  | HbSent _ ok => ok = true
  | HbTick _ => True
  | HbDeadline _ r => r <> DeadlineError
  | HbDone => False
  end.

(** When frames went out: those of others that were announced, and [true]
    for a heartbeat at a tick. *)
Fixpoint sent_times (interval lastSent : Z) (evs : list hb_event) : list (Z * bool) :=
  match evs with
  | [] => []
  | HbSent t _ :: r => (t, false) :: sent_times interval t r
  | HbTick t :: r =>
      if interval - Second <? t - lastSent then (t, true) :: sent_times interval lastSent r
      else sent_times interval lastSent r
  | _ :: r => sent_times interval lastSent r
  end.

Definition heartbeat : frame := F_heartbeat (Mk_heartbeatFrame 0).

Definition heartbeat_octets : list byte := Zbyte <$> [8; 0; 0; 0; 0; 0; 0; 206].

(** The octets of the heartbeats among the frames sent. *)
Definition heartbeat_bytes (xs : list (Z * bool)) : list byte :=
  concat ((fun x : Z * bool => if snd x then heartbeat_octets else []) <$> xs).

Lemma heartbeat_emits : emits (frame_write heartbeat) heartbeat_octets.
Proof.
  cbn [frame_write heartbeat]. unfold heartbeatFrame_write.
  eapply emits_eq; [apply emits_writeFrame|by vm_compute].
Qed.

(** ** Facts *)

Lemma times_of_tick t evs : HbTick t ∈ evs -> t ∈ concat (event_time <$> evs).
Proof.
  intros Hin. apply list_elem_of_In, in_concat. exists [t]. rewrite <- !list_elem_of_In.
  split; [|set_solver]. apply list_elem_of_fmap. by exists (HbTick t).
Qed.

(** While the transport works, the goroutine goes on and writes a heartbeat
    at every tick that is due. *)
Lemma heartbeater_runs interval evs last c :
  cn_closed c = false -> cn_transport c = Working -> Forall alive evs ->
  exists last' c', heartbeater interval last evs c = Ok (Some last', c') /\
    cn_wire c' ++ cn_buf c' = cn_wire c ++ cn_buf c ++ heartbeat_bytes (sent_times interval last evs).
Proof.
  intros Hc Ht Ha. revert last c Hc Ht.
  induction Ha as [|ev evs Hev _ IH]; intros last c Hc Ht; cbn [heartbeater sent_times].
  { exists last, c. by rewrite !app_nil_r. }
  destruct ev as [t ok|t|now r|]; cbn [heartbeater_step alive] in *.
  - subst ok. rewrite (mbind_ok _ _ _ _ _ eq_refl). apply IH; done.
  - destruct (_ <? _).
    + rewrite mbind_assoc.
      rewrite (mbind_ok _ _ _ _ _ (send_ok heartbeat heartbeat_octets c Hc Ht heartbeat_emits)).
      rewrite (mbind_ok _ _ _ _ _ eq_refl). cbn [fst].
      destruct (IH last (with_writer [] (cn_wire c ++ cn_buf c ++ heartbeat_octets) c) Hc Ht) as (l & c' & E & W).
      exists l, c'. split; [exact E|]. rewrite W. simpl. unfold heartbeat_bytes. simpl. by rewrite <- !app_assoc.
    + rewrite (mbind_ok _ _ _ _ _ eq_refl). apply IH; done.
  - rewrite (mbind_ok _ _ _ _ _ eq_refl). destruct (0 <? interval), r; try done; apply IH; done.
  - done.
Qed.

(** A tick finds a frame that went out less than the interval ago. *)
Lemma tick_covered interval evs last t :
  StronglySorted Z.le (last :: concat (event_time <$> evs)) -> HbTick t ∈ evs ->
  exists s, s ∈ last :: (sent_times interval last evs).*1 /\ t - Z.max 0 (interval - Second) <= s <= t.
Proof.
  revert last. induction evs as [|ev evs IH]; intros last Hs Hin; [by apply not_elem_of_nil in Hin|].
  apply StronglySorted_inv in Hs as [Hs Hall]. rewrite Forall_forall in Hall.
  assert (last <= t) as Hlt by (apply Hall, list_elem_of_In, times_of_tick; exact Hin).
  assert (HbTick t ∈ evs -> StronglySorted Z.le (last :: concat (event_time <$> evs))) as Hs'.
  { intros _. constructor.
    - rewrite fmap_cons in Hs. cbn [concat] in Hs. destruct ev; simpl in Hs; [by apply StronglySorted_inv in Hs as []..|done].
    - apply Forall_forall. intros x Hx. apply Hall. rewrite fmap_cons. cbn [concat]. apply in_or_app. by right. }
  destruct ev as [t' ok|t'|now r|]; cbn [sent_times].
  - apply elem_of_cons in Hin as [|Hin]; [done|]. destruct (IH t' Hs Hin) as (s & Hin' & Hle).
    exists s. split; [|done]. rewrite fmap_cons. by right.
  - apply elem_of_cons in Hin as [[= <-]|Hin].
    + destruct (Z.ltb_spec (interval - Second) (t - last)).
      * exists t. split; [rewrite fmap_cons; set_solver|lia].
      * exists last. split; [set_solver|lia].
    + destruct (IH last (Hs' Hin) Hin) as (s & Hin' & Hle). exists s. split; [|done].
      destruct (_ <? _); [rewrite fmap_cons|done]. simpl. set_solver.
  - apply elem_of_cons in Hin as [|Hin]; [done|]. auto.
  - apply elem_of_cons in Hin as [|Hin]; [done|]. auto.
Qed.

(** ** Theorem *)

(** C33: While the connection is open and its transport works, the
    heartbeater keeps running, writes one heartbeat frame at every tick that
    finds no frame announced within the last [interval] less one second, and
    nothing else; so at every tick some frame has gone out within that time
    (at once, for an interval below a second).  With a tick every [interval],
    half the negotiated heartbeat, this leaves gaps shorter than the
    negotiated time. *)
Theorem heartbeats_bound_silence interval start evs c :
  cn_closed c = false -> cn_transport c = Working -> Forall alive evs ->
  StronglySorted Z.le (start :: concat (event_time <$> evs)) ->
  (exists last c', heartbeater interval start evs c = Ok (Some last, c') /\
     cn_wire c' ++ cn_buf c' = cn_wire c ++ cn_buf c ++ heartbeat_bytes (sent_times interval start evs)) /\
  forall t, HbTick t ∈ evs ->
    exists s, s ∈ start :: (sent_times interval start evs).*1 /\ t - Z.max 0 (interval - Second) <= s <= t.
Proof.
  intros Hc Ht Ha Hs. split; [by apply heartbeater_runs|]. intros t Hin. by apply tick_covered.
Qed.

Lemma heartbeats_bound_silence_witness :
  let evs := [HbSent Second true; HbTick (30 * Second); HbDeadline (31 * Second) DeadlineSet;
              HbTick (60 * Second)] in
  (exists last c', heartbeater (30 * Second) 0 evs initial_connection = Ok (Some last, c') /\
     cn_wire c' ++ cn_buf c' = heartbeat_octets) /\
  exists s, s ∈ [0; Second; 60 * Second] /\ 60 * Second - 29 * Second <= s <= 60 * Second.
Proof.
  destruct (heartbeats_bound_silence (30 * Second) 0
    [HbSent Second true; HbTick (30 * Second); HbDeadline (31 * Second) DeadlineSet; HbTick (60 * Second)]
    initial_connection) as [H1 H2].
  - done.
  - done.
  - by repeat constructor.
  - repeat constructor; by vm_compute.
  - split; [exact H1|]. apply (H2 (60 * Second)). set_solver.
Defined.
