(* ===== verification/ConnectionFacts.v ===== *)
(** * ConnectionFacts: from the bytes of the transport to the channels *)

From S2P Require Import Prelude Types Io WireCodec SpecConnection SpecChannel SpecBasic Spec091.
From S2P Require Import Frame FrameFacts Allocator Confirms Delivery Consumers Auth State Channel.
From S2P Require Import ChannelFacts ChannelApi Connection.

(** ** The reader *)

Lemma mbind_ret_unit (m : M unit) c : mbind m (fun _ => mret tt) c = m c.
Proof. unfold mbind. by destruct (m c) as [[[] ?]| | |]. Qed.

(** The error the reader shuts the connection down with. *)
Definition reader_error (e : goerror) : Error := MkError FrameError (error_text e) false false.

(** Bytes of written frames are demultiplexed frame by frame. *)
Lemma reader_run_frames fs bs n e c :
  Forall frame_ok fs -> emits (write_frames fs) bs -> e <> ErrUnexpectedEOF -> (length fs < n)%nat ->
  reader_run n (Rdr bs e) c
  = mbind (mfor demux (frame_norm <$> fs)) (fun _ => Connection_shutdown (Some (reader_error e))) c.
Proof.
  intros Hfs. revert bs n c. induction Hfs as [|f fs Hf Hfs IH]; intros bs n c Hw He Hn;
    (destruct n as [|n]; [simpl in Hn; lia|]).
  - rewrite (emits_det _ _ _ Hw emits_wnil). cbn [reader_run fmap list_fmap mfor].
    by rewrite ReadFrame_end.
  - destruct (frame_codec f Hf) as (b1 & E1 & R1), (stream_codec fs Hfs) as (b2 & E2 & _).
    rewrite (emits_det _ _ _ Hw (emits_seq _ _ _ _ (emits_WriteFrame _ _ E1) E2)).
    cbn [reader_run]. rewrite R1. rewrite fmap_cons. cbn [mfor]. rewrite mbind_assoc.
    unfold mbind at 1 2. destruct (demux (frame_norm f) c) as [[[] c']| | |]; [|done..].
    apply IH; [done|done|simpl in Hn; lia].
Qed.

(** ** Content through the demultiplexer *)

(** Content for a registered channel goes to it. *)
Lemma demux_content id a c f :
  cn_channels c !! id = Some a -> id <> 0 -> content_frame id f -> demux f c = Channel_recv a f c.
Proof.
  intros Hr Hid Hf.
  assert (frame_channel f = Some id) as Hch by (destruct f as [| | | |]; simpl in *; try done;
    destruct Hf; congruence || (f_equal; congruence)).
  unfold demux. rewrite Hch, (proj2 (Z.eqb_neq id 0)) by done.
  unfold dispatchN, mbind, gets. rewrite Hr.
  assert (updateChannel f a c = Ok (tt, c)) as ->; [|done].
  destruct f as [|mf| | |]; try done. destruct Hf as (_ & msg & Hm & Hcont). unfold updateChannel.
  rewrite Hm. destruct msg; try done. by destruct Hcont.
Qed.

Lemma message_norm_content msg :
  is_Some (message_getContent msg) -> is_Some (message_getContent (message_norm msg)).
Proof. by destruct msg. Qed.

Lemma frame_norm_content id size msg props body :
  frame_norm <$> content_frames id size msg props body
  = F_method (Mk_methodFrame id (fst (message_id msg)) (snd (message_id msg)) (Some (message_norm msg))) ::
    F_header (Mk_headerFrame id (fst (message_id msg)) 0 (uintw 64 (len body)) (properties_norm props)) ::
    ((fun x => F_body (Mk_bodyFrame id x)) <$> chunks (length body) (Z.to_nat size) body).
Proof.
  unfold content_frames. rewrite !fmap_cons. cbn [frame_norm mf_Method mf_ChannelId hf_ChannelId hf_ClassId
    hf_weight hf_Size hf_Properties]. do 2 f_equal. by rewrite <- list_fmap_compose.
Qed.

(** The frames of a message, received on a registered channel, are dispatched
    as that message. *)
Lemma demux_content_frames id a c ch size msg props body :
  cn_channels c !! id = Some a -> id <> 0 -> cn_objs c !! a = Some ch ->
  is_Some (message_getContent msg) -> 0 < size \/ body = [] -> len body <= maxAlloc ->
  exists r cap header,
    hf_Properties header = properties_norm props /\
    mfor demux (frame_norm <$> content_frames id size msg props body) c
    = completed a c (message_norm msg) header body r cap ch.
Proof.
  intros Hr Hid Ha Hm Hs Hmax. rewrite frame_norm_content.
  set (header := Mk_headerFrame id _ 0 _ _).
  set (xs := chunks (length body) (Z.to_nat size) body).
  assert (concat xs = body /\ Forall (fun x => x <> []) xs) as [Hx1 Hx2].
  { destruct Hs as [Hs| ->]; [|done]. split; [apply chunks_concat; lia|].
    eapply Forall_impl; [|apply chunks_sizes; lia]. intros x [Hx _] ->. simpl in Hx. lia. }
  assert (hf_Size header = len (concat xs)) as Hsz.
  { rewrite Hx1. apply uintw_small. pose proof (len_nonneg body). unfold is_uint, maxAlloc in *. lia. }
  destruct (recv_content a c ltac:(by eapply lookup_lt_Some) id demux)
    with (x := fst (message_id msg)) (y := snd (message_id msg)) (msg := message_norm msg)
         (header := header) (xs := xs) (ch := ch) as (r & cap & E).
  - intros f ch' Hf. by apply (demux_content id).
  - done.
  - by apply message_norm_content.
  - done.
  - done.
  - rewrite Hsz, Hx1. done.
  - exists r, cap, header. split; [done|]. rewrite (set_chan_id _ _ _ Ha) in E. rewrite E, Hx1.
    apply mbind_ret_unit.
Qed.

(** ** Negotiation *)

Lemma max_spec x y : max x y = Z.max x y.
Proof. unfold max. destruct (Z.ltb_spec y x); lia. Qed.
Lemma min_spec x y : min x y = Z.min x y.
Proof. unfold min. destruct (Z.ltb_spec x y); lia. Qed.

Lemma pickUInt16_pick x y : pickUInt16 x y = pick x y.
Proof. done. Qed.
Lemma minUInt16_min x y : minUInt16 x y = min x y.
Proof. done. Qed.

(** ** Frame sizes *)

Lemma frame_bytes_length id x bs :
  emits (frame_write (F_body (Mk_bodyFrame id x))) bs -> len bs = len x + frameHeaderSize.
Proof.
  intros He. cbn [frame_write] in He. unfold bodyFrame_write in He. cbn [bf_ChannelId bf_Body] in He.
  rewrite (emits_det _ _ _ He (emits_writeFrame _ _ _)).
  unfold len. rewrite !length_app. cbn [length]. rewrite !length_app, !length_be_encode.
  cbn [length]. unfold frameHeaderSize. lia.
Qed.

(** ** Properties *)

(** sending a message with content on an open channel writes the
    method, a header that announces the length of the body, and the body in
    order in non-empty pieces, none of whose frames is larger than the
    negotiated frame size; everything is flushed and nothing else changes. *)
Theorem sendOpen_splits_content a msg c ch props body :
  cn_objs c !! a = Some ch -> ch_closed ch = false -> cn_closed c = false -> cn_transport c = Working ->
  message_getContent msg = Some (props, body) -> frameHeaderSize < cn_FrameSize c ->
  Forall frame_ok (content_frames (ch_id ch) (cn_FrameSize c - frameHeaderSize) msg props body) ->
  exists bs pieces,
    sendOpen a msg c = Ok (None, with_writer [] (cn_wire c ++ cn_buf c ++ bs) c) /\
    emits (write_frames
      (F_method (Mk_methodFrame (ch_id ch) 0 0 (Some msg)) ::
       F_header (Mk_headerFrame (ch_id ch) (fst (message_id msg)) 0 (uintw 64 (len body)) props) ::
       ((fun x => F_body (Mk_bodyFrame (ch_id ch) x)) <$> pieces))) bs /\
    concat pieces = body /\
    Forall (fun x => x <> [] /\ forall b, emits (frame_write (F_body (Mk_bodyFrame (ch_id ch) x))) b ->
              len b <= cn_FrameSize c) pieces.
Proof.
  intros Ha Hch Hc Hb Hm Hfs Hok. unfold frameHeaderSize in Hfs.
  assert (piece_size (cn_FrameSize c) body = cn_FrameSize c - frameHeaderSize) as Es
    by (unfold piece_size; rewrite (proj2 (Z.ltb_lt _ _)) by lia; done).
  destruct (sendOpen_ok a msg c ch props body) as (bs & E & W); try done; [by right|by rewrite Es|].
  rewrite Es in W. unfold frameHeaderSize in *.
  exists bs, (chunks (length body) (Z.to_nat (cn_FrameSize c - (1 + 2 + 4 + 1))) body).
  split_and!; [done|done|apply chunks_concat; lia|].
  eapply Forall_impl; [|apply chunks_sizes; lia]. intros x [Hx1 Hx2]. split; [by intros ->; simpl in Hx1; lia|].
  intros b Hb'%frame_bytes_length. unfold len, frameHeaderSize in *. lia.
Qed.

(** A connection with one open channel, number 1. *)
Definition connected : Connection :=
  with_objs [newChannel 1] (with_registry {[1 := 0%nat]} None (with_tuning 10 4096 0 initial_connection)).

Definition sample_publish : message :=
  M_basicPublish (Mk_basicPublish 0 "ex" "key" true false
    (MkProperties "text/plain" "" [("n", VInt 7)] 2 0 "" "" "" "" (MkTime 1700000000 5) "" "" "" "")
    (bytes_of_string "hello")).

Definition sample_content : properties * list byte :=
  default (zeroProperties, []) (message_getContent sample_publish).

Lemma sample_content_ok :
  Forall frame_ok (content_frames 1 4088 sample_publish (fst sample_content) (snd sample_content)).
Proof.
  unfold content_frames.
  assert (chunks (length (snd sample_content)) (Z.to_nat 4088) (snd sample_content)
          = [bytes_of_string "hello"]) as -> by (by vm_compute).
  repeat first [constructor | by vm_compute | progress (cbn; unfold properties_ok; cbn) | split_and!].
Qed.

Lemma sendOpen_splits_content_witness :
  exists bs pieces,
    sendOpen 0 sample_publish connected
    = Ok (None, with_writer [] (cn_wire connected ++ cn_buf connected ++ bs) connected) /\
    emits (write_frames
      (F_method (Mk_methodFrame 1 0 0 (Some sample_publish)) ::
       F_header (Mk_headerFrame 1 60 0 (uintw 64 (len (snd sample_content))) (fst sample_content)) ::
       ((fun x => F_body (Mk_bodyFrame 1 x)) <$> pieces))) bs /\
    concat pieces = snd sample_content /\
    Forall (fun x => x <> [] /\ forall b, emits (frame_write (F_body (Mk_bodyFrame 1 x))) b ->
              len b <= cn_FrameSize connected) pieces.
Proof.
  apply (sendOpen_splits_content 0 sample_publish connected (newChannel 1));
    [done|done|done|done|done|done|apply sample_content_ok].
Defined.

(** C3: content survives the wire: the bytes one side writes for a message,
    read by the other side on an open channel of the same number (in
    whatever state of reassembly that channel is), are dispatched there as
    one message with the same arguments, properties and body (up to the
    normalisation of values), and nothing else is dispatched. *)
Theorem content_end_to_end a1 c1 ch1 msg props body a2 c2 ch2 e :
  cn_objs c1 !! a1 = Some ch1 -> ch_closed ch1 = false -> cn_closed c1 = false -> cn_transport c1 = Working ->
  message_getContent msg = Some (props, body) ->
  (cn_FrameSize c1 <= 0 \/ frameHeaderSize < cn_FrameSize c1) ->
  Forall frame_ok (content_frames (ch_id ch1) (piece_size (cn_FrameSize c1) body) msg props body) ->
  cn_channels c2 !! ch_id ch1 = Some a2 -> ch_id ch1 <> 0 -> cn_objs c2 !! a2 = Some ch2 ->
  len body <= maxAlloc -> e <> ErrUnexpectedEOF ->
  exists bs r cap header,
    sendOpen a1 msg c1 = Ok (None, with_writer [] (cn_wire c1 ++ cn_buf c1 ++ bs) c1) /\
    let msg' := message_setContent (message_norm msg) (properties_norm props) body in
    Connection_reader (Rdr bs e) c2
    = (dispatch a2 (Some msg') >> transition a2 RecvMethod >>
       Connection_shutdown (Some (reader_error e)))
        (set_chan a2 (with_assembly r (Some msg') (Some header) body cap ch2) c2).
Proof.
  intros Ha Hch Hc Hb Hm Hfs Hok Hr Hid Ha2 Hmax He.
  destruct (sendOpen_ok a1 msg c1 ch1 props body) as (bs & E & W); [done..|].
  pose proof (size_positive _ body Hfs) as Hs.
  destruct (demux_content_frames (ch_id ch1) a2 c2 ch2 (piece_size (cn_FrameSize c1) body) msg props body)
    as (r & cap & header & Hp & Ed); [done|done|done|by rewrite Hm|done|done|].
  exists bs, r, cap, header. split; [done|]. cbv zeta. unfold Connection_reader.
  rewrite (reader_run_frames _ bs _ e c2 Hok W He).
  - unfold mbind at 1. rewrite Ed. unfold completed. rewrite Hp.
    unfold mbind. destruct (dispatch a2 _ _) as [[[] c']| | |]; [|done..].
    by destruct (transition a2 RecvMethod c') as [[[] ?]| | |].
  - pose proof (emits_frames_length _ _ Hok W). cbn [rd_bytes]. lia.
Qed.

Lemma content_end_to_end_witness :
  exists bs r cap header,
    sendOpen 0 sample_publish connected
    = Ok (None, with_writer [] (cn_wire connected ++ cn_buf connected ++ bs) connected) /\
    let msg' := message_setContent (message_norm sample_publish)
                  (properties_norm (fst sample_content)) (snd sample_content) in
    Connection_reader (Rdr bs EOF) connected
    = (dispatch 0 (Some msg') >> transition 0 RecvMethod >>
       Connection_shutdown (Some (reader_error EOF)))
        (set_chan 0 (with_assembly r (Some msg') (Some header) (snd sample_content) cap (newChannel 1)) connected).
Proof.
  apply (content_end_to_end 0 connected (newChannel 1) sample_publish (fst sample_content) (snd sample_content)
           0 connected (newChannel 1) EOF);
    [done|done|done|done|done|by right|apply sample_content_ok|done|done|done|by vm_compute|done].
Defined.

(** with a negotiated frame size of 8 or less a body cannot be sent:
    at exactly 8 the loop sends empty frames for ever over a working transport, below 8 the slice
    expression panics. *)
Theorem tiny_frame_size id body c fuel :
  body <> [] -> cn_closed c = false -> cn_transport c = Working ->
  send_body fuel id (8 - frameHeaderSize) body 0 (8 - frameHeaderSize) c = NoFuel /\
  (forall FrameSize, 0 < FrameSize < 8 -> 
     send_body (S fuel) id (FrameSize - frameHeaderSize) body 0 (FrameSize - frameHeaderSize) c = Panicked).
Proof.
  intros Hb Hc Ht. pose proof (len_pos body Hb) as Hl. unfold frameHeaderSize. split.
  - change (8 - (1 + 2 + 4 + 1)) with 0. revert c Hc Ht. induction fuel as [|fuel IH]; intros c Hc Ht;
      cbn [send_body]; rewrite (proj2 (Z.ltb_lt 0 (len body))) by done; [done|].
    rewrite (proj2 (Z.ltb_ge (len body) 0)) by lia. cbv zeta. rewrite Z.ltb_irrefl.
    destruct (emits_body id (take (Z.to_nat (0 - 0)) (drop (Z.to_nat 0) body))) as (b1 & E1).
    rewrite (mbind_ok _ _ _ _ _ (sendUnflushed_ok _ _ _ Hc Ht E1)). by apply IH.
  - intros fs Hfs. cbn [send_body]. rewrite (proj2 (Z.ltb_lt 0 (len body))) by done.
    rewrite (proj2 (Z.ltb_ge (len body) _)) by lia.
    by rewrite (proj2 (Z.ltb_lt _ 0)) by lia.
Qed.

Lemma tiny_frame_size_witness :
  send_body 3 1 (8 - frameHeaderSize) [Zbyte 1] 0 (8 - frameHeaderSize) connected = NoFuel /\
  (forall FrameSize, 0 < FrameSize < 8 ->
     send_body 4 1 (FrameSize - frameHeaderSize) [Zbyte 1] 0 (FrameSize - frameHeaderSize) connected = Panicked).
Proof. apply (tiny_frame_size 1 [Zbyte 1] connected 3); done. Defined.

Lemma sends_on_closed a msg c ch :
  cn_objs c !! a = Some ch -> ch_closed ch = true ->
  Channel_send a msg c = Ok (Some (AmqpError ErrClosed), c) \/ msg = M_channelCloseOk Mk_channelCloseOk.
Proof.
  intros Ha Hc. unfold Channel_send, Channel_IsClosed, mbind, mret. rewrite (get_chan_ok _ _ _ Ha), Hc.
  destruct msg; try (by left). right. by destruct m.
Qed.

(** Once a channel is closed, nothing but a close-ok is sent on it: any
    other message is refused with [ErrClosed] and leaves the connection as it
    was. *)
Theorem closed_channel_sends_nothing a msg c ch :
  cn_objs c !! a = Some ch -> ch_closed ch = true -> (forall m, msg <> M_channelCloseOk m) ->
  Channel_send a msg c = Ok (Some (AmqpError ErrClosed), c).
Proof. intros Ha Hc Hm. destruct (sends_on_closed a msg c ch Ha Hc) as [E|E]; [done|by destruct (Hm _ E)]. Qed.

Definition closed_connected : Connection :=
  with_objs [with_closed true (newChannel 1)] connected.

Lemma closed_channel_sends_nothing_witness :
  Channel_send 0 sample_publish closed_connected = Ok (Some (AmqpError ErrClosed), closed_connected).
Proof.
  apply (closed_channel_sends_nothing 0 sample_publish closed_connected (with_closed true (newChannel 1))); done.
Defined.

(** a heartbeat frame on the number of an open channel, which the peer
    can send at any time, makes the reader panic. *)
Theorem heartbeat_on_channel_panics id a c ch :
  cn_channels c !! id = Some a -> id <> 0 -> cn_objs c !! a = Some ch ->
  demux (F_heartbeat (Mk_heartbeatFrame id)) c = Panicked.
Proof.
  intros Hr Hid Ha. unfold demux. cbn [frame_channel hbf_ChannelId].
  rewrite (proj2 (Z.eqb_neq id 0)) by done. unfold dispatchN, mbind, gets. rewrite Hr.
  cbn [updateChannel mret]. unfold Channel_recv, mbind, mret. rewrite (get_chan_ok _ _ _ Ha).
  by destruct (ch_recv ch).
Qed.

Lemma heartbeat_on_channel_panics_witness :
  demux (F_heartbeat (Mk_heartbeatFrame 1)) connected = Panicked.
Proof. apply (heartbeat_on_channel_panics 1 0 connected (newChannel 1)); done. Defined.

(** A limit on the number of channels, as the documentation of [Config] reads
    it: 0 means 2^16 - 1. *)
Definition documented_limit (x : Z) : Z := if x =? 0 then 65535 else x.

Lemma tune_cases client server :
  is_uint 16 client -> is_uint 16 server ->
  tune_ChannelMax client server =
    if (client =? 0) && (server =? 0) then 2047 else Z.min (documented_limit client) (documented_limit server).
Proof.
  unfold is_uint, tune_ChannelMax, documented_limit. rewrite pickUInt16_pick, minUInt16_min. unfold pick.
  intros H1 H2. cbv zeta. rewrite !min_spec, max_spec.
  change defaultChannelMax with 2047. change maxChannelMax with 65535. change (2 ^ 16) with 65536 in *.
  destruct (Z.eqb_spec client 0), (Z.eqb_spec server 0); cbn [orb andb];
    match goal with |- context [?x =? 0] => destruct (Z.eqb_spec x 0) end; lia.
Qed.

(** C37: When at least one side of the handshake limits the number of
    channels, the agreed number is the smaller of the two limits, where 0
    stands for 2^16 - 1 as documented; it is between 1 and 65535 and exceeds
    neither limit that is set. *)
Theorem channel_max_negotiated client server :
  is_uint 16 client -> is_uint 16 server -> client <> 0 \/ server <> 0 ->
  let m := tune_ChannelMax client server in
  m = Z.min (documented_limit client) (documented_limit server) /\
  1 <= m <= 65535 /\ (client <> 0 -> m <= client) /\ (server <> 0 -> m <= server).
Proof.
  intros H1 H2 Hne m. unfold m. rewrite (tune_cases client server H1 H2).
  unfold is_uint, documented_limit in *. change (2 ^ 16) with 65536 in *.
  destruct (Z.eqb_spec client 0), (Z.eqb_spec server 0); cbn [andb]; lia.
Qed.

(** Without any limit the documented number, 2^16 - 1, is not used. *)
Theorem channel_max_unlimited : tune_ChannelMax 0 0 = 2047 /\ documented_limit 0 = 65535.
Proof. by vm_compute. Qed.

Lemma channel_max_negotiated_witness :
  let m := tune_ChannelMax 0 2047 in
  m = Z.min (documented_limit 0) (documented_limit 2047) /\ 1 <= m <= 65535 /\ (0 <> 0 -> m <= 0) /\ (2047 <> 0 -> m <= 2047).
Proof. apply (channel_max_negotiated 0 2047); [by vm_compute|by vm_compute|by right]. Defined.
