(* ===== verification/Registry.v ===== *)
(** * Registry: the channels of a connection

    Every call of the library, the reader and the goroutines it starts keep
    the registry of channels and the pool of channel numbers in step. *)

From S2P Require Import Prelude Types Io SpecConnection SpecChannel SpecBasic Spec091 Frame.
From S2P Require Import Allocator Confirms Delivery Consumers Auth State Channel ChannelFacts.
From S2P Require Import ChannelApi Connection ConnectionFacts.

(** ** The invariant *)

(** The registered numbers are exactly the reserved ones, and each is the
    number of its channel. *)
Record registry_wf (c : Connection) : Prop := {
  rw_none : cn_allocator c = None -> cn_channels c = ∅;
  rw_some : forall al, cn_allocator c = Some al ->
    pool_wf al /\ pool_low al = 1 /\ pool_high al <= 65535 /\ pool_ids al = dom (cn_channels c);
  rw_objs : forall id a, cn_channels c !! id = Some a ->
    exists ch, cn_objs c !! a = Some ch /\ ch_id ch = id
}.

(** What only ever changes one way: channels keep their numbers, and what is
    closed or shut down stays so. *)
Definition channel_evolves (ch ch' : Channel) : Prop :=
  ch_id ch' = ch_id ch /\ (ch_closed ch = true -> ch_closed ch' = true) /\
  (ch_shut ch = true -> ch_shut ch' = true).

Definition evolves (c c' : Connection) : Prop :=
  (cn_closed c = true -> cn_closed c' = true) /\ (cn_shut c = true -> cn_shut c' = true) /\
  forall a ch, cn_objs c !! a = Some ch -> exists ch', cn_objs c' !! a = Some ch' /\ channel_evolves ch ch'.

(** A call that leaves the registry alone. *)
Definition same_registry (c c' : Connection) : Prop :=
  cn_channels c' = cn_channels c /\ cn_allocator c' = cn_allocator c /\ evolves c c'.

Definition keeps {A} (m : M A) : Prop :=
  forall c x c', m c = Ok (x, c') -> same_registry c c'.

Definition maintains {A} (m : M A) : Prop :=
  forall c x c', m c = Ok (x, c') -> (registry_wf c -> registry_wf c') /\ evolves c c'.

Create HintDb registry discriminated.

Lemma channel_evolves_refl ch : channel_evolves ch ch.
Proof. done. Qed.

Lemma evolves_refl c : evolves c c.
Proof. split_and!; [done|done|]. eauto using channel_evolves_refl. Qed.

Lemma evolves_trans c1 c2 c3 : evolves c1 c2 -> evolves c2 c3 -> evolves c1 c3.
Proof.
  intros (C1 & S1 & O1) (C2 & S2 & O2). split_and!; [auto|auto|].
  intros a ch Ha. destruct (O1 a ch Ha) as (ch1 & H1 & E1 & F1 & G1).
  destruct (O2 a ch1 H1) as (ch2 & H2 & E2 & F2 & G2).
  exists ch2. split; [done|]. split_and!; [congruence|auto|auto].
Qed.

(** The same objects, and closed only becomes true. *)
Lemma evolves_same c c' :
  (cn_closed c = true -> cn_closed c' = true) -> (cn_shut c = true -> cn_shut c' = true) ->
  cn_objs c' = cn_objs c -> evolves c c'.
Proof. intros H1 H2 E. split_and!; [done|done|]. rewrite E. eauto using channel_evolves_refl. Qed.

Lemma same_registry_refl c : same_registry c c.
Proof. split_and!; [done|done|apply evolves_refl]. Qed.

Lemma same_registry_trans c1 c2 c3 : same_registry c1 c2 -> same_registry c2 c3 -> same_registry c1 c3.
Proof.
  intros (C1 & A1 & O1) (C2 & A2 & O2). split_and!; [congruence|congruence|by eapply evolves_trans].
Qed.

Lemma same_registry_wf c c' : same_registry c c' -> registry_wf c -> registry_wf c'.
Proof.
  intros (C & A & _ & _ & O) [H1 H2 H3]. split.
  - rewrite A, C. exact H1.
  - rewrite A, C. exact H2.
  - intros id a Ha. rewrite C in Ha. destruct (H3 id a Ha) as (ch & Hch & <-).
    destruct (O a ch Hch) as (ch' & Hch' & Hid & _). eauto.
Qed.

Lemma keeps_maintains {A} (m : M A) : keeps m -> maintains m.
Proof.
  intros H c x c' E. specialize (H c x c' E). split; [by apply same_registry_wf|]. apply H.
Qed.

(** ** Composition *)

Lemma mbind_inv {A B} (m : M A) (k : A -> M B) c b c' :
  mbind m k c = Ok (b, c') -> exists a c1, m c = Ok (a, c1) /\ k a c1 = Ok (b, c').
Proof. unfold mbind. destruct (m c) as [[a c1]| | |]; intros; simplify_eq; eauto. Qed.

Lemma keeps_bind {A B} (m : M A) (k : A -> M B) : keeps m -> (forall a, keeps (k a)) -> keeps (mbind m k).
Proof.
  intros Hm Hk c b c' (a & c1 & E1 & E2)%mbind_inv.
  eapply same_registry_trans; [by eapply Hm|by eapply Hk].
Qed.

Lemma maintains_bind {A B} (m : M A) (k : A -> M B) :
  maintains m -> (forall a, maintains (k a)) -> maintains (mbind m k).
Proof.
  intros Hm Hk c b c' (a & c1 & E1 & E2)%mbind_inv.
  destruct (Hm _ _ _ E1) as [W1 V1], (Hk _ _ _ _ E2) as [W2 V2]. split; [auto|by eapply evolves_trans].
Qed.

Lemma keeps_mret {A} (x : A) : keeps (mret x).
Proof. intros c y c' [= <- <-]. apply same_registry_refl. Qed.
Lemma keeps_gets {A} (f : Connection -> A) : keeps (gets f).
Proof. intros c y c' [= <- <-]. apply same_registry_refl. Qed.
Lemma keeps_stuck {A} (o : outcome (A * Connection)) : (forall x, o <> Ok x) -> keeps (fun _ => o).
Proof. intros H c x c' E. by destruct (H (x, c')). Qed.
Lemma keeps_mpanic {A} : keeps (@mpanic A).
Proof. by apply keeps_stuck. Qed.
Lemma keeps_nofuel {A} : keeps (A := A) (fun _ => NoFuel).
Proof. by apply keeps_stuck. Qed.
Lemma keeps_mlift {A} (o : outcome A) : keeps (mlift o).
Proof. intros c x c' E. unfold mlift in E. destruct o; simpl in E; simplify_eq. apply same_registry_refl. Qed.
Lemma keeps_get_chan a : keeps (get_chan a).
Proof. intros c x c' E. unfold get_chan in E. destruct (cn_objs c !! a); simplify_eq. apply same_registry_refl. Qed.

Lemma keeps_upd_chan a f : (forall ch, channel_evolves ch (f ch)) -> keeps (upd_chan a f).
Proof.
  intros Hf c x c' (ch & c1 & E1 & E2)%mbind_inv. unfold get_chan in E1.
  destruct (cn_objs c !! a) as [ch'|] eqn:Ha; [|done]. simplify_eq. unfold modify in E2. simplify_eq.
  split_and!; [done|done|]. split_and!; [done|done|].
  intros b chb Hb. simpl. destruct (decide (a = b)) as [<-|Hab].
  - rewrite list_lookup_insert_eq by (by eapply lookup_lt_Some). eexists. split; [done|].
    replace chb with ch by congruence. apply Hf.
  - rewrite list_lookup_insert_ne by done. eauto using channel_evolves_refl.
Qed.

Lemma keeps_modify f :
  (forall c, cn_channels (f c) = cn_channels c /\ cn_allocator (f c) = cn_allocator c /\ cn_objs (f c) = cn_objs c /\
     (cn_closed c = true -> cn_closed (f c) = true) /\ (cn_shut c = true -> cn_shut (f c) = true)) ->
  keeps (modify f).
Proof.
  intros Hf c x c' [= <- <-]. destruct (Hf c) as (E1 & E2 & E3 & E4 & E5).
  split_and!; [done|done|]. by apply evolves_same.
Qed.

Lemma keeps_mfor {A} (f : A -> M unit) xs : (forall x, keeps (f x)) -> keeps (mfor f xs).
Proof. intros Hf. induction xs; [apply keeps_mret|]. by apply keeps_bind. Qed.

Lemma keeps_writer_write f : keeps (writer_WriteFrameNoFlush f).
Proof.
  intros c x c' E. unfold writer_WriteFrameNoFlush in E. destruct (WriteFrameNoFlush f (cn_buf c)) as [err buf].
  destruct err, (cn_transport c); simplify_eq; split_and!; (done || by apply evolves_same).
Qed.
Lemma keeps_writer_Flush : keeps writer_Flush.
Proof.
  intros c x c' E. unfold writer_Flush in E.
  destruct (cn_transport c), (cn_buf c); simplify_eq; split_and!; (done || by apply evolves_same).
Qed.

#[export] Hint Resolve keeps_mret keeps_gets keeps_mpanic keeps_nofuel keeps_mlift keeps_get_chan
  keeps_writer_write keeps_writer_Flush : registry.

(** Walks through a call. *)
Ltac keeping :=
  repeat (cbv zeta; first
    [ solve [auto with registry nocore]
    | apply keeps_upd_chan; done
    | apply keeps_modify; done
    | apply keeps_bind; [|intros ?]
    | apply keeps_mfor; intros ?
    | match goal with |- keeps (match ?x with _ => _ end) => destruct x end
    | match goal with |- keeps ?m => let h := get_head m in unfold h end ]).

(** ** Calls that keep the registry *)

Lemma keeps_Connection_send f : keeps (Connection_send f).
Proof. keeping. Qed.
Lemma keeps_sendUnflushed f : keeps (Connection_sendUnflushed f).
Proof. keeping. Qed.
#[export] Hint Resolve keeps_Connection_send keeps_sendUnflushed : registry.

Lemma keeps_send_body fuel id size body i j : keeps (send_body fuel id size body i j).
Proof.
  revert i j. induction fuel as [|fuel IH]; intros i j; cbn [send_body];
    (destruct (i <? len body); [|apply keeps_mret]); [apply keeps_nofuel|]. cbv zeta.
  destruct (_ <? i); [apply keeps_mpanic|]. apply keeps_bind; [auto with registry|].
  intros [e|]; [apply keeps_mret|apply IH].
Qed.
#[export] Hint Resolve keeps_send_body : registry.

Lemma keeps_Channel_send a msg : keeps (Channel_send a msg).
Proof. keeping. Qed.
Lemma keeps_Channel_shutdown a e : keeps (Channel_shutdown a e).
Proof. keeping. Qed.
#[export] Hint Resolve keeps_Channel_send keeps_Channel_shutdown : registry.

Lemma keeps_Channel_call a req res r : keeps (Channel_call a req res r).
Proof. keeping. Qed.
#[export] Hint Resolve keeps_Channel_call : registry.

Lemma keeps_Connection_call req res r : keeps (Connection_call req res r).
Proof. keeping. Qed.
#[export] Hint Resolve keeps_Connection_call : registry.

(** ** Calls that change the registry *)

Lemma maintains_release a : maintains (releaseChannel a).
Proof.
  intros c x c' E. unfold releaseChannel in E.
  apply mbind_inv in E as (closed & c1 & [= <- <-] & E).
  destruct (cn_closed c); [unfold mret in E; simplify_eq; by split; [|apply evolves_refl]|].
  apply mbind_inv in E as (ch & c1 & E1 & E). unfold get_chan in E1.
  destruct (cn_objs c !! a) as [ch'|] eqn:Ha; simplify_eq.
  apply mbind_inv in E as (chs & c2 & [= <- <-] & E).
  case_bool_decide as Hr; [|unfold mret in E; simplify_eq; by split; [|apply evolves_refl]].
  apply mbind_inv in E as (al & c2 & [= <- <-] & E).
  apply mbind_inv in E as (al' & c2 & E1 & E). unfold mlift, allocator_release in E1.
  destruct (cn_allocator c1) as [al|] eqn:Eal; [|done].
  assert (evolves c1 c') as Hev.
  { destruct (release al (ch_id ch)); simpl in E1; simplify_eq. unfold modify in E. simplify_eq.
    by apply evolves_same. }
  split; [|done]. clear Hev. intros Hwf. destruct (Hwf) as [H1 H2 H3]. destruct (H2 al Eal) as (W & L & Hh & D).
  assert (ch_id ch ∈ pool_ids al) as Hin by (rewrite D; by eapply elem_of_dom_2).
  destruct (pool_release_ok al (ch_id ch) W) as (al1 & Er & W1 & L1 & Hh1 & D1).
  { rewrite L. apply elem_of_ids in Hin. change (low al) with (pool_low al) in Hin. lia. }
  change (pool_release al (ch_id ch)) with (release al (ch_id ch)) in Er. rewrite Er in E1.
  simplify_eq/=. unfold modify in E. simplify_eq. split; simpl.
  - done.
  - intros al2 [= <-]. split_and!; [done|congruence|congruence|]. rewrite D1, D. set_solver.
  - intros id b Hb. apply lookup_delete_Some in Hb as [_ Hb]. eauto.
Qed.

Lemma maintains_clear : maintains (modify (with_registry ∅ None)).
Proof.
  intros c x c' [= <- <-]. split; [|by apply evolves_same]. intros Hwf.
  split; simpl; [done|done|]. intros id a Ha. by rewrite lookup_empty in Ha.
Qed.

#[export] Hint Resolve maintains_release maintains_clear : registry.

(** Walks through a call that may change the registry. *)
Ltac maintaining :=
  repeat (cbv zeta; first
    [ solve [auto with registry nocore]
    | match goal with |- maintains (mbind _ _) => apply maintains_bind; [|intros ?] end
    | solve [apply keeps_maintains;
             first [ solve [auto with registry nocore] | apply keeps_upd_chan; done | apply keeps_modify; done
                   | match goal with |- keeps (mfor _ _) => apply keeps_mfor; intros ?; keeping end ]]
    | match goal with |- maintains (match ?x with _ => _ end) => destruct x end
    | match goal with |- maintains ?m => let h := get_head m in unfold h end ]).

Lemma maintains_closeChannel a e : maintains (closeChannel a e).
Proof. maintaining. Qed.
Lemma maintains_Connection_shutdown e : maintains (Connection_shutdown e).
Proof.
  apply maintains_bind; [apply keeps_maintains; keeping|]. intros _.
  apply maintains_bind; [apply keeps_maintains; keeping|]. intros [];
    [apply keeps_maintains; keeping|]. unfold Connection_destructor. maintaining.
Qed.
#[export] Hint Resolve maintains_closeChannel maintains_Connection_shutdown : registry.

Lemma maintains_dispatch a msg : maintains (dispatch a msg).
Proof. maintaining. Qed.
#[export] Hint Resolve maintains_dispatch : registry.

Lemma maintains_recvMethod a f : maintains (recvMethod a f).
Proof. maintaining. Qed.
#[export] Hint Resolve maintains_recvMethod : registry.

Lemma maintains_Channel_recv a f : maintains (Channel_recv a f).
Proof. maintaining. Qed.
#[export] Hint Resolve maintains_Channel_recv : registry.

Lemma maintains_demux f : maintains (demux f).
Proof. maintaining. Qed.
#[export] Hint Resolve maintains_demux : registry.

(** *** Allocation *)

(** A successful allocation registers a new channel under a number that was
    free; a failed one means that there is none. *)
Definition allocated (c : Connection) (al : allocator) (r : option goerror * option nat) (c' : Connection) : Prop :=
  match r with
  | (None, Some a) =>
      exists id, a = length (cn_objs c) /\ 1 <= id <= pool_high al /\ cn_channels c !! id = None /\
        cn_objs c' = cn_objs c ++ [newChannel id] /\ cn_channels c' = <[id := a]> (cn_channels c)
  | (Some e, None) =>
      e = AmqpError ErrChannelMax /\ cn_objs c' = cn_objs c /\ cn_channels c' = cn_channels c /\
      forall id, 1 <= id <= pool_high al -> is_Some (cn_channels c !! id)
  | _ => False
  end.

Lemma allocateChannel_spec c al :
  registry_wf c -> cn_closed c = false -> cn_allocator c = Some al ->
  exists r c', allocateChannel c = Ok (r, c') /\ registry_wf c' /\ allocated c al r c'.
Proof.
  intros Hwf Hc Hal. unfold allocateChannel, mbind, gets, mlift, modify, mret. rewrite Hc, Hal.
  destruct (Hwf) as [H1 H2 H3]. destruct (H2 al Hal) as (W & L & Hh & D).
  destruct (pool_next_ok al W) as (r & al' & En & W' & L' & Hh' & Hr).
  change (pool_next al) with (next al) in En. rewrite En. cbn [obind fst snd].
  destruct r as [id|].
  - destruct Hr as (Hid & Hfree & D').
    assert (uintw 16 id = id) as -> by (apply uintw_small; unfold is_uint; lia).
    assert (cn_channels c !! id = None) as Hnone by (apply not_elem_of_dom; by rewrite <- D).
    eexists _, _. split; [done|]. split; [|exists id; split_and!; done || lia].
    split; simpl.
    + done.
    + intros al1 [= <-]. split_and!; [exact W'|exact (eq_trans L' L)|change (pool_high al' <= 65535); lia|].
      change (pool_ids al' = dom (<[id := length (cn_objs c)]> (cn_channels c))).
      by rewrite dom_insert_L, D', D.
    + intros id' a [[<- <-]|[Hne Ha]]%lookup_insert_Some.
      * exists (newChannel id). by rewrite list_lookup_middle.
      * destruct (H3 id' a Ha) as (ch & Hch & Hi). exists ch. split; [by apply lookup_app_l_Some|done].
  - destruct Hr as [D' Hall]. eexists _, _. split; [done|]. split.
    + split; simpl; [done| |exact H3]. intros al1 [= <-].
      split_and!; [exact W'|exact (eq_trans L' L)|change (pool_high al' <= 65535); lia|exact (eq_trans D' D)].
    + split_and!; [done|done|done|]. intros id Hid. apply elem_of_dom. rewrite <- D. apply Hall. lia.
Qed.

Lemma allocate_evolves c x c' : allocateChannel c = Ok (x, c') -> evolves c c'.
Proof.
  unfold allocateChannel, mbind, gets, mlift, modify, mret. intros E.
  destruct (cn_closed c); [simplify_eq; apply evolves_refl|].
  destruct (cn_allocator c) as [al|]; [|done].
  destruct (next al) as [[[id|] al']| | |]; simplify_eq/=; [|by apply evolves_same].
  split_and!; [done|done|]. intros a ch Ha. exists ch. split; [by apply lookup_app_l_Some|done].
Qed.

Lemma maintains_allocate : maintains allocateChannel.
Proof.
  intros c x c' E. split; [|by eapply allocate_evolves]. intros Hwf. destruct (cn_closed c) eqn:Hc.
  - unfold allocateChannel, mbind, gets, mret in E. rewrite Hc in E. by simplify_eq.
  - destruct (cn_allocator c) as [al|] eqn:Hal.
    + destruct (allocateChannel_spec c al Hwf Hc Hal) as (r & c1 & E1 & W1 & _). congruence.
    + unfold allocateChannel, mbind, gets in E. by rewrite Hc, Hal in E.
Qed.
#[export] Hint Resolve maintains_allocate : registry.

(** ** Executions *)

(** The methods of a channel, with the case of the [select] that answers
    those that wait. *)
Inductive chan_call :=
  | Do_Close (r : reply)
  | Do_NotifyClose (l : nat)
  | Do_NotifyFlow (l : nat)
  | Do_NotifyReturn (l : nat)
  | Do_NotifyCancel (l : nat)
  | Do_NotifyPublish (l : nat)
  | Do_Qos (count size : Z) (global : bool) (r : reply)
  | Do_Cancel (consumer : string) (noWait : bool) (r : reply)
  | Do_Consume (queue consumer : string) (autoAck exclusive noLocal noWait : bool) (args : Table)
      (fresh : string) (r : reply)
  | Do_ConsumeWithContext (ctxErr : option goerror) (queue consumer : string)
      (autoAck exclusive noLocal noWait : bool) (args : Table) (fresh : string) (r : reply)
  | Do_Get (queue : string) (autoAck : bool) (r : reply)
  | Do_QueueDeclare (passive : bool) (name : string) (durable autoDelete exclusive noWait : bool)
      (args : Table) (r : reply)
  | Do_QueueInspect (name : string) (r : reply)
  | Do_QueueBind (name key exchange : string) (noWait : bool) (args : Table) (r : reply)
  | Do_QueueUnbind (name key exchange : string) (args : Table) (r : reply)
  | Do_QueuePurge (name : string) (noWait : bool) (r : reply)
  | Do_QueueDelete (name : string) (ifUnused ifEmpty noWait : bool) (r : reply)
  | Do_ExchangeDeclare (passive : bool) (name kind : string)
      (durable autoDelete internal noWait : bool) (args : Table) (r : reply)
  | Do_ExchangeDelete (name : string) (ifUnused noWait : bool) (r : reply)
  | Do_ExchangeBind (destination key source : string) (noWait : bool) (args : Table) (r : reply)
  | Do_ExchangeUnbind (destination key source : string) (noWait : bool) (args : Table) (r : reply)
  | Do_Publish (exchange key : string) (mandatory immediate : bool) (msg : Publishing)
  | Do_Tx (r : reply)
  | Do_TxCommit (r : reply)
  | Do_TxRollback (r : reply)
  | Do_Flow (active : bool) (r : reply)
  | Do_Confirm (noWait : bool) (r : reply)
  | Do_Recover (requeue : bool) (r : reply)
  | Do_Ack (tag : Z) (multiple : bool)
  | Do_Nack (tag : Z) (multiple requeue : bool)
  | Do_Reject (tag : Z) (requeue : bool).

(** Everything that runs on a connection: the methods of its channels and its
    own, the reader, and the goroutines the code starts. *)
Inductive call :=
  | OnChannel (a : nat) (k : chan_call)
  | Do_Channel (r : reply)
  | Do_ConnectionClose (r : reply)
  | Do_CloseDeadline (derr : option goerror) (r : reply)
  | Do_UpdateSecret (newSecret reason : string) (r : reply)
  | Do_ConnectionNotifyClose (l : nat)
  | Do_NotifyBlocked (l : nat)
  | Run_demux (f : frame)
  | Run_shutdown (e : option Error)
  | Run_closeWith (e : Error) (r : reply).

Definition ignore {A} (m : M A) : M unit := m >> mret tt.

Definition perform_on (a : nat) (k : chan_call) : M unit :=
  match k with
  | Do_Close r => ignore (Channel_Close a r)
  | Do_NotifyClose l => Channel_NotifyClose a l
  | Do_NotifyFlow l => NotifyFlow a l
  | Do_NotifyReturn l => NotifyReturn a l
  | Do_NotifyCancel l => NotifyCancel a l
  | Do_NotifyPublish l => NotifyPublish a l
  | Do_Qos c s g r => ignore (Qos a c s g r)
  | Do_Cancel t w r => ignore (Channel_Cancel a t w r)
  | Do_Consume q t aa e nl nw args fresh r => ignore (Consume a q t aa e nl nw args fresh r)
  | Do_ConsumeWithContext ctx q t aa e nl nw args fresh r =>
      ignore (ConsumeWithContext a ctx q t aa e nl nw args fresh r)
  | Do_Get q aa r => ignore (Get a q aa r)
  | Do_QueueDeclare p n d ad e nw args r => ignore (queue_declare p a n d ad e nw args r)
  | Do_QueueInspect n r => ignore (QueueInspect a n r)
  | Do_QueueBind n k e nw args r => ignore (QueueBind a n k e nw args r)
  | Do_QueueUnbind n k e args r => ignore (QueueUnbind a n k e args r)
  | Do_QueuePurge n nw r => ignore (QueuePurge a n nw r)
  | Do_QueueDelete n iu ie nw r => ignore (QueueDelete a n iu ie nw r)
  | Do_ExchangeDeclare p n k d ad i nw args r => ignore (exchange_declare p a n k d ad i nw args r)
  | Do_ExchangeDelete n iu nw r => ignore (ExchangeDelete a n iu nw r)
  | Do_ExchangeBind d k s nw args r => ignore (ExchangeBind a d k s nw args r)
  | Do_ExchangeUnbind d k s nw args r => ignore (ExchangeUnbind a d k s nw args r)
  | Do_Publish e k m i msg => ignore (PublishWithDeferredConfirm a e k m i msg)
  | Do_Tx r => ignore (Tx a r)
  | Do_TxCommit r => ignore (TxCommit a r)
  | Do_TxRollback r => ignore (TxRollback a r)
  | Do_Flow b r => ignore (Flow a b r)
  | Do_Confirm nw r => ignore (Confirm a nw r)
  | Do_Recover q r => ignore (Recover a q r)
  | Do_Ack t m => ignore (Channel_Ack a t m)
  | Do_Nack t m q => ignore (Channel_Nack a t m q)
  | Do_Reject t q => ignore (Channel_Reject a t q)
  end.

Definition perform (k : call) : M unit :=
  match k with
  | OnChannel a k => perform_on a k
  | Do_Channel r => ignore (Connection_Channel r)
  | Do_ConnectionClose r => ignore (Connection_Close r)
  | Do_CloseDeadline derr r => ignore (CloseDeadline derr r)
  | Do_UpdateSecret s t r => ignore (UpdateSecret s t r)
  | Do_ConnectionNotifyClose l => Connection_NotifyClose l
  | Do_NotifyBlocked l => NotifyBlocked l
  | Run_demux f => demux f
  | Run_shutdown e => Connection_shutdown e
  | Run_closeWith e r => ignore (closeWith e r)
  end.

(** A step of a consumer's goroutine. *)
Definition set_buffer (i : nat) (b : buffer) (k : consumers) : consumers :=
  MkConsumers (c_closed k) (c_chans k) (<[i := b]> (c_bufs k)).

Inductive conn_step : Connection -> Connection -> Prop :=
  | step_call k c c' : perform k c = Ok (tt, c') -> conn_step c c'
  | step_open config login_first hb r1 r2 r3 x c c' :
      cn_allocator c = None -> 0 <= cfg_ChannelMax config < 2 ^ 16 ->
      (forall tune, r2 = FromRpc (Some (M_connectionTune tune)) ->
         0 <= connectionTune_ChannelMax tune < 2 ^ 16) ->
      Connection_open config login_first hb r1 r2 r3 c = Ok (x, c') -> conn_step c c'
  | step_consumer a i b b' ch c :
      cn_objs c !! a = Some ch -> c_bufs (ch_consumers ch) !! i = Some b ->
      buffer_step (c_closed (ch_consumers ch)) b b' ->
      conn_step c (set_chan a (with_consumers (set_buffer i b' (ch_consumers ch)) ch) c)
  | step_broken e c : cn_transport c = Working -> conn_step c (with_transport (Broken e) c).

Lemma maintains_perform k : maintains (perform k).
Proof. destruct k as [a k| | | | | | | | |]; [destruct k|..]; maintaining. Qed.

(** The handshake on a connection without channels. *)
Lemma tune_ChannelMax_range client server :
  0 <= client < 2 ^ 16 -> 0 <= server < 2 ^ 16 -> 1 <= tune_ChannelMax client server <= 65535.
Proof.
  unfold tune_ChannelMax. rewrite pickUInt16_pick, minUInt16_min. unfold pick. intros H1 H2. cbv zeta. rewrite !min_spec, max_spec.
  change defaultChannelMax with 2047. change maxChannelMax with 65535. change (2 ^ 16) with 65536 in *.
  destruct (Z.eqb_spec client 0), (Z.eqb_spec server 0); cbn [orb];
    match goal with |- context [?x =? 0] => destruct (Z.eqb_spec x 0) end; lia.
Qed.

Lemma new_allocator_registry m c :
  registry_wf c -> cn_channels c = ∅ -> 1 <= m <= 65535 ->
  registry_wf (with_registry (cn_channels c) (Some (newAllocator 1 m)) c).
Proof.
  intros [H1 H2 H3] Hc Hm. split; simpl; [done| |done]. intros al [= <-].
  destruct (pool_new_ok 1 m ltac:(lia)) as (W & D & L & Hh).
  split_and!; [exact W|done|simpl; lia|]. rewrite Hc, dom_empty_L. exact D.
Qed.

(** A call of the connection gives back what it was answered with. *)
Lemma Connection_call_reply req res r c e m c' :
  Connection_call req res r c = Ok ((e, Some m), c') -> r = FromRpc (Some m).
Proof.
  intros (err & c1 & _ & E)%mbind_inv. destruct err; [unfold mret in E; by simplify_eq|].
  destruct r as [[e'|]|[m'|]]; try (unfold mret, modify, mbind in E; by simplify_eq).
  destruct (existsb _ _); unfold mret in E; by simplify_eq.
Qed.

Lemma maintains_openVhost config r : maintains (openVhost config r).
Proof. maintaining. Qed.

(** A state with the same objects and flags. *)
Lemma chain_same c1 c2 c2' :
  registry_wf c2' /\ evolves c1 c2 -> cn_objs c2' = cn_objs c2 -> cn_closed c2' = cn_closed c2 ->
  cn_shut c2' = cn_shut c2 -> registry_wf c2' /\ evolves c1 c2'.
Proof.
  intros [W V] H1 H2 H3. split; [done|]. eapply evolves_trans; [exact V|].
  apply evolves_same; congruence.
Qed.

Lemma maintains_chain {A} (m : M A) c1 c2 x c' :
  maintains m -> registry_wf c2 /\ evolves c1 c2 -> m c2 = Ok (x, c') -> registry_wf c' /\ evolves c1 c'.
Proof. intros Hm [W V] E. destruct (Hm _ _ _ E) as [W' V']. split; [auto|by eapply evolves_trans]. Qed.

Lemma openTune_maintains config auth lf hb r2 r3 c0 c x c' :
  registry_wf c /\ evolves c0 c -> cn_channels c = ∅ -> 0 <= cfg_ChannelMax config < 2 ^ 16 ->
  (forall tune, r2 = FromRpc (Some (M_connectionTune tune)) -> 0 <= connectionTune_ChannelMax tune < 2 ^ 16) ->
  openTune config auth lf hb r2 r3 c = Ok (x, c') -> registry_wf c' /\ evolves c0 c'.
Proof.
  intros Hwf Hc Hm Ht E. unfold openTune in E. apply mbind_inv in E as (y & c1 & E1 & E).
  destruct (keeps_Connection_call _ _ _ _ _ _ E1) as (K1 & _).
  pose proof (maintains_chain _ _ _ _ _ (keeps_maintains _ (keeps_Connection_call _ _ _)) Hwf E1) as W1.
  destruct y as [[e|] m]; [unfold mret in E; by simplify_eq|].
  destruct m as [m|]; [|unfold mret in E; by simplify_eq].
  destruct m; try (unfold mret in E; by simplify_eq).
  pose proof (Connection_call_reply _ _ _ _ _ _ _ E1) as Hr. specialize (Ht m Hr).
  cbv zeta in E. apply mbind_inv in E as ([] & c2 & E2 & E). unfold modify in E2. simplify_eq.
  match type of E with ?k ?s = _ =>
    assert (registry_wf s /\ evolves c0 s) as W2 by
      (apply (chain_same c0 c1); [|done|done|done]; split; [|apply W1];
       apply new_allocator_registry; [apply W1|congruence|by apply tune_ChannelMax_range]);
    assert (maintains k) as Hk by (clear; maintaining; apply maintains_openVhost);
    exact (maintains_chain _ _ _ _ _ Hk W2 E)
  end.
Qed.

Lemma same_but_info c0 c info :
  registry_wf c /\ evolves c0 c -> registry_wf (with_info info c) /\ evolves c0 (with_info info c).
Proof.
  intros [W V]. assert (same_registry c (with_info info c)) as S
    by (split_and!; [done|done|by apply evolves_same]).
  split; [by eapply same_registry_wf|]. eapply evolves_trans; [exact V|apply S].
Qed.

Lemma open_maintains config lf hb r1 r2 r3 c x c' :
  registry_wf c -> cn_allocator c = None -> 0 <= cfg_ChannelMax config < 2 ^ 16 ->
  (forall tune, r2 = FromRpc (Some (M_connectionTune tune)) -> 0 <= connectionTune_ChannelMax tune < 2 ^ 16) ->
  Connection_open config lf hb r1 r2 r3 c = Ok (x, c') -> registry_wf c' /\ evolves c c'.
Proof.
  intros Hwf Ha Hm Ht E. pose proof (rw_none c Hwf Ha) as Hc. unfold Connection_open in E.
  apply mbind_inv in E as (err & c1 & E1 & E).
  pose proof (keeps_Connection_send _ _ _ _ E1) as K1.
  pose proof (maintains_chain _ c c _ _ (keeps_maintains _ (keeps_Connection_send _))
    (conj Hwf (evolves_refl c)) E1) as W1.
  destruct err; [unfold mret in E; by simplify_eq|].
  unfold openStart in E. apply mbind_inv in E as (y & c2 & E2 & E).
  destruct (same_registry_trans _ _ _ K1 (keeps_Connection_call _ _ _ _ _ _ E2)) as (K2 & _).
  pose proof (maintains_chain _ _ _ _ _ (keeps_maintains _ (keeps_Connection_call _ _ _)) W1 E2) as W2.
  destruct y as [[e|] m]; [unfold mret in E; by simplify_eq|].
  destruct m as [m|]; [|unfold mret in E; by simplify_eq].
  destruct m; try (unfold mret in E; by simplify_eq).
  cbv zeta in E. apply mbind_inv in E as ([] & c3 & E3 & E). unfold modify in E3. simplify_eq.
  destruct (pickSASLMechanism _ _) as [auth|].
  - apply mbind_inv in E as ([] & c4 & E4 & E). unfold modify in E4. simplify_eq.
    eapply openTune_maintains; [|  |exact Hm|exact Ht|exact E].
    + by repeat apply same_but_info.
    + simpl. by rewrite K2.
  - unfold mret in E. simplify_eq. by apply same_but_info.
Qed.

Lemma initial_registry : registry_wf initial_connection.
Proof. split; simpl; [done|done|]. intros id a Ha. by rewrite lookup_empty in Ha. Qed.

Lemma conn_step_registry c c' : registry_wf c -> conn_step c c' -> registry_wf c' /\ evolves c c'.
Proof.
  intros Hwf Hs. destruct Hs as [k c c' E|config lf hb r1 r2 r3 x c c' Ha Hmax Ht E|a i b b' ch c Ha _ _|e c _].
  - eapply maintains_chain; [apply (maintains_perform k)| |exact E]. split; [done|apply evolves_refl].
  - by eapply open_maintains.
  - apply (maintains_chain (upd_chan a (with_consumers (set_buffer i b' (ch_consumers ch)))) c c tt);
      [by apply keeps_maintains, keeps_upd_chan|by split; [|apply evolves_refl]|by apply upd_chan_ok].
  - assert (same_registry c (with_transport (Broken e) c)) as S by (split_and!; [done|done|by apply evolves_same]).
    split; [by eapply same_registry_wf|apply S].
Qed.

Lemma steps_registry c c' : registry_wf c -> rtc conn_step c c' -> registry_wf c' /\ evolves c c'.
Proof.
  intros Hwf Hr. induction Hr as [|c1 c2 c3 Hs _ IH]; [by split; [|apply evolves_refl]|].
  destruct (conn_step_registry _ _ Hwf Hs) as [W V]. destruct (IH W) as [W' V'].
  split; [done|by eapply evolves_trans].
Qed.

(** ** Theorems *)

(** C4: The registry and the pool of channel numbers never disagree.  Take
    any execution of a new connection: handshake, calls of the API on any
    channel, received frames, shutdowns, goroutines, failures of the
    transport, in any order.  Afterwards every registered channel has a
    number from 1 to 65535, which is the number it writes on its frames and
    which the allocator holds reserved; every reserved number belongs to a
    registered channel; and different numbers belong to different channels. *)
Theorem registry_consistent c :
  rtc conn_step initial_connection c ->
  (forall id a, cn_channels c !! id = Some a ->
     (exists ch, cn_objs c !! a = Some ch /\ ch_id ch = id) /\ 1 <= id <= 65535 /\
     exists al, cn_allocator c = Some al /\ id ∈ ids al) /\
  (forall al id, cn_allocator c = Some al -> id ∈ ids al -> is_Some (cn_channels c !! id)) /\
  (forall id id' a, cn_channels c !! id = Some a -> cn_channels c !! id' = Some a -> id = id').
Proof.
  intros Hr. destruct (steps_registry _ _ initial_registry Hr) as [[H1 H2 H3] _].
  split_and!.
  - intros id a Ha. split; [by apply H3|].
    destruct (cn_allocator c) as [al|] eqn:Hal; [|by rewrite (H1 eq_refl), lookup_empty in Ha].
    destruct (H2 al eq_refl) as (W & L & Hh & D).
    assert (id ∈ pool_ids al) as Hin by (rewrite D; by eapply elem_of_dom_2).
    split; [|by exists al]. apply elem_of_ids in Hin as Hin'.
    change (low al) with (pool_low al) in Hin'. change (high al) with (pool_high al) in Hin'. lia.
  - intros al id Hal Hin. destruct (H2 al Hal) as (_ & _ & _ & D). apply elem_of_dom. by rewrite <- D.
  - intros id id' a Ha Ha'. destruct (H3 _ _ Ha) as (ch & E & <-), (H3 _ _ Ha') as (ch' & E' & <-). congruence.
Qed.

(** [allocateChannel] on an open, tuned connection gives a new channel
    under a number between 1 and the tuned limit that no registered channel
    uses, and registers it; it fails, with [ErrChannelMax], only when every
    number is in use.  It does not panic. *)
Theorem allocateChannel_correct c al :
  rtc conn_step initial_connection c -> cn_closed c = false -> cn_allocator c = Some al ->
  exists r c', allocateChannel c = Ok (r, c') /\ allocated c al r c'.
Proof.
  intros Hr Hc Hal. destruct (steps_registry _ _ initial_registry Hr) as [W _].
  destruct (allocateChannel_spec c al W Hc Hal) as (r & c' & E & _ & A). eauto.
Qed.

(** Releasing a channel that is no longer registered changes nothing,
    even when its number has been given to another channel meanwhile. *)
Theorem stale_release_harmless c a ch :
  cn_objs c !! a = Some ch -> cn_channels c !! ch_id ch <> Some a ->
  releaseChannel a c = Ok (tt, c).
Proof.
  intros Ha Hne. unfold releaseChannel, mbind, gets. destruct (cn_closed c); [done|].
  rewrite (get_chan_ok _ _ _ Ha). by rewrite bool_decide_false.
Qed.

(** A connection after the handshake, with one channel. *)
Definition test_config : Config := MkConfig [PlainAuth "guest" "guest"] "/" 0 0 0 [] "en_US".

Definition opened : Connection :=
  match Connection_open test_config true 0
          (FromRpc (Some (M_connectionStart (Mk_connectionStart 0 9 [] "PLAIN AMQPLAIN" "en_US"))))
          (FromRpc (Some (M_connectionTune (Mk_connectionTune 1 131072 60))))
          (FromRpc (Some (M_connectionOpenOk (Mk_connectionOpenOk ""))))
          initial_connection
  with
  | Ok (_, c) => c
  | _ => initial_connection
  end.

Definition with_channel : Connection :=
  match Connection_Channel (FromRpc (Some (M_channelOpenOk (Mk_channelOpenOk "")))) opened with
  | Ok (_, c) => c
  | _ => initial_connection
  end.

Lemma opened_reachable : rtc conn_step initial_connection opened.
Proof.
  apply rtc_once. eapply (step_open test_config true 0
    (FromRpc (Some (M_connectionStart (Mk_connectionStart 0 9 [] "PLAIN AMQPLAIN" "en_US"))))
    (FromRpc (Some (M_connectionTune (Mk_connectionTune 1 131072 60))))
    (FromRpc (Some (M_connectionOpenOk (Mk_connectionOpenOk ""))))).
  - done.
  - simpl. lia.
  - intros tune [= <-]. simpl. lia.
  - by vm_compute.
Qed.

Lemma channel_opened : conn_step opened with_channel.
Proof. apply (step_call (Do_Channel (FromRpc (Some (M_channelOpenOk (Mk_channelOpenOk "")))))). by vm_compute. Qed.

Lemma with_channel_reachable : rtc conn_step initial_connection with_channel.
Proof. eapply rtc_r; [apply opened_reachable|apply channel_opened]. Qed.

(** The channel is closed, and its number given to another one. *)
Definition channel_closed : Connection :=
  match Channel_Close 0 (FromRpc (Some (M_channelCloseOk Mk_channelCloseOk))) with_channel with
  | Ok (_, c) => c
  | _ => initial_connection
  end.

Definition reopened : Connection :=
  match Connection_Channel (FromRpc (Some (M_channelOpenOk (Mk_channelOpenOk "")))) channel_closed with
  | Ok (_, c) => c
  | _ => initial_connection
  end.

Lemma registry_consistent_witness :
  cn_channels with_channel !! 1 = Some 0%nat /\ exists al, cn_allocator with_channel = Some al /\ 1 ∈ ids al.
Proof.
  destruct (registry_consistent with_channel with_channel_reachable) as (H & _).
  assert (cn_channels with_channel !! 1 = Some 0%nat) as E by (by vm_compute).
  destruct (H 1 0%nat E) as (_ & _ & Hal). by split.
Defined.

Lemma allocateChannel_correct_witness :
  exists r c' al, allocateChannel opened = Ok (r, c') /\ cn_allocator opened = Some al /\ allocated opened al r c'.
Proof.
  destruct (cn_allocator opened) as [al|] eqn:E; [|by vm_compute in E].
  destruct (allocateChannel_correct opened al opened_reachable (eq_refl false) E) as (r & c' & E1 & A).
  by exists r, c', al.
Defined.

Lemma stale_release_harmless_witness :
  cn_channels reopened !! 1 = Some 1%nat /\ releaseChannel 0 reopened = Ok (tt, reopened).
Proof.
  split; [by vm_compute|].
  destruct (cn_objs reopened !! 0%nat) as [ch|] eqn:E; [|by vm_compute in E].
  apply (stale_release_harmless reopened 0 ch E). vm_compute in E. injection E as <-. by vm_compute.
Defined.
