(* ===== verification/Once.v ===== *)
(** * Once: what runs behind a [sync.Once] runs once

    The destructors of channels and connections, over every execution: the
    errors they put into the buffered Go channels, which have room for one,
    and the close of the transport. *)

From S2P Require Import Prelude Types Io SpecConnection SpecChannel SpecBasic Spec091 Frame.
From S2P Require Import Allocator Confirms Delivery Consumers Auth State Channel ChannelFacts.
From S2P Require Import ChannelApi Connection ConnectionFacts Registry.

(** ** What is followed *)

(** How often the transport was closed. *)
Definition is_closing (e : event) : bool := match e with TransportClosed => true | _ => false end.
Definition closings (c : Connection) : nat := length (List.filter is_closing (cn_log c)).

(** The errors [new] left in a Go channel that held [old]: none was added,
    unless the destructor ran in between, which adds one at most. *)
Definition errors_once (shut shut' : bool) (old new : list Error) : Prop :=
  match shut, shut' with
  | true, false => False
  | false, true => (length new <= S (length old))%nat
  | _, _ => new `suffix_of` old
  end.

Definition same_channel (ch ch' : Channel) : Prop := ch_shut ch' = ch_shut ch /\ ch_errors ch' = ch_errors ch.
Definition channel_once (ch ch' : Channel) : Prop :=
  errors_once (ch_shut ch) (ch_shut ch') (ch_errors ch) (ch_errors ch').

Definition same_connection (c c' : Connection) : Prop :=
  cn_shut c' = cn_shut c /\ cn_errors c' = cn_errors c /\ closings c' = closings c.
Definition connection_once (c c' : Connection) : Prop :=
  errors_once (cn_shut c) (cn_shut c') (cn_errors c) (cn_errors c') /\
  closings c' = (closings c + if cn_shut c' && negb (cn_shut c) then 1 else 0)%nat.

(** Channels are never forgotten, and new ones come last. *)
Definition all_channels (R : Channel -> Channel -> Prop) (c c' : Connection) : Prop :=
  exists born, Forall2 R (cn_objs c ++ (newChannel <$> born)) (cn_objs c').

(** No destructor runs; some of channels; any. *)
Definition quiet (c c' : Connection) : Prop := same_connection c c' /\ all_channels same_channel c c'.
Definition local (c c' : Connection) : Prop := same_connection c c' /\ all_channels channel_once c c'.
Definition once (c c' : Connection) : Prop := connection_once c c' /\ all_channels channel_once c c'.

#[export] Instance same_channel_preorder : PreOrder same_channel.
Proof. split; [done|]. intros x y z [H1 H2] [H3 H4]. split; congruence. Qed.

Lemma errors_once_refl s l : errors_once s s l l.
Proof. by destruct s; simpl. Qed.

Lemma errors_once_trans s1 s2 s3 l1 l2 l3 :
  errors_once s1 s2 l1 l2 -> errors_once s2 s3 l2 l3 -> errors_once s1 s3 l1 l3.
Proof.
  destruct s1, s2, s3; simpl; try done; try (by intros; etransitivity).
  - intros H1 H2%suffix_length. lia.
  - intros H1%suffix_length H2. lia.
Qed.

#[export] Instance channel_once_preorder : PreOrder channel_once.
Proof. split; [intros x; apply errors_once_refl|intros x y z; apply errors_once_trans]. Qed.

#[export] Instance same_connection_preorder : PreOrder same_connection.
Proof. split; [done|]. intros x y z (H1 & H2 & H3) (H4 & H5 & H6). split_and!; congruence. Qed.

#[export] Instance connection_once_preorder : PreOrder connection_once.
Proof.
  split.
  - intros c. split; [apply errors_once_refl|]. destruct (cn_shut c); simpl; lia.
  - intros x y z [H1 H2] [H3 H4]. split; [by eapply errors_once_trans|]. rewrite H4, H2.
    destruct (cn_shut x), (cn_shut y), (cn_shut z); simpl in *; lia || done.
Qed.

#[export] Instance all_channels_preorder R : PreOrder R -> PreOrder (all_channels R).
Proof.
  intros HR. split.
  - intros c. exists []. by rewrite app_nil_r.
  - intros x y z [b1 H1] [b2 H2]. exists (b1 ++ b2). rewrite fmap_app, app_assoc.
    etransitivity; [|exact H2]. by apply Forall2_app.
Qed.

Lemma same_channel_once ch ch' : same_channel ch ch' -> channel_once ch ch'.
Proof. unfold channel_once. intros [-> ->]. apply errors_once_refl. Qed.

Lemma all_channels_once c c' : all_channels same_channel c c' -> all_channels channel_once c c'.
Proof. intros [b H]. exists b. eapply Forall2_impl; [apply same_channel_once|exact H]. Qed.

Lemma same_connection_once c c' : same_connection c c' -> connection_once c c'.
Proof. intros (E1 & E2 & E3). split; rewrite E1; [rewrite E2; apply errors_once_refl|]. destruct (cn_shut c); simpl; lia. Qed.

(** The relations that allow quiet calls, and shutdowns of channels. *)
Class Quiet (R : Connection -> Connection -> Prop) := {
  quiet_preorder :: PreOrder R;
  quiet_within : forall c c', quiet c c' -> R c c'
}.
Class Local (R : Connection -> Connection -> Prop) := {
  local_quiet :: Quiet R;
  local_within : forall c c', local c c' -> R c c'
}.

#[export] Instance quiet_Quiet : Quiet quiet.
Proof.
  split; [|done]. split; [intros c; split; reflexivity|].
  intros x y z [H1 H2] [H3 H4]. split; by etransitivity.
Qed.
#[export] Instance local_Local : Local local.
Proof.
  split; [split|done].
  - split; [intros c; split; reflexivity|]. intros x y z [H1 H2] [H3 H4]. split; by etransitivity.
  - intros c c' [H1 H2]. split; [done|by apply all_channels_once].
Qed.
#[export] Instance once_Local : Local once.
Proof.
  split; [split|].
  - split; [intros c; split; reflexivity|]. intros x y z [H1 H2] [H3 H4]. split; by etransitivity.
  - intros c c' [H1 H2]. split; [by apply same_connection_once|by apply all_channels_once].
  - intros c c' [H1 H2]. split; [by apply same_connection_once|done].
Qed.

(** ** Calls *)

Definition walks {A} (R : Connection -> Connection -> Prop) (m : M A) : Prop :=
  forall c x c', m c = Ok (x, c') -> R c c'.

Create HintDb once discriminated.

Section walking.
Context (R : Connection -> Connection -> Prop).

Lemma walks_bind {A B} `{!PreOrder R} (m : M A) (k : A -> M B) :
  walks R m -> (forall a, walks R (k a)) -> walks R (mbind m k).
Proof. intros Hm Hk c b c' (a & c1 & E1 & E2)%mbind_inv. etransitivity; [by eapply Hm|by eapply Hk]. Qed.

Lemma walks_stuck {A} (o : outcome (A * Connection)) : (forall x, o <> Ok x) -> walks R (fun _ => o).
Proof. intros H c x c' E. by destruct (H (x, c')). Qed.
Lemma walks_mpanic {A} : walks R (@mpanic A).
Proof. by apply walks_stuck. Qed.
Lemma walks_nofuel {A} : walks R (A := A) (fun _ => NoFuel).
Proof. by apply walks_stuck. Qed.

Context `{!Quiet R}.

Lemma walks_mret {A} (x : A) : walks R (mret x).
Proof. intros c y c' [= <- <-]. reflexivity. Qed.
Lemma walks_gets {A} (f : Connection -> A) : walks R (gets f).
Proof. intros c y c' [= <- <-]. reflexivity. Qed.
Lemma walks_mlift {A} (o : outcome A) : walks R (mlift o).
Proof. intros c x c' E. unfold mlift in E. destruct o; simpl in E; simplify_eq. reflexivity. Qed.
Lemma walks_get_chan a : walks R (get_chan a).
Proof. intros c x c' E. unfold get_chan in E. destruct (cn_objs c !! a); simplify_eq. reflexivity. Qed.

Lemma walks_mfor {A} (f : A -> M unit) xs : (forall x, walks R (f x)) -> walks R (mfor f xs).
Proof. intros Hf. induction xs; [apply walks_mret|]. apply walks_bind; [apply Hf|intros _; exact IHxs]. Qed.

(** A step that changes neither channels nor what is followed. *)
Lemma same_objects_quiet c c' : same_connection c c' -> cn_objs c' = cn_objs c -> R c c'.
Proof. intros H E. apply quiet_within. split; [done|]. exists []. by rewrite app_nil_r, E. Qed.

Lemma walks_modify f : (forall c, same_connection c (f c) /\ cn_objs (f c) = cn_objs c) -> walks R (modify f).
Proof. intros Hf c x c' [= <- <-]. apply same_objects_quiet; apply Hf. Qed.

Lemma walks_emit e : is_closing e = false -> walks R (emit e).
Proof.
  intros He. apply walks_modify. intros c. split; [|done]. split_and!; [done|done|]. unfold closings. simpl.
  rewrite List.filter_app, length_app. simpl. rewrite He. simpl. lia.
Qed.

Lemma walks_writer_write f : walks R (writer_WriteFrameNoFlush f).
Proof.
  intros c x c' E. unfold writer_WriteFrameNoFlush in E. destruct (WriteFrameNoFlush f (cn_buf c)) as [err buf].
  destruct err, (cn_transport c); simplify_eq; by apply same_objects_quiet.
Qed.
Lemma walks_writer_Flush : walks R writer_Flush.
Proof.
  intros c x c' E. unfold writer_Flush in E.
  destruct (cn_transport c), (cn_buf c); simplify_eq; by apply same_objects_quiet.
Qed.

Lemma insert_within (P : Channel -> Channel -> Prop) `{!PreOrder P} a ch ch' c :
  cn_objs c !! a = Some ch -> P ch ch' -> all_channels P c (with_objs (<[a := ch']> (cn_objs c)) c).
Proof.
  intros Ha H. exists []. rewrite app_nil_r. rewrite <- (list_insert_id (cn_objs c) a ch Ha) at 1. by apply Forall2_insert.
Qed.

Lemma upd_chan_inv a f c x c' :
  upd_chan a f c = Ok (x, c') ->
  exists ch, cn_objs c !! a = Some ch /\ c' = with_objs (<[a := f ch]> (cn_objs c)) c.
Proof.
  intros (ch & c1 & E1 & E2)%mbind_inv. unfold get_chan in E1. destruct (cn_objs c !! a) as [ch'|] eqn:Ha; [|done].
  unfold modify in E2. simplify_eq. by exists ch.
Qed.

Lemma walks_upd_chan a f : (forall ch, same_channel ch (f ch)) -> walks R (upd_chan a f).
Proof.
  intros Hf c x c' (ch & Ha & ->)%upd_chan_inv. apply quiet_within. split; [done|]. by apply (insert_within _ a ch).
Qed.

End walking.

#[export] Hint Resolve walks_mret walks_gets walks_mpanic walks_nofuel walks_mlift walks_get_chan
  walks_writer_write walks_writer_Flush : once.

(** Walks through a call. *)
Ltac walking :=
  repeat (cbv zeta; first
    [ solve [eauto with once nocore typeclass_instances]
    | apply walks_upd_chan; [apply _|done]
    | apply walks_emit; [apply _|done]
    | apply walks_modify; [apply _|done]
    | apply walks_bind; [apply _| |intros ?]
    | apply walks_mfor; [apply _|intros ?]
    | match goal with |- walks _ (match ?x with _ => _ end) => destruct x end
    | match goal with |- walks _ ?m => let h := get_head m in unfold h end ]).

Lemma walks_send R `{!Quiet R} f : walks R (Connection_send f).
Proof. walking. Qed.
Lemma walks_sendUnflushed R `{!Quiet R} f : walks R (Connection_sendUnflushed f).
Proof. walking. Qed.
#[export] Hint Resolve walks_send walks_sendUnflushed : once.

Lemma walks_send_body R `{!Quiet R} fuel id size body i j : walks R (send_body fuel id size body i j).
Proof.
  revert i j. induction fuel as [|fuel IH]; intros i j; cbn [send_body];
    (destruct (i <? len body); [|by apply walks_mret]); [apply walks_nofuel|]. cbv zeta.
  destruct (_ <? i); [apply walks_mpanic|]. apply walks_bind; [apply _|by apply walks_sendUnflushed|].
  intros [e|]; [by apply walks_mret|apply IH].
Qed.
#[export] Hint Resolve walks_send_body : once.

Lemma walks_Channel_send R `{!Quiet R} a msg : walks R (Channel_send a msg).
Proof. walking. Qed.
#[export] Hint Resolve walks_Channel_send : once.

(** A waiting call takes an error out of the Go channel. *)
Lemma walks_take_error R `{!Local R} a : walks R (upd_chan a (fun ch => with_errors (drop 1 (ch_errors ch)) ch)).
Proof.
  intros c x c' (ch & Ha & ->)%upd_chan_inv. apply local_within. split; [done|].
  apply (insert_within _ a ch); [done|]. unfold channel_once. simpl. destruct (ch_shut ch); apply suffix_drop.
Qed.
#[export] Hint Resolve walks_take_error : once.

Lemma walks_take_conn_error : walks once (modify (fun c => with_cn_errors (drop 1 (cn_errors c)) (cn_errors_closed c) c)).
Proof.
  intros c x c' [= <- <-]. split; [|exists []; rewrite app_nil_r; reflexivity]. split; simpl.
  - destruct (cn_shut c); apply suffix_drop.
  - unfold closings. simpl. destruct (cn_shut c); simpl; lia.
Qed.
#[export] Hint Resolve walks_take_conn_error : once.

(** ** The destructors *)

(** Around what changes [a] at both ends. *)
Lemma around a ch ch1 ch2 c c1 c2 :
  cn_objs c !! a = Some ch -> cn_objs c1 = <[a := ch1]> (cn_objs c) -> all_channels same_channel c1 c2 ->
  channel_once ch ch2 -> all_channels channel_once c (with_objs (<[a := ch2]> (cn_objs c2)) c2).
Proof.
  intros Ha E [b H] Hch. exists b. pose proof (lookup_lt_Some _ _ _ Ha).
  rewrite E, <- insert_app_l in H by done.
  rewrite <- (list_insert_id (cn_objs c ++ (newChannel <$> b)) a ch) by (by apply lookup_app_l_Some).
  rewrite <- (list_insert_insert_eq _ a ch ch1). apply Forall2_insert; [|done].
  eapply Forall2_impl; [apply same_channel_once|exact H].
Qed.

Lemma walks_then R `{!PreOrder R} {A B} (m : M A) (k : A -> M B) c0 c b c' :
  walks R m -> R c0 c -> mbind m k c = Ok (b, c') -> exists a c1, R c0 c1 /\ k a c1 = Ok (b, c').
Proof. intros Hm Hq (a & c1 & E1 & E2)%mbind_inv. exists a, c1. split; [|done]. etransitivity; [exact Hq|by eapply Hm]. Qed.

(** Goes through the calls that [E] begins with and [R] allows. *)
Ltac passing R Q E :=
  repeat match type of E with
  | mbind ?m _ _ = Ok _ =>
      assert (walks R m) as Hm by walking;
      let Q' := fresh in
      destruct (walks_then R _ _ _ _ _ _ Hm Q E) as (? & ? & Q' & E'); clear Q E Hm; rename Q' into Q, E' into E;
      cbv beta in E
  end.

Lemma quiet_lookup c c' a ch :
  quiet c c' -> cn_objs c !! a = Some ch -> exists ch', cn_objs c' !! a = Some ch' /\ same_channel ch ch'.
Proof. intros [_ [b H]] Ha. eapply Forall2_lookup_l; [exact H|]. by apply lookup_app_l_Some. Qed.

Lemma quiet_local c c' : quiet c c' -> local c c'.
Proof. apply quiet_within. Qed.

(** What follows the error in the destructor of a channel. *)
Definition destructor_rest (a : nat) : M unit :=
  do ch <- get_chan a;
  do subs <- mlift (consumers_close (ch_consumers ch));
  upd_chan a (with_consumers subs) >>
  mfor (fun l => close_listener (LClose l)) (ch_closes ch) >>
  mfor (fun l => close_listener (LFlow l)) (ch_flows ch) >>
  mfor (fun l => close_listener (LReturn l)) (ch_returns ch) >>
  mfor (fun l => close_listener (LCancel l)) (ch_cancels ch) >>
  upd_chan a (with_listeners [] [] [] []) >>
  do confirms <- mlift (confirms_Close (ch_confirms ch));
  upd_chan a (with_confirms confirms) >>
  upd_chan a with_shut.

Lemma rest_once a ch ch1 c c1 x c' :
  cn_objs c !! a = Some ch -> ch_shut ch = false -> same_connection c c1 -> cn_objs c1 = <[a := ch1]> (cn_objs c) ->
  (length (ch_errors ch1) <= S (length (ch_errors ch)))%nat ->
  destructor_rest a c1 = Ok (x, c') -> local c c'.
Proof.
  intros Ha Hs Hc Eo Hl E. assert (quiet c1 c1) as Q by reflexivity. unfold destructor_rest in E. passing quiet Q E.
  apply upd_chan_inv in E as (ch2 & H2 & ->). destruct (quiet_lookup _ _ a ch1 Q) as (ch2' & H2' & _ & E2).
  { rewrite Eo. apply list_lookup_insert_eq. by eapply lookup_lt_Some. }
  assert (ch2' = ch2) as -> by congruence. destruct Q as [Q1 Q2]. split; [by etransitivity|].
  apply (around a ch ch1 (with_shut ch2) c c1); [done|done|done|]. unfold channel_once, errors_once. rewrite Hs. simpl. by rewrite E2.
Qed.

Lemma destructor_once a e c ch x c' :
  cn_objs c !! a = Some ch -> ch_shut ch = false -> Channel_destructor a e c = Ok (x, c') -> local c c'.
Proof.
  intros Ha Hs E. unfold Channel_destructor in E. apply mbind_inv in E as (ch0 & c0 & E0 & E).
  unfold get_chan in E0. rewrite Ha in E0. injection E0 as <- <-. apply mbind_inv in E as ([] & c1 & E1 & E).
  change (destructor_rest a c1 = Ok (x, c')) in E. destruct e as [e|].
  - apply mbind_inv in E1 as ([] & d & Ed & (ch1 & Hd & ->)%upd_chan_inv).
    assert (walks quiet (mfor (fun l => notify (LClose l) (NError e)) (ch_closes ch))) as Hn by walking.
    specialize (Hn _ _ _ Ed). destruct (quiet_lookup _ _ a ch Hn Ha) as (ch1' & Hd' & S1 & _).
    assert (ch1' = ch1) as -> by congruence. transitivity d; [by apply quiet_local|].
    refine (rest_once a ch1 (with_errors (ch_errors ch1 ++ [e]) ch1) d _ x c' Hd _ _ _ _ E);
      [congruence|done|done|simpl; rewrite length_app; simpl; lia].
  - unfold mret in E1. injection E1 as <-.
    refine (rest_once a ch ch c c x c' Ha Hs _ _ _ E); [done|by rewrite list_insert_id|lia].
Qed.

Lemma walks_Channel_shutdown R `{!Local R} a e : walks R (Channel_shutdown a e).
Proof.
  intros c x c' E. apply local_within. unfold Channel_shutdown in E. apply mbind_inv in E as ([] & c1 & E1 & E).
  assert (walks quiet (setClosed a)) as H1 by walking. transitivity c1; [by eapply quiet_local, H1|].
  apply mbind_inv in E as (ch & c2 & E2 & E). unfold get_chan in E2. destruct (cn_objs c1 !! a) as [ch'|] eqn:Ha; [|done].
  injection E2 as <- <-. destruct (ch_shut ch') eqn:Hs; [unfold mret in E; injection E as <- <-; reflexivity|].
  by eapply destructor_once.
Qed.
#[export] Hint Resolve walks_Channel_shutdown : once.

(** The connection's part of its destructor: the error, the channels, the
    transport. *)
Lemma Connection_shutdown_once e : walks once (Connection_shutdown e).
Proof.
  intros c x c' E. unfold Connection_shutdown in E. apply mbind_inv in E as ([] & c1 & E1 & E).
  assert (walks once (modify (with_cn_closed true))) as H1 by walking. transitivity c1; [by eapply H1|].
  apply mbind_inv in E as (s & c2 & [= <- <-] & E). destruct (cn_shut c1) eqn:Hs;
    [unfold mret in E; injection E as <- <-; reflexivity|]. unfold Connection_destructor in E.
  apply mbind_inv in E as (closes & c2 & [= <- <-] & E). apply mbind_inv in E as ([] & c2 & E2 & E).
  assert (cn_shut c2 = false /\ (length (cn_errors c2) <= S (length (cn_errors c1)))%nat /\ closings c2 = closings c1 /\
    all_channels channel_once c1 c2) as (S2 & L2 & C2 & O2).
  { destruct e as [e|]; [|unfold mret in E2; injection E2 as <-; split_and!; [done|lia|done|reflexivity]].
    apply mbind_inv in E2 as ([] & d & Ed & [= <-]).
    assert (walks local (mfor (fun l => notify (LClose l) (NError e)) (cn_closes c1))) as Hn by walking.
    destruct (Hn _ _ _ Ed) as [(D1 & D2 & D3) D4]. split_and!; [by rewrite <- Hs| |exact D3|exact D4].
    simpl. rewrite length_app, D2. simpl. lia. }
  apply mbind_inv in E as ([] & c3 & [= <-] & E).
  match type of E with _ ?d = _ => assert (local d d) as Q by reflexivity end.
  cut (exists c4, local (with_cn_errors (cn_errors c2) true c2) c4 /\
    c' = with_cn_shut (with_registry ∅ None (with_log (cn_log c4 ++ [TransportClosed]) c4))).
  { intros (c4 & [(D1 & D2 & D3) [b D4]] & ->). simpl in D1, D2, D3, D4. split.
    - split; simpl; [rewrite Hs, D2; exact L2|]. unfold closings in *. simpl in *. rewrite Hs. simpl.
      rewrite List.filter_app, length_app, D3, C2. simpl. lia.
    - etransitivity; [exact O2|]. by exists b. }
  passing local Q E. unfold emit, mbind, modify in E. injection E as _ <-. by eexists.
Qed.
#[export] Hint Resolve Connection_shutdown_once : once.


(** ** Every step *)

Lemma walks_allocate R `{!Quiet R} : walks R allocateChannel.
Proof.
  intros c x c' E. apply quiet_within. unfold allocateChannel, mbind, gets, mlift, modify, mret in E.
  destruct (cn_closed c); [simplify_eq; reflexivity|]. destruct (cn_allocator c) as [al|]; [|done].
  destruct (next al) as [[[id|] al']| | |]; simplify_eq/=; (split; [done|]).
  - exists [uintw 16 id]. reflexivity.
  - exists []. rewrite app_nil_r. reflexivity.
Qed.
#[export] Hint Resolve walks_allocate : once.

Lemma walks_Channel_call R `{!Local R} a req res r : walks R (Channel_call a req res r).
Proof. walking. Qed.
#[export] Hint Resolve walks_Channel_call : once.

Lemma walks_Connection_call req res r : walks once (Connection_call req res r).
Proof. walking. Qed.
#[export] Hint Resolve walks_Connection_call : once.

Lemma walks_dispatch a msg : walks once (dispatch a msg).
Proof. walking. Qed.
#[export] Hint Resolve walks_dispatch : once.

Lemma walks_demux f : walks once (demux f).
Proof. walking. Qed.
#[export] Hint Resolve walks_demux : once.

Lemma walks_perform k : walks once (perform k).
Proof. destruct k as [a k| | | | | | | | |]; [destruct k|..]; walking. Qed.

Lemma walks_Connection_open config lf hb r1 r2 r3 : walks once (Connection_open config lf hb r1 r2 r3).
Proof. walking. Qed.

Lemma conn_step_once c c' : conn_step c c' -> once c c'.
Proof.
  intros [k c1 c2 E|config lf hb r1 r2 r3 x c1 c2 _ _ _ E|a i b b' ch c1 Ha _ _|e c1 _].
  - by eapply walks_perform.
  - by eapply walks_Connection_open.
  - apply quiet_within. split; [done|]. by apply (insert_within _ a ch).
  - by apply (same_objects_quiet once).
Qed.

Lemma steps_once c c' : rtc conn_step c c' -> once c c'.
Proof. induction 1 as [c|c1 c2 c3 Hs _ IH]; [reflexivity|]. etransitivity; [by apply conn_step_once|done]. Qed.

(** What is so in every execution from the start. *)
Lemma started_once c :
  once initial_connection c ->
  closings c = (if cn_shut c then 1 else 0)%nat /\ (length (cn_errors c) <= if cn_shut c then 1 else 0)%nat /\
  forall a ch, cn_objs c !! a = Some ch -> (length (ch_errors ch) <= if ch_shut ch then 1 else 0)%nat.
Proof.
  intros [[H1 H2] [b H3]]. simpl in H1, H2, H3. split_and!.
  - rewrite H2. by destruct (cn_shut c).
  - destruct (cn_shut c); [done|]. by apply suffix_nil_inv in H1 as ->.
  - intros a ch Ha. destruct (Forall2_lookup_r _ _ _ _ _ H3 Ha) as (ch0 & H0 & Hch).
    rewrite list_lookup_fmap in H0. destruct (b !! a) as [id|]; [|done]. injection H0 as <-. unfold channel_once in Hch. simpl in Hch.
    destruct (ch_shut ch); [done|]. by apply suffix_nil_inv in Hch as ->.
Qed.

(** ** Theorem *)

(** C29: Closing is final, and what shuts down runs once.  In every execution
    of a new connection the transport has been closed exactly when the
    destructor of the connection has run, and then once; the Go channels of
    errors, which have room for one, were given at most one, by the destructor,
    so that giving it did not block.  Whatever happens afterwards, what is
    closed stays closed, what is shut down stays so and is told no further
    error, and a channel keeps its number. *)
Theorem closed_is_final c c' :
  rtc conn_step initial_connection c -> rtc conn_step c c' ->
  closings c = (if cn_shut c then 1 else 0)%nat /\ (length (cn_errors c) <= if cn_shut c then 1 else 0)%nat /\
  (cn_closed c = true -> cn_closed c' = true) /\
  (cn_shut c = true -> cn_shut c' = true /\ cn_errors c' `suffix_of` cn_errors c) /\
  forall a ch, cn_objs c !! a = Some ch ->
    (length (ch_errors ch) <= if ch_shut ch then 1 else 0)%nat /\
    exists ch', cn_objs c' !! a = Some ch' /\ ch_id ch' = ch_id ch /\ (ch_closed ch = true -> ch_closed ch' = true) /\
      (ch_shut ch = true -> ch_shut ch' = true /\ ch_errors ch' `suffix_of` ch_errors ch).
Proof.
  intros H1 H2. destruct (steps_registry _ _ initial_registry H1) as [W _].
  destruct (steps_registry _ _ W H2) as [_ (V1 & V2 & V3)]. pose proof (steps_once _ _ H2) as [[O1 _] [b O3]].
  destruct (started_once c (steps_once _ _ H1)) as (S1 & S2 & S3). split_and!; [done|done|done| |].
  - intros Hs. specialize (V2 Hs). split; [done|]. by rewrite Hs, V2 in O1.
  - intros a ch Ha. split; [by apply (S3 a)|]. destruct (V3 a ch Ha) as (ch' & Ha' & E1 & E2 & E3). exists ch'.
    split_and!; [done|done|done|]. intros Hs. specialize (E3 Hs). split; [done|].
    destruct (Forall2_lookup_l _ _ _ a ch O3) as (ch2 & H & Hch); [by apply lookup_app_l_Some|].
    assert (ch2 = ch') as -> by congruence. unfold channel_once in Hch. by rewrite Hs, E3 in Hch.
Qed.

(** The reader and the heartbeater both shut a connection with a channel
    down. *)
Definition shut_by (e : Error) (c : Connection) : Connection :=
  match Connection_shutdown (Some e) c with Ok (_, c) => c | _ => initial_connection end.

Definition shut_once : Connection := shut_by ErrFrame with_channel.
Definition shut_twice : Connection := shut_by ErrUnexpectedFrame shut_once.

Lemma shut_once_reachable : rtc conn_step initial_connection shut_once.
Proof.
  eapply rtc_r; [apply with_channel_reachable|]. apply (step_call (Run_shutdown (Some ErrFrame))). by vm_compute.
Qed.

Lemma shut_again : rtc conn_step shut_once shut_twice.
Proof. apply rtc_once. apply (step_call (Run_shutdown (Some ErrUnexpectedFrame))). by vm_compute. Qed.

Lemma closed_is_final_witness :
  closings shut_once = 1%nat /\ cn_errors shut_once = [ErrFrame] /\ cn_errors shut_twice `suffix_of` [ErrFrame] /\
  exists ch', cn_objs shut_twice !! 0%nat = Some ch' /\ ch_id ch' = 1 /\ ch_shut ch' = true /\
    ch_errors ch' `suffix_of` [ErrFrame].
Proof.
  destruct (closed_is_final _ _ shut_once_reachable shut_again) as (Hc & _ & _ & Hs & H).
  split; [exact Hc|]. split; [by vm_compute|]. split; [by apply Hs; vm_compute|].
  destruct (cn_objs shut_once !! 0%nat) as [ch|] eqn:E; [|by vm_compute in E].
  destruct (H 0%nat ch E) as (_ & ch' & E' & Hid & _ & He). exists ch'. split; [done|].
  vm_compute in E. injection E as <-. split; [exact Hid|]. by apply He.
Defined.
