(* ===== verification/Shutdown.v ===== *)
(** * Shutdown: closing channels and connections

    Shutting a channel or a connection down returns, closes what it has to
    close, each listener once, and tells every listener that waits for it. *)

From S2P Require Import Prelude Types Io SpecConnection SpecChannel SpecBasic Spec091 Frame.
From S2P Require Import Allocator Confirms Delivery Consumers Auth State Channel ChannelFacts.
From S2P Require Import ChannelApi Connection ConnectionFacts Registry.

(** ** The invariant *)

Definition chan_listeners (ch : Channel) : list listener :=
  (LClose <$> ch_closes ch) ++ (LFlow <$> ch_flows ch) ++ (LReturn <$> ch_returns ch) ++
  (LCancel <$> ch_cancels ch).

Definition conn_listeners (c : Connection) : list listener :=
  (LClose <$> cn_closes c) ++ (LBlock <$> cn_blocks c).

(** A channel between calls: what it owns is in order, shutting it down has
    closed its consumers and forgotten its listeners, and the reassembly
    holds what its next step needs. *)
Record channel_wf (ch : Channel) : Prop := {
  hw_confirms : confirms_wf (ch_confirms ch);
  hw_published : published (ch_confirms ch) < 2 ^ 64 - 1;
  hw_consumers : consumers_wf (ch_consumers ch);
  hw_closed : c_closed (ch_consumers ch) = ch_shut ch;
  hw_noNotify : ch_noNotify ch = ch_shut ch;
  hw_shut : ch_shut ch = true ->
    ch_closed ch = true /\ chan_listeners ch = [] /\ c_chans (ch_consumers ch) = ∅;
  hw_header : ch_recv ch <> RecvMethod ->
    exists msg, ch_message ch = Some msg /\ is_Some (message_getContent msg);
  hw_content : ch_recv ch = RecvContent -> exists h, ch_header ch = Some h /\ hf_Size h <= maxAlloc
}.

(** The objects of a connection: the listeners of the channels, [own], and
    the closed ones are all different. *)
Record objects_wf (own : list listener) (c : Connection) : Prop := {
  ow_channels : forall a ch, cn_objs c !! a = Some ch -> channel_wf ch;
  ow_nodup : NoDup (own ++ concat (chan_listeners <$> cn_objs c) ++ cn_lclosed c)
}.

(** ** Notifying and closing listeners *)

Lemma mfor_notify (L : nat -> listener) n ls c :
  (forall l, l ∈ ls -> L l ∉ cn_lclosed c) ->
  mfor (fun l => notify (L l) n) ls c
  = Ok (tt, with_log (cn_log c ++ ((fun l => Notified l n) <$> (L <$> ls))) c).
Proof.
  revert c. induction ls as [|l ls IH]; intros c Hl.
  - simpl. rewrite app_nil_r. by destruct c.
  - cbn [mfor]. assert (notify (L l) n c = Ok (tt, with_log (cn_log c ++ [Notified (L l) n]) c)) as E.
    { unfold notify, mbind, gets. by rewrite bool_decide_false by (apply Hl; set_solver). }
    rewrite (mbind_ok _ _ _ _ _ E), IH by (simpl; intros; apply Hl; set_solver).
    simpl. by rewrite <- app_assoc.
Qed.

Definition closing (ls : list listener) (c : Connection) : Connection :=
  with_log (cn_log c ++ (ListenerClosed <$> ls)) (with_lclosed (reverse ls ++ cn_lclosed c) c).

Lemma closing_app ls ls' c : closing ls' (closing ls c) = closing (ls ++ ls') c.
Proof. unfold closing. simpl. by rewrite fmap_app, reverse_app, !app_assoc. Qed.

Lemma mfor_close (L : nat -> listener) ls c :
  NoDup ((L <$> ls) ++ cn_lclosed c) ->
  mfor (fun l => close_listener (L l)) ls c = Ok (tt, closing (L <$> ls) c).
Proof.
  revert c. induction ls as [|l ls IH]; intros c Hnd.
  - unfold closing. simpl. rewrite app_nil_r. by destruct c.
  - rewrite fmap_cons in *. cbn [app] in Hnd. apply list.NoDup_cons in Hnd as [Hl Hnd]. cbn [mfor].
    assert (close_listener (L l) c = Ok (tt, closing [L l] c)) as E.
    { unfold close_listener, mbind, gets. rewrite bool_decide_false by set_solver. done. }
    rewrite (mbind_ok _ _ _ _ _ E), IH.
    + by rewrite closing_app.
    + simpl. rewrite <- Permutation_middle. apply list.NoDup_cons. by split.
Qed.

(** ** Channels *)

(** What is left of a channel after its destructor. *)
Record shut_down (e : option Error) (ch ch' : Channel) : Prop := {
  sd_wf : channel_wf ch';
  sd_id : ch_id ch' = ch_id ch;
  sd_shut : ch_shut ch' = true;
  sd_errors : ch_errors ch' = ch_errors ch ++ option_list e /\ ch_errors_closed ch' = true;
  sd_confirms : confirms_Close (ch_confirms ch) = Ok (ch_confirms ch');
  sd_consumers : consumers_close (ch_consumers ch) = Ok (ch_consumers ch');
  sd_confirming : ch_confirming ch' = ch_confirming ch
}.

Definition notices (e : option Error) (ls : list listener) : list event :=
  match e with
  | Some e => (fun l => Notified l (NError e)) <$> ls
  | None => []
  end.

(** The listeners of one channel apart from the others. *)
Lemma listeners_split own c a ch ch' :
  cn_objs c !! a = Some ch ->
  exists rest,
    own ++ concat (chan_listeners <$> cn_objs c) ++ cn_lclosed c
      ≡ₚ chan_listeners ch ++ rest ++ cn_lclosed c /\
    own ++ concat (chan_listeners <$> <[a := ch']> (cn_objs c)) ++ cn_lclosed c
      ≡ₚ chan_listeners ch' ++ rest ++ cn_lclosed c.
Proof.
  intros Ha. pose proof (lookup_lt_Some _ _ _ Ha) as Hlt.
  pose proof (insert_take_drop (cn_objs c) a ch' Hlt) as E'.
  pose proof (eq_sym (take_drop_middle _ _ _ Ha)) as E.
  set (l1 := take a (cn_objs c)) in *. set (l2 := drop (S a) (cn_objs c)) in *.
  exists (own ++ concat (chan_listeners <$> l1) ++ concat (chan_listeners <$> l2)).
  rewrite E', E, !fmap_app, !fmap_cons, !concat_app. cbn [concat]. split; solve_Permutation.
Qed.

(** Replacing a channel by one with the same listeners. *)
Lemma set_chan_objects own c a ch ch' :
  objects_wf own c -> cn_objs c !! a = Some ch -> channel_wf ch' ->
  chan_listeners ch' = chan_listeners ch -> objects_wf own (set_chan a ch' c).
Proof.
  intros [H1 H2] Ha Hwf Hl. pose proof (lookup_lt_Some _ _ _ Ha) as Hlt. split.
  - intros b x Hb. simpl in Hb. destruct (decide (a = b)) as [<-|Hab].
    + rewrite list_lookup_insert_eq in Hb by done. by simplify_eq.
    + rewrite list_lookup_insert_ne in Hb by done. eauto.
  - destruct (listeners_split own c a ch ch' Ha) as (rest & E1 & E2). simpl.
    rewrite E2, Hl, <- E1. exact H2.
Qed.

(** The first part of the destructor. *)
Definition broadcast (a : nat) (e : option Error) (ch : Channel) (c : Connection) : Connection :=
  set_chan a (with_errors (ch_errors ch ++ option_list e) ch)
    (with_log (cn_log c ++ notices e (LClose <$> ch_closes ch)) c).

Lemma broadcast_ok a e c ch :
  cn_objs c !! a = Some ch -> (forall l, l ∈ ch_closes ch -> LClose l ∉ cn_lclosed c) ->
  (match e with
   | Some e =>
       mfor (fun l => notify (LClose l) (NError e)) (ch_closes ch) >>
       upd_chan a (fun ch => with_errors (ch_errors ch ++ [e]) ch)
   | None => mret tt
   end) c = Ok (tt, broadcast a e ch c).
Proof.
  intros Ha Hl. destruct e as [e|]; unfold broadcast; simpl.
  - rewrite (mbind_ok _ _ _ _ _ (mfor_notify LClose (NError e) _ _ Hl)).
    by rewrite (upd_chan_ok a _ _ ch) by done.
  - rewrite !app_nil_r. replace (with_errors (ch_errors ch) ch) with ch by (by destruct ch).
    replace (with_log (cn_log c) c) with c by (by destruct c). by rewrite set_chan_id.
Qed.

(** Closing some listeners while others stay open. *)
Lemma mfor_close_then {A} (L : nat -> listener) ls rest (k : M A) c :
  NoDup ((L <$> ls) ++ rest ++ cn_lclosed c) ->
  (mfor (fun l => close_listener (L l)) ls >> k) c = k (closing (L <$> ls) c) /\
  NoDup (rest ++ cn_lclosed (closing (L <$> ls) c)).
Proof.
  intros Hnd. split.
  - assert (((L <$> ls) ++ rest ++ cn_lclosed c) ≡ₚ ((L <$> ls) ++ cn_lclosed c) ++ rest) as E
      by solve_Permutation.
    rewrite E in Hnd. apply list.NoDup_app in Hnd as [Hnd _].
    by rewrite (mbind_ok _ _ _ _ _ (mfor_close L ls c Hnd)).
  - simpl. rewrite (reverse_Permutation (L <$> ls)).
    assert (rest ++ (L <$> ls) ++ cn_lclosed c ≡ₚ (L <$> ls) ++ rest ++ cn_lclosed c) as ->
      by solve_Permutation. exact Hnd.
Qed.

(** The four kinds of listeners in turn. *)
Lemma close_listeners_ok {A} ch (k : M A) c :
  NoDup (chan_listeners ch ++ cn_lclosed c) ->
  (mfor (fun l => close_listener (LClose l)) (ch_closes ch) >>
   mfor (fun l => close_listener (LFlow l)) (ch_flows ch) >>
   mfor (fun l => close_listener (LReturn l)) (ch_returns ch) >>
   mfor (fun l => close_listener (LCancel l)) (ch_cancels ch) >> k) c
  = k (closing (chan_listeners ch) c).
Proof.
  unfold chan_listeners. rewrite <- !app_assoc. intros H0.
  rewrite (app_assoc (LFlow <$> _)), (app_assoc (_ ++ _)) in H0.
  destruct (mfor_close_then LClose (ch_closes ch) _
    (mfor (fun l => close_listener (LFlow l)) (ch_flows ch) >>
     mfor (fun l => close_listener (LReturn l)) (ch_returns ch) >>
     mfor (fun l => close_listener (LCancel l)) (ch_cancels ch) >> k) c H0) as [-> H1].
  rewrite <- !app_assoc, (app_assoc (LReturn <$> _)) in H1.
  destruct (mfor_close_then LFlow (ch_flows ch) _
    (mfor (fun l => close_listener (LReturn l)) (ch_returns ch) >>
     mfor (fun l => close_listener (LCancel l)) (ch_cancels ch) >> k) _ H1) as [-> H2].
  rewrite <- !app_assoc in H2.
  destruct (mfor_close_then LReturn (ch_returns ch) _
    (mfor (fun l => close_listener (LCancel l)) (ch_cancels ch) >> k) _ H2) as [-> H3].
  destruct (mfor_close_then LCancel (ch_cancels ch) [] k _ H3) as [-> _].
  by rewrite !closing_app.
Qed.

(** The state after the destructor of a channel, which becomes [ch']. *)
Definition after_shutdown (a : nat) (e : option Error) (ch ch' : Channel) (c : Connection) : Connection :=
  set_chan a ch'
    (closing (chan_listeners ch) (with_log (cn_log c ++ notices e (LClose <$> ch_closes ch)) c)).

Lemma destructor_ok own a e c ch :
  objects_wf own c -> cn_objs c !! a = Some ch -> ch_shut ch = false -> ch_closed ch = true ->
  exists ch', Channel_destructor a e c = Ok (tt, after_shutdown a e ch ch' c) /\ shut_down e ch ch'.
Proof.
  intros Hwf Ha Hs Hc. pose proof (ow_channels _ _ Hwf a ch Ha) as W.
  pose proof (lookup_lt_Some _ _ _ Ha) as Hlt.
  assert (NoDup (chan_listeners ch ++ cn_lclosed c)) as Hnd.
  { destruct (listeners_split own c a ch ch Ha) as (rest & E & _).
    pose proof (ow_nodup _ _ Hwf) as H. rewrite E in H.
    assert (chan_listeners ch ++ rest ++ cn_lclosed c ≡ₚ (chan_listeners ch ++ cn_lclosed c) ++ rest) as E'
      by solve_Permutation. rewrite E' in H. by apply list.NoDup_app in H as [H _]. }
  destruct (consumers_close_spec (ch_consumers ch) (hw_consumers _ W)) as (subs & Ek & Wk & Ck & Dk & _).
  { by rewrite (hw_closed _ W). }
  destruct (Close_spec (ch_confirms ch) (hw_confirms _ W)) as (? & cf & Ef & _ & _ & Wf & Pf & _).
  unfold Channel_destructor. rewrite (mbind_ok _ _ _ _ _ (get_chan_ok _ _ _ Ha)).
  rewrite (mbind_ok _ _ _ _ _ (broadcast_ok a e c ch Ha ltac:(
    intros l Hl Hin; apply list.NoDup_app in Hnd as (_ & H & _); apply (H (LClose l)); [|done];
    unfold chan_listeners; set_solver))).
  set (b := with_log (cn_log c ++ notices e (LClose <$> ch_closes ch)) c).
  set (ch1 := with_errors (ch_errors ch ++ option_list e) ch).
  change (broadcast a e ch c) with (set_chan a ch1 b).
  rewrite (mbind_ok _ _ _ _ _ (get_set a b Hlt ch1)).
  unfold mlift at 1. change (ch_consumers ch1) with (ch_consumers ch). rewrite Ek.
  rewrite (mbind_ok _ _ _ _ _ eq_refl), (mbind_ok _ _ _ _ _ (upd_set a b Hlt _ ch1)).
  change (ch_closes ch1) with (ch_closes ch). change (ch_flows ch1) with (ch_flows ch).
  change (ch_returns ch1) with (ch_returns ch). change (ch_cancels ch1) with (ch_cancels ch).
  rewrite close_listeners_ok by exact Hnd.
  set (b' := closing (chan_listeners ch) b). change (closing (chan_listeners ch) ?y) with (set_chan a (with_consumers subs ch1) b').
  assert (a < length (cn_objs b'))%nat as Hlt' by exact Hlt.
  rewrite (mbind_ok _ _ _ _ _ (upd_set a b' Hlt' _ _)). unfold mlift.
  change (ch_confirms ch1) with (ch_confirms ch). rewrite Ef.
  rewrite (mbind_ok _ _ _ _ _ eq_refl), (mbind_ok _ _ _ _ _ (upd_set a b' Hlt' _ _)).
  rewrite (upd_set a b' Hlt'). eexists. split; [done|].
  split; simpl; try done. destruct W as [W1 W2 W3 W4 W5 W6 W7 W8].
  split; simpl; try done. by rewrite Pf.
Qed.

Lemma after_shutdown_objects own a e c ch ch' :
  objects_wf own c -> cn_objs c !! a = Some ch -> shut_down e ch ch' ->
  objects_wf own (after_shutdown a e ch ch' c).
Proof.
  intros [H1 H2] Ha Hd. pose proof (lookup_lt_Some _ _ _ Ha) as Hlt. split; simpl.
  - intros b x Hb. destruct (decide (a = b)) as [<-|Hab].
    + rewrite list_lookup_insert_eq in Hb by done. simplify_eq. apply Hd.
    + rewrite list_lookup_insert_ne in Hb by done. eauto.
  - destruct (listeners_split own c a ch ch' Ha) as (rest & E1 & E2).
    destruct (hw_shut _ (sd_wf _ _ _ Hd) (sd_shut _ _ _ Hd)) as (_ & Hn & _). rewrite Hn in E2. cbn [app] in E2.
    rewrite app_assoc in E2 |- *. apply Permutation_app_inv_r in E2. rewrite E2.
    rewrite E1 in H2. rewrite (reverse_Permutation (chan_listeners ch)). cbn [app].
    assert (rest ++ chan_listeners ch ++ cn_lclosed c ≡ₚ chan_listeners ch ++ rest ++ cn_lclosed c) as ->
      by solve_Permutation. exact H2.
Qed.

(** A channel that is shut down stays as it is; any other is taken through
    its destructor. *)
Lemma Channel_shutdown_ok own a e c ch :
  objects_wf own c -> cn_objs c !! a = Some ch ->
  exists c', Channel_shutdown a e c = Ok (tt, c') /\ objects_wf own c' /\
    if ch_shut ch then c' = c
    else exists ch', c' = after_shutdown a e ch ch' c /\ shut_down e ch ch'.
Proof.
  intros Hwf Ha. pose proof (lookup_lt_Some _ _ _ Ha) as Hlt.
  pose proof (ow_channels _ _ Hwf a ch Ha) as W. unfold Channel_shutdown, setClosed.
  rewrite (mbind_ok _ _ _ _ _ (upd_chan_ok a (with_closed true) c ch Ha)).
  change (with_objs _ c) with (set_chan a (with_closed true ch) c).
  rewrite (mbind_ok _ _ _ _ _ (get_set a c Hlt _)). cbn [ch_shut with_closed].
  destruct (ch_shut ch) eqn:Hs.
  - exists c. split_and!; [|done|done]. destruct (hw_shut _ W Hs) as (Hc & _).
    replace (with_closed true ch) with ch by (destruct ch; simpl in *; by subst). by rewrite set_chan_id.
  - assert (objects_wf own (set_chan a (with_closed true ch) c)) as Hwf'.
    { apply (set_chan_objects own c a ch); [done|done| |done]. destruct W as [W1 W2 W3 W4 W5 W6 W7 W8].
      split; simpl; try done. congruence. }
    assert (cn_objs (set_chan a (with_closed true ch) c) !! a = Some (with_closed true ch)) as Ha'
      by (by apply list_lookup_insert_eq).
    destruct (destructor_ok own a e _ _ Hwf' Ha' Hs eq_refl) as (ch' & E & [D1 D2 D3 D4 D5 D6 D7]).
    assert (shut_down e ch ch') as Hd by (by split).
    exists (after_shutdown a e ch ch' c). rewrite E. split_and!.
    + f_equal. f_equal. unfold after_shutdown. simpl.
      change (closing ?ls (with_log ?lg (set_chan a ?x c))) with (set_chan a x (closing ls (with_log lg c))).
      by rewrite set_chan_set.
    + by apply after_shutdown_objects.
    + by exists ch'.
Qed.

(** ** Connections *)

(** What shutting channels down leaves alone. *)
Definition only_objects (c c' : Connection) : Prop :=
  exists objs closed log, c' = with_log log (with_lclosed closed (with_objs objs c)) /\
    length objs = length (cn_objs c) /\ cn_lclosed c ⊆ closed.

Lemma only_objects_refl c : only_objects c c.
Proof. exists (cn_objs c), (cn_lclosed c), (cn_log c). split_and!; [by destruct c|done|done]. Qed.

Lemma only_objects_trans c1 c2 c3 : only_objects c1 c2 -> only_objects c2 c3 -> only_objects c1 c3.
Proof.
  intros (o & l & g & -> & L & S) (o' & l' & g' & -> & L' & S'). exists o', l', g'. simpl in *.
  split_and!; [done|congruence|set_solver].
Qed.

Lemma after_shutdown_only a e ch ch' c : only_objects c (after_shutdown a e ch ch' c).
Proof. eexists _, _, _. split_and!; [done|apply length_insert|]. simpl. set_solver. Qed.

Definition is_shut (c : Connection) (a : nat) : Prop :=
  exists ch, cn_objs c !! a = Some ch /\ ch_shut ch = true /\ ch_closed ch = true.

(** One channel after the other. *)
Lemma shutdown_all own e kvs c :
  objects_wf own c -> (forall id a, (id, a) ∈ kvs -> is_Some (cn_objs c !! a)) ->
  exists c', mfor (fun kv : Z * nat => Channel_shutdown (snd kv) e) kvs c = Ok (tt, c') /\
    objects_wf own c' /\ only_objects c c' /\ (forall a, is_shut c a -> is_shut c' a) /\
    (forall id a, (id, a) ∈ kvs -> is_shut c' a).
Proof.
  revert c. induction kvs as [|[id a] kvs IH]; intros c Hwf Hin.
  - exists c. split_and!; [done|done|apply only_objects_refl|done|set_solver].
  - cbn [mfor snd]. destruct (Hin id a) as [ch Ha]; [set_solver|].
    pose proof (lookup_lt_Some _ _ _ Ha) as Hlt.
    destruct (Channel_shutdown_ok own a e c ch Hwf Ha) as (c1 & E1 & W1 & H1).
    assert (only_objects c c1 /\ is_shut c1 a /\ forall b, is_shut c b -> is_shut c1 b) as (O1 & S1 & M1).
    { pose proof (ow_channels _ _ Hwf a ch Ha) as W. destruct (ch_shut ch) eqn:Hs.
      - subst c1. split_and!; [apply only_objects_refl| |done]. exists ch.
        split_and!; [done|done|]. by apply (hw_shut _ W).
      - destruct H1 as (ch' & -> & Hd). split_and!; [apply after_shutdown_only| |].
        + exists ch'. simpl. rewrite list_lookup_insert_eq by done. split_and!; [done|apply Hd|].
          apply (hw_shut _ (sd_wf _ _ _ Hd)), Hd.
        + intros b (x & Hb & Hx). exists x. simpl. rewrite list_lookup_insert_ne; [done|].
          intros <-. destruct Hx as [Hx _]. congruence. }
    rewrite (mbind_ok _ _ _ _ _ E1). destruct (IH c1 W1) as (c' & E & W & O & Mn & Hall).
    { destruct O1 as (o & l & g & -> & Hlen & _). intros id' a' Hin'. simpl. apply lookup_lt_is_Some.
      rewrite Hlen. apply lookup_lt_is_Some. apply (Hin id'). set_solver. }
    exists c'. split_and!; [done|done|by eapply only_objects_trans|auto|].
    intros id' a' [[= -> ->]|Hin']%elem_of_cons; [auto|by eapply Hall].
Qed.

(** The listeners a connection still has to close. *)
Definition own_listeners (c : Connection) : list listener :=
  if cn_shut c then [] else conn_listeners c.

(** A connection between calls. *)
Record conn_wf (c : Connection) : Prop := {
  sw_registry : registry_wf c;
  sw_objects : objects_wf (own_listeners c) c;
  sw_tuned : cn_closed c = false -> is_Some (cn_allocator c);
  sw_shut : cn_shut c = cn_closed c;
  sw_noNotify : cn_noNotify c = cn_closed c;
  sw_frame : cn_FrameSize c <= 0 \/ frameHeaderSize < cn_FrameSize c
}.

(** A connection that has been shut down. *)
Record torn_down (c c' : Connection) : Prop := {
  td_closed : cn_closed c' = true /\ cn_shut c' = true;
  td_registry : cn_channels c' = ∅ /\ cn_allocator c' = None;
  td_channels : forall id a, cn_channels c !! id = Some a -> is_shut c' a;
  td_listeners : forall l, l ∈ conn_listeners c -> l ∈ cn_lclosed c';
  td_blocks : cn_blocks c' = cn_blocks c;
  td_transport : exists log, cn_log c' = log ++ [TransportClosed]
}.

(** The part of the destructor before the channels are shut down. *)
Lemma own_part {A} e c (k : M A) :
  NoDup (conn_listeners c ++ cn_lclosed c) ->
  (do closes <- gets cn_closes;
   (match e with
    | Some e =>
        mfor (fun l => notify (LClose l) (NError e)) closes >>
        modify (fun c => with_cn_errors (cn_errors c ++ [e]) (cn_errors_closed c) c)
    | None => mret tt
    end >>
    modify (fun c => with_cn_errors (cn_errors c) true c) >>
    mfor (fun l => close_listener (LClose l)) closes >>
    do blocks <- gets cn_blocks;
    mfor (fun l => close_listener (LBlock l)) blocks >> k)) c
  = k (closing (conn_listeners c)
         (with_log (cn_log c ++ notices e (LClose <$> cn_closes c))
            (with_cn_errors (cn_errors c ++ option_list e) true c))).
Proof.
  unfold conn_listeners. rewrite <- app_assoc. intros Hnd. rewrite (mbind_ok _ _ _ _ _ eq_refl).
  set (c1 := with_log (cn_log c ++ notices e (LClose <$> cn_closes c))
               (with_cn_errors (cn_errors c ++ option_list e) (cn_errors_closed c) c)).
  assert (forall l, l ∈ cn_closes c -> LClose l ∉ cn_lclosed c) as Hl.
  { intros l Hl Hin. apply list.NoDup_app in Hnd as (_ & H & _). apply (H (LClose l)); set_solver. }
  assert ((match e with
    | Some e =>
        mfor (fun l => notify (LClose l) (NError e)) (cn_closes c) >>
        modify (fun c => with_cn_errors (cn_errors c ++ [e]) (cn_errors_closed c) c)
    | None => mret tt
    end) c = Ok (tt, c1)) as E.
  { unfold c1. destruct e as [e|]; simpl.
    - by rewrite (mbind_ok _ _ _ _ _ (mfor_notify LClose (NError e) _ _ Hl)).
    - rewrite !app_nil_r. by destruct c. }
  rewrite (mbind_ok _ _ _ _ _ E), (mbind_ok _ _ _ _ _ eq_refl).
  set (c2 := with_cn_errors (cn_errors c1) true c1).
  destruct (mfor_close_then LClose (cn_closes c) (LBlock <$> cn_blocks c)
    (do blocks <- gets cn_blocks; mfor (fun l => close_listener (LBlock l)) blocks >> k) c2 Hnd) as [-> H1].
  rewrite (mbind_ok _ _ _ _ _ eq_refl).
  destruct (mfor_close_then LBlock (cn_blocks c) [] k _ H1) as [E2 _].
  etransitivity; [exact E2|]. by rewrite closing_app.
Qed.

(** The own listeners have become closed ones. *)
Lemma own_closed_objects c lg errs ec :
  objects_wf (conn_listeners c) c ->
  objects_wf [] (closing (conn_listeners c) (with_log lg (with_cn_errors errs ec c))).
Proof.
  intros [H1 H2]. split; [exact H1|]. simpl. rewrite (reverse_Permutation (conn_listeners c)).
  assert (concat (chan_listeners <$> cn_objs c) ++ conn_listeners c ++ cn_lclosed c
    ≡ₚ conn_listeners c ++ concat (chan_listeners <$> cn_objs c) ++ cn_lclosed c) as ->
    by solve_Permutation. exact H2.
Qed.

Lemma Connection_shutdown_ok e c :
  conn_wf c ->
  exists c', Connection_shutdown e c = Ok (tt, c') /\ conn_wf c' /\
    length (cn_objs c') = length (cn_objs c) /\
    if cn_shut c then c' = c else torn_down c c'.
Proof.
  intros Hwf. destruct (Hwf) as [W1 W2 W3 W4 W5 W6].
  assert (exists c', Connection_shutdown e c = Ok (tt, c') /\
    length (cn_objs c') = length (cn_objs c) /\
    if cn_shut c then c' = c
    else torn_down c c' /\ objects_wf [] c' /\ cn_noNotify c' = true /\ cn_FrameSize c' = cn_FrameSize c)
    as (c' & E & L & H).
  { unfold Connection_shutdown. rewrite (mbind_ok _ _ _ _ _ eq_refl), (mbind_ok _ _ _ _ _ eq_refl).
    unfold own_listeners in W2. cbn [cn_shut with_cn_closed]. destruct (cn_shut c) eqn:Hs.
    - exists c. split_and!; [|done|done]. destruct c; simpl in *; by subst.
    - set (c0 := with_cn_closed true c). unfold Connection_destructor. rewrite own_part.
      2: { pose proof (ow_nodup _ _ W2) as H. rewrite app_assoc, (Permutation_app_comm (conn_listeners c)) in H.
           rewrite <- app_assoc in H. by apply list.NoDup_app in H as (_ & _ & H). }
      assert (objects_wf (conn_listeners c0) c0) as W2' by (by destruct W2; split).
      match goal with |- context [?k (closing ?ls ?s)] => set (c1 := closing ls s) end.
      rewrite (mbind_ok _ _ _ _ _ eq_refl).
      destruct (shutdown_all [] e (map_to_list (cn_channels c1)) c1) as (c2 & E2 & V2 & O2 & _ & S2).
      { exact (own_closed_objects c0 _ _ _ W2'). }
      { intros id a Hin%elem_of_map_to_list. destruct (rw_objs c W1 id a Hin) as (ch & Hch & _). by eexists. }
      rewrite (mbind_ok _ _ _ _ _ E2). destruct O2 as (o & l & g & -> & Hlen & Hsub).
      eexists. split; [done|]. split; [exact Hlen|]. split_and!; [split|..]; simpl; try done.
      + intros id a Ha. apply (S2 id a). by apply elem_of_map_to_list.
      + intros x Hx. apply Hsub. simpl. change (conn_listeners c0) with (conn_listeners c).
        apply elem_of_app. left. by apply elem_of_reverse.
      + by eexists.
      + by destruct V2; split. }
  exists c'. split_and!; [done| |done|by destruct (cn_shut c); [|apply H]].
  destruct (cn_shut c) eqn:Hs; [by subst c'|]. destruct H as (T & O & N & F).
  destruct (td_closed _ _ T) as [T1 T2], (td_registry _ _ T) as [T3 T4].
  destruct (maintains_Connection_shutdown e c tt c' E) as [R _].
  split; [auto| |congruence|congruence|congruence|by rewrite F]. unfold own_listeners. by rewrite T2.
Qed.
