(* ===== verification/Follows.v ===== *)
(** * Follows: what outlives a call

    A Go channel registered with a [Notify] method stays registered until its
    owner is shut down, which closes it; a channel stays in confirm mode; and
    a listener for confirmations is sent consecutive tags until it is closed.
    [follows] states this of a connection before and after any number of
    calls, frames and goroutine steps. *)

From S2P Require Import Prelude Types Io SpecConnection SpecChannel SpecBasic Spec091 Frame.
From S2P Require Import Allocator Confirms Delivery Consumers Auth State Channel ChannelFacts.
From S2P Require Import ChannelApi Connection ConnectionFacts Registry Shutdown.

(** ** Confirmations *)

Record confirms_follow (k k' : confirms) : Prop := {
  kf_expecting : expecting k <= expecting k';
  kf_closed : forall l, lclosed k l = true -> lclosed k' l = true /\ sent k' l = sent k l;
  kf_sent : forall l, l ∈ listeners k -> exists new,
    sent k' l = sent k l ++ new /\ DeliveryTag <$> new = seqZ (expecting k) (len new) /\
    expecting k + len new <= expecting k' /\
    (l ∈ listeners k' /\ expecting k' = expecting k + len new \/ lclosed k' l = true)
}.

Lemma confirms_follow_quiet k k' :
  listeners k' = listeners k -> chans k' = chans k -> expecting k' = expecting k -> confirms_follow k k'.
Proof.
  intros E1 E2 E3. unfold lclosed, sent, chan_of. split; unfold lclosed, sent, chan_of.
  - lia.
  - by rewrite E2.
  - intros l Hl. exists []. rewrite app_nil_r, E1, E2, E3. change (len []) with 0. split_and!; [done|done|lia|].
    left. split; [done|lia].
Qed.

Lemma confirms_follow_refl k : confirms_follow k k.
Proof. by apply confirms_follow_quiet. Qed.

Lemma confirms_follow_trans k1 k2 k3 :
  confirms_follow k1 k2 -> confirms_follow k2 k3 -> confirms_follow k1 k3.
Proof.
  intros [E1 C1 S1] [E2 C2 S2]. split; [lia| |].
  - intros l H1. destruct (C1 l H1) as [H2 S]. destruct (C2 l H2) as [H3 S']. by rewrite S', S.
  - intros l Hl. destruct (S1 l Hl) as (n1 & N1 & T1 & B1 & [[L1 X1]|L1]).
    + destruct (S2 l L1) as (n2 & N2 & T2 & B2 & H2). exists (n1 ++ n2). rewrite N2, N1, app_assoc, fmap_app, T1, T2.
      rewrite len_app, seqZ_app by apply len_nonneg. rewrite X1 in *. split_and!; [done|done|lia|].
      destruct H2 as [[L2 X2]|L2]; [left|by right]. split; [done|lia].
    + destruct (C2 l L1) as [L2 S]. exists n1. rewrite S. split_and!; [done|done|lia|by right].
Qed.

(** What is sent to the listeners when confirmations arrive. *)
Lemma progresses_follow k k' : confirms_wf k -> progresses k k' ->
  (forall l, l ∉ listeners k -> sent k' l = sent k l) -> confirms_follow k k'.
Proof.
  intros Hwf (L & C & E & new & T & S) Hn. split; [done| |].
  - intros l Hl. rewrite C. split; [done|]. apply Hn. intros Hin. rewrite (cw_open k Hwf l Hin) in Hl. done.
  - intros l Hl. exists new. assert (len new = expecting k' - expecting k) as Hlen.
    { unfold len. rewrite <- (length_fmap DeliveryTag), T, length_seqZ. lia. }
    rewrite Hlen. split_and!; [by apply S|done|lia|]. left. rewrite L. split; [done|lia].
Qed.

(** [delivers] leaves other Go channels alone. *)
Lemma delivers_others k new k' l : delivers k new k' -> l ∉ listeners k -> sent k' l = sent k l.
Proof. intros [_ S _ _] Hl. by rewrite S, decide_False, app_nil_r. Qed.

Lemma advances_follow k new k' : confirms_wf k -> advances k new k' -> confirms_follow k k'.
Proof.
  intros Hwf Ha. apply progresses_follow; [done|by eapply advances_progresses|].
  intros l. by eapply delivers_others, Ha.
Qed.

Lemma resolved_follow ack R k k' : resolved ack R k k' -> confirms_follow k k'.
Proof. intros [E _ _]. rewrite E. by apply confirms_follow_quiet. Qed.

Lemma confirmed_follow (multiple : bool) x k k' :
  confirms_wf k -> published k < 2 ^ 64 - 1 -> 0 <= DeliveryTag x < 2 ^ 64 - 1 ->
  (if multiple then Multiple else One) x k = Ok k' -> confirms_follow k k'.
Proof.
  intros Hwf Hp Hx E. destruct multiple.
  - destruct (Multiple_spec x k) as (c1 & c2 & k2 & n1 & n2 & Hr & H1 & _ & _ & E' & H2); [done..|].
    rewrite E' in E. injection E as <-. pose proof (resolved_wf _ _ _ _ Hr Hwf) as Hwf1.
    eapply confirms_follow_trans; [by eapply resolved_follow|].
    eapply confirms_follow_trans; eapply advances_follow; try done. apply H1.
  - destruct (One_spec x k) as (c1 & c2 & k2 & Hr & H2 & E' & new & Had & _); [done..|].
    rewrite E' in E. injection E as <-. pose proof (resolved_wf _ _ _ _ Hr Hwf) as Hwf1.
    eapply confirms_follow_trans; [by eapply resolved_follow|].
    destruct (_ =? _); [|subst c2; destruct Had as [W D C S F]].
    + eapply confirms_follow_trans; eapply advances_follow; try done. apply H2.
    + apply progresses_follow; [done| |].
      * destruct D as [DL DS DC DP], C as [CT CE]. pose proof (len_nonneg new).
        split_and!; [done|done|simpl in *; lia|]. exists new. simpl in *.
        replace (expecting k2 - expecting c1) with (len new) by lia. split; [done|].
        intros l Hl. by rewrite DS, decide_True.
      * intros l Hl. exact (delivers_others _ _ _ l D Hl).
Qed.

Lemma Close_follow k k' : confirms_wf k -> confirms_Close k = Ok k' ->
  confirms_follow k k' /\ forall l, l ∈ listeners k -> lclosed k' l = true.
Proof.
  intros Hwf E. destruct (resolve_table false (fun _ => true) k Hwf) as (k1 & E1 & H1).
  pose proof (resolved_wf _ _ _ _ H1 Hwf) as Hwf1. pose proof (rs_rest _ _ _ _ H1) as Er.
  destruct (close_all (listeners k1) k1) as (ch & E2 & Hch); [apply Hwf1|apply Hwf1|].
  revert E. unfold confirms_Close, deferred_Close.
  replace (for_each (resolve false) (map_to_list (confirmations k)) k) with (Ok k1) by (symmetry; exact E1).
  cbn [obind]. rewrite E2. cbn [obind]. intros [= <-].
  assert (forall l, l ∈ listeners k -> lclosed (set_listeners [] (set_chans ch k1)) l = true) as Hc.
  { intros l Hl. unfold lclosed.
    change (chan_of (set_listeners [] (set_chans ch k1)) l) with (chan_of (set_chans ch k1) l). rewrite Hch. simpl.
    by rewrite bool_decide_eq_true_2 by (by rewrite Er). }
  split; [|done]. apply (confirms_follow_trans _ k1); [by eapply resolved_follow|].
  assert (listeners k1 = listeners k) as El by (by rewrite Er). split; [simpl; lia| |].
  - intros l Hl. unfold lclosed, sent.
    change (chan_of (set_listeners [] (set_chans ch k1)) l) with (chan_of (set_chans ch k1) l). rewrite Hch. simpl.
    by rewrite Hl, orb_true_r.
  - intros l Hl. exists []. rewrite app_nil_r. change (len []) with 0.
    split_and!; [|done|simpl; lia|right; apply Hc; congruence].
    unfold sent at 1. change (chan_of (set_listeners [] (set_chans ch k1)) l) with (chan_of (set_chans ch k1) l).
    by rewrite Hch.
Qed.

Lemma Listen_follow l k : confirms_follow k (Listen l k).
Proof.
  split; simpl; [lia|done|]. intros x Hx. exists []. rewrite app_nil_r. change (len []) with 0.
  split_and!; [done|done|simpl; lia|]. left. split; [set_solver|simpl; lia].
Qed.

(** Closing a Go channel that listens to nothing. *)
Lemma chan_close_follow l k :
  l ∉ listeners k -> confirms_follow k (set_chans (<[l := MkChan (sent k l) true]> (chans k)) k).
Proof.
  intros Hl. unfold lclosed, sent. split; simpl; [lia| |].
  - intros x Hx. unfold lclosed, sent. rewrite chan_of_insert. case_decide; [by subst|done].
  - intros x Hx. exists []. rewrite app_nil_r. change (len []) with 0. unfold sent, lclosed.
    rewrite chan_of_insert, decide_False by (by intros ->). split_and!; [done|done|simpl; lia|]. left. split; [done|simpl; lia].
Qed.

(** ** Consumers *)

(** What a consumer's goroutine received and handed over only grows, and stays
    once it has returned. *)
Record buffer_follows (b b' : buffer) : Prop := {
  bf_out : b_out b `prefix_of` b_out b';
  bf_recv : b_recv b `prefix_of` b_recv b';
  bf_finished : b_phase b = Finished -> b_phase b' = Finished /\ b_out b' = b_out b
}.

#[export] Instance buffer_follows_preorder : PreOrder buffer_follows.
Proof.
  split; [by intros b|]. intros b1 b2 b3 [O1 R1 F1] [O2 R2 F2]. split; [by etrans|by etrans|].
  intros H. destruct (F1 H) as [H1 E1], (F2 H1) as [H2 E2]. split; [done|congruence].
Qed.

Definition bufs_follow (k k' : consumers) : Prop :=
  forall i b, c_bufs k !! i = Some b -> exists b', c_bufs k' !! i = Some b' /\ buffer_follows b b'.

#[export] Instance bufs_follow_preorder : PreOrder bufs_follow.
Proof.
  split; [intros k i b Hb; by exists b|]. intros k1 k2 k3 H1 H2 i b Hb.
  destruct (H1 i b Hb) as (b1 & Hb1 & F1), (H2 i b1 Hb1) as (b2 & Hb2 & F2). exists b2. split; [done|by etrans].
Qed.

(** One goroutine changes. *)
Lemma bufs_follow_insert k k' i b b' :
  c_bufs k !! i = Some b -> buffer_follows b b' -> c_bufs k' = <[i := b']> (c_bufs k) -> bufs_follow k k'.
Proof.
  intros Hi F E j x Hj. rewrite E. destruct (decide (i = j)) as [<-|Hne].
  - exists b'. rewrite list_lookup_insert_eq by (by eapply lookup_lt_Some). assert (x = b) as -> by congruence. done.
  - exists x. by rewrite list_lookup_insert_ne.
Qed.

Lemma close_chan_follows i k k' : close_chan i k = Ok k' -> bufs_follow k k'.
Proof.
  unfold close_chan. destruct (c_bufs k !! i) as [b|] eqn:Hb; [|done]. destruct (b_in_closed b); [done|].
  intros [= <-]. by apply (bufs_follow_insert _ _ i b (close_in b)).
Qed.

Lemma buffer_receive_follows d b b' : buffer_receive d b = Some b' -> buffer_follows b b'.
Proof.
  unfold buffer_receive. destruct (b_in_closed b); [done|].
  destruct (b_phase b) eqn:Hp; [|destruct (b_inflight b); [|done]|done]; intros [= <-];
    (split; [done|by apply prefix_app_r|congruence]).
Qed.

Lemma buffer_step_follows closed b b' : buffer_step closed b b' -> buffer_follows b b'.
Proof.
  unfold buffer_step, buffer_choices. destruct (b_phase b) eqn:Hp.
  - destruct (b_in_closed b); [|by intros ?%not_elem_of_nil]. intros ->%list_elem_of_singleton. split; [done|done|congruence].
  - rewrite !elem_of_app. intros [H|[H|H]].
    + destruct closed; [|by apply not_elem_of_nil in H]. apply list_elem_of_singleton in H as ->. split; [done|done|congruence].
    + destruct (_ && _); [|by apply not_elem_of_nil in H]. apply list_elem_of_singleton in H as ->. split; [done|done|congruence].
    + destruct (b_queue b); [by apply not_elem_of_nil in H|]. apply list_elem_of_singleton in H as ->.
      split; [by apply prefix_app_r|done|congruence].
  - by intros ?%not_elem_of_nil.
Qed.

Lemma consumers_step_follows k k' : consumers_step k k' -> bufs_follow k k'.
Proof.
  intros Hs. destruct Hs as [tag k k' E|tag r k k' E|tag msg r k k' E|k k' E|i b b' k Hi Hs].
  - unfold consumers_add in E. apply obind_inv in E as (k1 & E1 & E). injection E as <-.
    assert (bufs_follow k k1) as F by (destruct (c_chans k !! tag); [by eapply close_chan_follows|by injection E1 as <-]).
    etrans; [exact F|]. intros i b Hb. exists b. simpl. split; [by apply lookup_app_l_Some|done].
  - unfold consumers_cancel in E. destruct (c_chans k !! tag) as [i|]; [|by injection E as _ <-].
    apply obind_inv in E as (k1 & E1 & E). injection E as _ <-. by apply close_chan_follows in E1.
  - unfold consumers_send in E. destruct (c_chans k !! tag) as [i|]; [|by injection E as _ <-].
    destruct (c_bufs k !! i) as [b|] eqn:Hb; [|done]. simpl in E. destruct (buffer_receive msg b) as [b'|] eqn:Er; [|done].
    injection E as _ <-. apply (bufs_follow_insert _ _ i b b'); [done|by eapply buffer_receive_follows|done].
  - unfold consumers_close in E. destruct (c_closed k); [done|].
    change (bufs_follow k ?x) with (bufs_follow (MkConsumers true (c_chans k) (c_bufs k)) x).
    revert E. generalize (MkConsumers true (c_chans k) (c_bufs k)). induction (map_to_list (c_chans k)) as [|kv kvs IH]; intros k1 E.
    + by injection E as <-.
    + cbn [for_each] in E. apply obind_inv in E as (k2 & E2 & E). etrans; [|by apply IH]. by apply close_chan_follows in E2.
  - apply (bufs_follow_insert _ _ i b b'); [done|by eapply buffer_step_follows|done].
Qed.

(** ** Channels *)

(** [closed] are the Go channels that are closed afterwards. *)
Record chan_follows (closed : list listener) (ch ch' : Channel) : Prop := {
  cf_evolves : channel_evolves ch ch';
  cf_confirming : ch_confirming ch = true -> ch_confirming ch' = true;
  cf_confirms : confirms_follow (ch_confirms ch) (ch_confirms ch');
  cf_listeners : ch_shut ch' = false -> chan_listeners ch ⊆ chan_listeners ch';
  cf_closed : ch_shut ch = false -> ch_shut ch' = true ->
    chan_listeners ch ⊆ closed /\ forall l, l ∈ listeners (ch_confirms ch) -> lclosed (ch_confirms ch') l = true;
  cf_consumers : bufs_follow (ch_consumers ch) (ch_consumers ch')
}.

Lemma chan_follows_refl closed ch : chan_follows closed ch ch.
Proof. split; [done|done|apply confirms_follow_refl|done|congruence|done]. Qed.

Lemma chan_follows_mono closed closed' ch ch' :
  closed ⊆ closed' -> chan_follows closed ch ch' -> chan_follows closed' ch ch'.
Proof. intros Hs [H1 H2 H3 H4 H5 H6]. split; try done. intros A B. destruct (H5 A B). split; [by etrans|done]. Qed.

Lemma chan_follows_trans closed ch1 ch2 ch3 :
  chan_follows closed ch1 ch2 -> chan_follows closed ch2 ch3 -> chan_follows closed ch1 ch3.
Proof.
  intros [(V1 & V2 & V3) B1 C1 D1 E1 K1] [(W1 & W2 & W3) B2 C2 D2 E2 K2].
  assert (ch_shut ch3 = false -> ch_shut ch2 = false) as Hs by (destruct (ch_shut ch2); [|done]; intros; rewrite W3 in *; done).
  split; [split_and!; [congruence|auto|auto]|auto|by eapply confirms_follow_trans| | |by etrans].
  - intros H3. etrans; [by apply D1, Hs|by apply D2].
  - intros H1 H3. destruct (ch_shut ch2) eqn:H2.
    + destruct (E1 H1 eq_refl) as [L K]. split; [done|]. intros l Hl. by apply (kf_closed _ _ C2 l), K.
    + destruct (E2 eq_refl H3) as [L K]. specialize (D1 eq_refl). split; [by etrans|].
      intros l Hl. destruct (kf_sent _ _ C1 l Hl) as (new & _ & _ & _ & [[Hl' _]|Hl']); [by apply K|].
      by apply (kf_closed _ _ C2 l).
Qed.

(** A change that leaves the listeners alone. *)
Lemma chan_follows_same closed ch ch' :
  channel_evolves ch ch' -> (ch_confirming ch = true -> ch_confirming ch' = true) -> ch_shut ch' = ch_shut ch ->
  confirms_follow (ch_confirms ch) (ch_confirms ch') -> chan_listeners ch ⊆ chan_listeners ch' ->
  bufs_follow (ch_consumers ch) (ch_consumers ch') -> chan_follows closed ch ch'.
Proof. intros H1 H2 H3 H4 H5 H6. split; [done|done|done|done|congruence|done]. Qed.

Lemma shut_down_follows closed e ch ch' :
  channel_wf ch -> shut_down e ch ch' -> chan_listeners ch ⊆ closed ->
  chan_follows closed ch ch'.
Proof.
  intros W [D1 D2 D3 D4 D5 D6 Hc] Hl. destruct (Close_follow _ _ (hw_confirms _ W) D5) as [Hk Hs].
  split; [|congruence|done|congruence|done|by eapply consumers_step_follows, step_close].
  split_and!; [done|intros _; by apply (hw_shut _ D1)|done].
Qed.

(** ** Connections *)

Record follows (c c' : Connection) : Prop := {
  fo_closed : cn_closed c = true -> cn_closed c' = true;
  fo_shut : cn_shut c = true -> cn_shut c' = true;
  fo_lclosed : cn_lclosed c ⊆ cn_lclosed c';
  fo_own : conn_listeners c ⊆ conn_listeners c';
  fo_own_closed : cn_shut c = false -> cn_shut c' = true -> conn_listeners c ⊆ cn_lclosed c';
  fo_objs : forall a ch, cn_objs c !! a = Some ch ->
    exists ch', cn_objs c' !! a = Some ch' /\ chan_follows (cn_lclosed c') ch ch'
}.

Lemma follows_trans c1 c2 c3 : follows c1 c2 -> follows c2 c3 -> follows c1 c3.
Proof.
  intros [A1 B1 C1 D1 E1 F1] [A2 B2 C2 D2 E2 F2]. split; [auto|auto|by etrans|by etrans| |].
  - intros H1 H3. destruct (cn_shut c2) eqn:H2; [etrans; [by apply E1|done]|etrans; [done|by apply E2]].
  - intros a ch Ha. destruct (F1 a ch Ha) as (ch1 & H1 & V1), (F2 a ch1 H1) as (ch2 & H2 & V2).
    exists ch2. split; [done|]. eapply chan_follows_trans; [by eapply chan_follows_mono|done].
Qed.

(** The same channels and listeners, apart from new channels. *)
Lemma follows_quiet c c' new :
  (cn_closed c = true -> cn_closed c' = true) -> cn_shut c' = cn_shut c -> cn_lclosed c ⊆ cn_lclosed c' ->
  conn_listeners c ⊆ conn_listeners c' -> cn_objs c' = cn_objs c ++ new -> follows c c'.
Proof.
  intros H1 H2 H3 H4 H5. split; [done|congruence|done|done|congruence|].
  intros a ch Ha. exists ch. rewrite H5. split; [by apply lookup_app_l_Some|apply chan_follows_refl].
Qed.

Lemma follows_refl c : follows c c.
Proof. apply (follows_quiet c c []); [done..|by rewrite app_nil_r]. Qed.

#[export] Instance follows_preorder : PreOrder follows.
Proof. split; [exact follows_refl|intros ???; apply follows_trans]. Qed.

Lemma follows_length c c' : follows c c' -> (length (cn_objs c) <= length (cn_objs c'))%nat.
Proof.
  intros H. destruct (decide (length (cn_objs c) <= length (cn_objs c'))%nat) as [|Hn]; [done|].
  destruct (lookup_lt_is_Some_2 (cn_objs c) (length (cn_objs c'))) as [ch Hch]; [lia|].
  destruct (fo_objs _ _ H _ _ Hch) as (ch' & H' & _). apply lookup_lt_Some in H'. lia.
Qed.

(** Replacing one channel. *)
Lemma set_chan_follows a ch ch' c :
  cn_objs c !! a = Some ch -> chan_follows (cn_lclosed c) ch ch' -> follows c (set_chan a ch' c).
Proof.
  intros Ha Hf. pose proof (lookup_lt_Some _ _ _ Ha) as Hlt. split; try done; [simpl; congruence|].
  intros b x Hb. simpl. destruct (decide (a = b)) as [<-|Hab].
  - rewrite list_lookup_insert_eq by done. replace x with ch by congruence. eauto.
  - rewrite list_lookup_insert_ne by done. eauto using chan_follows_refl.
Qed.

(** More listeners of the connection. *)
Lemma add_own_follows cl bl c :
  cn_closes c ⊆ cl -> cn_blocks c ⊆ bl -> follows c (with_cn_listeners cl bl c).
Proof.
  intros H1 H2. apply (follows_quiet _ _ []); try done; [|by simpl; rewrite app_nil_r].
  unfold conn_listeners. simpl. set_solver.
Qed.

(** ** Shutting down *)

Lemma after_shutdown_follows a e ch ch' c :
  cn_objs c !! a = Some ch -> channel_wf ch -> shut_down e ch ch' -> follows c (after_shutdown a e ch ch' c).
Proof.
  intros Ha W Hd. unfold after_shutdown. set (c1 := closing _ _).
  apply (follows_trans _ c1).
  - apply (follows_quiet _ _ []); try done; simpl; [set_solver|by rewrite app_nil_r].
  - apply (set_chan_follows a ch); [done|]. eapply shut_down_follows; [done|done|].
    intros l Hl. simpl. apply elem_of_app. left. by apply elem_of_reverse.
Qed.

Lemma Channel_shutdown_follows own a e c ch c' :
  objects_wf own c -> cn_objs c !! a = Some ch -> Channel_shutdown a e c = Ok (tt, c') -> follows c c'.
Proof.
  intros Hwf Ha E. destruct (Channel_shutdown_ok own a e c ch Hwf Ha) as (c1 & E1 & _ & H).
  assert (c1 = c') as -> by congruence. destruct (ch_shut ch); [subst; apply follows_refl|].
  destruct H as (ch' & -> & Hd). apply after_shutdown_follows; [done|by apply (ow_channels _ _ Hwf a)|done].
Qed.

Lemma shutdown_all_follows own e kvs c c' :
  objects_wf own c -> (forall id a, (id, a) ∈ kvs -> is_Some (cn_objs c !! a)) ->
  mfor (fun kv : Z * nat => Channel_shutdown (snd kv) e) kvs c = Ok (tt, c') -> follows c c'.
Proof.
  revert c. induction kvs as [|[id a] kvs IH]; intros c Hwf Hin E.
  - injection E as <-. apply follows_refl.
  - cbn [mfor snd] in E. apply mbind_inv in E as ([] & c1 & E1 & E).
    destruct (Hin id a) as [ch Ha]; [by left|].
    assert (follows c c1) as F by (by eapply Channel_shutdown_follows).
    destruct (Channel_shutdown_ok own a e c ch Hwf Ha) as (c2 & E2 & W & _).
    assert (c2 = c1) as -> by congruence.
    apply (follows_trans _ c1); [done|]. apply IH; [done| |done]. intros id' a' Hi.
    destruct (Hin id' a') as [x Hx]; [by right|]. destruct (fo_objs _ _ F _ _ Hx) as (y & Hy & _). by eexists.
Qed.

(** Marking a connection as shut down whose listeners are closed. *)
Lemma with_cn_shut_follows c : conn_listeners c ⊆ cn_lclosed c -> follows c (with_cn_shut c).
Proof. intros H. split; try done. intros a ch Ha. exists ch. split; [done|apply chan_follows_refl]. Qed.

Lemma Connection_shutdown_follows e c c' :
  conn_wf c -> Connection_shutdown e c = Ok (tt, c') -> follows c c'.
Proof.
  intros Hwf E. unfold Connection_shutdown in E.
  rewrite (mbind_ok _ _ _ _ _ eq_refl), (mbind_ok _ _ _ _ _ eq_refl) in E. cbn [cn_shut with_cn_closed] in E.
  set (c0 := with_cn_closed true c) in E.
  assert (follows c c0) as F0 by (by apply (follows_quiet _ _ []); try done; simpl; rewrite app_nil_r).
  pose proof (sw_objects c Hwf) as W2. unfold own_listeners in W2.
  destruct (cn_shut c) eqn:Hs; [by injection E as <-|]. unfold Connection_destructor in E. rewrite own_part in E.
  2: { pose proof (ow_nodup _ _ W2) as H. rewrite app_assoc, (Permutation_app_comm (conn_listeners c)) in H.
       rewrite <- app_assoc in H. by apply list.NoDup_app in H as (_ & _ & H). }
  assert (objects_wf (conn_listeners c0) c0) as W2' by (by destruct W2; split).
  pose proof (own_closed_objects c0 (cn_log c0 ++ notices e (LClose <$> cn_closes c0))
    (cn_errors c0 ++ option_list e) true W2') as W1.
  set (c1 := closing (conn_listeners c0) _) in *.
  assert (follows c0 c1 /\ conn_listeners c1 ⊆ cn_lclosed c1) as [F1 Hl].
  { split; [apply (follows_quiet _ _ []); try done; simpl; [set_solver|by rewrite app_nil_r]|].
    intros l Hl. simpl. apply elem_of_app. left. by apply elem_of_reverse. }
  rewrite (mbind_ok _ _ _ _ _ eq_refl) in E. apply mbind_inv in E as ([] & c2 & E2 & E).
  assert (forall id a, (id, a) ∈ map_to_list (cn_channels c1) -> is_Some (cn_objs c1 !! a)) as Hobj.
  { intros id a Hin%elem_of_map_to_list. destruct (rw_objs c (sw_registry c Hwf) id a Hin) as (ch & Hch & _). by eexists. }
  pose proof (shutdown_all_follows [] e _ c1 c2 W1 Hobj E2) as F2.
  destruct (shutdown_all [] e _ c1 W1 Hobj) as (c3 & E3 & _ & O3 & _). assert (c3 = c2) as -> by congruence.
  assert (conn_listeners c2 = conn_listeners c1) as El by (by destruct O3 as (o & l & g & -> & _)).
  rewrite (mbind_ok _ _ _ _ _ eq_refl), (mbind_ok _ _ _ _ _ eq_refl) in E. injection E as <-.
  apply (follows_trans _ c2); [by apply (follows_trans _ c0), (follows_trans _ c1)|].
  set (c4 := with_registry _ _ _). apply (follows_trans _ c4).
  - by apply (follows_quiet _ _ []); try done; simpl; rewrite app_nil_r.
  - apply with_cn_shut_follows. change (conn_listeners c2 ⊆ cn_lclosed c2). rewrite El.
    etrans; [exact Hl|apply F2].
Qed.
