(* ===== verification/Safety.v ===== *)
(** * Safety: calls return

    Between calls a connection is in order ([conn_wf]); every call that its
    caller and the peer make within the limits of the code returns, without
    a panic, and leaves it in order. *)

From S2P Require Import Prelude Types Io SpecConnection SpecChannel SpecBasic Spec091 Frame.
From S2P Require Import Allocator Confirms Delivery Consumers Auth State Channel ChannelFacts.
From S2P Require Import ChannelApi Connection ConnectionFacts Registry Shutdown Follows.

(** ** Returning *)

(** [m] returns in [c], to a state in order that follows [c]. *)
Definition returns {A} (m : M A) (c : Connection) : Prop :=
  exists x c', m c = Ok (x, c') /\ conn_wf c' /\ follows c c'.

(** ... whenever there are at least [n] channels. *)
Definition safe {A} (n : nat) (m : M A) : Prop :=
  forall c, conn_wf c -> (n <= length (cn_objs c))%nat -> returns m c.

(** After first steps to [c1]. *)
Lemma returns_from {A} (m : M A) (m' : M A) c c1 :
  m c = m' c1 -> follows c c1 -> returns m' c1 -> returns m c.
Proof.
  intros E F (x & c' & E' & W & F'). exists x, c'. split_and!; [congruence|done|by etrans].
Qed.

Create HintDb safe discriminated.

Lemma safe_bind {A B} n (m : M A) (k : A -> M B) :
  safe n m -> (forall a, safe n (k a)) -> safe n (mbind m k).
Proof.
  intros Hm Hk c Hwf Hn. destruct (Hm c Hwf Hn) as (a & c1 & E1 & W1 & N1).
  destruct (Hk a c1 W1) as (b & c2 & E2 & W2 & N2); [by etrans; [|apply follows_length]|]. exists b, c2.
  rewrite (mbind_ok _ _ _ _ _ E1). split_and!; [done|done|by etrans].
Qed.

Lemma safe_mret {A} n (x : A) : safe n (mret x).
Proof. intros c Hwf Hn. by exists x, c. Qed.
Lemma safe_gets {A} n (f : Connection -> A) : safe n (gets f).
Proof. intros c Hwf Hn. by exists (f c), c. Qed.

(** Changes that do not touch what [conn_wf] speaks of. *)
Definition same_core (c c' : Connection) : Prop :=
  cn_closed c' = cn_closed c /\ cn_shut c' = cn_shut c /\ cn_noNotify c' = cn_noNotify c /\
  cn_closes c' = cn_closes c /\ cn_blocks c' = cn_blocks c /\ cn_channels c' = cn_channels c /\
  cn_allocator c' = cn_allocator c /\ cn_FrameSize c' = cn_FrameSize c /\ cn_objs c' = cn_objs c /\
  cn_lclosed c' = cn_lclosed c.

Lemma same_core_wf c c' : same_core c c' -> conn_wf c -> conn_wf c'.
Proof.
  intros (E1 & E2 & E3 & E4 & E5 & E6 & E7 & E8 & E9 & E10) [W1 [V1 V2] W3 W4 W5 W6].
  split; [| |by rewrite E1, E7|congruence|congruence|by rewrite E8].
  - destruct W1 as [R1 R2 R3]. split; rewrite E6, ?E7, ?E9; done.
  - unfold own_listeners, conn_listeners in *. rewrite E2, E4, E5. split; rewrite E9, ?E10; done.
Qed.

Lemma same_core_follows c c' : same_core c c' -> follows c c'.
Proof.
  intros (E1 & E2 & E3 & E4 & E5 & E6 & E7 & E8 & E9 & E10).
  apply (follows_quiet _ _ []); unfold conn_listeners; rewrite ?E1, ?E2, ?E4, ?E5, ?E9, ?E10, ?app_nil_r; done.
Qed.

Lemma safe_modify n f : (forall c, same_core c (f c)) -> safe n (modify f).
Proof.
  intros Hf c Hwf Hn. exists tt, (f c). split_and!; [done|by eapply same_core_wf|by apply same_core_follows].
Qed.

(** Replacing one channel. *)
Definition good_change (ch ch' : Channel) : Prop :=
  channel_wf ch' /\ (forall closed, chan_follows closed ch ch') /\ chan_listeners ch' = chan_listeners ch.

(** Most changes leave confirm mode and the confirmations alone. *)
Lemma good_same ch ch' :
  channel_wf ch' -> channel_evolves ch ch' -> ch_shut ch' = ch_shut ch ->
  ch_confirming ch' = ch_confirming ch -> ch_confirms ch' = ch_confirms ch ->
  chan_listeners ch' = chan_listeners ch -> bufs_follow (ch_consumers ch) (ch_consumers ch') -> good_change ch ch'.
Proof.
  intros W E Hs Hc Hk Hl Hb. split_and!; [done| |done]. intros closed.
  apply chan_follows_same; [done|congruence|done|rewrite Hk; apply confirms_follow_refl|by rewrite Hl|done].
Qed.

Lemma set_chan_registry a ch ch' c :
  registry_wf c -> cn_objs c !! a = Some ch -> ch_id ch' = ch_id ch -> registry_wf (set_chan a ch' c).
Proof.
  intros [R1 R2 R3] Ha Hid. pose proof (lookup_lt_Some _ _ _ Ha). split; simpl; [done|done|].
  intros id b Hb. destruct (R3 id b Hb) as (x & Hx & <-). destruct (decide (a = b)) as [<-|Hab].
  - exists ch'. rewrite list_lookup_insert_eq by done. split; [done|]. congruence.
  - exists x. by rewrite list_lookup_insert_ne.
Qed.

Lemma set_chan_wf a ch ch' c :
  conn_wf c -> cn_objs c !! a = Some ch -> good_change ch ch' -> conn_wf (set_chan a ch' c).
Proof.
  intros [W1 W2 W3 W4 W5 W6] Ha (H1 & H2 & H3).
  assert (ch_id ch' = ch_id ch) by apply (cf_evolves _ _ _ (H2 [])).
  split; try done; [by eapply set_chan_registry|by eapply (set_chan_objects (own_listeners c) c a ch)].
Qed.

Lemma chan_of_bound a n c : conn_wf c -> (a < n)%nat -> (n <= length (cn_objs c))%nat ->
  exists ch, cn_objs c !! a = Some ch /\ channel_wf ch.
Proof.
  intros Hwf Ha Hn. destruct (lookup_lt_is_Some_2 (cn_objs c) a) as [ch Hch]; [lia|].
  exists ch. split; [done|]. exact (ow_channels _ _ (sw_objects c Hwf) a ch Hch).
Qed.

Lemma set_returns {A} a ch ch' c (x : A) m :
  conn_wf c -> cn_objs c !! a = Some ch -> good_change ch ch' ->
  m c = Ok (x, set_chan a ch' c) -> returns m c.
Proof.
  intros Hwf Ha Hg E. exists x, (set_chan a ch' c). split_and!; [done|by eapply set_chan_wf|].
  eapply set_chan_follows; [done|apply Hg].
Qed.

Lemma safe_get {B} n a (k : Channel -> M B) :
  (a < n)%nat -> (forall ch, channel_wf ch -> safe n (k ch)) -> safe n (mbind (get_chan a) k).
Proof.
  intros Ha Hk c Hwf Hn. destruct (chan_of_bound a n c Hwf Ha Hn) as (ch & Hch & W).
  destruct (Hk ch W c Hwf Hn) as (x & c' & E & H). exists x, c'.
  by rewrite (mbind_ok _ _ _ _ _ (get_chan_ok _ _ _ Hch)).
Qed.

Lemma safe_upd n a f :
  (a < n)%nat -> (forall ch, channel_wf ch -> good_change ch (f ch)) -> safe n (upd_chan a f).
Proof.
  intros Ha Hf c Hwf Hn. destruct (chan_of_bound a n c Hwf Ha Hn) as (ch & Hch & W).
  eapply set_returns; [done|done|by apply Hf|]. by apply upd_chan_ok.
Qed.

(** Computing a part of a channel anew. *)
Lemma safe_lift_upd {B} n a (F : Channel -> outcome B) (G : B -> Channel -> Channel) :
  (a < n)%nat ->
  (forall ch, channel_wf ch -> exists x, F ch = Ok x /\ good_change ch (G x ch)) ->
  safe n (do ch <- get_chan a; do x <- mlift (F ch); upd_chan a (G x)).
Proof.
  intros Ha Hf c Hwf Hn. destruct (chan_of_bound a n c Hwf Ha Hn) as (ch & Hch & W).
  destruct (Hf ch W) as (x & Ex & Hg). eapply set_returns; [done|exact Hch|exact Hg|].
  rewrite (mbind_ok _ _ _ _ _ (get_chan_ok _ _ _ Hch)). unfold mlift. rewrite Ex.
  rewrite (mbind_ok _ _ _ _ _ eq_refl). by apply upd_chan_ok.
Qed.

#[export] Hint Resolve safe_mret safe_gets : safe.

(** ** Sending *)

Lemma safe_write n f : safe n (writer_WriteFrameNoFlush f).
Proof.
  intros c Hwf Hn. unfold returns, writer_WriteFrameNoFlush.
  destruct (WriteFrameNoFlush f (cn_buf c)) as [err buf].
  assert (conn_wf (with_writer buf (cn_wire c) c) /\ follows c (with_writer buf (cn_wire c) c)) as []
    by (by split; [apply (same_core_wf c)|apply same_core_follows]).
  destruct err, (cn_transport c); eexists _, _; split_and!; done.
Qed.

Lemma safe_Flush n : safe n writer_Flush.
Proof.
  intros c Hwf Hn. unfold returns, writer_Flush.
  assert (forall c', same_core c c' -> conn_wf c' /\ follows c c') as H
    by (by split; [eapply same_core_wf|apply same_core_follows]).
  destruct (cn_transport c) as [|e|e]; [|destruct (cn_buf c)|]; eexists _, _; split_and!; try done; by apply H.
Qed.
#[export] Hint Resolve safe_write safe_Flush : safe.

(** Walks through a call. *)
Ltac returning :=
  repeat (cbv zeta; first
    [ solve [auto with safe nocore]
    | apply safe_modify; done
    | apply safe_upd; [done|]; solve [auto with safe nocore]
    | match goal with |- safe _ (mbind (get_chan _) _) => apply safe_get; [done|intros ? ?] end
    | match goal with |- safe _ (mbind _ _) => apply safe_bind; [|intros ?] end
    | match goal with |- safe _ (match ?x with _ => _ end) => destruct x end
    | match goal with |- safe _ ?m => let h := get_head m in unfold h end ]).

Lemma safe_Connection_send n f : safe n (Connection_send f).
Proof. returning. Qed.
Lemma safe_sendUnflushed n f : safe n (Connection_sendUnflushed f).
Proof. returning. Qed.
#[export] Hint Resolve safe_Connection_send safe_sendUnflushed : safe.

Lemma safe_send_body n fuel id size body i :
  0 < size -> 0 <= i -> len body - i <= Z.of_nat fuel -> safe n (send_body fuel id size body i (i + size)).
Proof.
  intros Hs. revert i. induction fuel as [|fuel IH]; intros i Hi Hf; cbn [send_body];
    destruct (Z.ltb_spec i (len body)); try apply safe_mret; [lia|].
  cbv zeta. set (j := if len body <? i + size then len body else i + size).
  assert (i < j) by (unfold j; destruct (Z.ltb_spec (len body) (i + size)); lia).
  rewrite (proj2 (Z.ltb_ge j i)) by lia. apply safe_bind; [apply safe_sendUnflushed|].
  intros [e|]; [apply safe_mret|]. apply IH; lia.
Qed.

Lemma safe_send_content n id size msg props body :
  0 < size \/ body = [] -> safe n (send_content id size msg props body).
Proof.
  intros Hs. unfold send_content. apply safe_bind; [apply safe_sendUnflushed|].
  intros [e|]; [apply safe_mret|]. apply safe_bind; [apply safe_sendUnflushed|].
  intros [e|]; [apply safe_mret|]. destruct Hs as [Hs| ->]; [|apply safe_mret].
  apply (safe_send_body n (length body) id size body 0); [done|lia|unfold len; lia].
Qed.

Lemma safe_sendClosed n a msg : (a < n)%nat -> safe n (sendClosed a msg).
Proof. intros Ha. unfold sendClosed. destruct msg; returning. Qed.

Lemma safe_sendOpen n a msg : (a < n)%nat -> safe n (sendOpen a msg).
Proof.
  intros Ha. unfold sendOpen, Channel_IsClosed. destruct (message_getContent msg) as [[props body]|].
  - intros c Hwf Hn. unfold returns. rewrite (mbind_ok _ _ _ _ _ eq_refl). cbv zeta.
    set (size := if 0 <? cn_FrameSize c then cn_FrameSize c - frameHeaderSize else len body).
    assert (0 < size \/ body = []) as Hs.
    { unfold size, frameHeaderSize. pose proof (sw_frame c Hwf) as Hf. unfold frameHeaderSize in Hf.
      destruct (Z.ltb_spec 0 (cn_FrameSize c)); [lia|]. destruct body; [by right|left]. unfold len. simpl. lia. }
    match goal with |- exists x c', ?m c = _ /\ _ => assert (safe n m) as H; [|by apply H] end.
    pose proof (safe_sendClosed n a msg Ha) as Hc. pose proof (fun id => safe_send_content n id size msg props body Hs) as Hsc.
    apply safe_bind; [returning|]. intros [|]; [done|]. apply safe_get; [done|]. intros ch _.
    apply safe_bind; [done|]. intros err. apply safe_bind; [apply safe_Flush|]. intros ?. apply safe_mret.
  - pose proof (safe_sendClosed n a msg Ha) as Hc.
    apply safe_bind; [returning|]. intros [|]; [done|]. returning.
Qed.

Lemma safe_Channel_send n a msg : (a < n)%nat -> safe n (Channel_send a msg).
Proof.
  intros Ha. unfold Channel_send, Channel_IsClosed. apply safe_bind; [returning|].
  intros [|]; [by apply safe_sendClosed|by apply safe_sendOpen].
Qed.
#[export] Hint Resolve safe_Channel_send : safe.

(** ** Shutting down *)

Lemma safe_Connection_shutdown n e : safe n (Connection_shutdown e).
Proof.
  intros c Hwf Hn. destruct (Connection_shutdown_ok e c Hwf) as (c' & E & W & _).
  exists tt, c'. split_and!; [done|done|by eapply Connection_shutdown_follows].
Qed.

Lemma safe_Channel_shutdown n a e : (a < n)%nat -> safe n (Channel_shutdown a e).
Proof.
  intros Ha c Hwf Hn. destruct (chan_of_bound a n c Hwf Ha Hn) as (ch & Hch & W).
  destruct (Channel_shutdown_ok _ a e c ch (sw_objects c Hwf) Hch) as (c' & E & W' & H).
  exists tt, c'. destruct (keeps_Channel_shutdown a e c tt c' E) as (R1 & R2 & R3).
  pose proof (sw_objects c Hwf) as Wo.
  assert (only_objects c c') as (o & l & g & -> & _ & _).
  { destruct (ch_shut ch); [subst; apply only_objects_refl|]. destruct H as (ch' & -> & _).
    apply after_shutdown_only. }
  split_and!; [done| |by eapply Channel_shutdown_follows]. destruct Hwf as [W1 W2 W3 W4 W5 W6].
  split; try done. by eapply same_registry_wf.
Qed.
#[export] Hint Resolve safe_Connection_shutdown safe_Channel_shutdown : safe.

(** Only the registry changes. *)
Lemma with_registry_wf chs al c :
  conn_wf c -> registry_wf (with_registry chs al c) -> is_Some al -> conn_wf (with_registry chs al c).
Proof. intros [W1 [V1 V2] W3 W4 W5 W6] R Ha. by split. Qed.

Lemma releaseChannel_ok a c ch :
  conn_wf c -> cn_closed c = false -> cn_objs c !! a = Some ch -> cn_channels c !! ch_id ch = Some a ->
  exists al, releaseChannel a c = Ok (tt, with_registry (delete (ch_id ch) (cn_channels c)) (Some al) c).
Proof.
  intros Hwf Hc Hch Hr. destruct (Hwf) as [W1 _ W3 _ _ _]. destruct (W3 Hc) as [al Hal].
  destruct (rw_some c W1 al Hal) as (V & L & Hh & D).
  assert (ch_id ch ∈ pool_ids al) as Hin by (rewrite D; by eapply elem_of_dom_2).
  destruct (pool_release_ok al (ch_id ch) V) as (al1 & Er & _).
  { rewrite L. apply elem_of_ids in Hin. change (low al) with (pool_low al) in Hin. lia. }
  change (pool_release al (ch_id ch)) with (release al (ch_id ch)) in Er. exists al1.
  unfold releaseChannel. rewrite (mbind_ok _ _ _ _ _ eq_refl), Hc.
  rewrite (mbind_ok _ _ _ _ _ (get_chan_ok _ _ _ Hch)), (mbind_ok _ _ _ _ _ eq_refl).
  rewrite bool_decide_true by done. rewrite (mbind_ok _ _ _ _ _ eq_refl), Hal.
  unfold mlift, allocator_release. by rewrite Er.
Qed.

Lemma safe_release n a : (a < n)%nat -> safe n (releaseChannel a).
Proof.
  intros Ha c Hwf Hn. destruct (chan_of_bound a n c Hwf Ha Hn) as (ch & Hch & W).
  destruct (decide (cn_closed c = false /\ cn_channels c !! ch_id ch = Some a)) as [[Hc Hr]|Hno].
  - destruct (releaseChannel_ok a c ch Hwf Hc Hch Hr) as (al & E). eexists _, _. split_and!; [exact E| |by apply (follows_quiet _ _ []); try done; simpl; rewrite app_nil_r].
    apply with_registry_wf; [done| |done]. by apply (maintains_release a c tt _ E), sw_registry.
  - exists tt, c. split_and!; [|done|done]. unfold releaseChannel. rewrite (mbind_ok _ _ _ _ _ eq_refl).
    destruct (cn_closed c); [done|]. rewrite (mbind_ok _ _ _ _ _ (get_chan_ok _ _ _ Hch)).
    rewrite (mbind_ok _ _ _ _ _ eq_refl), bool_decide_false by naive_solver. done.
Qed.
#[export] Hint Resolve safe_release : safe.

Lemma safe_closeChannel n a e : (a < n)%nat -> safe n (closeChannel a e).
Proof. intros Ha. returning. Qed.
#[export] Hint Resolve safe_closeChannel : safe.

(** ** Request and reply *)

Lemma good_errors x ch : channel_wf ch -> good_change ch (with_errors x ch).
Proof. intros []. by apply good_same. Qed.
Lemma good_closed ch : channel_wf ch -> good_change ch (with_closed true ch).
Proof.
  intros [W1 W2 W3 W4 W5 W6 W7 W8]. apply good_same; try done. split; try done. simpl. intros H. by destruct (W6 H).
Qed.
Lemma good_confirming ch : channel_wf ch -> good_change ch (with_confirming true ch).
Proof.
  intros []. split_and!; [done| |done]. intros closed. apply chan_follows_same; try done. apply confirms_follow_refl.
Qed.
Lemma good_confirms x ch :
  channel_wf ch -> confirms_wf x -> published x < 2 ^ 64 - 1 -> confirms_follow (ch_confirms ch) x ->
  good_change ch (with_confirms x ch).
Proof. intros [] ? ? ?. split_and!; [done| |done]. intros closed. by apply chan_follows_same. Qed.
#[export] Hint Resolve good_errors good_closed good_confirming : safe.

Lemma safe_Channel_call n a req res r : (a < n)%nat -> safe n (Channel_call a req res r).
Proof. intros Ha. returning. Qed.
#[export] Hint Resolve safe_Channel_call : safe.

Lemma safe_call_ n a req res r : (a < n)%nat -> safe n (call_ a req res r).
Proof. intros Ha. unfold call_. returning. Qed.
#[export] Hint Resolve safe_call_ : safe.

Lemma safe_Connection_call n req res r : safe n (Connection_call req res r).
Proof. returning. Qed.
#[export] Hint Resolve safe_Connection_call : safe.

(** ** Receiving *)

Lemma open_listener a c ch l :
  conn_wf c -> cn_objs c !! a = Some ch -> l ∈ chan_listeners ch -> l ∉ cn_lclosed c.
Proof.
  intros Hwf Ha Hl Hin. pose proof (ow_nodup _ _ (sw_objects c Hwf)) as H.
  apply list.NoDup_app in H as (_ & _ & H). apply list.NoDup_app in H as (_ & H & _).
  apply (H l); [|done]. apply list_elem_of_In, in_concat. exists (chan_listeners ch).
  rewrite <- !list_elem_of_In. split; [|done]. apply list_elem_of_fmap. exists ch. split; [done|]. by eapply list_elem_of_lookup_2.
Qed.

(** Telling the listeners of a channel. *)
Lemma safe_notify {B} n a (L : nat -> listener) (fld : Channel -> list nat) x (k : M B) :
  (a < n)%nat -> (forall ch l, l ∈ fld ch -> L l ∈ chan_listeners ch) -> safe n k ->
  safe n (do ch <- get_chan a; mfor (fun l => notify (L l) x) (fld ch) >> k).
Proof.
  intros Ha HL Hk c Hwf Hn. destruct (chan_of_bound a n c Hwf Ha Hn) as (ch & Hch & W).
  assert (forall l, l ∈ fld ch -> L l ∉ cn_lclosed c) as Hl by (intros l Hl; eapply open_listener; eauto).
  apply (returns_from _ k c (with_log (cn_log c ++ ((fun l => Notified l x) <$> (L <$> fld ch))) c)).
  - rewrite (mbind_ok _ _ _ _ _ (get_chan_ok _ _ _ Hch)). by rewrite (mbind_ok _ _ _ _ _ (mfor_notify L x _ c Hl)).
  - by apply same_core_follows.
  - apply Hk; [by apply (same_core_wf c)|done].
Qed.

Lemma safe_notify_last n a (L : nat -> listener) (fld : Channel -> list nat) x :
  (a < n)%nat -> (forall ch l, l ∈ fld ch -> L l ∈ chan_listeners ch) ->
  safe n (do ch <- get_chan a; mfor (fun l => notify (L l) x) (fld ch)).
Proof.
  intros Ha HL c Hwf Hn. destruct (safe_notify n a L fld x (mret tt) Ha HL (safe_mret n tt) c Hwf Hn)
    as (y & c' & E & H). exists y, c'. split; [|done].
  destruct (chan_of_bound a n c Hwf Ha Hn) as (ch & Hch & W).
  rewrite (mbind_ok _ _ _ _ _ (get_chan_ok _ _ _ Hch)).
  rewrite (mbind_ok _ _ _ _ _ (get_chan_ok _ _ _ Hch)) in E. destruct y. by rewrite mbind_ret_unit in E.
Qed.

Lemma safe_mlift {A B} n (o : outcome A) x (k : A -> M B) :
  o = Ok x -> safe n (k x) -> safe n (mbind (mlift o) k).
Proof. intros -> Hk c Hwf Hn. apply (Hk c Hwf Hn). Qed.

(** *** Consumers *)

Lemma good_consumers x ch :
  channel_wf ch -> consumers_wf x -> c_closed x = c_closed (ch_consumers ch) ->
  (ch_shut ch = true -> c_chans x = ∅) -> bufs_follow (ch_consumers ch) x -> good_change ch (with_consumers x ch).
Proof.
  intros [W1 W2 W3 W4 W5 W6 W7 W8] Wx Hc He Hb. apply good_same; try done.
  split; try done; simpl; [congruence|]. intros Hs. destruct (W6 Hs) as (? & ? & _). auto.
Qed.

Lemma safe_cancel_consumer n a tag : (a < n)%nat -> safe n (cancel_consumer a tag).
Proof.
  intros Ha. apply (safe_lift_upd n a (fun ch => consumers_cancel tag (ch_consumers ch))
    (fun x => with_consumers (snd x)) Ha).
  intros ch W. destruct (consumers_cancel_spec tag (ch_consumers ch) (hw_consumers _ W))
    as (r & k & E & Wk & Ck & Dk & _). exists (r, k). split; [done|].
  apply good_consumers; [done|done|done| |by eapply consumers_step_follows, step_cancel].
  intros Hs. destruct (hw_shut _ W Hs) as (_ & _ & He). simpl. by rewrite Dk, He, delete_empty.
Qed.
#[export] Hint Resolve safe_cancel_consumer : safe.

(** The goroutine of a registered consumer is receiving. *)
Lemma consumers_send_ok tag d k :
  consumers_wf k -> c_closed k = false \/ c_chans k = ∅ ->
  exists r k', consumers_send tag d k = Some (r, k') /\ consumers_wf k' /\ c_closed k' = c_closed k /\
    c_chans k' = c_chans k.
Proof.
  intros Hwf Hc. unfold consumers_send. destruct (c_chans k !! tag) as [i|] eqn:Ht.
  - destruct Hc as [Hc|Hc]; [|by rewrite Hc, lookup_empty in Ht].
    destruct (kw_open k Hwf tag i Ht) as (b & Hb & Ho). rewrite Hb. cbn [base.mbind option_bind].
    pose proof (kw_bufs k Hwf i b Hb) as [_ _ _ B4 B5].
    assert (exists b', buffer_receive d b = Some b') as (b' & Eb).
    { unfold buffer_receive. rewrite Ho. destruct (b_phase b); [eauto| |].
      - destruct (b_inflight b); [eauto|]. specialize (B4 eq_refl). congruence.
      - destruct (B5 eq_refl) as [?|[_ ?]]; congruence. }
    rewrite Eb. cbn [base.mbind option_bind]. eexists _, _. split_and!; [done| |done|done].
    destruct (buffer_receive_wf (c_closed k) d b b') as (Wb & _ & Cb);
      [by eapply kw_bufs|done|]. by eapply set_buffer_wf.
  - by exists false, k.
Qed.

Lemma safe_deliver n a tag d : (a < n)%nat -> safe n (deliver a tag d).
Proof.
  intros Ha c Hwf Hn. destruct (chan_of_bound a n c Hwf Ha Hn) as (ch & Hch & W).
  destruct (consumers_send_ok tag d (ch_consumers ch) (hw_consumers _ W)) as (r & k & E & Wk & Ck & Dk).
  { rewrite (hw_closed _ W). destruct (ch_shut ch) eqn:Hs; [right|by left]. by apply (hw_shut _ W Hs). }
  eapply set_returns; [done|exact Hch| |].
  - apply (good_consumers k); [done|done|done| |by eapply consumers_step_follows, step_send]. intros Hs. rewrite Dk. by apply (hw_shut _ W Hs).
  - unfold deliver. rewrite (mbind_ok _ _ _ _ _ (get_chan_ok _ _ _ Hch)), E. by apply upd_chan_ok.
Qed.
#[export] Hint Resolve safe_deliver : safe.

(** *** Confirmations *)

Lemma safe_confirm_with n a f :
  (a < n)%nat ->
  (forall k, confirms_wf k -> published k < 2 ^ 64 - 1 ->
     exists k', f k = Ok k' /\ confirms_wf k' /\ published k' = published k /\ confirms_follow k k') ->
  safe n (confirm_with a f).
Proof.
  intros Ha Hf c Hwf Hn. destruct (chan_of_bound a n c Hwf Ha Hn) as (ch & Hch & W).
  unfold confirm_with. eapply returns_from; [by rewrite (mbind_ok _ _ _ _ _ (get_chan_ok _ _ _ Hch))|done|].
  destruct (ch_confirming ch); [|by apply safe_mret with (n := n)].
  destruct (Hf _ (hw_confirms _ W) (hw_published _ W)) as (k & E & Wk & Pk & Fk).
  eapply set_returns; [done|exact Hch| |unfold mlift; rewrite E; by apply (upd_chan_ok a (with_confirms k))].
  apply good_confirms; [done|done|rewrite Pk; apply W|done].
Qed.

Lemma confirmed_ok (multiple : bool) x k :
  confirms_wf k -> published k < 2 ^ 64 - 1 -> 0 <= DeliveryTag x < 2 ^ 64 - 1 ->
  exists k', (if multiple then Multiple else One) x k = Ok k' /\ confirms_wf k' /\ published k' = published k /\
    confirms_follow k k'.
Proof.
  intros Hwf Hp Hx.
  assert (exists k', (if multiple then Multiple else One) x k = Ok k' /\ confirms_wf k' /\ published k' = published k)
    as (k' & E & W & P); [|exists k'; split_and!; [done|done|done|by eapply confirmed_follow]]. destruct multiple.
  - destruct (Multiple_spec x k) as (c1 & c2 & k' & n1 & n2 & Hr & H1 & _ & _ & E & H2); [done..|].
    exists k'. split_and!; [done|apply H2|].
    rewrite (dl_published _ _ _ (ad_delivers _ _ _ H2)), (dl_published _ _ _ (ad_delivers _ _ _ H1)).
    by rewrite (rs_rest _ _ _ _ Hr).
  - destruct (One_spec x k) as (c1 & c2 & k' & Hr & H2 & E & new & Had & _); [done..|].
    exists k'. split_and!; [done|apply Had|]. rewrite (dl_published _ _ _ (ad_delivers _ _ _ Had)).
    transitivity (published c1); [|by rewrite (rs_rest _ _ _ _ Hr)].
    destruct (_ =? _); [apply (dl_published _ _ _ (ad_delivers _ _ _ H2))|by subst c2].
Qed.

(** *** Dispatch *)

(** The tags of confirmations a peer may send: below the largest integer. *)
Definition message_fits (m : message) : Prop :=
  match m with
  | M_basicAck m => 0 <= basicAck_DeliveryTag m < 2 ^ 64 - 1
  | M_basicNack m => 0 <= basicNack_DeliveryTag m < 2 ^ 64 - 1
  | _ => True
  end.

Lemma safe_dispatch n a msg :
  (a < n)%nat -> (forall m, msg = Some m -> message_fits m) -> safe n (dispatch a msg).
Proof.
  intros Ha Hm. unfold dispatch. destruct msg as [m|]; [specialize (Hm m eq_refl)|returning].
  destruct m; try (returning; fail).
  - apply (safe_notify n a LFlow ch_flows (NFlow _)); [done| |returning].
    intros ch l Hl. unfold chan_listeners. set_solver.
  - apply (safe_notify n a LCancel ch_cancels (NCancel _)); [done| |exact (safe_cancel_consumer n a _ Ha)].
    intros ch l Hl. unfold chan_listeners. set_solver.
  - apply (safe_notify_last n a LReturn ch_returns (NReturn _)); [done|].
    intros ch l Hl. unfold chan_listeners. set_solver.
  - apply safe_confirm_with; [done|]. intros k Wk Pk. by apply confirmed_ok.
  - apply safe_confirm_with; [done|]. intros k Wk Pk. by apply confirmed_ok.
Qed.

(** *** Reassembly *)

Lemma good_assembly r m h b cap ch :
  channel_wf ch ->
  (r <> RecvMethod -> exists msg, m = Some msg /\ is_Some (message_getContent msg)) ->
  (r = RecvContent -> exists h', h = Some h' /\ hf_Size h' <= maxAlloc) ->
  good_change ch (with_assembly r m h b cap ch).
Proof. intros [] ? ?. by apply good_same. Qed.

Lemma safe_transition n a : (a < n)%nat -> safe n (transition a RecvMethod).
Proof. intros Ha. apply safe_upd; [done|]. intros ch W. by apply good_assembly. Qed.
#[export] Hint Resolve safe_transition : safe.

Lemma safe_recvMethod n a mf :
  (a < n)%nat -> (forall m, mf_Method mf = Some m -> message_fits m) -> safe n (recvMethod a (F_method mf)).
Proof.
  intros Ha Hm. unfold recvMethod. destruct (mf_Method mf) as [msg|].
  - destruct (message_getContent msg) as [content|] eqn:E.
    + apply safe_upd; [done|]. intros ch W. apply good_assembly; [done| |done].
      intros _. exists msg. split; [done|]. by rewrite E.
    + apply safe_bind; [by apply safe_dispatch|]. intros _. by apply (safe_transition n).
  - apply safe_bind; [by apply safe_dispatch|]. intros _. by apply (safe_transition n).
Qed.

Lemma setContent_content msg props body :
  is_Some (message_getContent msg) ->
  is_Some (message_getContent (message_setContent msg props body)) /\
  message_fits (message_setContent msg props body).
Proof. destruct msg; intros [x Hx]; try done; by split; [eexists|]. Qed.

Lemma complete_returns n a c ch msg h :
  conn_wf c -> (a < n)%nat -> (n <= length (cn_objs c))%nat -> cn_objs c !! a = Some ch -> channel_wf ch ->
  ch_message ch = Some msg -> is_Some (message_getContent msg) -> ch_header ch = Some h ->
  returns (complete a) c.
Proof.
  intros Hwf Ha Hn Hch W Em Hm Eh.
  destruct (setContent_content msg (hf_Properties h) (ch_body ch) Hm) as [Hs Hf].
  unfold returns, complete. rewrite (mbind_ok _ _ _ _ _ (get_chan_ok _ _ _ Hch)), Em, Eh. cbv zeta.
  match goal with |- exists x c', ?m c = _ /\ _ => assert (safe n m) as H; [|by apply H] end.
  apply safe_bind.
  { apply safe_upd; [done|]. intros ch' W'. apply good_assembly; [done|eauto|].
    intros Hr. destruct (hw_content _ W Hr) as (h' & Eh' & Hh). exists h. split; [done|congruence]. }
  intros _. apply safe_bind; [|intros _; by apply safe_transition].
  apply safe_dispatch; [done|]. by intros m [= <-].
Qed.

(** The frames a peer may send: headers announce what can be allocated, and
    heartbeats come on channel 0. *)
Definition frame_fits (f : frame) : Prop :=
  match f with
  | F_protocolHeader => False
  | F_method mf => forall m, mf_Method mf = Some m -> message_fits m
  | F_header hf => 0 <= hf_Size hf <= maxAlloc
  | F_body _ => True
  | F_heartbeat hb => hbf_ChannelId hb = 0
  end.

Lemma recvHeader_returns n a f c ch :
  conn_wf c -> (a < n)%nat -> (n <= length (cn_objs c))%nat -> cn_objs c !! a = Some ch ->
  ch_recv ch = RecvHeader -> frame_fits f -> (forall hb, f <> F_heartbeat hb) ->
  returns (recvHeader a f) c.
Proof.
  intros Hwf Ha Hn Hch Hr Hf Hhb. pose proof (ow_channels _ _ (sw_objects c Hwf) a ch Hch) as W.
  assert (ch_recv ch <> RecvMethod) as Hne by congruence.
  destruct (hw_header _ W Hne) as (msg & Em & Hm). destruct f as [|mf|hf|bf|hb]; cbn [recvHeader].
  - done.
  - by apply (safe_recvMethod n).
  - set (ch1 := with_assembly (ch_recv ch) (ch_message ch) (Some hf) (ch_body ch) (ch_body_cap ch) ch).
    assert (good_change ch ch1) as G.
    { apply good_assembly; [done|by rewrite Em; eauto|]. intros _. exists hf. split; [done|]. apply Hf. }
    pose proof (set_chan_wf a ch ch1 c Hwf Hch G) as Hwf1.
    assert (cn_objs (set_chan a ch1 c) !! a = Some ch1) as Hch1.
    { simpl. apply list_lookup_insert_eq. lia. }
    assert (n <= length (cn_objs (set_chan a ch1 c)))%nat as Hn1 by (simpl; by rewrite length_insert).
    eapply returns_from; [by rewrite (mbind_ok _ _ _ _ _ (upd_chan_ok a _ c ch Hch))
      |exact (set_chan_follows a ch ch1 c Hch (proj1 (proj2 G) _))|].
    change (with_objs _ c) with (set_chan a ch1 c). destruct (hf_Size hf =? 0).
    + exact (complete_returns n a _ ch1 msg hf Hwf1 Ha Hn1 Hch1 (proj1 G) Em Hm eq_refl).
    + eapply set_returns; [done|exact Hch1| |by apply upd_chan_ok].
      apply good_assembly; [apply G|intros _; exists msg; done|]. intros _. exists hf. split; [done|apply Hf].
  - by apply (safe_transition n).
  - by destruct (Hhb hb).
Qed.

Lemma recvContent_returns n a f c ch :
  conn_wf c -> (a < n)%nat -> (n <= length (cn_objs c))%nat -> cn_objs c !! a = Some ch ->
  ch_recv ch = RecvContent -> frame_fits f -> (forall hb, f <> F_heartbeat hb) ->
  returns (recvContent a f) c.
Proof.
  intros Hwf Ha Hn Hch Hr Hf Hhb. pose proof (ow_channels _ _ (sw_objects c Hwf) a ch Hch) as W.
  assert (ch_recv ch <> RecvMethod) as Hne by congruence.
  destruct (hw_header _ W Hne) as (msg & Em & Hm), (hw_content _ W Hr) as (h & Eh & Hh).
  destruct f as [|mf|hf|bf|hb]; cbn [recvContent].
  - done.
  - by apply (safe_recvMethod n).
  - by apply (safe_transition n).
  - eapply returns_from; [by rewrite (mbind_ok _ _ _ _ _ (get_chan_ok _ _ _ Hch)), Eh|done|].
    rewrite (proj2 (Z.ltb_ge maxAlloc (hf_Size h))) by done. rewrite andb_false_r. cbv zeta.
    set (body := ch_body ch ++ bf_Body bf).
    set (ch1 := with_assembly (ch_recv ch) (ch_message ch) (Some h) body true ch).
    assert (good_change ch ch1) as G.
    { apply good_assembly; [done|by rewrite Em; eauto|]. intros _. by exists h. }
    pose proof (set_chan_wf a ch ch1 c Hwf Hch G) as Hwf1.
    assert (cn_objs (set_chan a ch1 c) !! a = Some ch1) as Hch1.
    { simpl. apply list_lookup_insert_eq. lia. }
    assert (n <= length (cn_objs (set_chan a ch1 c)))%nat as Hn1 by (simpl; by rewrite length_insert).
    eapply returns_from; [by rewrite (mbind_ok _ _ _ _ _ (upd_chan_ok a _ c ch Hch))
      |exact (set_chan_follows a ch ch1 c Hch (proj1 (proj2 G) _))|].
    change (with_objs _ c) with (set_chan a ch1 c). destruct (hf_Size h <=? len body).
    + exact (complete_returns n a _ ch1 msg h Hwf1 Ha Hn1 Hch1 (proj1 G) Em Hm eq_refl).
    + eapply set_returns; [done|exact Hch1| |by apply upd_chan_ok].
      apply good_assembly; [apply G|intros _; exists msg; done|]. intros _. by exists h.
  - by destruct (Hhb hb).
Qed.

Lemma Channel_recv_returns n a f c :
  conn_wf c -> (a < n)%nat -> (n <= length (cn_objs c))%nat -> frame_fits f ->
  (forall hb, f <> F_heartbeat hb) -> returns (Channel_recv a f) c.
Proof.
  intros Hwf Ha Hn Hf Hhb. destruct (chan_of_bound a n c Hwf Ha Hn) as (ch & Hch & W).
  unfold returns, Channel_recv. rewrite (mbind_ok _ _ _ _ _ (get_chan_ok _ _ _ Hch)).
  destruct (ch_recv ch) eqn:Hr;
    [|by apply (recvHeader_returns n a f c ch)|by apply (recvContent_returns n a f c ch)].
  destruct f as [|mf|hf|bf|hb].
  - done.
  - by apply (safe_recvMethod n).
  - by apply (safe_transition n).
  - by apply (safe_transition n).
  - by destruct (Hhb hb).
Qed.

(** ** Demultiplexing *)

(** [connection.blocked] and [connection.unblocked]. *)
Definition is_blocking (f : frame) : bool :=
  match f with
  | F_method mf =>
      match mf_Method mf with
      | Some (M_connectionBlocked _) | Some (M_connectionUnblocked _) => true
      | _ => false
      end
  | _ => false
  end.

(** ... do not come after the connection was shut down, when there are
    listeners for them. *)
Definition arrival_fits (c : Connection) (f : frame) : Prop :=
  frame_fits f /\ (is_blocking f = true -> cn_closed c = true -> cn_blocks c = []).

Lemma notify_blocks n x c :
  conn_wf c -> (n <= length (cn_objs c))%nat -> (cn_closed c = true -> cn_blocks c = []) ->
  returns (do blocks <- gets cn_blocks; mfor (fun l => notify (LBlock l) x) blocks) c.
Proof.
  intros Hwf Hn Hb. unfold returns. rewrite (mbind_ok _ _ _ _ _ eq_refl).
  rewrite (mfor_notify LBlock x).
  - eexists _, _. split_and!; [done|by apply (same_core_wf c)|by apply same_core_follows].
  - intros l Hl Hin. destruct (cn_closed c) eqn:Hc; [rewrite Hb in Hl by done; set_solver|].
    pose proof (ow_nodup _ _ (sw_objects c Hwf)) as H. unfold own_listeners in H.
    rewrite (sw_shut c Hwf), Hc in H. apply list.NoDup_app in H as (_ & H & _).
    apply (H (LBlock l)); unfold conn_listeners; set_solver.
Qed.

Lemma dispatch0_returns n f c :
  conn_wf c -> (n <= length (cn_objs c))%nat -> arrival_fits c f -> returns (dispatch0 f) c.
Proof.
  intros Hwf Hn [Hf Hb]. destruct f as [|mf|hf|bf|hb]; cbn [dispatch0 is_blocking] in *.
  - done.
  - destruct (mf_Method mf) as [m|]; [destruct m|]; try (apply (notify_blocks n _ c Hwf Hn); by apply Hb);
    match goal with |- returns ?m c => assert (safe n m) as H by returning; by apply H end.
  - match goal with |- returns ?m c => assert (safe n m) as H by returning; by apply H end.
  - match goal with |- returns ?m c => assert (safe n m) as H by returning; by apply H end.
  - by apply (safe_mret n).
Qed.

Lemma demux_returns n f c :
  conn_wf c -> (n <= length (cn_objs c))%nat -> arrival_fits c f -> returns (demux f) c.
Proof.
  intros Hwf Hn Hf. unfold demux. destruct (frame_channel f) as [id|] eqn:Ec; [|by destruct f, Hf].
  destruct (Z.eqb_spec id 0) as [->|Hid]; [by apply (dispatch0_returns n)|].
  assert (forall hb, f <> F_heartbeat hb) as Hhb.
  { intros hb ->. destruct Hf as [Hf _]. simpl in *. congruence. }
  unfold returns, dispatchN. rewrite (mbind_ok _ _ _ _ _ eq_refl).
  destruct (cn_channels c !! id) as [a|] eqn:Hr.
  - destruct (rw_objs c (sw_registry c Hwf) id a Hr) as (ch & Hch & _).
    pose proof (lookup_lt_Some _ _ _ Hch) as Hlt.
    assert (safe (length (cn_objs c)) (updateChannel f a)) as Hu
      by (destruct f; try apply safe_mret; unfold setClosed; returning).
    destruct (Hu c Hwf (le_n _)) as ([] & c1 & E1 & W1 & N1). rewrite (mbind_ok _ _ _ _ _ E1).
    destruct (Channel_recv_returns (length (cn_objs c)) a f c1) as (y & c2 & E2 & W2 & N2);
      [done|done|by apply follows_length|apply Hf|done|]. exists y, c2. split_and!; [done|done|by etrans].
  - assert (safe n (dispatchClosed f id)) as H by (destruct f; returning). by apply H.
Qed.

(** ** The methods of the API *)

(** *** Writing only *)

Definition only_writes (c c' : Connection) : Prop :=
  exists buf wire tr go, c' = with_go go (with_transport tr (with_writer buf wire c)).

Definition writes {A} (m : M A) : Prop := forall c x c', m c = Ok (x, c') -> only_writes c c'.

Lemma only_writes_refl c : only_writes c c.
Proof. exists (cn_buf c), (cn_wire c), (cn_transport c), (cn_go c). by destruct c. Qed.

Lemma only_writes_trans c1 c2 c3 : only_writes c1 c2 -> only_writes c2 c3 -> only_writes c1 c3.
Proof. intros (b & w & t & g & ->) (b' & w' & t' & g' & ->). by exists b', w', t', g'. Qed.

Lemma writes_bind {A B} (m : M A) (k : A -> M B) :
  writes m -> (forall a, writes (k a)) -> writes (mbind m k).
Proof.
  intros Hm Hk c b c' (a & c1 & E1 & E2)%mbind_inv.
  eapply only_writes_trans; [by eapply Hm|by eapply Hk].
Qed.

Lemma writes_pure {A} (m : M A) : (forall c x c', m c = Ok (x, c') -> c' = c) -> writes m.
Proof. intros H c x c' E. rewrite (H _ _ _ E). apply only_writes_refl. Qed.
Lemma writes_mret {A} (x : A) : writes (mret x).
Proof. apply writes_pure. by intros c y c' [= _ <-]. Qed.
Lemma writes_gets {A} (f : Connection -> A) : writes (gets f).
Proof. apply writes_pure. by intros c y c' [= _ <-]. Qed.
Lemma writes_get_chan a : writes (get_chan a).
Proof. apply writes_pure. intros c y c'. unfold get_chan. destruct (cn_objs c !! a); naive_solver. Qed.
Lemma writes_stuck {A} (m : M A) : (forall c x, m c <> Ok x) -> writes m.
Proof. intros H c x c' E. by destruct (H c (x, c')). Qed.
Lemma writes_start g : writes (start g).
Proof.
  intros c x c' [= <- <-]. exists (cn_buf c), (cn_wire c), (cn_transport c), (cn_go c ++ [g]). by destruct c.
Qed.
Lemma writes_write f : writes (writer_WriteFrameNoFlush f).
Proof.
  intros c x c' E. unfold writer_WriteFrameNoFlush in E. destruct (WriteFrameNoFlush f (cn_buf c)) as [err buf].
  assert (only_writes c (with_writer buf (cn_wire c) c)).
  { exists buf, (cn_wire c), (cn_transport c), (cn_go c). by destruct c. }
  destruct err, (cn_transport c); simplify_eq; try done. apply only_writes_refl.
Qed.
Lemma writes_Flush : writes writer_Flush.
Proof.
  intros c x c' E. unfold writer_Flush in E.
  destruct (cn_transport c) as [|e|e], (cn_buf c) eqn:Eb; simplify_eq; try apply only_writes_refl.
  - exists [], (cn_wire c ++ []), (cn_transport c), (cn_go c). by destruct c.
  - eexists [], _, (cn_transport c), (cn_go c). by destruct c.
  - exists (cn_buf c), (cn_wire c), (Failed e), (cn_go c). by destruct c.
Qed.

Create HintDb writes discriminated.
#[export] Hint Resolve writes_mret writes_gets writes_get_chan writes_start writes_write writes_Flush : writes.

Ltac writing :=
  repeat (cbv zeta; first
    [ solve [auto with writes nocore]
    | apply writes_bind; [|intros ?]
    | match goal with |- writes (match ?x with _ => _ end) => destruct x end
    | match goal with |- writes ?m => let h := get_head m in unfold h end ]).

Lemma writes_send_body fuel id size body i j : writes (send_body fuel id size body i j).
Proof.
  revert i j. induction fuel as [|fuel IH]; intros i j; cbn [send_body];
    (destruct (i <? len body); [|apply writes_mret]); [by apply writes_stuck|]. cbv zeta.
  destruct (_ <? i); [by apply writes_stuck|]. apply writes_bind; [writing|].
  intros [e|]; [apply writes_mret|apply IH].
Qed.
#[export] Hint Resolve writes_send_body : writes.

Lemma writes_Channel_send a msg : writes (Channel_send a msg).
Proof. writing. Qed.

(** *** Publishing *)

Lemma unpublish_ok k :
  confirms_wf k -> 0 < published k ->
  exists k', unpublish k = Ok k' /\ confirms_wf k' /\ published k' = published k - 1 /\ confirms_follow k k'.
Proof.
  intros Hwf Hp. destruct (unpublish_spec k Hwf Hp) as (k1 & Hr & E). eexists. split; [exact E|].
  destruct (resolved_wf _ _ _ _ Hr Hwf) as [W1 W2 W3 W4 W5 W6]. pose proof (cw_published k Hwf).
  split_and!; [|done|eapply confirms_follow_trans; [by eapply resolved_follow|by apply confirms_follow_quiet]].
  split; [exact W1|exact W2|exact W3|exact W4|exact W5|simpl; lia].
Qed.

(** What publishing does to a channel [ch], given the result. *)
Definition published_as (ch ch' : Channel) (x : option nat * option goerror) : Prop :=
  match x with
  | (Some dc, None) =>
      ch_confirming ch = true /\ published (ch_confirms ch') = published (ch_confirms ch) + 1 /\
      dcs (ch_confirms ch') !! dc = Some (MkDeferred (published (ch_confirms ch) + 1) false false)
  | (None, None) => ch_confirming ch = false /\ ch' = ch
  | (None, Some _) => published (ch_confirms ch') = published (ch_confirms ch)
  | (Some _, Some _) => False
  end.

Lemma publish_deferred k :
  is_uint 64 (published k + 1) ->
  dcs (snd (publish k)) !! fst (publish k) = Some (MkDeferred (published k + 1) false false).
Proof. intros H. unfold publish. simpl. rewrite (uintw_small 64 _ H). by rewrite list_lookup_middle. Qed.

(** Sending only writes, so that the channel is as it was before. *)
Lemma send_keeps_objs n a msg c :
  conn_wf c -> (a < n)%nat -> (n <= length (cn_objs c))%nat ->
  exists err c', Channel_send a msg c = Ok (err, c') /\ conn_wf c' /\ cn_objs c' = cn_objs c /\ follows c c'.
Proof.
  intros Hwf Ha Hn. destruct (safe_Channel_send n a msg Ha _ Hwf Hn) as (err & c' & E & W & F).
  exists err, c'. split_and!; [done|done| |done]. by destruct (writes_Channel_send _ _ _ _ _ E) as (b & w & t & g & ->).
Qed.

Lemma Publish_spec a e k m i msg c ch :
  conn_wf c -> cn_objs c !! a = Some ch -> published (ch_confirms ch) + 1 < 2 ^ 64 - 1 ->
  exists x c' ch', PublishWithDeferredConfirm a e k m i msg c = Ok (x, c') /\ conn_wf c' /\ follows c c' /\
    cn_objs c' = <[a := ch']> (cn_objs c) /\ published_as ch ch' x.
Proof.
  intros Hwf Hch Hp. pose proof (ow_channels _ _ (sw_objects c Hwf) a ch Hch) as W.
  pose proof (lookup_lt_Some _ _ _ Hch) as Hlt. pose proof (cw_published _ (hw_confirms _ W)) as Hp0.
  unfold PublishWithDeferredConfirm. destruct (Validate (pub_Headers msg)).
  { eexists _, c, ch. split_and!; [done|done|done|by rewrite list_insert_id|done]. }
  rewrite (mbind_ok _ _ _ _ _ (get_chan_ok _ _ _ Hch)). set (pub := M_basicPublish _).
  destruct (ch_confirming ch) eqn:Hcf.
  - pose proof (publish_deferred (ch_confirms ch)) as Hdc.
    destruct (publish_wf (ch_confirms ch) (hw_confirms _ W)) as [Wp Pp]; [lia|].
    assert (confirms_follow (ch_confirms ch) (snd (publish (ch_confirms ch)))) as Fp
      by (by apply confirms_follow_quiet).
    destruct (publish (ch_confirms ch)) as [dc cf]. cbn [fst snd] in *.
    specialize (Hdc ltac:(unfold is_uint; lia)). set (ch1 := with_confirms cf ch).
    assert (good_change ch ch1) as G by (apply good_confirms; [done|done|lia|done]).
    assert (follows c (set_chan a ch1 c)) as F1 by (apply (set_chan_follows a ch); [done|apply G]).
    rewrite mbind_assoc, (mbind_ok _ _ _ _ _ (upd_chan_ok a _ c ch Hch)).
    change (with_objs _ c) with (set_chan a ch1 c). rewrite (mbind_ok _ _ _ _ _ eq_refl).
    destruct (send_keeps_objs (length (cn_objs c)) a pub (set_chan a ch1 c)) as (err & c2 & E2 & W2 & O2 & F2);
      [by eapply set_chan_wf|done|by simpl; rewrite length_insert|]. rewrite (mbind_ok _ _ _ _ _ E2).
    assert (follows c c2) as F by (by etrans).
    destruct err as [err|]; [|by eexists _, c2, ch1].
    assert (cn_objs c2 !! a = Some ch1) as Hch2 by (rewrite O2; by apply list_lookup_insert_eq).
    rewrite (mbind_ok _ _ _ _ _ (get_chan_ok _ _ _ Hch2)). cbn [ch_confirming with_confirms ch1 ch_confirms].
    destruct (unpublish_ok cf Wp) as (cf' & Eu & Wu & Pu & Fu); [lia|].
    rewrite Hcf. unfold mlift. rewrite Eu, mbind_assoc, (mbind_ok _ _ _ _ _ eq_refl).
    rewrite (mbind_ok _ _ _ _ _ (upd_chan_ok a _ c2 ch1 Hch2)).
    assert (good_change ch1 (with_confirms cf' ch1)) as G2 by (apply good_confirms; [apply G|done|lia|done]).
    eexists _, _, (with_confirms cf' ch1).
    split_and!; [done|by apply (set_chan_wf a ch1 _ c2 W2 Hch2)
      |etrans; [exact F|by apply (set_chan_follows a ch1), G2]
      |simpl; by rewrite O2; simpl; rewrite list_insert_insert_eq|simpl; lia].
  - rewrite (mbind_ok _ _ _ _ _ eq_refl).
    destruct (send_keeps_objs (length (cn_objs c)) a pub c) as (err & c2 & E2 & W2 & O2 & F2); [done|done|done|].
    rewrite (mbind_ok _ _ _ _ _ E2). rewrite <- (list_insert_id _ _ _ Hch) in O2.
    destruct err as [err|]; [|by eexists _, c2, ch].
    assert (cn_objs c2 !! a = Some ch) as Hch2 by (rewrite O2; by apply list_lookup_insert_eq).
    rewrite (mbind_ok _ _ _ _ _ (get_chan_ok _ _ _ Hch2)), Hcf. by eexists _, c2, ch.
Qed.

Lemma Publish_returns a e k m i msg c ch :
  conn_wf c -> cn_objs c !! a = Some ch ->
  published (ch_confirms ch) + 1 < 2 ^ 64 - 1 ->
  returns (PublishWithDeferredConfirm a e k m i msg) c.
Proof.
  intros Hwf Hch Hp. destruct (Publish_spec a e k m i msg c ch Hwf Hch Hp) as (x & c' & ch' & E & W & F & _).
  by exists x, c'.
Qed.

(** *** Consuming *)

Lemma consumers_add_closed tag k k' : consumers_add tag k = Ok k' -> c_closed k' = c_closed k.
Proof.
  unfold consumers_add, close_chan. destruct (c_chans k !! tag) as [i|]; [|by intros [= <-]].
  destruct (c_bufs k !! i) as [b|]; [|done]. destruct (b_in_closed b); [done|]. by intros [= <-].
Qed.

(** On a channel that is shut down, the consumer is taken back at once. *)
Lemma add_cancel_shut tag k :
  consumers_wf k -> c_chans k = ∅ ->
  exists k1 r k2, consumers_add tag k = Ok k1 /\ consumers_cancel tag k1 = Ok (r, k2) /\
    consumers_wf k2 /\ c_closed k2 = c_closed k /\ c_chans k2 = ∅.
Proof.
  intros Hwf He. destruct (consumers_add_spec tag k Hwf) as (k1 & E1 & W1 & D1 & _).
  destruct (consumers_cancel_spec tag k1 W1) as (r & k2 & E2 & W2 & C2 & D2 & _).
  exists k1, r, k2. split_and!; [done|done|done|by rewrite C2, (consumers_add_closed _ _ _ E1)|].
  by rewrite D2, D1, He, delete_insert_id.
Qed.

Lemma call_on_closed a req res r c ch :
  cn_objs c !! a = Some ch -> ch_closed ch = true -> req <> M_channelCloseOk Mk_channelCloseOk ->
  call_ a req res r c = Ok (Some (AmqpError ErrClosed), c).
Proof.
  intros Hch Hc Hr. unfold call_, Channel_call. destruct (sends_on_closed a req c ch Hch Hc) as [Es|]; [|done].
  unfold mbind. by rewrite Es.
Qed.

Lemma Consume_returns n a q t aa e nl nw args fresh r c :
  conn_wf c -> (a < n)%nat -> (n <= length (cn_objs c))%nat ->
  returns (Consume a q t aa e nl nw args fresh r) c.
Proof.
  intros Hwf Ha Hn. destruct (chan_of_bound a n c Hwf Ha Hn) as (ch & Hch & W).
  assert (a < length (cn_objs c))%nat as Hlt by lia.
  unfold returns, Consume. destruct (Validate args); [by apply (safe_mret n)|]. cbv zeta.
  set (tag := if bool_decide (t = "") then fresh else t).
  rewrite (mbind_ok _ _ _ _ _ (get_chan_ok _ _ _ Hch)). set (req := M_basicConsume _).
  destruct (ch_shut ch) eqn:Hs.
  - destruct (hw_shut _ W Hs) as (Hc & _ & He).
    destruct (add_cancel_shut tag _ (hw_consumers _ W) He) as (k1 & x & k2 & E1 & E2 & W2 & C2 & D2).
    unfold mlift at 1. rewrite E1, (mbind_ok _ _ _ _ _ eq_refl), (mbind_ok _ _ _ _ _ (upd_chan_ok a _ c ch Hch)).
    change (with_objs _ c) with (set_chan a (with_consumers k1 ch) c).
    assert (cn_objs (set_chan a (with_consumers k1 ch) c) !! a = Some (with_consumers k1 ch)) as Hk1
      by (by apply list_lookup_insert_eq).
    rewrite (mbind_ok _ _ _ _ _ (call_on_closed a req _ r _ _ Hk1 Hc ltac:(done))). unfold cancel_consumer. rewrite !mbind_assoc.
    rewrite (mbind_ok _ _ _ _ _ (get_set a c Hlt _)). unfold mlift. cbn [ch_consumers with_consumers].
    rewrite E2. rewrite mbind_assoc, (mbind_ok _ _ _ _ _ eq_refl), (mbind_ok _ _ _ _ _ (upd_set a c Hlt _ _)).
    assert (good_change ch (with_consumers k2 ch)) as G.
    { apply good_consumers; try done. transitivity k1; eapply consumers_step_follows; [by eapply step_add|by eapply step_cancel]. }
    eexists _, _. split_and!; [done|by apply (set_chan_wf a ch _ c Hwf Hch)|by apply (set_chan_follows a ch), G].
  - destruct (consumers_add_spec tag _ (hw_consumers _ W)) as (k1 & E1 & W1 & _).
    assert (good_change ch (with_consumers k1 ch)) as G
      by (apply good_consumers; [done|done|by eapply consumers_add_closed|congruence|by eapply consumers_step_follows, step_add]).
    eapply returns_from; [unfold mlift; by rewrite E1, (mbind_ok _ _ _ _ _ eq_refl), (mbind_ok _ _ _ _ _ (upd_chan_ok a _ c ch Hch))
      |by apply (set_chan_follows a ch), G|].
    match goal with |- returns ?m _ => assert (safe n m) as H; [returning|] end.
    apply H; [by apply (set_chan_wf a ch)|]. simpl. by rewrite length_insert.
Qed.

(** The deliveries that [Consume] gives out are those of a goroutine of the
    channel. *)
Lemma Consume_new a q t aa e nl nw args fresh r c i c' :
  conn_wf c -> Consume a q t aa e nl nw args fresh r c = Ok ((None, Some i), c') ->
  exists ch b, cn_objs c' !! a = Some ch /\ c_bufs (ch_consumers ch) !! i = Some b.
Proof.
  intros Hwf E. unfold Consume in E. destruct (Validate args); [unfold mret in E; by simplify_eq|]. cbv zeta in E.
  set (tag := if bool_decide (t = "") then fresh else t) in E.
  apply mbind_inv in E as (ch & c0 & E0 & E). unfold get_chan in E0. destruct (cn_objs c !! a) as [x|] eqn:Hch; [|done].
  injection E0 as -> <-. pose proof (lookup_lt_Some _ _ _ Hch) as Hlt.
  pose proof (ow_channels _ _ (sw_objects c Hwf) a ch Hch) as W. apply mbind_inv in E as (k1 & c1 & E1 & E).
  unfold mlift in E1. destruct (consumers_add tag (ch_consumers ch)) as [k| | |] eqn:Ek; try done. injection E1 as -> <-.
  rewrite (mbind_ok _ _ _ _ _ (upd_chan_ok a _ c ch Hch)) in E.
  change (with_objs _ c) with (set_chan a (with_consumers k1 ch) c) in E.
  assert (cn_objs (set_chan a (with_consumers k1 ch) c) !! a = Some (with_consumers k1 ch)) as Hk1
    by (by apply list_lookup_insert_eq).
  apply mbind_inv in E as (err & c2 & E2 & E).
  destruct err as [e'|]; [apply mbind_inv in E as (? & ? & _ & E); unfold mret in E; by simplify_eq|].
  unfold mret in E. injection E as <- <-.
  set (req := M_basicConsume _) in E2. destruct (ch_shut ch) eqn:Hs.
  { destruct (hw_shut _ W Hs) as (Hc & _). by rewrite (call_on_closed a req _ r _ _ Hk1 Hc ltac:(done)) in E2. }
  destruct (consumers_add_spec tag _ (hw_consumers _ W)) as (k2 & Ek2 & W1 & _). assert (k2 = k1) as -> by congruence.
  assert (good_change ch (with_consumers k1 ch)) as G
    by (apply good_consumers; [done|done|by eapply consumers_add_closed|congruence|by eapply consumers_step_follows, step_add]).
  set (n := length (cn_objs c)) in *.
  assert (safe n (call_ a req (M_basicConsumeOk (Mk_basicConsumeOk "")) r)) as H by returning.
  destruct (H (set_chan a (with_consumers k1 ch) c)) as (x & c3 & E3 & _ & F);
    [by apply (set_chan_wf a ch)|simpl; by rewrite length_insert|].
  assert (c3 = c2) as -> by congruence. destruct (fo_objs _ _ F _ _ Hk1) as (ch' & Hch' & Fc). exists ch'.
  destruct (cf_consumers _ _ _ Fc (length (c_bufs (ch_consumers ch))) new_buffer) as (b & Hb & _); [|by exists b].
  simpl. unfold consumers_add in Ek. apply obind_inv in Ek as (k & Ek & E). injection E as <-. simpl.
  assert (length (c_bufs k) = length (c_bufs (ch_consumers ch))) as <-; [|by rewrite list_lookup_middle].
  destruct (c_chans (ch_consumers ch) !! tag) as [j|]; [|by injection Ek as <-].
  unfold close_chan in Ek. destruct (c_bufs (ch_consumers ch) !! j) as [b|]; [|done]. destruct (b_in_closed b); [done|].
  injection Ek as <-. simpl. by rewrite length_insert.
Qed.

(** *** Listening *)

(** A Go channel that has not been registered or closed before. *)
Definition fresh (l : listener) (c : Connection) : Prop :=
  l ∉ own_listeners c ++ concat (chan_listeners <$> cn_objs c) ++ cn_lclosed c.

Lemma close_fresh l c : conn_wf c -> fresh l c -> returns (close_listener l) c.
Proof.
  intros [W1 [V1 V2] W3 W4 W5 W6] Hl. unfold returns, close_listener, mbind, gets.
  rewrite bool_decide_false by (unfold fresh in Hl; set_solver).
  eexists _, _. split_and!; [done| |apply (follows_quiet _ _ []); try done; simpl; [set_solver|by rewrite app_nil_r]].
  split; try done; [|split; [exact V1|]].
  - destruct W1 as [R1 R2 R3]. by split.
  - simpl. assert (own_listeners c ++ concat (chan_listeners <$> cn_objs c) ++ l :: cn_lclosed c
      ≡ₚ l :: own_listeners c ++ concat (chan_listeners <$> cn_objs c) ++ cn_lclosed c) as E
      by solve_Permutation.
    change (NoDup (own_listeners c ++ concat (chan_listeners <$> cn_objs c) ++ l :: cn_lclosed c)).
    rewrite E. by apply list.NoDup_cons.
Qed.

Lemma add_listener_wf a l ch ch' c :
  conn_wf c -> cn_objs c !! a = Some ch -> fresh l c -> channel_wf ch' -> ch_id ch' = ch_id ch ->
  chan_listeners ch' ≡ₚ l :: chan_listeners ch -> conn_wf (set_chan a ch' c).
Proof.
  intros [W1 [V1 V2] W3 W4 W5 W6] Hch Hl W' Hid Hp. pose proof (lookup_lt_Some _ _ _ Hch) as Hlt.
  split; try done; [by eapply set_chan_registry|]. split.
  - intros b x Hb. simpl in Hb. destruct (decide (a = b)) as [<-|Hab].
    + rewrite list_lookup_insert_eq in Hb by done. by simplify_eq.
    + rewrite list_lookup_insert_ne in Hb by done. eauto.
  - destruct (listeners_split (own_listeners c) c a ch ch' Hch) as (rest & E1 & E2).
    unfold fresh in Hl. rewrite E1 in V2, Hl.
    change (NoDup (own_listeners c ++ concat (chan_listeners <$> <[a := ch']> (cn_objs c)) ++ cn_lclosed c)).
    rewrite E2, Hp. cbn [app]. by apply list.NoDup_cons.
Qed.

Lemma register_returns n a l f c :
  conn_wf c -> (a < n)%nat -> (n <= length (cn_objs c))%nat -> fresh l c ->
  (forall ch, channel_wf ch -> ch_shut ch = false ->
     channel_wf (f ch) /\ (forall closed, chan_follows closed ch (f ch)) /\
     chan_listeners (f ch) ≡ₚ l :: chan_listeners ch) ->
  returns (register a l f) c.
Proof.
  intros Hwf Ha Hn Hl Hf. destruct (chan_of_bound a n c Hwf Ha Hn) as (ch & Hch & W).
  unfold returns, register. rewrite (mbind_ok _ _ _ _ _ (get_chan_ok _ _ _ Hch)), (hw_noNotify _ W).
  destruct (ch_shut ch) eqn:Hs; [by apply close_fresh|].
  destruct (Hf ch W Hs) as (H1 & H2 & H3). rewrite (upd_chan_ok a f c ch Hch).
  eexists _, _. split_and!; [done| |by eapply set_chan_follows].
  eapply (add_listener_wf a l ch); try done. apply (cf_evolves _ _ _ (H2 [])).
Qed.

(** A longer list of listeners on a channel that is not shut down. *)
Lemma with_listeners_wf cl fl re ca ch :
  channel_wf ch -> ch_shut ch = false -> channel_wf (with_listeners cl fl re ca ch).
Proof. intros [] Hs. split; try done. simpl. congruence. Qed.

Lemma NotifyPublish_returns n a l c ch :
  conn_wf c -> (a < n)%nat -> (n <= length (cn_objs c))%nat -> cn_objs c !! a = Some ch ->
  l ∉ listeners (ch_confirms ch) -> lclosed (ch_confirms ch) l = false -> returns (NotifyPublish a l) c.
Proof.
  intros Hwf Ha Hn Hch Hl Ho. pose proof (ow_channels _ _ (sw_objects c Hwf) a ch Hch) as W.
  unfold returns, NotifyPublish. rewrite (mbind_ok _ _ _ _ _ (get_chan_ok _ _ _ Hch)).
  destruct (ch_noNotify ch).
  - unfold mlift, chan_close. rewrite Ho. eapply set_returns; [done|exact Hch| |by apply upd_chan_ok].
    destruct (hw_confirms _ W) as [C1 C2 C3 C4 C5 C6]. apply good_confirms; [done| |apply W|by apply chan_close_follow].
    split; try done. intros k Hk. unfold lclosed. rewrite chan_of_insert, decide_False by (by intros ->).
    by apply C2.
  - eapply set_returns; [done|exact Hch| |by apply upd_chan_ok].
    apply good_confirms; [done|by apply Listen_wf; [apply W| |]|apply W|apply Listen_follow].
Qed.

Lemma own_fresh_wf cl bl l c :
  conn_wf c -> cn_closed c = false -> fresh l c ->
  (LClose <$> cl) ++ (LBlock <$> bl) ≡ₚ l :: conn_listeners c -> conn_wf (with_cn_listeners cl bl c).
Proof.
  intros [W1 [V1 V2] W3 W4 W5 W6] Hc Hl Hp. split; try done; [by destruct W1; split|].
  unfold fresh, own_listeners in *. simpl. rewrite W4, Hc in *. split; [exact V1|].
  unfold conn_listeners at 1. simpl. rewrite Hp. cbn [app]. by apply list.NoDup_cons.
Qed.

Lemma Connection_Notify_returns l f c :
  conn_wf c -> fresh l c ->
  (cn_closed c = false -> conn_wf (f c) /\ follows c (f c)) ->
  returns (do noNotify <- gets cn_noNotify;
             if noNotify : bool then close_listener l else modify f) c.
Proof.
  intros Hwf Hl Hf. unfold returns. rewrite (mbind_ok _ _ _ _ _ eq_refl), (sw_noNotify c Hwf).
  destruct (cn_closed c) eqn:Hc; [by apply close_fresh|]. destruct (Hf eq_refl) as [H1 H2]. by eexists _, _.
Qed.

(** *** Opening channels *)

Lemma newChannel_wf id : channel_wf (newChannel id).
Proof. split; first [apply newConfirms_wf|apply makeConsumers_wf|done]. Qed.

Lemma allocateChannel_returns c :
  conn_wf c ->
  exists x c', allocateChannel c = Ok (x, c') /\ conn_wf c' /\
    follows c c' /\ forall a, snd x = Some a -> (a < length (cn_objs c'))%nat.
Proof.
  intros Hwf. destruct (Hwf) as [W1 [V1 V2] W3 W4 W5 W6]. destruct (cn_closed c) eqn:Hc.
  - exists (Some (AmqpError ErrClosed), None), c. split_and!; [|done|done|done].
    unfold allocateChannel, mbind, gets. by rewrite Hc.
  - destruct (W3 eq_refl) as [al Hal].
    destruct (allocateChannel_spec c al W1 Hc Hal) as (x & c' & E & R & A). exists x, c'.
    assert (exists new chs al', c' = with_registry chs (Some al') (with_objs (cn_objs c ++ new) c) /\
      forall ch, ch ∈ new -> exists id, ch = newChannel id) as (new & chs & al' & -> & Hnew).
    { revert E. unfold allocateChannel, mbind, gets, mlift, modify, mret. rewrite Hc, Hal.
      destruct (next al) as [[[id|] al']| | |]; intros; simplify_eq/=.
      - eexists [_], _, _. split; [done|]. intros ch ->%list_elem_of_singleton. eauto.
      - exists [], (cn_channels c), al'. rewrite app_nil_r. split; [by destruct c|set_solver]. }
    split_and!; [done| |by apply (follows_quiet _ _ new)|].
    + split; [done| |by intros _; eexists|simpl; congruence|simpl; congruence|done]. split; simpl.
      * intros a ch [Ha|[_ Ha]]%lookup_app_Some; [eauto|]. apply list_elem_of_lookup_2, Hnew in Ha as [id ->].
        apply newChannel_wf.
      * assert (concat (chan_listeners <$> (cn_objs c ++ new)) = concat (chan_listeners <$> cn_objs c)) as ->;
          [|exact V2]. rewrite fmap_app, concat_app.
        assert (concat (chan_listeners <$> new) = []) as ->; [|apply app_nil_r].
        clear -Hnew. induction new as [|ch new IH]; [done|]. rewrite fmap_cons. cbn [concat].
        destruct (Hnew ch) as [id ->]; [set_solver|]. apply IH. intros x Hx. apply Hnew. set_solver.
    + intros a Hx. destruct x as [[err|] [b|]]; simpl in Hx; simplify_eq; try done.
      destruct A as (id & -> & _ & _ & Eo & _). simpl in Eo |- *. rewrite Eo, length_app. simpl. lia.
Qed.

Lemma safe_openChannel n r : safe n (openChannel r).
Proof.
  intros c Hwf Hn. destruct (allocateChannel_returns c Hwf) as ([err x] & c1 & E1 & W1 & N1 & A1).
  unfold returns, openChannel. rewrite (mbind_ok _ _ _ _ _ E1).
  assert (exists y c', (match (err, x) with
    | (None, Some ch) =>
        do err <- Channel_open ch r;
        match err with
        | Some e => releaseChannel ch >> mret (Some e, None)
        | None => mret (None, Some ch)
        end
    | (err, _) => mret (err, None)
    end) c1 = Ok (y, c') /\ conn_wf c' /\ follows c1 c')
    as (y & c' & E & W & N); [|exists y, c'; split_and!; [done|done|by etrans]].
  destruct err as [e|]; [by apply (safe_mret (length (cn_objs c1)))|].
  destruct x as [a|]; [|by apply (safe_mret (length (cn_objs c1)))].
  specialize (A1 a eq_refl).
  match goal with |- exists x c', ?m ?s = _ /\ _ => assert (safe (length (cn_objs c1)) m) as H; [|by apply H] end.
  unfold Channel_open. returning.
Qed.
#[export] Hint Resolve safe_openChannel : safe.

Lemma safe_close_call n code text e r : safe n (close_call code text e r).
Proof. returning. Qed.
#[export] Hint Resolve safe_close_call : safe.
