(* ===== verification/Executions.v ===== *)
(** * Executions: what holds however a connection is used

    Calls of the application on any channel, frames of the peer, shutdowns,
    goroutines and failures of the transport in any order, within the limits
    stated by [call_fits]. *)

From S2P Require Import Prelude Types Io SpecConnection SpecChannel SpecBasic SpecTx Spec091 Frame.
From S2P Require Import FrameFacts Allocator Confirms Delivery Consumers Auth State Channel.
From S2P Require Import ChannelFacts ChannelApi Connection ConnectionFacts Registry Shutdown Follows Safety.

(** ** Limits *)

Definition chan_call_fits (ch : Channel) (c : Connection) (k : chan_call) : Prop :=
  match k with
  | Do_NotifyClose l => fresh (LClose l) c
  | Do_NotifyFlow l => fresh (LFlow l) c
  | Do_NotifyReturn l => fresh (LReturn l) c
  | Do_NotifyCancel l => fresh (LCancel l) c
  | Do_NotifyPublish l => (l ∉ listeners (ch_confirms ch)) /\ lclosed (ch_confirms ch) l = false
  | Do_Publish _ _ _ _ _ => published (ch_confirms ch) + 1 < 2 ^ 64 - 1
  | _ => True
  end.

(** Methods are called on channels there are; a Go channel is registered
    once; a channel publishes fewer than 2^64-2 messages; frames are within
    [arrival_fits]. *)
Definition call_fits (c : Connection) (k : call) : Prop :=
  match k with
  | OnChannel a k => exists ch, cn_objs c !! a = Some ch /\ chan_call_fits ch c k
  | Do_ConnectionNotifyClose l => fresh (LClose l) c
  | Do_NotifyBlocked l => fresh (LBlock l) c
  | Run_demux f => arrival_fits c f
  | _ => True
  end.

Lemma ignore_returns {A} (m : M A) c : returns m c -> returns (ignore m) c.
Proof.
  intros (x & c' & E & H). exists tt, c'. unfold ignore. by rewrite (mbind_ok _ _ _ _ _ E).
Qed.

Lemma perform_on_returns a k c ch :
  conn_wf c -> cn_objs c !! a = Some ch -> chan_call_fits ch c k ->
  returns (perform_on a k) c.
Proof.
  intros Hwf Hch Hf. pose proof (lookup_lt_Some _ _ _ Hch) as Ha. set (n := length (cn_objs c)) in *.
  assert (n <= length (cn_objs c))%nat as Hn by done.
  destruct k; cbn [perform_on chan_call_fits] in *; try (apply ignore_returns);
    try (match goal with |- returns ?m c => assert (safe n m) as H by returning; by apply H end).
  1-4: (apply (register_returns n); [done|done|done|done|]; intros x Wx Hs;
        split_and!; [by apply with_listeners_wf
          |intros closed; apply chan_follows_same; [done|done|done|apply confirms_follow_refl| |done]|];
        unfold chan_listeners; simpl; rewrite fmap_app; simpl; first [solve_Permutation|set_solver]).
  - destruct Hf as [Hf1 Hf2]. by eapply (NotifyPublish_returns n).
  - by apply (Consume_returns n).
  - unfold ConsumeWithContext. destruct (Validate args); [by apply (safe_mret n)|].
    destruct ctxErr; [by apply (safe_mret n)|]. by apply (Consume_returns n).
  - by eapply Publish_returns.
Qed.

(** Every call within the limits returns, and leaves the connection in
    order. *)
Lemma perform_returns k c :
  conn_wf c -> call_fits c k -> exists c', perform k c = Ok (tt, c') /\ conn_wf c' /\ follows c c'.
Proof.
  intros Hwf Hf. assert (returns (perform k) c) as ([] & c' & E & W & F); [|by exists c'].
  assert (length (cn_objs c) <= length (cn_objs c))%nat as Hn by done. set (n := length (cn_objs c)) in *.
  destruct k as [a k|r|r|derr r|s t r|l|l|f|e|e r]; cbn [perform call_fits] in *; try (apply ignore_returns).
  - destruct Hf as (ch & Hch & Hf). by eapply perform_on_returns.
  - exact (safe_openChannel n r c Hwf Hn).
  - exact (safe_close_call n _ _ _ _ c Hwf Hn).
  - assert (safe n (CloseDeadline derr r)) as H by returning. by apply H.
  - assert (safe n (UpdateSecret s t r)) as H by returning. by apply H.
  - apply (Connection_Notify_returns (LClose l)); [done|done|]. intros Hc. split; [|apply add_own_follows; set_solver].
    eapply own_fresh_wf; [done|done|exact Hf|]. unfold conn_listeners. rewrite fmap_app. simpl. solve_Permutation.
  - apply (Connection_Notify_returns (LBlock l)); [done|done|]. intros Hc. split; [|apply add_own_follows; set_solver].
    eapply own_fresh_wf; [done|done|exact Hf|]. unfold conn_listeners. rewrite fmap_app. simpl. solve_Permutation.
  - by apply (demux_returns n).
  - exact (safe_Connection_shutdown n e c Hwf Hn).
  - exact (safe_close_call n _ _ _ _ c Hwf Hn).
Qed.

(** ** The handshake *)

Definition quiet {A} (m : M A) : Prop := forall c x c', m c = Ok (x, c') -> same_core c c'.

Lemma same_core_refl c : same_core c c.
Proof. by split_and!. Qed.
Lemma same_core_trans c1 c2 c3 : same_core c1 c2 -> same_core c2 c3 -> same_core c1 c3.
Proof.
  intros (A1 & A2 & A3 & A4 & A5 & A6 & A7 & A8 & A9 & A10) (B1 & B2 & B3 & B4 & B5 & B6 & B7 & B8 & B9 & B10).
  split_and!; etransitivity; eassumption.
Qed.

Lemma quiet_bind {A B} (m : M A) (k : A -> M B) : quiet m -> (forall a, quiet (k a)) -> quiet (mbind m k).
Proof.
  intros Hm Hk c b c' (a & c1 & E1 & E2)%mbind_inv.
  eapply same_core_trans; [by eapply Hm|by eapply Hk].
Qed.
Lemma quiet_mret {A} (x : A) : quiet (mret x).
Proof. intros c y c' [= _ <-]. apply same_core_refl. Qed.
Lemma quiet_modify f : (forall c, same_core c (f c)) -> quiet (modify f).
Proof. intros Hf c x c' [= _ <-]. apply Hf. Qed.
Lemma quiet_writes {A} (m : M A) : writes m -> quiet m.
Proof. intros Hm c x c' E. destruct (Hm c x c' E) as (b & w & t & g & ->). by split_and!. Qed.

Lemma quiet_Connection_send f : quiet (Connection_send f).
Proof. apply quiet_writes. writing. Qed.

Lemma quiet_Connection_call req res r : quiet (Connection_call req res r).
Proof.
  apply quiet_bind; [destruct req; [apply quiet_Connection_send|apply quiet_mret]|].
  intros [e|]; [apply quiet_mret|]. destruct r as [[e|]|[m|]]; try apply quiet_mret.
  - apply quiet_bind; [by apply quiet_modify|intros; apply quiet_mret].
  - destruct (existsb _ _); apply quiet_mret.
Qed.

Lemma quiet_openVhost config r : quiet (openVhost config r).
Proof.
  apply quiet_bind; [apply quiet_Connection_call|]. intros [[e|] m]; [apply quiet_mret|].
  apply quiet_bind; [by apply quiet_modify|intros; apply quiet_mret].
Qed.

(** The state before the handshake. *)
Definition unopened (c : Connection) : Prop := same_core initial_connection c.

Lemma openTune_core config auth lf hb r2 r3 c c' :
  unopened c -> openTune config auth lf hb r2 r3 c = Ok (None, c') ->
  is_Some (cn_allocator c') /\ cn_objs c' = [] /\ cn_lclosed c' = [] /\ cn_closes c' = [hb] /\ cn_blocks c' = [] /\
  cn_closed c' = false /\ cn_shut c' = false /\ cn_noNotify c' = false.
Proof.
  intros Hc E. unfold openTune in E. apply mbind_inv in E as (y & c1 & E1 & E).
  pose proof (same_core_trans _ _ _ Hc (quiet_Connection_call _ _ _ _ _ _ E1)) as H1.
  destruct y as [[e|] [m|]]; [..|]; try (unfold mret in E; by simplify_eq).
  destruct m; try (unfold mret in E; by simplify_eq).
  destruct H1 as (A1 & A2 & A3 & A4 & A5 & A6 & A7 & A8 & A9 & A10). cbn in A1, A2, A3, A4, A5, A6, A7, A8, A9, A10.
  cbv zeta in E. rewrite (mbind_ok _ _ _ _ _ eq_refl), (mbind_ok _ _ _ _ _ eq_refl) in E.
  unfold Connection_NotifyClose in E. rewrite mbind_assoc, (mbind_ok _ _ _ _ _ eq_refl) in E.
  cbn [cn_noNotify with_registry with_tuning] in E. rewrite A3, (mbind_ok _ _ _ _ _ eq_refl) in E.
  apply mbind_inv in E as (err & c2 & E2 & E). apply quiet_Connection_send in E2.
  destruct err as [e|]; [unfold mret in E; by simplify_eq|]. apply quiet_openVhost in E.
  destruct (same_core_trans _ _ _ E2 E) as (B1 & B2 & B3 & B4 & B5 & B6 & B7 & B8 & B9 & B10).
  cbn in B1, B2, B3, B4, B5, B6, B7, B8, B9, B10.
  rewrite A4 in B4. cbn in B4. split_and!; [by rewrite B7|congruence..].
Qed.

(** A call without error gives back a message of the type asked for. *)
Lemma Connection_call_ok req res r c x c' :
  Connection_call req [res] r c = Ok ((None, x), c') -> exists m, x = Some m /\ message_id m = message_id res.
Proof.
  intros (err & c1 & _ & E)%mbind_inv. destruct err; [unfold mret in E; by simplify_eq|].
  destruct r as [[e'|]|[m'|]]; try (unfold mret, modify, mbind in E; by simplify_eq).
  cbn [existsb] in E. rewrite orb_false_r in E. unfold same_type in E.
  case_bool_decide; unfold mret in E; simplify_eq. eauto.
Qed.

Lemma open_core config lf hb r1 r2 r3 c :
  Connection_open config lf hb r1 r2 r3 initial_connection = Ok (None, c) ->
  is_Some (cn_allocator c) /\ cn_objs c = [] /\ cn_lclosed c = [] /\ cn_closes c = [hb] /\ cn_blocks c = [] /\
  cn_closed c = false /\ cn_shut c = false /\ cn_noNotify c = false.
Proof.
  intros E. unfold Connection_open in E. apply mbind_inv in E as (err & c1 & E1 & E).
  apply quiet_Connection_send in E1. destruct err; [unfold mret in E; by simplify_eq|].
  unfold openStart in E. apply mbind_inv in E as (y & c2 & E2 & E).
  pose proof (same_core_trans _ _ _ E1 (quiet_Connection_call _ _ _ _ _ _ E2)) as H2.
  destruct y as [[e|] y]; [destruct y; unfold mret in E; by simplify_eq|].
  apply Connection_call_ok in E2 as (m & -> & Hid). destruct m; try done.
  cbv zeta in E. rewrite (mbind_ok _ _ _ _ _ eq_refl) in E.
  destruct (pickSASLMechanism _ _) as [auth|]; [|unfold mret in E; by simplify_eq].
  rewrite (mbind_ok _ _ _ _ _ eq_refl) in E. apply openTune_core in E; [done|].
  eapply same_core_trans; [exact H2|by split_and!].
Qed.

(** A handshake that succeeds, with a frame size that can carry content. *)
Definition established (c : Connection) : Prop :=
  exists config login_first hb rstart rtune ropen,
    0 <= cfg_ChannelMax config < 2 ^ 16 /\
    (forall tune, rtune = FromRpc (Some (M_connectionTune tune)) ->
       0 <= connectionTune_ChannelMax tune < 2 ^ 16) /\
    Connection_open config login_first hb rstart rtune ropen initial_connection = Ok (None, c) /\
    (cn_FrameSize c <= 0 \/ frameHeaderSize < cn_FrameSize c).

Lemma established_wf c : established c -> conn_wf c.
Proof.
  intros (config & lf & hb & r1 & r2 & r3 & Hm & Ht & E & Hf).
  destruct (open_core _ _ _ _ _ _ _ E) as (Ha & Ho & Hl & Hc & Hb & H1 & H2 & H3).
  destruct (open_maintains _ _ _ _ _ _ _ _ _ initial_registry eq_refl Hm Ht E) as [R _].
  split; [done| |done|congruence|congruence|done]. split.
  - intros a ch Hch. by rewrite Ho, lookup_nil in Hch.
  - unfold own_listeners, conn_listeners. rewrite H2, Hc, Hb, Ho, Hl. simpl. apply NoDup_singleton.
Qed.

(** ** Executions within the limits *)

Inductive use_step : Connection -> Connection -> Prop :=
  | use_call k c c' : call_fits c k -> perform k c = Ok (tt, c') -> use_step c c'
  | use_consumer a i b b' ch c :
      cn_objs c !! a = Some ch -> c_bufs (ch_consumers ch) !! i = Some b ->
      buffer_step (c_closed (ch_consumers ch)) b b' ->
      use_step c (set_chan a (with_consumers (set_buffer i b' (ch_consumers ch)) ch) c)
  | use_broken e c : cn_transport c = Working -> use_step c (with_transport (Broken e) c).

Definition usable (c : Connection) : Prop := exists c0, established c0 /\ rtc use_step c0 c.

Lemma use_step_ok c c' : conn_wf c -> use_step c c' -> conn_wf c' /\ follows c c'.
Proof.
  intros Hwf Hs. destruct Hs as [k c c' Hk E|a i b b' ch c Ha Hb Hs|e c _].
  - destruct (perform_returns k c Hwf Hk) as (c1 & E1 & W1 & F1). by assert (c1 = c') as <- by congruence.
  - assert (good_change ch (with_consumers (set_buffer i b' (ch_consumers ch)) ch)) as G;
      [|split; [by apply (set_chan_wf a ch _ c Hwf Ha)|by apply (set_chan_follows a ch), G]].
    pose proof (ow_channels _ _ (sw_objects c Hwf) a ch Ha) as W.
    destruct (buffer_step_wf (c_closed (ch_consumers ch)) b b') as (Wb & _ & Cb);
      [by eapply kw_bufs; [apply W|]|done|].
    apply good_consumers; [done|by eapply set_buffer_wf; [apply W|..]|done| |by eapply consumers_step_follows, step_goroutine].
    intros Hsh. by apply (hw_shut _ W).
  - by split; [apply (same_core_wf c)|apply same_core_follows].
Qed.

Lemma use_step_wf c c' : conn_wf c -> use_step c c' -> conn_wf c'.
Proof. intros Hwf Hs. by apply (use_step_ok c c'). Qed.

Lemma usable_wf c : usable c -> conn_wf c.
Proof.
  intros (c0 & H0%established_wf & Hr). induction Hr as [|c1 c2 c3 Hs _ IH]; [done|].
  by eapply IH, use_step_wf.
Qed.

(** ** Theorems *)

(** C1: No call hangs or panics.  After a successful handshake and any
    sequence of calls of the application, frames of the peer, goroutine steps
    and failures of the transport within the limits of [call_fits], every
    further call within them returns.  A method that waits is answered (it is
    given the case of its [select] that fires), and listeners receive what
    they are sent.  The limits: methods are called on
    channels that were opened; a Go channel is registered with one [Notify]
    method, once; a channel publishes fewer than 2^64-2 messages; the peer
    does not send a delivery tag of 2^64-1, announce a body beyond the
    address space, send heartbeats on a channel, or [connection.blocked]
    after the shutdown. *)
Theorem calls_return c k :
  usable c -> call_fits c k -> exists c', perform k c = Ok (tt, c').
Proof. intros Hu Hk. destruct (perform_returns k c (usable_wf c Hu) Hk) as (c' & E & _). eauto. Qed.

(** C14: Shutting an open connection down returns; afterwards every channel
    that was registered is shut down and closed, the registry is empty, every
    listener of the connection is closed and the transport closed last. *)
Theorem shutdown_completes e c :
  usable c -> cn_closed c = false ->
  exists c', Connection_shutdown e c = Ok (tt, c') /\ torn_down c c'.
Proof.
  intros Hu%usable_wf Hc. destruct (Connection_shutdown_ok e c Hu) as (c' & E & _ & _ & H).
  rewrite (sw_shut c Hu), Hc in H. eauto.
Qed.

(** Shutting a channel down for the first time tells the error to its
    close listeners in the order of their registration, then closes each of
    its listeners once, and leaves it shut down: consumers and confirmations
    are closed, and the error waits in [ch.errors] for a pending call. *)
Theorem channel_shutdown_completes a e c ch :
  usable c -> cn_objs c !! a = Some ch -> ch_shut ch = false ->
  exists c' ch', Channel_shutdown a e c = Ok (tt, c') /\ cn_objs c' = <[a := ch']> (cn_objs c) /\
    shut_down e ch ch' /\
    cn_log c' = cn_log c ++ notices e (LClose <$> ch_closes ch) ++ (ListenerClosed <$> chan_listeners ch).
Proof.
  intros Hu%usable_wf Ha Hs.
  destruct (Channel_shutdown_ok _ a e c ch (sw_objects c Hu) Ha) as (c' & E & _ & H).
  rewrite Hs in H. destruct H as (ch' & -> & Hd). eexists _, ch'. split_and!; [done|done|done|].
  simpl. by rewrite app_assoc.
Qed.

(** *** A close from the peer *)

(** Within [Channel_recv] a method is handled the same way in every state. *)
Lemma recv_plain_method a id x y msg c ch :
  cn_objs c !! a = Some ch -> message_getContent msg = None ->
  Channel_recv a (F_method (Mk_methodFrame id x y (Some msg))) c
  = (dispatch a (Some msg) >> transition a RecvMethod) c.
Proof.
  intros Ha Hm. unfold Channel_recv. rewrite (mbind_ok _ _ _ _ _ (get_chan_ok _ _ _ Ha)).
  destruct (ch_recv ch); cbn [recvMethod recvHeader recvContent mf_Method]; by rewrite Hm.
Qed.

Definition close_ok (id : Z) : frame :=
  F_method (Mk_methodFrame id 0 0 (Some (M_channelCloseOk Mk_channelCloseOk))).

Lemma close_ok_emits id : is_uint 16 id -> exists bs, emits (frame_write (close_ok id)) bs.
Proof.
  intros Hid. destruct (frame_codec (close_ok id)) as (bs & E & _); [|by exists bs].
  split; [exact Hid|]. by vm_compute.
Qed.

Lemma registered_id c id a ch :
  conn_wf c -> cn_closed c = false -> cn_channels c !! id = Some a -> cn_objs c !! a = Some ch ->
  ch_id ch = id /\ 1 <= id <= 65535.
Proof.
  intros Hwf Hc Hr Hch. destruct (rw_objs c (sw_registry c Hwf) id a Hr) as (ch0 & E0 & Hid).
  split; [congruence|].
  destruct (sw_tuned c Hwf Hc) as [al Hal]. destruct (rw_some c (sw_registry c Hwf) al Hal) as (_ & L & Hh & D).
  assert (id ∈ pool_ids al) as Hin%elem_of_ids by (rewrite D; by eapply elem_of_dom_2).
  change (low al) with (pool_low al) in Hin. change (high al) with (pool_high al) in Hin. lia.
Qed.

Lemma send_close_ok a c ch bs :
  cn_objs c !! a = Some ch -> ch_closed ch = true -> cn_closed c = false -> cn_transport c = Working ->
  emits (frame_write (close_ok (ch_id ch))) bs ->
  Channel_send a (M_channelCloseOk Mk_channelCloseOk) c
  = Ok (None, with_writer [] (cn_wire c ++ cn_buf c ++ bs) c).
Proof.
  intros Hch Hcl Hc Ht Ebs. unfold Channel_send, Channel_IsClosed. rewrite mbind_assoc.
  rewrite (mbind_ok _ _ _ _ _ (get_chan_ok a c ch Hch)), (mbind_ok _ _ _ _ _ eq_refl), Hcl.
  cbn [sendClosed]. rewrite (mbind_ok _ _ _ _ _ (get_chan_ok a c ch Hch)).
  exact (send_ok (close_ok (ch_id ch)) bs c Hc Ht Ebs).
Qed.

Lemma closeChannel_ok a e c ch :
  conn_wf c -> cn_closed c = false -> cn_objs c !! a = Some ch -> ch_shut ch = false ->
  cn_channels c !! ch_id ch = Some a ->
  exists ch' al, shut_down e ch ch' /\
    closeChannel a e c
    = Ok (tt, with_registry (delete (ch_id ch) (cn_channels c)) (Some al) (after_shutdown a e ch ch' c)).
Proof.
  intros Hwf Hc Hch Hs Hr. pose proof (lookup_lt_Some _ _ _ Hch) as Hlt.
  destruct (Channel_shutdown_ok _ a e c ch (sw_objects c Hwf) Hch) as (c1 & E1 & _ & H1).
  rewrite Hs in H1. destruct H1 as (ch' & -> & Hd).
  destruct (safe_Channel_shutdown _ a e Hlt c Hwf (le_n _)) as ([] & c1 & E1' & W1 & _).
  rewrite E1 in E1'. injection E1' as <-.
  destruct (releaseChannel_ok a _ ch' W1 Hc) as (al & E2).
  - by apply list_lookup_insert_eq.
  - simpl. by rewrite (sd_id _ _ _ Hd).
  - exists ch', al. split; [done|]. unfold closeChannel. rewrite (mbind_ok _ _ _ _ _ E1), E2.
    by rewrite (sd_id _ _ _ Hd).
Qed.

(** C13: When the peer closes a channel, the reader answers with
    [channel.close-ok] on that channel, tells the error to the close
    listeners, closes all listeners, shuts the channel down, and frees its
    number. *)
Theorem server_closes_channel c id a ch x y m :
  usable c -> cn_closed c = false -> cn_transport c = Working ->
  cn_channels c !! id = Some a -> cn_objs c !! a = Some ch -> ch_shut ch = false ->
  let e := newError (channelClose_ReplyCode m) (channelClose_ReplyText m) in
  exists c' ch' bs,
    demux (F_method (Mk_methodFrame id x y (Some (M_channelClose m)))) c = Ok (tt, c') /\
    emits (frame_write (close_ok id)) bs /\ cn_wire c' = cn_wire c ++ cn_buf c ++ bs /\
    cn_channels c' = delete id (cn_channels c) /\
    cn_objs c' !! a = Some ch' /\ ch_shut ch' = true /\ ch_errors ch' = ch_errors ch ++ [e] /\
    cn_log c' = cn_log c ++ notices (Some e) (LClose <$> ch_closes ch) ++ (ListenerClosed <$> chan_listeners ch).
Proof.
  intros Hu%usable_wf Hc Ht Hr Hch Hs e. pose proof (lookup_lt_Some _ _ _ Hch) as Hlt.
  destruct (registered_id c id a ch Hu Hc Hr Hch) as [<- Hrange].
  destruct (close_ok_emits (ch_id ch)) as (bs & Ebs); [unfold is_uint; lia|].
  set (ch1 := with_closed true ch). set (c1 := set_chan a ch1 c).
  assert (good_change ch ch1) as G by (by apply good_closed, (ow_channels _ _ (sw_objects c Hu) a)).
  assert (cn_objs c1 !! a = Some ch1) as Hch1 by (by apply list_lookup_insert_eq).
  set (c2 := with_writer [] (cn_wire c1 ++ cn_buf c1 ++ bs) c1).
  assert (conn_wf c2) as W2 by (by apply (same_core_wf c1); [|eapply set_chan_wf]).
  destruct (closeChannel_ok a (Some e) c2 ch1 W2 Hc Hch1 Hs Hr) as (ch' & al & Hd & E3).
  eexists _, _, bs. split_and!; [|exact Ebs|..].
  - unfold demux. cbn [frame_channel mf_ChannelId]. rewrite (proj2 (Z.eqb_neq _ 0)) by lia.
    unfold dispatchN. rewrite (mbind_ok _ _ _ _ _ eq_refl), Hr. cbn [updateChannel mf_Method]. unfold setClosed.
    rewrite (mbind_ok _ _ _ _ _ (upd_chan_ok a _ c ch Hch)). fold ch1. change (with_objs _ c) with c1.
    rewrite (recv_plain_method a _ _ _ (M_channelClose m) c1 ch1 Hch1 eq_refl). cbn [dispatch].
    rewrite mbind_assoc, (mbind_ok _ _ _ _ _ (send_close_ok a c1 ch1 bs Hch1 eq_refl Hc Ht Ebs)).
    rewrite (mbind_ok _ _ _ _ _ E3). unfold transition.
    by rewrite (upd_chan_ok a _ _ ch') by (by simpl; apply list_lookup_insert_eq; rewrite length_insert).
  - done.
  - done.
  - simpl. by apply list_lookup_insert_eq; rewrite !length_insert.
  - simpl. apply Hd.
  - simpl. apply (sd_errors _ _ _ Hd).
  - simpl. by rewrite app_assoc.
Qed.

(** *** Publishing *)

(** Publishing returns.  In confirm mode a message that was sent has the
    next sequence number and a pending deferred confirmation of that number;
    a message whose send failed does not consume a number, so that the
    numbers of the client and of the peer stay in step.  Outside confirm mode
    the channel does not change.  No other channel is touched. *)
Theorem publish_numbers a e k m i msg c ch :
  usable c -> cn_objs c !! a = Some ch -> published (ch_confirms ch) + 1 < 2 ^ 64 - 1 ->
  exists x c' ch', PublishWithDeferredConfirm a e k m i msg c = Ok (x, c') /\
    cn_objs c' = <[a := ch']> (cn_objs c) /\ published_as ch ch' x.
Proof.
  intros Hu%usable_wf Hch Hp. destruct (Publish_spec a e k m i msg c ch Hu Hch Hp)
    as (x & c' & ch' & E & _ & O & P). by exists x, c', ch'.
Qed.

(** ** Beyond the limits *)

(** [Confirm] waits for the reply also with [noWait]: if the channel is
    shut down instead, it fails and the channel is not put in confirm mode. *)
Theorem confirm_waits_despite_nowait a noWait c c1 :
  Channel_send a (M_confirmSelect (Mk_confirmSelect noWait)) c = Ok (None, c1) ->
  Confirm a noWait (FromErrors None) c = Ok (Some (AmqpError ErrClosed), c1) /\
  Confirm a noWait (FromRpc (Some (M_confirmSelectOk Mk_confirmSelectOk))) c
  = (upd_chan a (with_confirming true) >> mret None) c1.
Proof. intros E. unfold Confirm, call_, Channel_call. split; unfold mbind at 1 2 3; by rewrite E. Qed.

(** The listeners of [NotifyBlocked] are closed by the shutdown but not
    forgotten: a [connection.blocked] that the reader has already buffered
    then makes it send on a closed channel and panic. *)
Theorem blocked_after_shutdown_panics e c x y m :
  usable c -> cn_closed c = false -> cn_blocks c <> [] ->
  exists c', Connection_shutdown e c = Ok (tt, c') /\
    demux (F_method (Mk_methodFrame 0 x y (Some (M_connectionBlocked m)))) c' = Panicked.
Proof.
  intros Hu%usable_wf Hc Hb. destruct (Connection_shutdown_ok e c Hu) as (c' & E & _ & _ & H).
  rewrite (sw_shut c Hu), Hc in H. exists c'. split; [done|]. destruct (cn_blocks c) as [|l ls] eqn:El; [done|].
  unfold demux, dispatch0, mbind, gets. cbn [frame_channel mf_ChannelId Z.eqb mf_Method].
  rewrite (td_blocks _ _ H), El. cbn [mfor]. unfold notify, mbind, gets.
  rewrite bool_decide_true; [done|]. apply (td_listeners _ _ H). unfold conn_listeners. rewrite El. set_solver.
Qed.

(** A header that announces more than can be allocated makes the reader
    panic on the first body frame: the size is not checked. *)
Theorem oversize_content_panics c id a ch x y msg h body :
  cn_channels c !! id = Some a -> id <> 0 -> cn_objs c !! a = Some ch ->
  is_Some (message_getContent msg) -> hf_ChannelId h = id -> maxAlloc < hf_Size h ->
  (demux (F_method (Mk_methodFrame id x y (Some msg))) >> demux (F_header h) >>
   demux (F_body (Mk_bodyFrame id body))) c = Panicked.
Proof.
  intros Hr Hid Hch Hm Hh Hs. pose proof (lookup_lt_Some _ _ _ Hch) as Hlt.
  assert (forall f s, frame_channel f = Some id -> (forall m, f = F_method m -> updateChannel f a s = Ok (tt, s)) ->
    cn_channels s = cn_channels c -> demux f s = Channel_recv a f s) as Hd.
  { intros f s Hf Hu Hs'. unfold demux. rewrite Hf, (proj2 (Z.eqb_neq id 0) Hid). unfold dispatchN.
    rewrite (mbind_ok _ _ _ _ _ eq_refl), Hs', Hr.
    assert (updateChannel f a s = Ok (tt, s)) as Eu by (destruct f; [done|by eapply Hu|done..]).
    by rewrite (mbind_ok _ _ _ _ _ Eu). }
  rewrite <- (set_chan_id a ch c Hch). unfold mbind at 1.
  rewrite Hd by (try done; intros ? _; destruct Hm, msg; done). rewrite (recv_method a c Hlt id x y msg ch Hm).
  unfold mbind at 1. rewrite Hd by (done || by simpl; rewrite Hh).
  unfold Channel_recv. rewrite (mbind_ok _ _ _ _ _ (get_set a c Hlt _)). cbn [ch_recv with_assembly recvHeader].
  rewrite (mbind_ok _ _ _ _ _ (upd_set a c Hlt _ _)).
  rewrite (proj2 (Z.eqb_neq (hf_Size h) 0)) by (unfold maxAlloc in Hs; lia). rewrite (transition_set a c Hlt).
  rewrite Hd by done. unfold Channel_recv. rewrite (mbind_ok _ _ _ _ _ (get_set a c Hlt _)).
  cbn [ch_recv with_assembly recvContent]. rewrite (mbind_ok _ _ _ _ _ (get_set a c Hlt _)).
  cbn [ch_header with_assembly ch_body_cap]. by rewrite (proj2 (Z.ltb_lt _ _) Hs).
Qed.

(** C6: What is registered stays registered.  A listener of a channel that is
    not shut down stays one of its listeners, open, through any sequence of
    calls, frames, goroutine steps and failures, until the channel is shut
    down, which closes it; the channel stays in confirm mode; and a listener
    for confirmations is sent consecutive tags from the expected one on until
    it is closed; and what a consumer was handed stays handed over, in its
    order, with nothing after its deliveries were closed. *)
Theorem listeners_kept c c' a ch l :
  usable c -> rtc use_step c c' -> cn_objs c !! a = Some ch -> ch_shut ch = false -> l ∈ chan_listeners ch ->
  exists ch', cn_objs c' !! a = Some ch' /\
    (if ch_shut ch' then l ∈ cn_lclosed c' else l ∈ chan_listeners ch' /\ l ∉ cn_lclosed c') /\
    (ch_confirming ch = true -> ch_confirming ch' = true) /\
    confirms_follow (ch_confirms ch) (ch_confirms ch') /\
    bufs_follow (ch_consumers ch) (ch_consumers ch').
Proof.
  intros Hwf%usable_wf Hr Ha Hs Hl. assert (conn_wf c' /\ follows c c') as [W F].
  { clear Ha. induction Hr as [c|c1 c2 c3 H1 _ IH]; [done|]. destruct (use_step_ok c1 c2 Hwf H1) as [W1 F1].
    destruct (IH W1) as [W2 F2]. split; [done|by etrans]. }
  destruct (fo_objs _ _ F a ch Ha) as (ch' & Ha' & Fc). exists ch'. split_and!; [done| |apply Fc|apply Fc|apply Fc].
  destruct (ch_shut ch') eqn:Hs'; [by apply (cf_closed _ _ _ Fc)|].
  assert (l ∈ chan_listeners ch') as Hl' by (by apply (cf_listeners _ _ _ Fc)). split; [done|by eapply open_listener].
Qed.

(** ** Examples *)

(** Runs calls one after the other. *)
Fixpoint run (ks : list call) (c : Connection) : outcome Connection :=
  match ks with
  | [] => Ok c
  | k :: r =>
      match perform k c with
      | Ok (_, c') => run r c'
      | Err e => Err e
      | Panicked => Panicked
      | NoFuel => NoFuel
      end
  end.

(** The calls are within the limits when they are made. *)
Fixpoint fit (ks : list call) (c : Connection) : Prop :=
  match ks with
  | [] => True
  | k :: r => call_fits c k /\ match perform k c with Ok (_, c') => fit r c' | _ => False end
  end.

Lemma run_steps ks c c' : fit ks c -> run ks c = Ok c' -> rtc use_step c c'.
Proof.
  revert c. induction ks as [|k ks IH]; intros c Hf E; cbn [run fit] in *; [simplify_eq; reflexivity|].
  destruct Hf as [Hk Hf]. destruct (perform k c) as [[[] c1]| | |] eqn:Ek; [|done..].
  eapply rtc_l; [by eapply use_call|]. auto.
Qed.

(** One channel in confirm mode, and listeners. *)
Definition setup : list call :=
  [Do_Channel (FromRpc (Some (M_channelOpenOk (Mk_channelOpenOk ""))));
   Do_NotifyBlocked 1;
   OnChannel 0 (Do_NotifyClose 2);
   OnChannel 0 (Do_NotifyPublish 0);
   OnChannel 0 (Do_Confirm false (FromRpc (Some (M_confirmSelectOk Mk_confirmSelectOk))))].

Definition in_use : Connection := match run setup opened with Ok c => c | _ => opened end.

Lemma opened_established : established opened.
Proof.
  exists test_config, true, 0%nat,
    (FromRpc (Some (M_connectionStart (Mk_connectionStart 0 9 [] "PLAIN AMQPLAIN" "en_US")))),
    (FromRpc (Some (M_connectionTune (Mk_connectionTune 1 131072 60)))),
    (FromRpc (Some (M_connectionOpenOk (Mk_connectionOpenOk "")))).
  split_and!; [by vm_compute|by vm_compute|intros tune [= <-]; by vm_compute|by vm_compute|right; by vm_compute].
Qed.

Lemma setup_fits : fit setup opened.
Proof.
  vm_compute. repeat first [split | eexists; split; [reflexivity|] | intros Hin]; try done;
    repeat match goal with H : list_elem_of _ _ |- _ => inversion H; clear H; subst
           | H : _ ∈ _ |- _ => inversion H; clear H; subst end.
Qed.

Lemma in_use_usable : usable in_use.
Proof.
  exists opened. split; [apply opened_established|]. apply (run_steps setup); [apply setup_fits|by vm_compute].
Qed.

Lemma calls_return_witness :
  exists c', perform (Run_demux (F_method (Mk_methodFrame 1 0 0 (Some (M_basicAck (Mk_basicAck 1 false)))))) in_use
    = Ok (tt, c').
Proof.
  apply (calls_return in_use (Run_demux (F_method (Mk_methodFrame 1 0 0 (Some (M_basicAck (Mk_basicAck 1 false))))))).
  - apply in_use_usable.
  - split; [|done]. intros m [= <-]. by vm_compute.
Defined.

Lemma shutdown_completes_witness :
  exists c', Connection_shutdown (Some ErrUnexpectedFrame) in_use = Ok (tt, c') /\ torn_down in_use c'.
Proof. apply (shutdown_completes (Some ErrUnexpectedFrame) in_use in_use_usable). by vm_compute. Defined.

(** The channel of the example. *)
Definition in_use_channel : Channel := default (newChannel 0) (cn_objs in_use !! 0%nat).

Lemma in_use_channel_at : cn_objs in_use !! 0%nat = Some in_use_channel.
Proof. by vm_compute. Qed.

Lemma channel_shutdown_completes_witness :
  exists c' ch', Channel_shutdown 0 (Some ErrUnexpectedFrame) in_use = Ok (tt, c') /\
    cn_objs c' = <[0%nat := ch']> (cn_objs in_use) /\
    shut_down (Some ErrUnexpectedFrame) in_use_channel ch' /\
    cn_log c' = cn_log in_use ++ notices (Some ErrUnexpectedFrame) [LClose 2] ++ [ListenerClosed (LClose 2)].
Proof.
  apply (channel_shutdown_completes 0 (Some ErrUnexpectedFrame) in_use in_use_channel in_use_usable in_use_channel_at).
  by vm_compute.
Defined.

Lemma server_closes_channel_witness :
  let e := newError 404 "NOT_FOUND" in
  exists c' ch' bs,
    demux (F_method (Mk_methodFrame 1 0 0 (Some (M_channelClose (Mk_channelClose 404 "NOT_FOUND" 0 0))))) in_use
      = Ok (tt, c') /\
    emits (frame_write (close_ok 1)) bs /\ cn_wire c' = cn_wire in_use ++ cn_buf in_use ++ bs /\
    cn_channels c' = delete 1 (cn_channels in_use) /\
    cn_objs c' !! 0%nat = Some ch' /\ ch_shut ch' = true /\ ch_errors ch' = [e] /\
    cn_log c' = cn_log in_use ++ notices (Some e) [LClose 2] ++ [ListenerClosed (LClose 2)].
Proof.
  exact (server_closes_channel in_use 1 0 in_use_channel 0 0 (Mk_channelClose 404 "NOT_FOUND" 0 0)
    in_use_usable ltac:(by vm_compute) ltac:(by vm_compute) ltac:(by vm_compute) in_use_channel_at
    ltac:(by vm_compute)).
Defined.

Definition sample_publishing : Publishing :=
  MkPublishing [] "" "" 0 0 "" "" "" "" zeroTime "" "" "" [Zbyte 1].

Lemma publish_numbers_witness :
  exists x c' ch', PublishWithDeferredConfirm 0 "" "q" false false sample_publishing in_use = Ok (x, c') /\
    cn_objs c' = <[0%nat := ch']> (cn_objs in_use) /\ published_as in_use_channel ch' x.
Proof.
  apply (publish_numbers 0 "" "q" false false sample_publishing in_use in_use_channel in_use_usable in_use_channel_at).
  by vm_compute.
Defined.

Definition confirm_sent : Connection :=
  match Channel_send 0 (M_confirmSelect (Mk_confirmSelect true)) in_use with Ok (_, c) => c | _ => in_use end.

Lemma confirm_waits_despite_nowait_witness :
  Confirm 0 true (FromErrors None) in_use = Ok (Some (AmqpError ErrClosed), confirm_sent) /\
  Confirm 0 true (FromRpc (Some (M_confirmSelectOk Mk_confirmSelectOk))) in_use
  = (upd_chan 0 (with_confirming true) >> mret None) confirm_sent.
Proof. apply (confirm_waits_despite_nowait 0 true in_use confirm_sent). by vm_compute. Defined.

Lemma blocked_after_shutdown_panics_witness :
  exists c', Connection_shutdown None in_use = Ok (tt, c') /\
    demux (F_method (Mk_methodFrame 0 0 0 (Some (M_connectionBlocked (Mk_connectionBlocked "low memory"))))) c'
      = Panicked.
Proof.
  apply (blocked_after_shutdown_panics None in_use 0 0 (Mk_connectionBlocked "low memory") in_use_usable);
    by vm_compute.
Defined.

Lemma oversize_content_panics_witness :
  (demux (F_method (Mk_methodFrame 1 0 0 (Some (M_basicDeliver
            (Mk_basicDeliver "t" 1 false "" "" zeroProperties []))))) >>
   demux (F_header (Mk_headerFrame 1 60 0 (2 ^ 63) zeroProperties)) >>
   demux (F_body (Mk_bodyFrame 1 [Zbyte 1]))) in_use = Panicked.
Proof.
  apply (oversize_content_panics in_use 1 0 in_use_channel); [by vm_compute|done|apply in_use_channel_at|by eexists|done|by vm_compute].
Defined.

(** The connection of the example after its shutdown. *)
Definition in_use_shut : Connection :=
  match Connection_shutdown (Some ErrUnexpectedFrame) in_use with Ok (_, c) => c | _ => in_use end.

Lemma listeners_kept_witness :
  exists ch', cn_objs in_use_shut !! 0%nat = Some ch' /\
    (if ch_shut ch' then LClose 2 ∈ cn_lclosed in_use_shut
     else LClose 2 ∈ chan_listeners ch' /\ LClose 2 ∉ cn_lclosed in_use_shut) /\
    (ch_confirming in_use_channel = true -> ch_confirming ch' = true) /\
    confirms_follow (ch_confirms in_use_channel) (ch_confirms ch') /\
    bufs_follow (ch_consumers in_use_channel) (ch_consumers ch').
Proof.
  apply (listeners_kept in_use in_use_shut 0 in_use_channel (LClose 2)).
  - apply in_use_usable.
  - apply rtc_once. by apply (use_call (Run_shutdown (Some ErrUnexpectedFrame))); [|vm_compute].
  - apply in_use_channel_at.
  - by vm_compute.
  - vm_compute. by left.
Defined.
