(* ===== verification/Peer.v ===== *)
(** * Peer: what a conforming server does to the confirmations

    A server confirms only what was published.  However the frames of such a
    server, shutdowns and goroutines interleave with the calls of an
    application, a channel never expects more than the next tag after those
    published, and only publishing changes how many there are. *)

From S2P Require Import Prelude Types Io SpecConnection SpecChannel SpecBasic SpecTx Spec091 Frame.
From S2P Require Import FrameFacts Allocator Confirms Delivery Consumers Auth State Channel.
From S2P Require Import ChannelFacts ChannelApi Connection ConnectionFacts Registry Shutdown Follows Safety.
From S2P Require Import Executions.

(** ** Confirmations within what was published *)

Definition in_range (p : Z) (k : confirms) : Prop := published k = p /\ 0 <= expecting k <= p + 1.

(** The counters are not touched. *)
Definition same_counters (k k' : confirms) : Prop := published k' = published k /\ expecting k' = expecting k.

Lemma in_range_same p k k' : same_counters k k' -> in_range p k -> in_range p k'.
Proof. intros [E1 E2] [P1 P2]. split; [congruence|lia]. Qed.

(** Loops that keep a property keep it as a whole. *)
Lemma for_each_keeps {A S} (P : S -> Prop) (f : A -> S -> outcome S) xs s s' :
  (forall x s s', f x s = Ok s' -> P s -> P s') -> for_each f xs s = Ok s' -> P s -> P s'.
Proof.
  intros Hf. revert s. induction xs as [|x xs IH]; intros s E Hs; [by injection E as <-|].
  cbn [for_each] in E. apply obind_inv in E as (s1 & E1 & E). eauto.
Qed.

Lemma same_counters_refl k : same_counters k k.
Proof. done. Qed.
Lemma same_counters_trans k1 k2 k3 : same_counters k1 k2 -> same_counters k2 k3 -> same_counters k1 k3.
Proof. intros [] []. split; congruence. Qed.

Lemma setAck_counters a ack k k' : setAck a ack k = Ok k' -> same_counters k k'.
Proof.
  unfold setAck, close_done. destruct (dcs k !! a) as [d|]; [|done]. simpl. destruct (_ !! a) as [d'|]; [|done].
  destruct (dc_closed d'); [done|]. by intros [= <-].
Qed.

Lemma resolve_counters ack kv k k' : resolve ack kv k = Ok k' -> same_counters k k'.
Proof.
  unfold resolve. intros (k1 & E & E')%obind_inv. injection E' as <-. by apply setAck_counters in E.
Qed.

Lemma deferred_Confirm_counters x k k' : deferred_Confirm x k = Ok k' -> same_counters k k'.
Proof.
  unfold deferred_Confirm. destruct (confirmations k !! _) as [a|]; [|by intros [= <-]].
  intros (k1 & E & E')%obind_inv. injection E' as <-. by apply setAck_counters in E.
Qed.

Lemma deferred_ConfirmMultiple_counters x k k' : deferred_ConfirmMultiple x k = Ok k' -> same_counters k k'.
Proof.
  intros E. unfold deferred_ConfirmMultiple in E.
  eapply (for_each_keeps (same_counters k)); [|exact E|done]. intros kv k1 k2 E1 H1.
  eapply same_counters_trans; [exact H1|]. cbv beta in E1. destruct (_ <=? _); [by eapply resolve_counters|by injection E1 as <-].
Qed.

Lemma confirms_Close_counters k k' : confirms_Close k = Ok k' -> same_counters k k'.
Proof.
  unfold confirms_Close, deferred_Close. intros (k1 & E1 & (k2 & E2 & E3)%obind_inv)%obind_inv.
  injection E3 as <-. apply (same_counters_trans _ k1).
  - eapply (for_each_keeps (same_counters k)); [|exact E1|done].
    intros kv x y E H. eapply same_counters_trans; [exact H|by eapply resolve_counters].
  - change (same_counters k1 k2). eapply (for_each_keeps (same_counters k1)); [|exact E2|done].
    intros l x y E H. unfold chan_close in E. destruct (lclosed x l); [done|]. by injection E as <-.
Qed.

Lemma confirm_counters x k k' :
  confirm x k = Ok k' -> published k' = published k /\ expecting k' = uintw 64 (expecting k + 1).
Proof.
  unfold confirm. cbv zeta. set (k1 := set_expecting _ _). intros E.
  change (same_counters k1 k'). eapply (for_each_keeps (same_counters k1)); [|exact E|done].
  intros l a b E1 H. unfold chan_send in E1. destruct (lclosed a l); [done|]. by injection E1 as <-.
Qed.

(** Below the bound a further confirmation stays within it. *)
Lemma confirm_in_range x p k k' :
  p < 2 ^ 64 - 1 -> in_range p k -> expecting k <= p -> confirm x k = Ok k' -> in_range p k'.
Proof.
  intros Hp [H1 H2] He [E1 E2]%confirm_counters.
  rewrite uintw_small in E2 by (unfold is_uint; lia). split; [congruence|lia].
Qed.

Lemma resequence_in_range p k k' :
  p < 2 ^ 64 - 1 -> in_range p k -> resequence k = Ok k' -> in_range p k'.
Proof.
  intros Hp. unfold resequence. generalize (size (sequencer k)) as fuel. intros fuel. revert k.
  induction fuel as [|fuel IH]; intros k Hk E; cbn [resequence_loop] in E;
    (destruct (Z.leb_spec (expecting k) (published k)); [|by injection E as <-]);
    (destruct (sequencer k !! expecting k) as [x|]; [|by injection E as <-]); [done|].
  apply obind_inv in E as (k1 & E1 & E). apply (IH k1); [|done].
  eapply confirm_in_range; [done|exact Hk|by rewrite <- (proj1 Hk)|done].
Qed.

Lemma Multiple_loop_in_range fuel x p k k' :
  p < 2 ^ 64 - 1 -> DeliveryTag x <= p -> in_range p k -> Multiple_loop fuel x k = Ok k' -> in_range p k'.
Proof.
  intros Hp Hx. revert k. induction fuel as [|fuel IH]; intros k Hk E; cbn [Multiple_loop] in E;
    (destruct (Z.leb_spec (expecting k) (DeliveryTag x)); [|by injection E as <-]); [done|].
  apply obind_inv in E as (k1 & E1 & E). apply (IH k1); [|done].
  eapply confirm_in_range; [done|exact Hk|lia|done].
Qed.

Lemma confirmed_in_range (multiple : bool) x p k k' :
  p < 2 ^ 64 - 1 -> DeliveryTag x <= p -> in_range p k ->
  (if multiple then Multiple else One) x k = Ok k' -> in_range p k'.
Proof.
  intros Hp Hx Hk E. destruct multiple.
  - unfold Multiple in E. apply obind_inv in E as (k1 & E1 & E). apply obind_inv in E as (k2 & E2 & E).
    apply deferred_ConfirmMultiple_counters in E1.
    eapply resequence_in_range; [done| |done]. eapply Multiple_loop_in_range; [done|done| |done].
    by eapply in_range_same.
  - unfold One in E. apply obind_inv in E as (k1 & E1 & E). apply obind_inv in E as (k2 & E2 & E).
    apply deferred_Confirm_counters in E1. assert (in_range p k1) as H1 by (by eapply in_range_same).
    eapply resequence_in_range; [done| |done].
    destruct (Z.eqb_spec (expecting k1) (DeliveryTag x)); [|by injection E2 as <-].
    eapply confirm_in_range; [done|exact H1|lia|done].
Qed.

(** ** Calls that do not confirm *)

#[export] Instance same_counters_preorder : PreOrder same_counters.
Proof. split; [exact same_counters_refl|intros ???; apply same_counters_trans]. Qed.

Create HintDb still discriminated.

(** The confirmations of every channel change within [K]. *)
Definition still (K : confirms -> confirms -> Prop) (c c' : Connection) : Prop :=
  forall a ch, cn_objs c !! a = Some ch ->
    exists ch', cn_objs c' !! a = Some ch' /\ K (ch_confirms ch) (ch_confirms ch').

Definition stills {A} (K : confirms -> confirms -> Prop) (m : M A) : Prop :=
  forall c x c', m c = Ok (x, c') -> still K c c'.

Section Still.
Context (K : confirms -> confirms -> Prop) `{!PreOrder K}.

Lemma still_same c c' : cn_objs c' = cn_objs c -> still K c c'.
Proof. intros E a ch Ha. exists ch. by rewrite E. Qed.

Lemma still_trans c1 c2 c3 : still K c1 c2 -> still K c2 c3 -> still K c1 c3.
Proof.
  intros H1 H2 a ch Ha. destruct (H1 a ch Ha) as (ch1 & E1 & S1), (H2 a ch1 E1) as (ch2 & E2 & S2).
  exists ch2. split; [done|by etrans].
Qed.

Lemma set_chan_still a ch ch' c :
  cn_objs c !! a = Some ch -> K (ch_confirms ch) (ch_confirms ch') -> still K c (set_chan a ch' c).
Proof.
  intros Ha H b x Hb. simpl. destruct (decide (a = b)) as [<-|Hab].
  - rewrite list_lookup_insert_eq by (by eapply lookup_lt_Some). exists ch'. split; [done|]. by simplify_eq.
  - rewrite list_lookup_insert_ne by done. by exists x.
Qed.

Lemma stills_bind {A B} (m : M A) (k : A -> M B) : stills K m -> (forall a, stills K (k a)) -> stills K (mbind m k).
Proof.
  intros Hm Hk c b c' (a & c1 & E1 & E2)%mbind_inv. eapply still_trans; [by eapply Hm|by eapply Hk].
Qed.
Lemma stills_pure {A} (m : M A) : (forall c x c', m c = Ok (x, c') -> cn_objs c' = cn_objs c) -> stills K m.
Proof. intros H c x c' E. by eapply still_same, H. Qed.
Lemma stills_mret {A} (x : A) : stills K (mret x).
Proof. apply stills_pure. by intros c y c' [= _ <-]. Qed.
Lemma stills_gets {A} (f : Connection -> A) : stills K (gets f).
Proof. apply stills_pure. by intros c y c' [= _ <-]. Qed.
Lemma stills_stuck {A} (m : M A) : (forall c x, m c <> Ok x) -> stills K m.
Proof. intros H c x c' E. by destruct (H c (x, c')). Qed.
Lemma stills_mpanic {A} : stills K (@mpanic A).
Proof. by apply stills_stuck. Qed.
Lemma stills_nofuel {A} : stills (A := A) K (fun _ => NoFuel).
Proof. by apply stills_stuck. Qed.
Lemma stills_mlift {A} (o : outcome A) : stills K (mlift o).
Proof. apply stills_pure. intros c x c' E. unfold mlift in E. by destruct o; simplify_eq/=. Qed.
Lemma stills_get_chan a : stills K (get_chan a).
Proof. apply stills_pure. intros c x c' E. unfold get_chan in E. destruct (cn_objs c !! a); by simplify_eq. Qed.
Lemma stills_modify f : (forall c, cn_objs (f c) = cn_objs c) -> stills K (modify f).
Proof. intros Hf. apply stills_pure. intros c x c' [= _ <-]. apply Hf. Qed.
Lemma stills_writes {A} (m : M A) : writes m -> stills K m.
Proof. intros Hm. apply stills_pure. intros c x c' E. by destruct (Hm c x c' E) as (b & w & t & g & ->). Qed.
Lemma stills_mfor {A} (f : A -> M unit) xs : (forall x, stills K (f x)) -> stills K (mfor f xs).
Proof. intros Hf. induction xs; [apply stills_mret|]. by apply stills_bind. Qed.

Lemma stills_upd_chan a f : (forall ch, ch_confirms (f ch) = ch_confirms ch) -> stills K (upd_chan a f).
Proof.
  intros Hf c x c' (ch & c1 & E1 & E2)%mbind_inv. unfold get_chan in E1.
  destruct (cn_objs c !! a) as [ch'|] eqn:Ha; simplify_eq. unfold modify in E2. simplify_eq.
  apply (set_chan_still a ch); [done|]. by rewrite Hf.
Qed.

Lemma stills_Connection_send f : stills K (Connection_send f).
Proof. apply stills_writes. writing. Qed.
Lemma stills_Channel_send a msg : stills K (Channel_send a msg).
Proof. apply stills_writes, writes_Channel_send. Qed.

(** A new channel. *)
Lemma stills_allocateChannel : stills K allocateChannel.
Proof.
  intros c x c' E. unfold allocateChannel, mbind, gets, mlift, modify, mret in E.
  destruct (cn_closed c); [simplify_eq; by apply still_same|].
  destruct (cn_allocator c) as [al|]; [|done].
  destruct (next al) as [[[id|] al']| | |]; simplify_eq/=; [|by apply still_same].
  intros a ch Ha. exists ch. split; [by apply lookup_app_l_Some|done].
Qed.
End Still.

#[export] Hint Resolve stills_mret stills_gets stills_mpanic stills_nofuel stills_mlift stills_get_chan
  stills_Connection_send stills_Channel_send stills_allocateChannel : still.
#[export] Hint Extern 0 (PreOrder _) => exact _ : still.

(** Walks through a call. *)
Ltac stilling :=
  repeat (cbv zeta; first
    [ solve [auto with still nocore]
    | apply stills_upd_chan; [exact _|done]
    | apply stills_modify; [exact _|done]
    | apply stills_bind; [exact _| |intros ?]
    | apply stills_mfor; [exact _|intros ?]
    | match goal with |- stills _ (match ?x with _ => _ end) => destruct x end
    | match goal with |- stills _ ?m => let h := get_head m in unfold h end ]).

(** The calls that touch the confirmations. *)
Definition confirms_api (k : chan_call) : bool :=
  match k with Do_Publish _ _ _ _ _ | Do_NotifyPublish _ => true | _ => false end.

Definition gentle_call (k : call) : bool :=
  match k with OnChannel _ k => negb (confirms_api k) | Run_demux _ => false | _ => true end.

Definition is_confirm (msg : message) : bool :=
  match msg with M_basicAck _ | M_basicNack _ => true | _ => false end.

(** What a message confirms, and whether up to that tag. *)
Definition confirmation_of (msg : message) : option (bool * Confirmation) :=
  match msg with
  | M_basicAck m => Some (basicAck_Multiple m, MkConfirmation (basicAck_DeliveryTag m) true)
  | M_basicNack m => Some (basicNack_Multiple m, MkConfirmation (basicNack_DeliveryTag m) false)
  | _ => None
  end.

(** A confirmation goes to the channel of the frame. *)
Lemma demux_confirm mf msg multiple x a c ch :
  mf_Method mf = Some msg -> confirmation_of msg = Some (multiple, x) -> mf_ChannelId mf <> 0 ->
  cn_channels c !! mf_ChannelId mf = Some a -> cn_objs c !! a = Some ch ->
  demux (F_method mf) c
  = (confirm_with a ((if multiple then Multiple else One) x) >> transition a RecvMethod) c.
Proof.
  intros Em Hx Hid Hr Ha. unfold demux. cbn [frame_channel]. rewrite (proj2 (Z.eqb_neq _ _) Hid).
  unfold dispatchN. rewrite (mbind_ok _ _ _ _ _ eq_refl), Hr. destruct mf as [id cl me m]. simpl in *. subst m.
  destruct msg; try done; injection Hx as <- <-; rewrite (mbind_ok _ _ _ _ _ eq_refl);
    rewrite (recv_plain_method a id cl me _ c ch Ha) by done; done.
Qed.

(** [K] allows closing. *)
Section Walk.
Context (K : confirms -> confirms -> Prop) `{!PreOrder K}.
Context (Kclose : forall k k', confirms_Close k = Ok k' -> K k k').

(** *** Shutting down *)

(** [confirms_Close] runs on what the channel had before its listeners were
    closed, which is what it still has. *)
Lemma stills_Channel_shutdown a e : stills K (Channel_shutdown a e).
Proof.
  unfold Channel_shutdown. apply stills_bind; [exact _|stilling|]. intros _.
  apply stills_bind; [exact _|stilling|]. intros ch0. destruct (ch_shut ch0); [stilling|].
  unfold Channel_destructor. apply stills_bind; [exact _|stilling|]. intros ch1.
  apply stills_bind; [exact _|stilling|]. intros _.
  intros c x c' (ch & c1 & E1 & E)%mbind_inv. unfold get_chan in E1.
  destruct (cn_objs c !! a) as [ch'|] eqn:Ha; simplify_eq.
  apply mbind_inv in E as (subs & c2 & E2 & E).
  apply mbind_inv in E as ([] & c3 & E3 & E). apply mbind_inv in E as ([] & c4 & E4 & E).
  apply mbind_inv in E as ([] & c5 & E5 & E). apply mbind_inv in E as ([] & c6 & E6 & E).
  apply mbind_inv in E as ([] & c7 & E7 & E). apply mbind_inv in E as ([] & c8 & E8 & E).
  assert (still eq c1 c8) as H8.
  { assert (forall A (m : M A) y d d', stills eq m -> m d = Ok (y, d') -> still eq c1 d -> still eq c1 d') as Hs
      by (intros A m y d d' Hm Em Hd; eapply (still_trans eq); [exact Hd|by eapply Hm]).
    eapply Hs; [|exact E8|]; [stilling|]. eapply Hs; [|exact E7|]; [stilling|]. eapply Hs; [|exact E6|]; [stilling|].
    eapply Hs; [|exact E5|]; [stilling|]. eapply Hs; [|exact E4|]; [stilling|]. eapply Hs; [|exact E3|]; [stilling|].
    eapply Hs; [|exact E2|]; [stilling|]. by apply (still_same eq). }
  destruct (H8 a ch Ha) as (ch8 & Ha8 & K8). apply mbind_inv in E as (k & c9 & Ek & E).
  unfold mlift in Ek. destruct (confirms_Close (ch_confirms ch)) as [k'| | |] eqn:Ec; simplify_eq/=.
  apply mbind_inv in E as ([] & c10 & E10 & E). rewrite (upd_chan_ok a _ _ ch8 Ha8) in E10. injection E10 as <-.
  apply (still_trans _ _ c9).
  { intros b y Hb. destruct (H8 b y Hb) as (y' & Hy & Ky). exists y'. split; [done|]. by rewrite Ky. }
  apply (still_trans _ _ (set_chan a (with_confirms k ch8) c9)).
  - apply (set_chan_still _ a ch8); [done|]. simpl. rewrite <- K8. by apply Kclose.
  - eapply stills_upd_chan; [exact _| |exact E]. done.
Qed.
#[local] Hint Resolve stills_Channel_shutdown : still.

Lemma stills_Connection_shutdown e : stills K (Connection_shutdown e).
Proof. unfold Connection_shutdown, Connection_destructor. stilling. Qed.
Lemma stills_closeChannel a e : stills K (closeChannel a e).
Proof. stilling. Qed.
Lemma stills_call a req res r : stills K (Channel_call a req res r).
Proof. stilling. Qed.
Lemma stills_Connection_call req res r : stills K (Connection_call req res r).
Proof. stilling. Qed.
#[local] Hint Resolve stills_Connection_shutdown stills_closeChannel stills_call stills_Connection_call : still.

Lemma stills_closeWith e r : stills K (closeWith e r).
Proof. stilling. Qed.
Lemma stills_Connection_Close r : stills K (Connection_Close r).
Proof. stilling. Qed.

(** Every call of the API but publishing and listening to it. *)
Lemma stills_perform_on a k : confirms_api k = false -> stills K (perform_on a k).
Proof. intros Hk. destruct k; try done; cbn [perform_on]; unfold ignore; stilling. Qed.

(** ... and everything else that runs on a connection, frames apart. *)
Lemma stills_perform k : gentle_call k = true -> stills K (perform k).
Proof.
  intros Hk. destruct k as [a k|r|r|derr r|s t r|l|l|f|e|e r]; cbn [perform gentle_call] in *; try done;
    unfold ignore; stilling.
Qed.

(** ** Frames *)

Lemma stills_dispatch a msg : is_confirm msg = false -> stills K (dispatch a (Some msg)).
Proof. intros H. unfold dispatch. destruct msg; try done; stilling. Qed.

Lemma stills_recvMethod a f :
  (forall mf msg, f = F_method mf -> mf_Method mf = Some msg -> is_confirm msg = false) ->
  stills K (recvMethod a f).
Proof.
  intros Hf. unfold recvMethod. destruct f as [|mf|hf|bf|hb]; try (stilling; fail).
  destruct (mf_Method mf) as [msg|] eqn:Em.
  - destruct (message_getContent msg); [stilling|]. apply stills_bind; [exact _| |intros; stilling].
    by eapply stills_dispatch, Hf.
  - apply stills_bind; [exact _| |intros; stilling]. unfold dispatch. stilling.
Qed.

(** A channel between calls is assembling a message that carries content, so
    that completing it confirms nothing. *)
Lemma complete_still a c ch x c' :
  cn_objs c !! a = Some ch ->
  (forall msg, ch_message ch = Some msg -> is_Some (message_getContent msg)) ->
  complete a c = Ok (x, c') -> still K c c'.
Proof.
  intros Ha Hm E. unfold complete in E. rewrite (mbind_ok _ _ _ _ _ (get_chan_ok _ _ _ Ha)) in E.
  destruct (ch_message ch) as [msg|] eqn:Em; [|done]. destruct (ch_header ch) as [h|]; [|done]. cbv zeta in E.
  assert (is_confirm (message_setContent msg (hf_Properties h) (ch_body ch)) = false) as Hc.
  { destruct (Hm msg eq_refl) as [y Hy]. by destruct msg. }
  match type of E with ?m _ = _ => assert (stills K m) as H; [|by eapply H] end.
  apply stills_bind; [exact _|stilling|]. intros _.
  apply stills_bind; [exact _|by apply stills_dispatch|]. intros _. stilling.
Qed.

Lemma recv_still a f c x c' :
  conn_wf c -> (forall mf msg, f = F_method mf -> mf_Method mf = Some msg -> is_confirm msg = false) ->
  Channel_recv a f c = Ok (x, c') -> still K c c'.
Proof.
  intros Hwf Hf E. unfold Channel_recv in E. apply mbind_inv in E as (ch & c1 & E1 & E). unfold get_chan in E1.
  destruct (cn_objs c !! a) as [ch'|] eqn:Ha; simplify_eq.
  pose proof (ow_channels _ _ (sw_objects c1 Hwf) a ch Ha) as W. pose proof (stills_recvMethod a f Hf) as Hr.
  assert (forall r m h b cap, ch_recv ch <> RecvMethod -> m = ch_message ch ->
    cn_objs (set_chan a (with_assembly r m h b cap ch) c1) !! a = Some (with_assembly r m h b cap ch) /\
    forall msg, ch_message (with_assembly r m h b cap ch) = Some msg -> is_Some (message_getContent msg)) as Hset.
  { intros r m h b cap Hne ->. split; [simpl; apply list_lookup_insert_eq; by eapply lookup_lt_Some|].
    intros msg Em. destruct (hw_header _ W Hne) as (msg' & Em' & Hc). simpl in Em. congruence. }
  destruct (ch_recv ch) eqn:Hch; [by eapply Hr|..]; destruct f as [|mf|hf|bf|hb];
    cbn [recvHeader recvContent] in E; try done; try (by eapply Hr, E);
    try (match type of E with ?m _ = _ => assert (stills K m) as H by stilling; by eapply H end).
  - apply mbind_inv in E as ([] & c2 & E2 & E). rewrite (upd_chan_ok a _ _ ch Ha) in E2. injection E2 as <-.
    destruct (Hset (ch_recv ch) (ch_message ch) (Some hf) (ch_body ch) (ch_body_cap ch)) as [H1 H2]; [congruence|done|].
    match type of E with _ ?d = _ => apply (still_trans _ _ d); [by apply (set_chan_still _ a ch _ _ Ha)|] end.
    destruct (hf_Size hf =? 0); [eapply (complete_still a); [exact H1|exact H2|exact E]|]. eapply stills_upd_chan; [exact _| |exact E]. done.
  - rewrite (mbind_ok _ _ _ _ _ (get_chan_ok _ _ _ Ha)) in E. destruct (ch_header ch) as [h|]; [|done].
    destruct (negb _ && _); [done|]. cbv zeta in E.
    apply mbind_inv in E as ([] & c2 & E2 & E). rewrite (upd_chan_ok a _ _ ch Ha) in E2. injection E2 as <-.
    destruct (Hset (ch_recv ch) (ch_message ch) (Some h) (ch_body ch ++ bf_Body bf) true) as [H1 H2]; [congruence|done|].
    match type of E with _ ?d = _ => apply (still_trans _ _ d); [by apply (set_chan_still _ a ch _ _ Ha)|] end.
    destruct (hf_Size h <=? _); [eapply (complete_still a); [exact H1|exact H2|exact E]|]. eapply stills_upd_chan; [exact _| |exact E]. done.
Qed.

(** A frame that confirms nothing. *)
Lemma demux_still f c x c' :
  conn_wf c -> (forall mf msg, f = F_method mf -> mf_Method mf = Some msg -> is_confirm msg = false) ->
  demux f c = Ok (x, c') -> still K c c'.
Proof.
  intros Hwf Hf E. unfold demux in E. destruct (frame_channel f) as [id|]; [|done].
  destruct (id =? 0); [assert (stills K (dispatch0 f)) as H by stilling; by eapply H|].
  unfold dispatchN in E. rewrite (mbind_ok _ _ _ _ _ eq_refl) in E.
  destruct (cn_channels c !! id) as [a|] eqn:Hr.
  - apply mbind_inv in E as ([] & c1 & E1 & E).
    assert (still K c c1) as H1
      by (assert (stills K (updateChannel f a)) as H by stilling; by eapply H).
    destruct (rw_objs c (sw_registry c Hwf) id a Hr) as (ch & Hch & _).
    assert (safe (length (cn_objs c)) (updateChannel f a)) as Hu.
    { pose proof (lookup_lt_Some _ _ _ Hch). destruct f; try apply safe_mret; unfold setClosed; returning. }
    destruct (Hu c Hwf (le_n _)) as ([] & c1' & E1' & W1 & _). assert (c1' = c1) as -> by congruence.
    eapply still_trans; [exact _|exact H1|]. by eapply recv_still.
  - assert (stills K (dispatchClosed f id)) as H by stilling. by eapply H.
Qed.

(** *** Any frame *)

Lemma frame_still f c x c' :
  conn_wf c -> demux f c = Ok (x, c') ->
  (forall mf msg multiple y a ch k', f = F_method mf -> mf_Method mf = Some msg ->
     confirmation_of msg = Some (multiple, y) -> cn_channels c !! mf_ChannelId mf = Some a ->
     cn_objs c !! a = Some ch -> (if multiple then Multiple else One) y (ch_confirms ch) = Ok k' ->
     K (ch_confirms ch) k') ->
  still K c c'.
Proof.
  intros Hwf E HK.
  destruct f as [|mf|hf|bf|hb];
    try (eapply demux_still; [exact Hwf| |exact E]; intros ? ? Hq; discriminate Hq).
  destruct (mf_Method mf) as [msg|] eqn:Em.
  2: { eapply demux_still; [exact Hwf| |exact E]. intros mf' msg [= <-]. congruence. }
  destruct (confirmation_of msg) as [[multiple y]|] eqn:Ex.
  2: { eapply demux_still; [exact Hwf| |exact E]. intros mf' m [= <-] Em'.
       assert (m = msg) as -> by congruence. by destruct msg. }
  destruct (decide (mf_ChannelId mf = 0)) as [H0|Hid].
  { unfold demux in E. cbn [frame_channel] in E. rewrite H0 in E.
    assert (stills K (dispatch0 (F_method mf))) as H by stilling. eapply H. exact E. }
  destruct (cn_channels c !! mf_ChannelId mf) as [b|] eqn:Hr.
  2: { unfold demux, dispatchN in E. cbn [frame_channel] in E.
       rewrite (proj2 (Z.eqb_neq _ _) Hid), (mbind_ok _ _ _ _ _ eq_refl), Hr in E.
       assert (stills K (dispatchClosed (F_method mf) (mf_ChannelId mf))) as H by stilling. by eapply H. }
  destruct (rw_objs c (sw_registry c Hwf) _ b Hr) as (chb & Hb & _).
  rewrite (demux_confirm mf msg multiple y b c chb Em Ex Hid Hr Hb) in E.
  apply mbind_inv in E as ([] & c1 & E1 & E).
  apply (still_trans K c c1); [|eapply stills_upd_chan; [exact _| |exact E]; done].
  unfold confirm_with in E1. rewrite (mbind_ok _ _ _ _ _ (get_chan_ok _ _ _ Hb)) in E1.
  destruct (ch_confirming chb); [|injection E1 as <-; by apply (still_same K)].
  apply mbind_inv in E1 as (k & c2 & E2 & E1). unfold mlift in E2.
  destruct ((if multiple then Multiple else One) y (ch_confirms chb)) as [k'| | |] eqn:Ek; simplify_eq/=.
  rewrite (upd_chan_ok b _ _ chb Hb) in E1. injection E1 as <-.
  apply (set_chan_still K b chb); [done|]. by eapply HK.
Qed.
End Walk.

(** ** Steps of a conforming server *)

(** Confirmations are for messages that were published. *)
Definition conforming (c : Connection) (f : frame) : Prop :=
  forall mf msg multiple x a ch,
    f = F_method mf -> mf_Method mf = Some msg -> confirmation_of msg = Some (multiple, x) ->
    cn_channels c !! mf_ChannelId mf = Some a -> cn_objs c !! a = Some ch ->
    DeliveryTag x <= published (ch_confirms ch).

(** What happens to a connection without a call of the application: frames
    arrive, it is shut down or closed because of an error, consumers'
    goroutines run, the transport breaks. *)
Inductive peer_step : Connection -> Connection -> Prop :=
  | peer_frame f c c' :
      arrival_fits c f -> conforming c f -> demux f c = Ok (tt, c') -> peer_step c c'
  | peer_shutdown e c c' : Connection_shutdown e c = Ok (tt, c') -> peer_step c c'
  | peer_closeWith e r x c c' : closeWith e r c = Ok (x, c') -> peer_step c c'
  | peer_consumer a i b b' ch c :
      cn_objs c !! a = Some ch -> c_bufs (ch_consumers ch) !! i = Some b ->
      buffer_step (c_closed (ch_consumers ch)) b b' ->
      peer_step c (set_chan a (with_consumers (set_buffer i b' (ch_consumers ch)) ch) c)
  | peer_broken e c : cn_transport c = Working -> peer_step c (with_transport (Broken e) c).

Lemma peer_use c c' : peer_step c c' -> use_step c c'.
Proof.
  intros [f ? ? Hf _ E|e ? ? E|e r x ? ? E|a i b b' ch ? Ha Hb Hs|e ? Ht].
  - by apply (use_call (Run_demux f)).
  - by apply (use_call (Run_shutdown e)).
  - apply (use_call (Run_closeWith e r)); [done|]. cbn [perform]. unfold ignore. by rewrite (mbind_ok _ _ _ _ _ E).
  - by eapply use_consumer.
  - by apply use_broken.
Qed.

(** Confirmations of what was published stay within [K]: then so does
    whatever happens without a call of the application. *)
Lemma peer_still K `{!PreOrder K} c c' :
  (forall k k', confirms_Close k = Ok k' -> K k k') ->
  (forall (multiple : bool) y k k', published k < 2 ^ 64 - 1 -> DeliveryTag y <= published k ->
     (if multiple then Multiple else One) y k = Ok k' -> K k k') ->
  conn_wf c -> peer_step c c' -> still K c c'.
Proof.
  intros Hclose Hconf Hwf Hs. destruct Hs as [f ? ? Hf Hc E|e ? ? E|e r x ? ? E|b i bf bf' chb ? Hb Hb' Hs|e ? Ht].
  - eapply frame_still; [exact _|done|done|exact E|]. intros mf msg m y a ch k' -> Em Ex Hr Ha Ek.
    eapply Hconf; [|by eapply Hc|exact Ek]. apply (ow_channels _ _ (sw_objects _ Hwf) a ch Ha).
  - by eapply (stills_Connection_shutdown K).
  - eapply (stills_closeWith K); [done|exact E].
  - by apply (set_chan_still _ b chb).
  - by apply (still_same K).
Qed.

(** ** Instances *)

(** However a conforming server and the goroutines of the library act, a
    channel has published what it had, and expects no more than the next
    tag. *)
Definition range_kept (p : Z) (k k' : confirms) : Prop := in_range p k -> in_range p k'.

#[export] Instance range_kept_preorder p : PreOrder (range_kept p).
Proof. split; [by intros k ?|]. intros k1 k2 k3 H1 H2 H. by apply H2, H1. Qed.

Lemma range_kept_Close p k k' : confirms_Close k = Ok k' -> range_kept p k k'.
Proof. intros E H. by eapply in_range_same; [apply confirms_Close_counters|]. Qed.

Lemma peer_in_range p c c' : conn_wf c -> peer_step c c' -> still (range_kept p) c c'.
Proof.
  apply (peer_still (range_kept p)); [apply range_kept_Close|]. intros multiple y k k' Hp Hy E Hk.
  assert (published k = p) as <- by apply Hk. by eapply confirmed_in_range.
Qed.

(** A Go channel that is not registered is sent nothing. *)
Definition silent (l : nat) (k : confirms) : Prop := (l ∉ listeners k) /\ chan_of k l = MkChan [] false.
Definition silent_kept (l : nat) (k k' : confirms) : Prop := silent l k -> silent l k'.

#[export] Instance silent_kept_preorder l : PreOrder (silent_kept l).
Proof. split; [by intros k ?|]. intros k1 k2 k3 H1 H2 H. by apply H2, H1. Qed.

Lemma silent_same l k k' : listeners k' = listeners k -> chans k' = chans k -> silent_kept l k k'.
Proof. intros E1 E2 [H1 H2]. split; [by rewrite E1|]. unfold chan_of in *. by rewrite E2. Qed.

(** Only the tables of deferred confirmations change. *)
Definition same_chans (k k' : confirms) : Prop := listeners k' = listeners k /\ chans k' = chans k.

Lemma same_chans_trans k1 k2 k3 : same_chans k1 k2 -> same_chans k2 k3 -> same_chans k1 k3.
Proof. intros [] []. split; congruence. Qed.

Lemma resolve_chans ack kv k k' : resolve ack kv k = Ok k' -> same_chans k k'.
Proof.
  unfold resolve, setAck, close_done. intros (k1 & E & E')%obind_inv. injection E' as <-.
  destruct (dcs k !! _) as [d|]; [|done]. simpl in E. destruct (_ !! _) as [d'|]; [|done].
  destruct (dc_closed d'); [done|]. by injection E as <-.
Qed.

Lemma deferred_Confirm_chans x k k' : deferred_Confirm x k = Ok k' -> same_chans k k'.
Proof.
  unfold deferred_Confirm. destruct (confirmations k !! _) as [a|] eqn:Ea; [|by intros [= <-]].
  intros E. by apply (resolve_chans (Ack x) (DeliveryTag x, a)).
Qed.

Lemma deferred_ConfirmMultiple_chans x k k' : deferred_ConfirmMultiple x k = Ok k' -> same_chans k k'.
Proof.
  intros E. unfold deferred_ConfirmMultiple in E.
  eapply (for_each_keeps (same_chans k)); [|exact E|done]. intros kv k1 k2 E1 H1. cbv beta in E1.
  eapply same_chans_trans; [exact H1|]. destruct (_ <=? _); [by eapply resolve_chans|by injection E1 as <-].
Qed.

Lemma for_each_in {A S} (P : S -> Prop) (f : A -> S -> outcome S) xs s s' :
  (forall x s s', x ∈ xs -> f x s = Ok s' -> P s -> P s') -> for_each f xs s = Ok s' -> P s -> P s'.
Proof.
  revert s. induction xs as [|x xs IH]; intros s Hf E Hs; [by injection E as <-|].
  cbn [for_each] in E. apply obind_inv in E as (s1 & E1 & E). eapply IH; [|exact E|].
  - intros y a b Hy. apply Hf. by right.
  - eapply Hf; [by left|exact E1|done].
Qed.

(** Sending to, or closing, other Go channels. *)
Lemma others_silent l k k1 k2 (f : nat -> confirms -> outcome confirms) :
  (forall x a b, f x a = Ok b -> exists y, b = set_chans (<[x := y]> (chans a)) a) ->
  listeners k1 = listeners k -> chans k1 = chans k ->
  for_each f (listeners k1) k1 = Ok k2 -> silent_kept l k k2.
Proof.
  intros Hf El Ec E Hk. pose proof (silent_same l k k1 El Ec Hk) as [Hl Hc].
  eapply (for_each_in (fun k => silent l k)); [|exact E|by split].
  intros x a b Hx Ex [Hl1 Hc1]. destruct (Hf x a b Ex) as [y ->]. split; [done|].
  rewrite chan_of_insert, decide_False by (by intros ->). done.
Qed.

Lemma confirm_silent l x k k' : confirm x k = Ok k' -> silent_kept l k k'.
Proof.
  unfold confirm. cbv zeta. intros E. eapply others_silent; [|..|exact E]; [|done|done].
  intros y a b Ey. unfold chan_send in Ey. destruct (lclosed a y); [done|]. injection Ey as <-. eauto.
Qed.

Lemma Close_silent l k k' : confirms_Close k = Ok k' -> silent_kept l k k'.
Proof.
  unfold confirms_Close, deferred_Close. intros (k1 & E1 & (k2 & E2 & E3)%obind_inv)%obind_inv.
  injection E3 as <-. assert (same_chans k k1) as [H1 H2].
  { eapply (for_each_keeps (same_chans k)); [|exact E1|done].
    intros kv a b E H. eapply same_chans_trans; [exact H|by eapply resolve_chans]. }
  assert (silent_kept l k k2) as H.
  { eapply others_silent; [|exact H1|exact H2|exact E2].
    intros y a b Ey. unfold chan_close in Ey. destruct (lclosed a y); [done|]. injection Ey as <-. eauto. }
  intros Hk. destruct (H Hk) as [_ Hc]. split; [simpl; set_solver|exact Hc].
Qed.

Lemma resequence_silent l k k' : resequence k = Ok k' -> silent_kept l k k'.
Proof.
  unfold resequence. generalize (size (sequencer k)) as fuel. intros fuel. revert k.
  induction fuel as [|fuel IH]; intros k E; cbn [resequence_loop] in E;
    (destruct (_ <=? _); [|by injection E as <-]);
    (destruct (sequencer k !! _); [|by injection E as <-]); [done|].
  apply obind_inv in E as (k1 & E1 & E). etrans; [by eapply confirm_silent|by apply IH].
Qed.

Lemma Multiple_loop_silent fuel l x k k' : Multiple_loop fuel x k = Ok k' -> silent_kept l k k'.
Proof.
  revert k. induction fuel as [|fuel IH]; intros k E; cbn [Multiple_loop] in E;
    (destruct (_ <=? _); [|by injection E as <-]); [done|].
  apply obind_inv in E as (k1 & E1 & E). etrans; [by eapply confirm_silent|by apply IH].
Qed.

Lemma confirmed_silent (multiple : bool) l x k k' :
  (if multiple then Multiple else One) x k = Ok k' -> silent_kept l k k'.
Proof.
  intros E. destruct multiple.
  - unfold Multiple in E. apply obind_inv in E as (k1 & [H1 H2]%deferred_ConfirmMultiple_chans & E).
    apply obind_inv in E as (k2 & E2 & E). etrans; [by apply (silent_same l k k1)|].
    etrans; [by eapply Multiple_loop_silent|by eapply resequence_silent].
  - unfold One in E. apply obind_inv in E as (k1 & [H1 H2]%deferred_Confirm_chans & E).
    apply obind_inv in E as (k2 & E2 & E). etrans; [by apply (silent_same l k k1)|].
    etrans; [|by eapply resequence_silent].
    destruct (_ =? _); [by eapply confirm_silent|]. injection E2 as <-. by apply silent_same.
Qed.

Lemma peer_silent l c c' : conn_wf c -> peer_step c c' -> still (silent_kept l) c c'.
Proof.
  apply (peer_still (silent_kept l)); [apply Close_silent|]. intros multiple y k k' _ _. apply confirmed_silent.
Qed.

(** ** Publishing *)

Lemma stills_Publish K `{!PreOrder K} a e key m i msg :
  (forall k, K k (snd (publish k))) -> (forall k k', unpublish k = Ok k' -> K k k') ->
  stills K (PublishWithDeferredConfirm a e key m i msg).
Proof.
  intros Kp Ku c x c' E. unfold PublishWithDeferredConfirm in E.
  destruct (Validate (pub_Headers msg)); [injection E as _ <-; by apply (still_same K)|].
  apply mbind_inv in E as (ch & c1 & E1 & E). unfold get_chan in E1.
  destruct (cn_objs c !! a) as [ch'|] eqn:Ha; simplify_eq.
  apply mbind_inv in E as (dc & c2 & E2 & E). apply (still_trans K c1 c2).
  { destruct (ch_confirming ch); [|injection E2 as _ <-; by apply (still_same K)].
    pose proof (Kp (ch_confirms ch)) as Hk. destruct (publish (ch_confirms ch)) as [d k].
    apply mbind_inv in E2 as ([] & c3 & E3 & E2). injection E2 as _ <-.
    rewrite (upd_chan_ok a _ _ ch Ha) in E3. injection E3 as <-. by apply (set_chan_still K a ch). }
  apply mbind_inv in E as (err & c3 & E3 & E). apply (still_trans K c2 c3); [by eapply (stills_Channel_send K)|].
  destruct err as [err|]; [|injection E as _ <-; by apply (still_same K)].
  apply mbind_inv in E as (ch3 & c4 & E4 & E). unfold get_chan in E4.
  destruct (cn_objs c3 !! a) as [ch'|] eqn:Ha3; simplify_eq.
  apply mbind_inv in E as ([] & c5 & E5 & E). injection E as _ <-.
  destruct (ch_confirming ch3); [|injection E5 as <-; by apply (still_same K)].
  apply mbind_inv in E5 as (k & c6 & E6 & E5). unfold mlift in E6.
  destruct (unpublish (ch_confirms ch3)) as [k'| | |] eqn:Ek; simplify_eq/=.
  rewrite (upd_chan_ok a _ _ ch3 Ha3) in E5. injection E5 as <-. apply (set_chan_still K a ch3); [done|]. by apply Ku.
Qed.

Lemma unpublish_quiet k k' :
  unpublish k = Ok k' -> same_chans k k' /\ expecting k' = expecting k.
Proof.
  unfold unpublish, deferred_remove. intros (k1 & E & E')%obind_inv. injection E' as <-. simpl.
  destruct (confirmations k !! _) as [d|]; [|by injection E as <-].
  apply obind_inv in E as (k2 & E2 & E). injection E as <-. unfold close_done in E2.
  destruct (dcs k !! d) as [x|]; [|done]. destruct (dc_closed x); [done|]. by injection E2 as <-.
Qed.

Lemma Publish_silent l a e key m i msg : stills (silent_kept l) (PublishWithDeferredConfirm a e key m i msg).
Proof.
  apply stills_Publish; [exact _| |].
  - intros k. by apply silent_same.
  - intros k k' [[H1 H2] _]%unpublish_quiet. by apply silent_same.
Qed.

(** Publishing does not change the tag that is expected. *)
Definition same_expecting (k k' : confirms) : Prop := expecting k' = expecting k.

#[export] Instance same_expecting_preorder : PreOrder same_expecting.
Proof. split; [by intros k|]. intros k1 k2 k3 H1 H2. unfold same_expecting in *. congruence. Qed.

Lemma Publish_expecting a e key m i msg : stills same_expecting (PublishWithDeferredConfirm a e key m i msg).
Proof. apply stills_Publish; [exact _|done|]. by intros k k' [_ H]%unpublish_quiet. Qed.

(** ** Steps that publish nothing *)

(** All that the users of a connection need to know of such a step. *)
Record gentle (c c' : Connection) : Prop := {
  ge_wf : conn_wf c';
  ge_follows : follows c c';
  ge_silent : forall l, still (silent_kept l) c c';
  ge_range : forall p, still (range_kept p) c c'
}.

Lemma peer_gentle c c' : conn_wf c -> peer_step c c' -> gentle c c'.
Proof.
  intros Hwf Hs. destruct (use_step_ok c c' Hwf (peer_use _ _ Hs)) as [W F].
  split; [done|done|intros l; by apply peer_silent|intros p; by apply peer_in_range].
Qed.

Lemma gentle_perform k c c' :
  conn_wf c -> call_fits c k -> gentle_call k = true -> perform k c = Ok (tt, c') -> gentle c c'.
Proof.
  intros Hwf Hf Hk E. destruct (perform_returns k c Hwf Hf) as (c1 & E1 & W & F).
  assert (c1 = c') as -> by congruence. split; [done|done| |].
  - intros l. eapply (stills_perform (silent_kept l)); [apply Close_silent|exact Hk|exact E].
  - intros p. eapply (stills_perform (range_kept p)); [apply range_kept_Close|exact Hk|exact E].
Qed.

Lemma ignore_ok {A} (m : M A) c x c' : m c = Ok (x, c') -> ignore m c = Ok (tt, c').
Proof. intros E. unfold ignore. by rewrite (mbind_ok _ _ _ _ _ E). Qed.
