(* ===== verification/Settled.v ===== *)
(** * Settled: a deferred confirmation is settled once

    Whatever happens to a connection without a call that publishes, its
    channels have the deferred confirmations they had, each with its tag, and
    one whose [done] is closed keeps its outcome. *)

From S2P Require Import Prelude Types Io SpecConnection SpecChannel SpecBasic SpecTx Spec091 Frame.
From S2P Require Import Allocator Confirms Delivery Consumers Auth State Channel.
From S2P Require Import ChannelFacts ChannelApi Connection ConnectionFacts Registry Shutdown Follows Safety.
From S2P Require Import Executions Peer.

(** ** Outcomes are final *)

Definition same_outcome (d d' : DeferredConfirmation) : Prop :=
  dc_DeliveryTag d' = dc_DeliveryTag d /\ (dc_closed d = true -> d' = d).

Definition settles (k k' : confirms) : Prop :=
  published k' = published k /\ Forall2 same_outcome (dcs k) (dcs k').

#[export] Instance same_outcome_preorder : PreOrder same_outcome.
Proof.
  split; [by intros d|]. intros d1 d2 d3 [T1 C1] [T2 C2]. split; [congruence|]. intros H.
  pose proof (C1 H) as ->. auto.
Qed.

#[export] Instance settles_preorder : PreOrder settles.
Proof. split; [by intros k|]. intros k1 k2 k3 [P1 D1] [P2 D2]. split; [congruence|by etrans]. Qed.

Lemma settles_quiet k k' : published k' = published k -> dcs k' = dcs k -> settles k k'.
Proof. intros E1 E2. by split; rewrite ?E1, ?E2. Qed.

Lemma settle_one (ds : list DeferredConfirmation) a d d' :
  ds !! a = Some d -> same_outcome d d' -> Forall2 same_outcome ds (<[a := d']> ds).
Proof.
  intros Ha Hd. apply Forall2_same_length_lookup_2; [by rewrite length_insert|].
  intros i x y Hx Hy. destruct (decide (a = i)) as [<-|Hne].
  - rewrite list_lookup_insert_eq in Hy by (by eapply lookup_lt_Some). congruence.
  - rewrite list_lookup_insert_ne in Hy by done. assert (y = x) as -> by congruence. done.
Qed.

Lemma close_done_settles a k k' : close_done a k = Ok k' -> settles k k'.
Proof.
  unfold close_done. destruct (dcs k !! a) as [d|] eqn:Ha; [|done]. destruct (dc_closed d) eqn:Hc; [done|].
  intros [= <-]. split; [done|]. apply (settle_one _ a d); [done|]. split; [done|congruence].
Qed.

Lemma setAck_settles a ack k k' : setAck a ack k = Ok k' -> settles k k'.
Proof.
  unfold setAck, close_done. destruct (dcs k !! a) as [d|] eqn:Ha; [|done]. simpl.
  rewrite list_lookup_insert_eq by (by eapply lookup_lt_Some). simpl. destruct (dc_closed d) eqn:Hc; [done|].
  intros [= <-]. split; [done|]. simpl. rewrite list_insert_insert_eq. apply (settle_one _ a d); [done|].
  split; [done|congruence].
Qed.

Lemma resolve_settles ack kv k k' : resolve ack kv k = Ok k' -> settles k k'.
Proof. unfold resolve. intros (k1 & E & E')%obind_inv. injection E' as <-. by apply setAck_settles in E. Qed.

Lemma for_each_settles {A} (f : A -> confirms -> outcome confirms) xs k k' :
  (forall x a b, f x a = Ok b -> settles a b) -> for_each f xs k = Ok k' -> settles k k'.
Proof.
  intros Hf E. eapply (for_each_keeps (settles k)); [|exact E|done].
  intros x a b Ex H. etrans; [exact H|by eapply Hf].
Qed.

Lemma confirm_settles x k k' : confirm x k = Ok k' -> settles k k'.
Proof.
  unfold confirm. cbv zeta. intros E. apply for_each_settles in E; [exact E|].
  intros l a b Eb. unfold chan_send in Eb. destruct (lclosed a l); [done|]. by injection Eb as <-.
Qed.

Lemma resequence_settles k k' : resequence k = Ok k' -> settles k k'.
Proof.
  unfold resequence. generalize (size (sequencer k)) as fuel. intros fuel. revert k.
  induction fuel as [|fuel IH]; intros k E; cbn [resequence_loop] in E;
    (destruct (_ <=? _); [|by injection E as <-]);
    (destruct (sequencer k !! _); [|by injection E as <-]); [done|].
  apply obind_inv in E as (k1 & E1 & E). etrans; [by eapply confirm_settles|by apply IH].
Qed.

Lemma Multiple_loop_settles fuel x k k' : Multiple_loop fuel x k = Ok k' -> settles k k'.
Proof.
  revert k. induction fuel as [|fuel IH]; intros k E; cbn [Multiple_loop] in E;
    (destruct (_ <=? _); [|by injection E as <-]); [done|].
  apply obind_inv in E as (k1 & E1 & E). etrans; [by eapply confirm_settles|by apply IH].
Qed.

Lemma confirmed_settles (multiple : bool) x k k' :
  (if multiple then Multiple else One) x k = Ok k' -> settles k k'.
Proof.
  intros E. destruct multiple.
  - unfold Multiple in E. apply obind_inv in E as (k1 & E1 & E). apply obind_inv in E as (k2 & E2 & E).
    etrans; [|etrans; [by eapply Multiple_loop_settles|by eapply resequence_settles]].
    unfold deferred_ConfirmMultiple in E1. apply for_each_settles in E1; [done|].
    intros kv a b Eb. destruct (_ <=? _); [by eapply resolve_settles|by injection Eb as <-].
  - unfold One in E. apply obind_inv in E as (k1 & E1 & E). apply obind_inv in E as (k2 & E2 & E).
    etrans; [|etrans; [|by eapply resequence_settles]].
    + unfold deferred_Confirm in E1. destruct (confirmations k !! _) as [a|] eqn:Ea; [|by injection E1 as <-].
      by apply (resolve_settles (Ack x) (DeliveryTag x, a)).
    + destruct (_ =? _); [by eapply confirm_settles|by injection E2 as <-].
Qed.

Lemma Close_settles k k' : confirms_Close k = Ok k' -> settles k k'.
Proof.
  unfold confirms_Close, deferred_Close. intros (k1 & E1 & (k2 & E2 & E3)%obind_inv)%obind_inv.
  injection E3 as <-. etrans; [eapply for_each_settles; [|exact E1]; intros; by eapply resolve_settles|].
  change (settles k1 k2). eapply for_each_settles; [|exact E2].
  intros l a b Eb. unfold chan_close in Eb. destruct (lclosed a l); [done|]. by injection Eb as <-.
Qed.

(** ** On a connection *)

Lemma peer_settles c c' : conn_wf c -> peer_step c c' -> still settles c c'.
Proof. apply (peer_still settles); [apply Close_settles|]. intros multiple y k k' _ _. apply confirmed_settles. Qed.

Lemma perform_settles k c c' : gentle_call k = true -> perform k c = Ok (tt, c') -> still settles c c'.
Proof. intros Hk. apply (stills_perform settles); [apply Close_settles|done]. Qed.
