(* ===== verification/Runs.v ===== *)
(** * Runs: executions of programs that can be evaluated

    The programs that use the library are transition systems whose steps are
    functions of the choices made in them; running a list of choices gives an
    execution. *)

From stdpp Require Import relations.
From S2P Require Import Prelude.

(** Runs steps that are functions of the choices made in them. *)
Fixpoint run_all {A S} (act : A -> S -> option S) (xs : list A) (s : S) : option S :=
  match xs with
  | [] => Some s
  | x :: xs => match act x s with Some s' => run_all act xs s' | None => None end
  end.

Lemma run_all_steps {A S} (act : A -> S -> option S) (R : S -> S -> Prop) xs s s' :
  (forall x s s', act x s = Some s' -> R s s') -> run_all act xs s = Some s' -> rtc R s s'.
Proof.
  intros Hact. revert s. induction xs as [|x xs IH]; intros s E; cbn [run_all] in E; [injection E as <-; reflexivity|].
  destruct (act x s) as [s1|] eqn:Ex; [|done]. eapply rtc_l; [by eapply Hact|]. auto.
Qed.
