(* ===== verification/GoStrings.v ===== *)
(** * GoStrings: what uri.go and connection.go use of [strings], [strconv] and [net]

    Byte strings scanned from the left ([Cut], [LastIndex], [Contains], ...),
    decimal numbers ([strconv.ParseUint], [ParseInt], [Atoi], [Itoa]) and
    [net.JoinHostPort], with the lemmas that let a reader of a URI find again
    the parts a writer has put together. *)

From Stdlib Require Export Ascii.
From stdpp Require Import pretty.
From S2P Require Import Prelude.

(** ** Characters *)

(** The value of a byte of a string. *)
Definition code (c : ascii) : Z := Z.of_N (N_of_ascii c).
Definition char_of (z : Z) : ascii := ascii_of_N (Z.to_N (z mod 256)).

Definition isdigit (c : ascii) : bool := (48 <=? code c) && (code c <=? 57).
Definition isupper (c : ascii) : bool := (65 <=? code c) && (code c <=? 90).
Definition islower (c : ascii) : bool := (97 <=? code c) && (code c <=? 122).

(** A [switch c] on the characters of [chars]. *)
Fixpoint oneof (chars : string) (c : ascii) : bool :=
  match chars with
  | EmptyString => false
  | String d r => Ascii.eqb c d || oneof r c
  end.

(** ** [strings] *)

(** Every byte satisfies [p]. *)
Fixpoint sall (p : ascii -> bool) (s : string) : bool :=
  match s with
  | EmptyString => true
  | String c r => p c && sall p r
  end.

(** [strings.Contains(s, string(c))] *)
Fixpoint Contains (s : string) (c : ascii) : bool :=
  match s with
  | EmptyString => false
  | String d r => Ascii.eqb d c || Contains r c
  end.

(** [strings.HasPrefix(s, p)] *)
Fixpoint HasPrefix (s p : string) {struct p} : bool :=
  match p, s with
  | EmptyString, _ => true
  | String c p', String d s' => Ascii.eqb c d && HasPrefix s' p'
  | String _ _, EmptyString => false
  end.

(** [strings.HasSuffix(s, string(c))] *)
Fixpoint HasSuffix (s : string) (c : ascii) : bool :=
  match s with
  | EmptyString => false
  | String d EmptyString => Ascii.eqb d c
  | String _ r => HasSuffix r c
  end.

(** [strings.Count(s, string(c))] *)
Fixpoint Count (s : string) (c : ascii) : Z :=
  match s with
  | EmptyString => 0
  | String d r => (if Ascii.eqb d c then 1 else 0) + Count r c
  end.

(** [s[n:]] *)
Fixpoint sdrop (n : nat) (s : string) : string :=
  match n, s with
  | S n', String _ r => sdrop n' r
  | _, _ => s
  end.

(** [s[:len(s)-1]] *)
Fixpoint sbutlast (s : string) : string :=
  match s with
  | EmptyString | String _ EmptyString => EmptyString
  | String c r => String c (sbutlast r)
  end.

(** [strings.TrimSuffix(s, string(c))] *)
Definition TrimSuffix (s : string) (c : ascii) : string :=
  if HasSuffix s c then sbutlast s else s.

(** [before, after, _ := strings.Cut(s, string(c))] *)
Fixpoint Cut (s : string) (c : ascii) : string * string :=
  match s with
  | EmptyString => (EmptyString, EmptyString)
  | String d r =>
      if Ascii.eqb d c then (EmptyString, r)
      else let '(before, after) := Cut r c in (String d before, after)
  end.

(** [i := strings.LastIndex(s, string(c))], as [s[:i]] and [s[i+1:]]; [None]
    for a negative [i]. *)
Fixpoint LastIndex (s : string) (c : ascii) : option (string * string) :=
  match s with
  | EmptyString => None
  | String d r =>
      match LastIndex r c with
      | Some (before, after) => Some (String d before, after)
      | None => if Ascii.eqb d c then Some (EmptyString, r) else None
      end
  end.

(** [i := strings.Index(s, p)], as [s[:i]] and [s[i:]]. *)
Fixpoint Index (s p : string) : option (string * string) :=
  if HasPrefix s p then Some (EmptyString, s)
  else match s with
       | EmptyString => None
       | String d r =>
           match Index r p with
           | Some (before, from) => Some (String d before, from)
           | None => None
           end
       end.

Fixpoint smap (f : ascii -> ascii) (s : string) : string :=
  match s with
  | EmptyString => EmptyString
  | String c r => String (f c) (smap f r)
  end.

Definition lower (c : ascii) : ascii := if isupper c then char_of (code c + 32) else c.
Definition upper (c : ascii) : ascii := if islower c then char_of (code c - 32) else c.

(** [strings.ToLower] of a string of ASCII characters. *)
Definition ToLower (s : string) : string := smap lower s.

(** [strings.ToUpper], exact when the result is compared with ASCII strings:
    the only characters outside ASCII whose upper case is in ASCII are U+0131
    (C4 B1), which becomes I, and U+017F (C5 BF), which becomes S. *)
Fixpoint ToUpper (s : string) : string :=
  match s with
  | EmptyString => EmptyString
  | String c r =>
      match r with
      | String d r' =>
          if (code c =? 196) && (code d =? 177) then String "I" (ToUpper r')
          else if (code c =? 197) && (code d =? 191) then String "S" (ToUpper r')
          else String (upper c) (ToUpper r)
      | EmptyString => String (upper c) EmptyString
      end
  end.

(** ** Results with an error *)

(** The next step, unless an error is returned first. *)
Definition ebind {E A B : Type} (m : E + A) (k : A -> E + B) : E + B :=
  match m with inl e => inl e | inr x => k x end.

Notation "'let?' x ':=' m 'in' k" := (ebind m (fun x => k))
  (at level 200, x name, m at level 100, k at level 200, right associativity).
Notation "'let?' ( x , y ) ':=' m 'in' k" := (ebind m (fun '(x, y) => k))
  (at level 200, x name, y name, m at level 100, k at level 200, right associativity).

Lemma ebind_inr {E A B : Type} (m : E + A) (k : A -> E + B) y :
  ebind m k = inr y -> exists x, m = inr x /\ k x = inr y.
Proof. destruct m as [|x]; [done|]. intros H. by exists x. Qed.

(** ** [strconv] *)

Inductive num_err := ErrSyntax | ErrRange.

(** [type NumError struct] *)
Record NumError := MkNumError { ne_Func : string; ne_Num : string; ne_Err : num_err }.

(** The loop of [ParseUint] in base ten: a digit that takes the value past the
    maximum ends it with [ErrRange], whatever follows. *)
Fixpoint parse_digits (maxVal n : Z) (s : string) : num_err + Z :=
  match s with
  | EmptyString => inr n
  | String c r =>
      if negb (isdigit c) then inl ErrSyntax
      else
        let n1 := n * 10 + (code c - 48) in
        if maxVal <? n1 then inl ErrRange else parse_digits maxVal n1 r
  end.

Definition parse_uint (s : string) (bitSize : Z) : num_err + Z :=
  if bool_decide (s = "") then inl ErrSyntax else parse_digits (2 ^ bitSize - 1) 0 s.

(** [strconv.ParseUint(s, 10, bitSize)] *)
Definition ParseUint (s : string) (bitSize : Z) : NumError + Z :=
  match parse_uint s bitSize with
  | inl e => inl (MkNumError "ParseUint" s e)
  | inr n => inr n
  end.

(** [strconv.ParseInt(s, 10, bitSize)], with the name its errors carry; a
    range error of the unsigned part is one of the signed part too. *)
Definition parse_int (fn s : string) (bitSize : Z) : NumError + Z :=
  let '(neg, digits) :=
    match s with
    | String c r =>
        if Ascii.eqb c "+" then (false, r) else if Ascii.eqb c "-" then (true, r) else (false, s)
    | EmptyString => (false, s)
    end in
  let cutoff := 2 ^ (bitSize - 1) in
  match parse_uint digits bitSize with
  | inl e => inl (MkNumError fn s e)
  | inr un =>
      if negb neg && (cutoff <=? un) then inl (MkNumError fn s ErrRange)
      else if neg && (cutoff <? un) then inl (MkNumError fn s ErrRange)
      else inr (if neg then - un else un)
  end.

Definition ParseInt (s : string) (bitSize : Z) : NumError + Z := parse_int "ParseInt" s bitSize.

(** [strconv.Atoi]; an [int] has 64 bits.  Its fast path for short strings
    computes what [ParseInt] does. *)
Definition Atoi (s : string) : NumError + Z := parse_int "Atoi" s 64.

(** [strconv.Itoa], [strconv.FormatInt(n, 10)] *)
Definition Itoa (n : Z) : string := pretty n.

(** [net.JoinHostPort] *)
Definition JoinHostPort (host port : string) : string :=
  if Contains host ":" then "[" +:+ host +:+ "]:" +:+ port else host +:+ ":" +:+ port.

(** ** Facts about scanning *)

Lemma sall_app p s t : sall p (s +:+ t) = sall p s && sall p t.
Proof. induction s as [|c s IH]; simpl; [done|]. by rewrite IH, andb_assoc. Qed.

Lemma sall_mono (p q : ascii -> bool) s :
  (forall c, p c = true -> q c = true) -> sall p s = true -> sall q s = true.
Proof.
  intros H. induction s as [|c s IH]; simpl; [done|].
  intros [H1 H2]%andb_true_iff. apply andb_true_iff; auto.
Qed.

Lemma Contains_app s t c : Contains (s +:+ t) c = Contains s c || Contains t c.
Proof. induction s as [|d s IH]; simpl; [done|]. by rewrite IH, orb_assoc. Qed.

Lemma sall_Contains p s c : p c = false -> sall p s = true -> Contains s c = false.
Proof.
  intros Hc. induction s as [|d s IH]; simpl; [done|].
  intros [H1 H2]%andb_true_iff. apply orb_false_iff. split; [|auto].
  apply Ascii.eqb_neq. congruence.
Qed.

Lemma Cut_miss s c : Contains s c = false -> Cut s c = (s, "").
Proof.
  induction s as [|d s IH]; simpl; [done|].
  intros [-> H]%orb_false_iff. by rewrite (IH H).
Qed.

Lemma Cut_app s t c : Contains s c = false -> Cut (s +:+ String c t) c = (s, t).
Proof.
  induction s as [|d s IH]; simpl; [by rewrite Ascii.eqb_refl|].
  intros [-> H]%orb_false_iff. by rewrite (IH H).
Qed.

Lemma LastIndex_miss s c : Contains s c = false -> LastIndex s c = None.
Proof.
  induction s as [|d s IH]; simpl; [done|].
  intros [-> H]%orb_false_iff. by rewrite (IH H).
Qed.

Lemma LastIndex_app s t c : Contains t c = false -> LastIndex (s +:+ String c t) c = Some (s, t).
Proof.
  intros H. induction s as [|d s IH]; simpl; [|by rewrite IH].
  by rewrite (LastIndex_miss _ _ H), Ascii.eqb_refl.
Qed.

Lemma HasPrefix_app s p : HasPrefix (p +:+ s) p = true.
Proof. induction p; simpl; [done|]. by rewrite Ascii.eqb_refl. Qed.

Lemma HasSuffix_app s c : HasSuffix (s +:+ String c "") c = true.
Proof.
  induction s as [|d s IH]; simpl; [apply Ascii.eqb_refl|].
  by destruct (s +:+ String c "").
Qed.

Lemma sbutlast_app s c : sbutlast (s +:+ String c "") = s.
Proof.
  induction s as [|d s IH]; simpl; [done|].
  destruct (s +:+ String c "") eqn:E; [by destruct s|]. by rewrite IH.
Qed.

Lemma TrimSuffix_app s c : TrimSuffix (s +:+ String c "") c = s.
Proof. unfold TrimSuffix. by rewrite HasSuffix_app, sbutlast_app. Qed.

(** Appending to a nonempty string. *)
Lemma append_cons c (s t : string) : String c s +:+ t = String c (s +:+ t).
Proof. done. Qed.

Lemma app_empty_r s : s +:+ "" = s.
Proof. induction s as [|c s IH]; [done|]. by rewrite append_cons, IH. Qed.

Lemma sapp_assoc (a b c : string) : a +:+ (b +:+ c) = (a +:+ b) +:+ c.
Proof. induction a as [|x a IH]; [done|]. by rewrite !append_cons, IH. Qed.

Lemma Count_app s t c : Count (s +:+ t) c = Count s c + Count t c.
Proof. induction s as [|d s IH]; simpl; [done|]. rewrite IH. lia. Qed.

Lemma Count_nonneg s c : 0 <= Count s c.
Proof. induction s as [|d s IH]; simpl; [lia|]. destruct (Ascii.eqb d c); lia. Qed.

Lemma Count_pos s c : Contains s c = true <-> 0 < Count s c.
Proof.
  induction s as [|d s IH]; simpl; [lia|]. pose proof (Count_nonneg s c).
  destruct (Ascii.eqb d c); simpl; [lia|]. rewrite IH. lia.
Qed.

(** A string that is not empty and ends with [c] contains it. *)
Lemma HasSuffix_Contains s c : HasSuffix s c = true -> Contains s c = true.
Proof.
  induction s as [|d s IH]; simpl; [done|]. destruct s; [by intros ->|].
  intros H. by rewrite (IH H), orb_true_r.
Qed.

Lemma HasSuffix_sapp s t c : t <> "" -> HasSuffix (s +:+ t) c = HasSuffix t c.
Proof.
  intros Ht. induction s as [|d s IH]; simpl; [done|].
  destruct (s +:+ t) eqn:E; [|done]. by destruct s, t.
Qed.

(** ** Facts about decimal numbers *)

Lemma isdigit_pretty (d : N) : (d < 10)%N ->
  isdigit (pretty_N_char d) = true /\ code (pretty_N_char d) - 48 = Z.of_N d.
Proof.
  intros H. assert (d ∈ [0; 1; 2; 3; 4; 5; 6; 7; 8; 9]%N) as Hd.
  { repeat rewrite elem_of_cons. lia. }
  repeat rewrite elem_of_cons in Hd.
  repeat (destruct Hd as [->|Hd]; [by vm_compute|]). by apply elem_of_nil in Hd.
Qed.

(** Reading on from a prefix value [n]: the digits of [x], then [s]. *)
Lemma parse_digits_pretty m x s :
  0 <= m -> Z.of_N x <= m ->
  parse_digits m 0 (pretty_N_go x s) = parse_digits m (Z.of_N x) s.
Proof.
  intros Hm. revert s. induction (N.lt_wf_0 x) as [x _ IH]. intros s Hx.
  destruct (N.eq_dec x 0%N) as [->|Hx0]; [by rewrite pretty_N_go_0|].
  assert (0 < x)%N as Hp by lia. rewrite (pretty_N_go_step _ _ Hp).
  pose proof (N.div_lt x 10%N Hp eq_refl) as Hlt.
  rewrite (IH (x `div` 10)%N Hlt) by lia. cbn [parse_digits].
  destruct (isdigit_pretty (x `mod` 10)%N (N.mod_lt x 10%N ltac:(lia))) as [-> ->]. cbn [negb].
  assert (Z.of_N (x `div` 10) * 10 + Z.of_N (x `mod` 10) = Z.of_N x) as ->.
  { pose proof (N.div_mod x 10%N ltac:(lia)). lia. }
  by rewrite (proj2 (Z.ltb_ge m (Z.of_N x))) by lia.
Qed.

Lemma pretty_N_go_digits x s : sall isdigit s = true -> sall isdigit (pretty_N_go x s) = true.
Proof.
  revert s. induction (N.lt_wf_0 x) as [x _ IH]. intros s Hs.
  destruct (N.eq_dec x 0%N) as [->|Hx0]; [by rewrite pretty_N_go_0|].
  assert (0 < x)%N as Hp by lia. rewrite (pretty_N_go_step _ _ Hp).
  apply IH; [by apply N.div_lt|]. simpl.
  by rewrite (proj1 (isdigit_pretty _ (N.mod_lt x 10%N ltac:(lia)))).
Qed.

Lemma pretty_N_go_nonempty x s : (0 < x)%N \/ s <> "" -> pretty_N_go x s <> "".
Proof.
  revert s. induction (N.lt_wf_0 x) as [x _ IH]. intros s Hs.
  destruct (N.eq_dec x 0%N) as [->|Hx0]; [rewrite pretty_N_go_0; destruct Hs; [lia|done]|].
  assert (0 < x)%N as Hp by lia. rewrite (pretty_N_go_step _ _ Hp).
  apply IH; [by apply N.div_lt|]. by right.
Qed.

(** The digits of a number that is not negative. *)
Lemma Itoa_nonneg n : 0 <= n ->
  sall isdigit (Itoa n) = true /\ Itoa n <> "" /\
  (forall bits, n < 2 ^ bits -> parse_uint (Itoa n) bits = inr n).
Proof.
  intros Hn. destruct n as [|p|p]; [| |lia].
  { split_and!; [done|done|]. intros bits Hb. unfold parse_uint, Itoa.
    change (pretty 0) with "0". cbn [parse_digits]. rewrite bool_decide_eq_false_2 by done.
    change (negb (isdigit "0")) with false. cbn [negb].
    by rewrite (proj2 (Z.ltb_ge _ _)) by (change (0 * 10 + (code "0" - 48)) with 0; lia). }
  assert (Itoa (Z.pos p) = pretty_N_go (N.pos p) "") as E.
  { unfold Itoa. change (pretty (Z.pos p)) with (pretty (N.pos p)). unfold pretty, pretty_N.
    by rewrite decide_False. }
  rewrite E. split_and!.
  - by apply pretty_N_go_digits.
  - apply pretty_N_go_nonempty. left. lia.
  - intros bits Hb. unfold parse_uint.
    rewrite bool_decide_eq_false_2 by (apply pretty_N_go_nonempty; left; lia).
    by rewrite (parse_digits_pretty _ _ "") by lia.
Qed.

Lemma parse_digits_range m n s v :
  0 <= n <= m -> parse_digits m n s = inr v -> 0 <= v <= m.
Proof.
  revert n. induction s as [|c s IH]; intros n Hn; simpl; [by intros [= <-]|].
  destruct (isdigit c) eqn:Hd; [cbn [negb]|done].
  destruct (Z.ltb_spec m (n * 10 + (code c - 48))); [done|].
  apply IH. unfold isdigit in Hd. lia.
Qed.

Lemma parse_uint_range s bits v : 0 <= bits -> parse_uint s bits = inr v -> is_uint bits v.
Proof.
  unfold parse_uint. case_bool_decide; [done|]. intros Hb E.
  assert (0 < 2 ^ bits) by (apply Z.pow_pos_nonneg; lia).
  apply parse_digits_range in E; [|lia]. unfold is_uint. lia.
Qed.

Lemma ParseUint_range s bits v : 0 <= bits -> ParseUint s bits = inr v -> is_uint bits v.
Proof.
  unfold ParseUint. destruct (parse_uint s bits) eqn:E; [done|]. intros Hb [= <-].
  by apply (parse_uint_range s).
Qed.

Lemma parse_int_range fn s bits v : 1 <= bits -> parse_int fn s bits = inr v -> is_sint bits v.
Proof.
  intros Hb. unfold parse_int.
  destruct (match s with EmptyString => _ | String _ _ => _ end) as [neg digits].
  destruct (parse_uint digits bits) as [|un] eqn:E; [done|].
  apply parse_uint_range in E; [|lia]. unfold is_uint in E. unfold is_sint.
  destruct neg; cbn [negb andb].
  - destruct (Z.ltb_spec (2 ^ (bits - 1)) un); [done|]. intros [= <-].
    assert (0 < 2 ^ (bits - 1)) by (apply Z.pow_pos_nonneg; lia). lia.
  - destruct (Z.leb_spec (2 ^ (bits - 1)) un); [done|]. intros [= <-]. lia.
Qed.

(** A string of digits has no sign: [ParseInt] is [ParseUint] below the cutoff. *)
Lemma ParseInt_digits s bits n :
  sall isdigit s = true -> 1 <= bits -> n < 2 ^ (bits - 1) ->
  parse_uint s bits = inr n -> ParseInt s bits = inr n.
Proof.
  intros Hs Hb Hn E. unfold ParseInt, parse_int.
  assert (match s with
          | EmptyString => (false, s)
          | String c r => if Ascii.eqb c "+" then (false, r)
                          else if Ascii.eqb c "-" then (true, r) else (false, s)
          end = (false, s)) as ->.
  { destruct s as [|c r]; [done|]. simpl in Hs. apply andb_true_iff in Hs as [Hc _].
    destruct (Ascii.eqb_spec c "+"); [by subst|]. destruct (Ascii.eqb_spec c "-"); [by subst|done]. }
  rewrite E. cbn [negb andb]. by rewrite (proj2 (Z.leb_gt _ _)) by lia.
Qed.

(** A tail without [c] moves to the part after the last [c]. *)
Lemma LastIndex_tail s t c :
  Contains t c = false ->
  LastIndex (s +:+ t) c =
  match LastIndex s c with Some (b, a) => Some (b, a +:+ t) | None => None end.
Proof.
  intros H. induction s as [|d s IH]; [by apply LastIndex_miss|].
  rewrite append_cons. cbn [LastIndex]. rewrite IH. destruct (LastIndex s c) as [[b a]|]; [done|].
  by destruct (Ascii.eqb d c).
Qed.

Lemma LastIndex_hit s c : Contains s c = true -> exists b a, LastIndex s c = Some (b, a).
Proof.
  induction s as [|d s IH]; simpl; [done|].
  destruct (LastIndex s c) as [[b a]|]; [by eauto|]. destruct (Ascii.eqb d c); [by eauto|].
  intros H. by destruct (IH H) as (b & a & ?).
Qed.

(** Cutting at a separator that starts the tail, or is nowhere. *)
Lemma Cut_tail s t c :
  Contains s c = false -> t = "" \/ HasPrefix t (String c "") = true ->
  Cut (s +:+ t) c = (s, sdrop 1 t).
Proof.
  intros Hs [->|Ht].
  - rewrite app_empty_r. by apply Cut_miss.
  - destruct t as [|d t]; [done|]. simpl in Ht. rewrite andb_true_r in Ht.
    apply Ascii.eqb_eq in Ht as <-. by apply Cut_app.
Qed.

Lemma HasPrefix_1 s c : HasPrefix s (String c "") = true -> exists t, s = String c t.
Proof.
  destruct s as [|d s]; simpl; [done|]. rewrite andb_true_r.
  intros ->%Ascii.eqb_eq. by exists s.
Qed.

Lemma sapp_nil_inv (s t : string) : s +:+ t = "" -> s = "" /\ t = "".
Proof. by destruct s. Qed.

Lemma slen_cons c s : slen (String c s) = slen s + 1.
Proof. unfold slen. cbn [String.length]. lia. Qed.
