(* ===== verification/Url.v ===== *)
(** * Url: what uri.go uses of [net/url]

    Percent-encoding by component, [Parse], [URL.String], [Hostname], [Port]
    and [Query], as the Go 1.20 standard library (the version go.mod names)
    defines them; errors are values of [url_error]. *)

From S2P Require Import Prelude GoStrings.

(** ** Percent-encoding *)

Inductive encoding :=
  | encodePath | encodePathSegment | encodeHost | encodeZone
  | encodeUserPassword | encodeQueryComponent | encodeFragment.

#[global] Instance encoding_eq_dec : EqDecision encoding.
Proof. solve_decision. Defined.

Inductive url_error :=
  | EscapeError (s : string)
  | InvalidHostError (s : string)
  | InvalidPort (colonPort : string)   (** [fmt.Errorf("invalid port %q after host", ...)] *)
  | UrlText (text : string).           (** [errors.New] *)

Definition isalnum (c : ascii) : bool := islower c || isupper c || isdigit c.

Definition ishex (c : ascii) : bool :=
  isdigit c || ((97 <=? code c) && (code c <=? 102)) || ((65 <=? code c) && (code c <=? 70)).

Definition unhex (c : ascii) : Z :=
  if isdigit c then code c - 48
  else if (97 <=? code c) && (code c <=? 102) then code c - 97 + 10
  else if (65 <=? code c) && (code c <=? 70) then code c - 65 + 10
  else 0.

(** The characters a host may have besides the unreserved ones; 34 is the
    quotation mark. *)
Definition host_extra (c : ascii) : bool := oneof "!$&'()*+,;=:[]<>" c || (code c =? 34).

Definition in_host (mode : encoding) : bool :=
  match mode with encodeHost | encodeZone => true | _ => false end.

Definition shouldEscape (c : ascii) (mode : encoding) : bool :=
  if isalnum c then false
  else if in_host mode && host_extra c then false
  else if oneof "-_.~" c then false
  else if oneof "$&+,/:;=?@" c then
    match mode with
    | encodePath => Ascii.eqb c "?"
    | encodePathSegment => oneof "/;,?" c
    | encodeUserPassword => oneof "@/?:" c
    | encodeFragment => false
    | encodeQueryComponent | encodeHost | encodeZone => true
    end
  else negb (bool_decide (mode = encodeFragment) && oneof "!()*" c).

(** [upperhex[d]] *)
Definition upperhex (d : Z) : ascii := if d <? 10 then char_of (48 + d) else char_of (55 + d).

Fixpoint escape (s : string) (mode : encoding) : string :=
  match s with
  | EmptyString => EmptyString
  | String c r =>
      if shouldEscape c mode then
        if Ascii.eqb c " " && bool_decide (mode = encodeQueryComponent) then String "+" (escape r mode)
        else String "%" (String (upperhex (Z.shiftr (code c) 4))
                        (String (upperhex (Z.land (code c) 15)) (escape r mode)))
      else String c (escape r mode)
  end.

Definition hexval (a b : ascii) : Z := Z.lor (Z.shiftl (unhex a) 4) (unhex b).

(** The escapes a host or a zone refuses. *)
Definition refused_escape (mode : encoding) (a b : ascii) : bool :=
  let is25 := Ascii.eqb a "2" && Ascii.eqb b "5" in
  match mode with
  | encodeHost => (unhex a <? 8) && negb is25
  | encodeZone =>
      negb is25 && negb (hexval a b =? 32) && shouldEscape (char_of (hexval a b)) encodeHost
  | _ => false
  end.

(** [unescape]: its first pass checks from the left and its second pass
    writes, so the first malformed escape is the one reported. *)
Fixpoint unescape (s : string) (mode : encoding) : url_error + string :=
  match s with
  | EmptyString => inr EmptyString
  | String c r =>
      if Ascii.eqb c "%" then
        match r with
        | String a (String b r') =>
            if negb (ishex a) || negb (ishex b) then inl (EscapeError (String c (String a (String b ""))))
            else if refused_escape mode a b then inl (EscapeError (String c (String a (String b ""))))
            else let? t := unescape r' mode in inr (String (char_of (hexval a b)) t)
        | _ => inl (EscapeError s)
        end
      else if Ascii.eqb c "+" then
        let? t := unescape r mode in
        inr (String (if bool_decide (mode = encodeQueryComponent) then " "%char else c) t)
      else if in_host mode && (code c <? 128) && shouldEscape c mode then
        inl (InvalidHostError (String c ""))
      else let? t := unescape r mode in inr (String c t)
  end.

Definition QueryEscape (s : string) : string := escape s encodeQueryComponent.
Definition QueryUnescape (s : string) : url_error + string := unescape s encodeQueryComponent.

(** ** The parts of a URL *)

(** [type Userinfo struct] *)
Record Userinfo := MkUserinfo { username : string; password : string; passwordSet : bool }.

(** [url.User], [url.UserPassword], [Userinfo.Password] *)
Definition User (u : string) : Userinfo := MkUserinfo u "" false.
Definition UserPassword (u p : string) : Userinfo := MkUserinfo u p true.
Definition Userinfo_Password (u : Userinfo) : option string :=
  if passwordSet u then Some (password u) else None.

Definition Userinfo_String (u : Userinfo) : string :=
  if negb (bool_decide (username u = "")) || passwordSet u then
    escape (username u) encodeUserPassword +:+
    (if passwordSet u then ":" +:+ escape (password u) encodeUserPassword else "")
  else "".

(** [type URL struct] *)
Record URL := MkURL {
  Scheme : string;
  Opaque : string;
  url_User : option Userinfo;
  Host : string;
  Path : string;
  RawPath : string;
  OmitHost : bool;
  ForceQuery : bool;
  RawQuery : string;
  Fragment : string;
  RawFragment : string
}.

(** ** [Parse] *)

Definition isCTL (c : ascii) : bool := (code c <? 32) || (code c =? 127).
Definition stringContainsCTLByte (s : string) : bool := negb (sall (fun c => negb (isCTL c)) s).

(** The loop of [getScheme]; [acc] is what it has passed. *)
Fixpoint getScheme_from (acc rawURL rest : string) : url_error + (string * string) :=
  match rest with
  | EmptyString => inr ("", rawURL)
  | String c r =>
      if islower c || isupper c then getScheme_from (acc +:+ String c "") rawURL r
      else if isdigit c || oneof "+-." c then
        if bool_decide (acc = "") then inr ("", rawURL)
        else getScheme_from (acc +:+ String c "") rawURL r
      else if Ascii.eqb c ":" then
        if bool_decide (acc = "") then inl (UrlText "missing protocol scheme") else inr (acc, r)
      else inr ("", rawURL)
  end.

Definition getScheme (rawURL : string) : url_error + (string * string) :=
  getScheme_from "" rawURL rawURL.

Definition validOptionalPort (port : string) : bool :=
  match port with
  | EmptyString => true
  | String c r => Ascii.eqb c ":" && sall isdigit r
  end.

Definition validUserinfo (s : string) : bool :=
  sall (fun c => isalnum c || oneof "-._:~!$&'()*+,;=%@" c) s.

Definition parseHost (host : string) : url_error + string :=
  if HasPrefix host "[" then
    match LastIndex host "]" with
    | None => inl (UrlText "missing ']' in host")
    | Some (inside, colonPort) =>
        if negb (validOptionalPort colonPort) then inl (InvalidPort colonPort)
        else
          match Index inside "%25" with
          | Some (before, zone) =>
              let? host1 := unescape before encodeHost in
              let? host2 := unescape zone encodeZone in
              let? host3 := unescape (String "]" colonPort) encodeHost in
              inr (host1 +:+ host2 +:+ host3)
          | None => unescape host encodeHost
          end
    end
  else
    match LastIndex host ":" with
    | Some (_, port) =>
        if negb (validOptionalPort (String ":" port)) then inl (InvalidPort (String ":" port))
        else unescape host encodeHost
    | None => unescape host encodeHost
    end.

Definition parseAuthority (authority : string) : url_error + (option Userinfo * string) :=
  match LastIndex authority "@" with
  | None => let? host := parseHost authority in inr (None, host)
  | Some (userinfo, after) =>
      let? host := parseHost after in
      if negb (validUserinfo userinfo) then inl (UrlText "net/url: invalid userinfo")
      else if negb (Contains userinfo ":") then
        let? u := unescape userinfo encodeUserPassword in
        inr (Some (User u), host)
      else
        let '(u, p) := Cut userinfo ":" in
        let? u := unescape u encodeUserPassword in
        let? p := unescape p encodeUserPassword in
        inr (Some (UserPassword u p), host)
  end.

(** [setPath], [setFragment]: the value and the hint of its encoding. *)
Definition set_encoded (p : string) (mode : encoding) : url_error + (string * string) :=
  let? v := unescape p mode in
  inr (v, if bool_decide (p = escape v mode) then "" else p).

Definition empty_url : URL := MkURL "" "" None "" "" "" false false "" "" "".

(** User, host, [OmitHost] and the path that is left, from what follows the
    scheme. *)
Definition parse_authority_part (scheme rest : string)
  : url_error + (option Userinfo * string * bool * string) :=
  if (negb (bool_decide (scheme = "")) || negb (HasPrefix rest "///")) && HasPrefix rest "//" then
    let authority := sdrop 2 rest in
    let '(auth, after) := Cut authority "/" in
    let? (user, host) := parseAuthority auth in
    inr (user, host, false, if Contains authority "/" then String "/" after else "")
  else inr (None, "", negb (bool_decide (scheme = "")) && HasPrefix rest "/", rest).

(** The rest of [parse] once the query is cut off. *)
Definition parse_hier (scheme rest rawQuery : string) (force : bool) : url_error + URL :=
  if negb (HasPrefix rest "/") && negb (bool_decide (scheme = "")) then
    inr (MkURL scheme rest None "" "" "" false force rawQuery "" "")
  else if negb (HasPrefix rest "/") && Contains (fst (Cut rest "/")) ":" then
    inl (UrlText "first path segment in URL cannot contain colon")
  else
    let? r := parse_authority_part scheme rest in
    let '(user, host, omit, path) := r in
    let? (p, raw) := set_encoded path encodePath in
    inr (MkURL scheme "" user host p raw omit force rawQuery "" "").

(** [parse(rawURL, false)] *)
Definition parse (rawURL : string) : url_error + URL :=
  if stringContainsCTLByte rawURL then inl (UrlText "net/url: invalid control character in URL")
  else if bool_decide (rawURL = "*") then
    inr (MkURL "" "" None "" "*" "" false false "" "" "")
  else
    let? (sch, rest) := getScheme rawURL in
    let scheme := ToLower sch in
    if HasSuffix rest "?" && (Count rest "?" =? 1) then
      parse_hier scheme (sbutlast rest) "" true
    else
      let '(before, rawQuery) := Cut rest "?" in
      parse_hier scheme before rawQuery false.

(** [url.Parse]; the operation and the URL of an [url.Error] with its cause. *)
Definition Parse (rawURL : string) : (string * url_error) + URL :=
  let '(u, frag) := Cut rawURL "#" in
  match parse u with
  | inl e => inl (u, e)
  | inr url =>
      if bool_decide (frag = "") then inr url
      else
        match set_encoded frag encodeFragment with
        | inl e => inl (rawURL, e)
        | inr (f, raw) =>
            inr (MkURL (Scheme url) (Opaque url) (url_User url) (Host url) (Path url) (RawPath url)
                       (OmitHost url) (ForceQuery url) (RawQuery url) f raw)
        end
  end.

(** ** [URL.String] *)

Definition validEncoded (s : string) (mode : encoding) : bool :=
  sall (fun c => oneof "!$&'()*+,;=:@[]%" c || negb (shouldEscape c mode)) s.

(** The hint [raw], when it is a valid encoding of [v]. *)
Definition usable_hint (raw v : string) (mode : encoding) : bool :=
  negb (bool_decide (raw = "")) && validEncoded raw mode &&
  match unescape raw mode with inr p => bool_decide (p = v) | inl _ => false end.

Definition EscapedPath (u : URL) : string :=
  if usable_hint (RawPath u) (Path u) encodePath then RawPath u
  else if bool_decide (Path u = "*") then "*"
  else escape (Path u) encodePath.

Definition EscapedFragment (u : URL) : string :=
  if usable_hint (RawFragment u) (Fragment u) encodeFragment then RawFragment u
  else escape (Fragment u) encodeFragment.

(** What [String] writes of the authority. *)
Definition authority_String (u : URL) : string :=
  let hasUser := match url_User u with Some _ => true | None => false end in
  let hasHost := negb (bool_decide (Host u = "")) in
  if negb (bool_decide (Scheme u = "")) || hasHost || hasUser then
    if OmitHost u && negb hasHost && negb hasUser then ""
    else
      (if hasHost || negb (bool_decide (Path u = "")) || hasUser then "//" else "") +:+
      match url_User u with Some ui => Userinfo_String ui +:+ "@" | None => "" end +:+
      (if hasHost then escape (Host u) encodeHost else "")
  else "".

Definition URL_String (u : URL) : string :=
  let scheme := if bool_decide (Scheme u = "") then "" else Scheme u +:+ ":" in
  let body :=
    if negb (bool_decide (Opaque u = "")) then scheme +:+ Opaque u
    else
      let path := EscapedPath u in
      let buf :=
        scheme +:+ authority_String u +:+
        (if negb (bool_decide (path = "")) && negb (HasPrefix path "/") &&
            negb (bool_decide (Host u = "")) then "/" else "") in
      buf +:+
      (if bool_decide (buf = "") && Contains (fst (Cut path "/")) ":" then "./" else "") +:+ path in
  body +:+
  (if ForceQuery u || negb (bool_decide (RawQuery u = "")) then "?" +:+ RawQuery u else "") +:+
  (if negb (bool_decide (Fragment u = "")) then "#" +:+ EscapedFragment u else "").

(** ** Hosts and queries *)

Definition strip_brackets (host : string) : string :=
  if HasPrefix host "[" && HasSuffix host "]" then sbutlast (sdrop 1 host) else host.

Definition splitHostPort (hostPort : string) : string * string :=
  match LastIndex hostPort ":" with
  | Some (before, after) =>
      if sall isdigit after then (strip_brackets before, after) else (strip_brackets hostPort, "")
  | None => (strip_brackets hostPort, "")
  end.

Definition Hostname (u : URL) : string := fst (splitHostPort (Host u)).
Definition Port (u : URL) : string := snd (splitHostPort (Host u)).

(** [type Values map[string][]string] *)
Abbreviation Values := (gmap string (list string)).

(** One field of a query; a field that does not parse is skipped (the error
    [ParseQuery] reports is ignored by [URL.Query]). *)
Definition parse_field (field : string) (m : Values) : Values :=
  if Contains field ";" then m
  else if bool_decide (field = "") then m
  else
    let '(key, value) := Cut field "=" in
    match QueryUnescape key, QueryUnescape value with
    | inr k, inr v => <[k := default [] (m !! k) ++ [v]]> m
    | _, _ => m
    end.

(** The loop of [parseQuery]: [field] is the part read since the last [&]. *)
Fixpoint parse_fields (field query : string) (m : Values) : Values :=
  match query with
  | EmptyString => parse_field field m
  | String c r =>
      if Ascii.eqb c "&" then parse_fields "" r (parse_field field m)
      else parse_fields (field +:+ String c "") r m
  end.

Definition Query (u : URL) : Values := parse_fields "" (RawQuery u) ∅.

Definition Values_Get (m : Values) (key : string) : string :=
  match m !! key with Some (v :: _) => v | _ => "" end.
Definition Values_Has (m : Values) (key : string) : bool :=
  match m !! key with Some _ => true | None => false end.
