(* ===== verification/UrlFacts.v ===== *)
(** * UrlFacts: percent-encoding inverts, and where a URL's parts are found

    Facts about single bytes are settled by evaluating all 256 of them
    ([all_bytes]); facts about strings follow by induction ([escape_sall],
    [unescape_escape]). *)

From S2P Require Import Prelude GoStrings Url.

(** Evaluate a closed fact for each of the 256 bytes. *)
Ltac all_bytes c :=
  destruct c as [[] [] [] [] [] [] [] []]; try reflexivity; try discriminate; vm_compute; auto.

(** ** Escaping, character by character *)

Definition escape_char (c : ascii) (mode : encoding) : string := escape (String c "") mode.

Lemma escape_cons c s m : escape (String c s) m = escape_char c m +:+ escape s m.
Proof.
  unfold escape_char. simpl. destruct (shouldEscape c m); [|done].
  by destruct (Ascii.eqb c " " && bool_decide (m = encodeQueryComponent)).
Qed.

Lemma escape_app s t m : escape (s +:+ t) m = escape s m +:+ escape t m.
Proof.
  induction s as [|c s IH]; [done|].
  by rewrite append_cons, !escape_cons, IH, sapp_assoc.
Qed.

Lemma escape_sall (q p : ascii -> bool) m s :
  (forall c, q c = true -> sall p (escape_char c m) = true) ->
  sall q s = true -> sall p (escape s m) = true.
Proof.
  intros H. induction s as [|c s IH]; [done|]. cbn [sall].
  intros [Hc Hs]%andb_true_iff. by rewrite escape_cons, sall_app, (H c Hc), IH.
Qed.

(** A string that needs no escaping is left as it is. *)
Lemma escape_plain m s : sall (fun c => negb (shouldEscape c m)) s = true -> escape s m = s.
Proof.
  induction s as [|c s IH]; simpl; [done|].
  intros [Hc Hs]%andb_true_iff. apply negb_true_iff in Hc. by rewrite Hc, IH.
Qed.

(** Reading back what [m] wrote in mode [n], for the bytes that survive. *)
Definition reads_back (c : ascii) (m n : encoding) : Prop :=
  forall r, unescape (escape_char c m +:+ r) n = let? t := unescape r n in inr (String c t).

Lemma unescape_escape_app (q : ascii -> bool) m n s r :
  (forall c, q c = true -> reads_back c m n) -> sall q s = true ->
  unescape (escape s m +:+ r) n = let? t := unescape r n in inr (s +:+ t).
Proof.
  intros H. induction s as [|c s IH]; cbn [sall].
  - intros _. change (escape "" m +:+ r) with r. by destruct (unescape r n).
  - intros [Hc Hs]%andb_true_iff. rewrite escape_cons, <- sapp_assoc, (H c Hc), (IH Hs).
    by destruct (unescape r n).
Qed.

Lemma unescape_escape (q : ascii -> bool) m n s :
  (forall c, q c = true -> reads_back c m n) -> sall q s = true ->
  unescape (escape s m) n = inr s.
Proof.
  intros H Hs. rewrite <- (app_empty_r (escape s m)), (unescape_escape_app q) by done.
  simpl. by rewrite app_empty_r.
Qed.

(** A string without escapes is read as it is. *)
Lemma unescape_plain m s :
  in_host m = false -> sall (fun c => negb (oneof "%+" c)) s = true -> unescape s m = inr s.
Proof.
  intros Hm. induction s as [|c s IH]; [done|]. intros [Hc Hs]%andb_true_iff.
  simpl in Hc. rewrite orb_false_r in Hc. apply negb_true_iff, orb_false_iff in Hc as [H1 H2].
  simpl. by rewrite H1, H2, Hm, (IH Hs).
Qed.

(** ** The modes uri.go uses *)

Definition any (c : ascii) : bool := true.

Lemma sall_any s : sall any s = true.
Proof. induction s; [done|]. by simpl. Qed.

Lemma reads_back_user c : reads_back c encodeUserPassword encodeUserPassword.
Proof. intros r. all_bytes c. Qed.

Lemma reads_back_path c : reads_back c encodePath encodePath.
Proof. intros r. all_bytes c. Qed.

(** [QueryEscape] writes a space as a plus sign, which a path keeps. *)
Lemma reads_back_query_path c :
  negb (Ascii.eqb c " ") = true -> reads_back c encodeQueryComponent encodePath.
Proof. intros H r. all_bytes c. Qed.

(** The bytes of hosts: those that are not escaped, those outside ASCII, and
    the percent sign. *)
Definition host_plain (c : ascii) : bool := negb (shouldEscape c encodeHost).
Definition host_high (c : ascii) : bool := host_plain c || (128 <=? code c).
Definition host_pct (c : ascii) : bool := host_plain c || Ascii.eqb c "%".
Definition host_char (c : ascii) : bool := host_high c || Ascii.eqb c "%".

Lemma reads_back_host c : host_char c = true -> reads_back c encodeHost encodeHost.
Proof. intros H r. all_bytes c. Qed.

Lemma reads_back_zone c : host_pct c = true -> reads_back c encodeHost encodeZone.
Proof. intros H r. all_bytes c. Qed.

(** User names and passwords round trip, and so do paths. *)
Lemma user_roundtrip s : unescape (escape s encodeUserPassword) encodeUserPassword = inr s.
Proof. apply (unescape_escape any); [intros c _; apply reads_back_user|apply sall_any]. Qed.

Lemma path_roundtrip s : unescape (escape s encodePath) encodePath = inr s.
Proof. apply (unescape_escape any); [intros c _; apply reads_back_path|apply sall_any]. Qed.

Lemma query_path_roundtrip s :
  Contains s " " = false -> unescape (escape s encodeQueryComponent) encodePath = inr s.
Proof.
  intros H. apply (unescape_escape (fun c => negb (Ascii.eqb c " "))); [apply reads_back_query_path|].
  induction s as [|c s IH]; simpl in *; [done|]. apply orb_false_iff in H as [-> H]. by apply IH.
Qed.

(** ** The first zone of a host *)

(** Where [parseHost] finds the zone in an escaped host: at the host's first
    percent sign. *)
Definition zone_split (h : string) (r : option (string * string)) : Prop :=
  match r with
  | Some (before, zone) =>
      exists h1 h2, h = h1 +:+ String "%" h2 /\ before = escape h1 encodeHost /\
                    zone = escape (String "%" h2) encodeHost
  | None => Contains h "%" = false
  end.

Lemma Index_step c s : Ascii.eqb c "%" = false ->
  Index (String c s) "%25" = match Index s "%25" with
                             | Some (b, z) => Some (String c b, z)
                             | None => None
                             end.
Proof.
  intros H. cbn [Index HasPrefix]. rewrite Ascii.eqb_sym, H. done.
Qed.

(** A byte of a host other than the percent sign stands for itself or is
    escaped with a first digit above 7. *)
Lemma host_escape_forms c :
  host_char c = true -> Ascii.eqb c "%" = false ->
  escape_char c encodeHost = String c "" \/
  exists a b, escape_char c encodeHost = String "%" (String a (String b "")) /\
    Ascii.eqb "2" a = false /\ Ascii.eqb a "%" = false /\ Ascii.eqb b "%" = false.
Proof.
  intros H1 H2. destruct (shouldEscape c encodeHost) eqn:E.
  - right. exists (upperhex (Z.shiftr (code c) 4)), (upperhex (Z.land (code c) 15)).
    unfold escape_char. cbn [escape]. rewrite E, andb_false_r. split; [done|].
    all_bytes c.
  - left. unfold escape_char. cbn [escape]. by rewrite E.
Qed.

Lemma Index_escape_char c r :
  host_char c = true -> Ascii.eqb c "%" = false ->
  Index (escape_char c encodeHost +:+ r) "%25" =
  match Index r "%25" with
  | Some (b, z) => Some (escape_char c encodeHost +:+ b, z)
  | None => None
  end.
Proof.
  intros H1 H2. destruct (host_escape_forms c H1 H2) as [->|(a & b & -> & Ha & Hp & Hb)].
  - exact (Index_step c r H2).
  - rewrite !append_cons. change ("" +:+ r) with r.
    cbn [Index HasPrefix]. rewrite Ha. cbn [Ascii.eqb andb Bool.eqb].
    change (match Index (String a (String b r)) "%25" with
            | Some (u, z) => Some (String "%" u, z) | None => None end =
            match Index r "%25" with
            | Some (u, z) => Some (String "%" (String a (String b u)), z) | None => None end).
    rewrite !Index_step by done. by destruct (Index r "%25") as [[u z]|].
Qed.

Lemma Index_escape h :
  sall host_char h = true -> zone_split h (Index (escape h encodeHost) "%25").
Proof.
  induction h as [|c h IH]; [done|]. cbn [sall]. intros [Hc Hh]%andb_true_iff.
  rewrite escape_cons. destruct (Ascii.eqb_spec c "%") as [->|Hne].
  - exists "", h. split_and!; [done|done|by rewrite escape_cons].
  - apply Ascii.eqb_neq in Hne. rewrite Index_escape_char by done. specialize (IH Hh).
    destruct (Index (escape h encodeHost) "%25") as [[b z]|]; simpl in IH |- *.
    + destruct IH as (h1 & h2 & -> & -> & ->). exists (String c h1), h2.
      by rewrite escape_cons.
    + by rewrite Hne, IH.
Qed.
