(* ===== verification/Uri.v ===== *)
(** * Uri: AMQP URIs (uri.go)

    [ParseURI] over the URL parser of Url, [URI.String], and the credentials
    of a URI. *)

From S2P Require Import Prelude Types GoStrings Url Io Wire Auth.

(** The errors of [ParseURI]. *)
Inductive uri_error :=
  | errURIScheme
  | errURIWhitespace
  | UrlError (URL : string) (Err : url_error)     (** [*url.Error] with operation "parse" *)
  | PortError (Err : NumError)                    (** of [strconv.ParseInt] *)
  | Errorf (text : string) (Err : NumError).      (** [fmt.Errorf(text + ": %v", err)] *)

(** [var schemePorts] *)
Definition schemePorts (scheme : string) : option Z :=
  if bool_decide (scheme = "amqp") then Some 5672
  else if bool_decide (scheme = "amqps") then Some 5671
  else None.

(** [type URI struct]; [AuthMechanism] is nil or the values of the parameter,
    which are at least one. *)
Record URI := MkURI {
  uri_Scheme : string;
  uri_Host : string;
  uri_Port : Z;
  uri_Username : string;
  uri_Password : string;
  uri_Vhost : string;
  uri_CertFile : string;
  uri_CACertFile : string;
  uri_KeyFile : string;
  uri_ServerName : string;
  uri_AuthMechanism : list string;
  uri_Heartbeat : heartbeatDuration;
  uri_ConnectionTimeout : Z;
  uri_ChannelMax : Z
}.

(** The zero value of [heartbeatDuration]. *)
Definition no_heartbeat : heartbeatDuration := MkHeartbeatDuration 0 false.

(** [var defaultURI] *)
Definition defaultURI : URI :=
  MkURI "amqp" "localhost" 5672 "guest" "guest" "/" "" "" "" "" [] no_heartbeat 0 0.

(** ** Assignments to the fields of the builder *)

Definition set_Scheme (v : string) (b : URI) : URI :=
  MkURI v (uri_Host b) (uri_Port b) (uri_Username b) (uri_Password b) (uri_Vhost b) (uri_CertFile b)
    (uri_CACertFile b) (uri_KeyFile b) (uri_ServerName b) (uri_AuthMechanism b) (uri_Heartbeat b)
    (uri_ConnectionTimeout b) (uri_ChannelMax b).

Definition set_Host (v : string) (b : URI) : URI :=
  MkURI (uri_Scheme b) v (uri_Port b) (uri_Username b) (uri_Password b) (uri_Vhost b) (uri_CertFile b)
    (uri_CACertFile b) (uri_KeyFile b) (uri_ServerName b) (uri_AuthMechanism b) (uri_Heartbeat b)
    (uri_ConnectionTimeout b) (uri_ChannelMax b).

Definition set_Port (v : Z) (b : URI) : URI :=
  MkURI (uri_Scheme b) (uri_Host b) v (uri_Username b) (uri_Password b) (uri_Vhost b) (uri_CertFile b)
    (uri_CACertFile b) (uri_KeyFile b) (uri_ServerName b) (uri_AuthMechanism b) (uri_Heartbeat b)
    (uri_ConnectionTimeout b) (uri_ChannelMax b).

Definition set_User (u p : string) (b : URI) : URI :=
  MkURI (uri_Scheme b) (uri_Host b) (uri_Port b) u p (uri_Vhost b) (uri_CertFile b)
    (uri_CACertFile b) (uri_KeyFile b) (uri_ServerName b) (uri_AuthMechanism b) (uri_Heartbeat b)
    (uri_ConnectionTimeout b) (uri_ChannelMax b).

Definition set_Vhost (v : string) (b : URI) : URI :=
  MkURI (uri_Scheme b) (uri_Host b) (uri_Port b) (uri_Username b) (uri_Password b) v (uri_CertFile b)
    (uri_CACertFile b) (uri_KeyFile b) (uri_ServerName b) (uri_AuthMechanism b) (uri_Heartbeat b)
    (uri_ConnectionTimeout b) (uri_ChannelMax b).

Definition set_Tls (cert key ca server : string) (auth : list string) (b : URI) : URI :=
  MkURI (uri_Scheme b) (uri_Host b) (uri_Port b) (uri_Username b) (uri_Password b) (uri_Vhost b)
    cert ca key server auth (uri_Heartbeat b) (uri_ConnectionTimeout b) (uri_ChannelMax b).

Definition set_Heartbeat (v : heartbeatDuration) (b : URI) : URI :=
  MkURI (uri_Scheme b) (uri_Host b) (uri_Port b) (uri_Username b) (uri_Password b) (uri_Vhost b)
    (uri_CertFile b) (uri_CACertFile b) (uri_KeyFile b) (uri_ServerName b) (uri_AuthMechanism b) v
    (uri_ConnectionTimeout b) (uri_ChannelMax b).

Definition set_ConnectionTimeout (v : Z) (b : URI) : URI :=
  MkURI (uri_Scheme b) (uri_Host b) (uri_Port b) (uri_Username b) (uri_Password b) (uri_Vhost b)
    (uri_CertFile b) (uri_CACertFile b) (uri_KeyFile b) (uri_ServerName b) (uri_AuthMechanism b)
    (uri_Heartbeat b) v (uri_ChannelMax b).

Definition set_ChannelMax (v : Z) (b : URI) : URI :=
  MkURI (uri_Scheme b) (uri_Host b) (uri_Port b) (uri_Username b) (uri_Password b) (uri_Vhost b)
    (uri_CertFile b) (uri_CACertFile b) (uri_KeyFile b) (uri_ServerName b) (uri_AuthMechanism b)
    (uri_Heartbeat b) (uri_ConnectionTimeout b) v.

(** ** [ParseURI] *)

(** The virtual host of a path; [None] leaves the default. *)
Definition path_vhost (host path : string) : option string :=
  if bool_decide (path = "") then None
  else if HasPrefix path "/" then
    if bool_decide (host = "") && HasPrefix path "///" then
      if 3 <? slen path then Some (sdrop 3 path) else None
    else if 1 <? slen path then Some (sdrop 1 path)
    else None
  else Some path.

(** The query parameters that name TLS files and mechanisms. *)
Definition query_tls (params : Values) (b : URI) : URI :=
  set_Tls (Values_Get params "certfile") (Values_Get params "keyfile") (Values_Get params "cacertfile")
    (Values_Get params "server_name_indication") (default [] (params !! "auth_mechanism")) b.

(** The numeric query parameters, in the order in which they are read. *)
Definition query_numbers (params : Values) (builder : URI) : URI * option uri_error :=
  match (if Values_Has params "heartbeat" then
           match Atoi (Values_Get params "heartbeat") with
           | inl err => (builder, Some (Errorf "heartbeat is not an integer" err))
           | inr value => (set_Heartbeat (newHeartbeatDurationFromSeconds value) builder, None)
           end
         else (builder, None)) with
  | (builder, Some err) => (builder, Some err)
  | (builder, None) =>
      match (if Values_Has params "connection_timeout" then
               match Atoi (Values_Get params "connection_timeout") with
               | inl err => (builder, Some (Errorf "connection_timeout is not an integer" err))
               | inr value => (set_ConnectionTimeout value builder, None)
               end
             else (builder, None)) with
      | (builder, Some err) => (builder, Some err)
      | (builder, None) =>
          if Values_Has params "channel_max" then
            match ParseUint (Values_Get params "channel_max") 16 with
            | inl err => (builder, Some (Errorf "channel_max is not an uint16" err))
            | inr value => (set_ChannelMax (uintw 16 value) builder, None)
            end
          else (builder, None)
      end
  end.

(** What is read of the URL once scheme, host and port are accepted. *)
Definition parse_rest (u : URL) (builder : URI) : URI * option uri_error :=
  let builder :=
    match url_User u with
    | Some user => set_User (username user) (default (uri_Password builder) (Userinfo_Password user)) builder
    | None => builder
    end in
  let builder := set_Vhost (default (uri_Vhost builder) (path_vhost (Host u) (Path u))) builder in
  let params := Query u in
  query_numbers params (query_tls params builder).

Definition ParseURI (uri : string) : URI * option uri_error :=
  let builder := defaultURI in
  if Contains uri " " then (builder, Some errURIWhitespace)
  else
    match Parse uri with
    | inl (url, err) => (builder, Some (UrlError url err))
    | inr u =>
        match schemePorts (Scheme u) with
        | None => (builder, Some errURIScheme)
        | Some defaultPort =>
            let builder := set_Scheme (Scheme u) builder in
            let host := Hostname u in
            let port := Port u in
            let builder := if bool_decide (host = "") then builder else set_Host host builder in
            if bool_decide (port = "") then parse_rest u (set_Port defaultPort builder)
            else
              match ParseInt port 32 with
              | inl err => (builder, Some (PortError err))
              | inr port32 => parse_rest u (set_Port port32 builder)
              end
        end
    end.

(** ** Credentials *)

Definition URI_PlainAuth (uri : URI) : Authentication := PlainAuth (uri_Username uri) (uri_Password uri).
Definition URI_AMQPlainAuth (uri : URI) : Authentication :=
  AMQPlainAuth (uri_Username uri) (uri_Password uri).

(** ** [URI.String] *)

Definition uri_userinfo (uri : URI) : option Userinfo :=
  if negb (bool_decide (uri_Username uri = uri_Username defaultURI)) ||
     negb (bool_decide (uri_Password uri = uri_Password defaultURI)) then
    Some (if bool_decide (uri_Password uri = uri_Password defaultURI) then User (uri_Username uri)
          else UserPassword (uri_Username uri) (uri_Password uri))
  else None.

Definition uri_hostport (uri : URI) : string :=
  if bool_decide (schemePorts (uri_Scheme uri) = Some (uri_Port uri)) then
    TrimSuffix (JoinHostPort (uri_Host uri) "") ":"
  else JoinHostPort (uri_Host uri) (Itoa (uri_Port uri)).

(** The raw query: the parameters as they are, each but the last followed by
    an ampersand. *)
Definition uri_rawQuery (uri : URI) : string :=
  (if bool_decide (uri_CertFile uri = "") then "" else "certfile=" +:+ uri_CertFile uri +:+ "&") +:+
  (if bool_decide (uri_KeyFile uri = "") then "" else "keyfile=" +:+ uri_KeyFile uri +:+ "&") +:+
  (if bool_decide (uri_CACertFile uri = "") then "" else "cacertfile=" +:+ uri_CACertFile uri +:+ "&") +:+
  (if bool_decide (uri_ServerName uri = "") then ""
   else "server_name_indication=" +:+ uri_ServerName uri).

(** The URL [String] fills in; [Parse] of the empty string is the empty URL. *)
Definition uri_authority (uri : URI) : URL :=
  let '(path, raw) :=
    if bool_decide (uri_Vhost uri = uri_Vhost defaultURI) then ("/", "")
    else (uri_Vhost uri, QueryEscape (uri_Vhost uri)) in
  MkURL (uri_Scheme uri) "" (uri_userinfo uri) (uri_hostport uri) path raw false false
    (uri_rawQuery uri) "" "".

Lemma Parse_empty : Parse "" = inr empty_url.
Proof. done. Qed.

Definition URI_String (uri : URI) : string := URL_String (uri_authority uri).
