(* ===== verification/Dial.v ===== *)
(** * Dial: from a URI to a connection (connection.go)

    [DialConfig], [Dial], [DialTLS], [DialTLS_ExternalAuth], [DefaultDial] and
    [tlsConfigFromURI], up to [Open], whose handshake is in Connection.  What
    the network, the TLS library and the file system answer is a [Net]; what
    the code does to them is a log of [net_event]s.  A [*tls.Config] is a
    pointer into a heap, since [DialConfig] writes through the one the caller
    passes. *)

From S2P Require Import Prelude Types GoStrings Url Io Wire Auth State Channel ChannelApi Connection Uri UriFacts.

(** Durations in nanoseconds. *)
Definition Millisecond : Z := 1000000.
Definition defaultHeartbeat : Z := 10 * Second.
Definition defaultConnectionTimeout : Z := 30 * Second.
Definition defaultLocale : string := "en_US".

Section Dial.
(** Connections, certificate pools and certificates of the libraries. *)
Context {NetConn CertPool Certificate : Type}.

(** The fields of [tls.Config] the code sets or reads. *)
Record tls_Config := MkTls {
  tls_Certificates : list Certificate;
  tls_RootCAs : option CertPool;
  tls_ServerName : string
}.

(** What the libraries answer: an error or a value. *)
Record Net := MkNet {
  net_DialTimeout : string -> string -> Z -> goerror + NetConn;
  conn_SetDeadline : NetConn -> Z -> option goerror;
  os_ReadFile : string -> goerror + list byte;
  x509_SystemCertPool : goerror + CertPool;
  x509_NewCertPool : CertPool;
  pool_AppendCertsFromPEM : CertPool -> list byte -> CertPool;
  tls_LoadX509KeyPair : string -> string -> goerror + Certificate;
  tls_Client : NetConn -> tls_Config -> NetConn;
  tls_Handshake : NetConn -> tls_Config -> option goerror
}.

(** What is done to the network; a deadline is relative to the time it is set. *)
Inductive net_event :=
  | EvDial (network addr : string)
  | EvDialed (conn : NetConn)
  | EvSetDeadline (conn : NetConn) (timeout : Z)
  | EvHandshake (conn : NetConn) (config : tls_Config)
  | EvClose (conn : NetConn).

(** [*tls.Config] values by address, and what was done. *)
Record Machine := MkMachine { tls_heap : gmap nat tls_Config; net_log : list net_event }.

Definition say (ev : net_event) (h : Machine) : Machine := MkMachine (tls_heap h) (net_log h ++ [ev]).

(** [Config.Dial]: a function of the application, or [DefaultDial]. *)
Abbreviation dialer := (string -> string -> Machine -> Machine * (goerror + NetConn)).

(** [type Config struct] as it is passed to [DialConfig]; [None] is nil. *)
Record DialSettings := MkSettings {
  set_SASL : option (list Authentication);
  set_ConfigVhost : string;
  set_ConfigChannelMax : Z;
  set_FrameSize : Z;
  set_ConfigHeartbeat : Z;
  set_TLSClientConfig : option nat;
  set_Properties : Table;
  set_Locale : string;
  set_Dial : option dialer
}.

Inductive dial_error :=
  | DialUri (e : uri_error)
  | UnsupportedMechanism (identifier : string)
  | DialNet (e : goerror)
  | DialTlsConfig (what : string) (e : goerror)   (** from [tlsConfigFromURI] *)
  | DialHandshake (e : goerror).

Context (net : Net).

(** ** Dialing *)

Definition DefaultDial (connectionTimeout : Z) : dialer := fun network addr h =>
  let h := say (EvDial network addr) h in
  match net_DialTimeout net network addr connectionTimeout with
  | inl err => (h, inl err)
  | inr conn =>
      let h := say (EvSetDeadline conn connectionTimeout) (say (EvDialed conn) h) in
      match conn_SetDeadline net conn connectionTimeout with
      | Some err => (h, inl err)
      | None => (h, inr conn)
      end
  end.

(** The pool of [tlsConfigFromURI]. *)
Definition uri_certPool (uri : URI) : dial_error + CertPool :=
  if negb (bool_decide (uri_CACertFile uri = "")) then
    match os_ReadFile net (uri_CACertFile uri) with
    | inl err => inl (DialTlsConfig "read CA certificate" err)
    | inr data => inr (pool_AppendCertsFromPEM net (x509_NewCertPool net) data)
    end
  else
    match x509_SystemCertPool net with
    | inl err => inl (DialTlsConfig "load system certificates" err)
    | inr sysPool => inr sysPool
    end.

Definition tlsConfigFromURI (uri : URI) : dial_error + tls_Config :=
  let? certPool := uri_certPool uri in
  if bool_decide (uri_CertFile uri = "") || bool_decide (uri_KeyFile uri = "") then
    inr (MkTls [] (Some certPool) (uri_ServerName uri))
  else
    match tls_LoadX509KeyPair net (uri_CertFile uri) (uri_KeyFile uri) with
    | inl err => inl (DialTlsConfig "load client certificate" err)
    | inr certificate => inr (MkTls [certificate] (Some certPool) (uri_ServerName uri))
    end.

(** ** The settings of a URI *)

(** The loop over [uri.AuthMechanism], appending to [config.SASL]. *)
Fixpoint auth_mechanisms (uri : URI) (identifiers : list string) (SASL : list Authentication)
  : dial_error + list Authentication :=
  match identifiers with
  | [] => inr SASL
  | identifier :: r =>
      let upper := ToUpper identifier in
      if bool_decide (upper = "PLAIN") then auth_mechanisms uri r (SASL ++ [URI_PlainAuth uri])
      else if bool_decide (upper = "AMQPLAIN") then auth_mechanisms uri r (SASL ++ [URI_AMQPlainAuth uri])
      else if bool_decide (upper = "EXTERNAL") then auth_mechanisms uri r (SASL ++ [ExternalAuth])
      else inl (UnsupportedMechanism identifier)
  end.

Definition dial_SASL (uri : URI) (config : DialSettings) : dial_error + list Authentication :=
  match set_SASL config with
  | Some SASL => inr SASL
  | None =>
      match uri_AuthMechanism uri with
      | [] => inr [URI_PlainAuth uri]
      | identifiers => auth_mechanisms uri identifiers []
      end
  end.

Definition dial_Heartbeat (uri : URI) (config : DialSettings) : Z :=
  if hb_hasValue (uri_Heartbeat uri) then hb_value (uri_Heartbeat uri)
  else if set_ConfigHeartbeat config =? 0 then defaultHeartbeat
  else set_ConfigHeartbeat config.

Definition dial_Config (uri : URI) (SASL : list Authentication) (config : DialSettings) : Config :=
  MkConfig SASL
    (if bool_decide (set_ConfigVhost config = "") then uri_Vhost uri else set_ConfigVhost config)
    (if set_ConfigChannelMax config =? 0 then uri_ChannelMax uri else set_ConfigChannelMax config)
    (set_FrameSize config) (dial_Heartbeat uri config) (set_Properties config) (set_Locale config).

Definition dial_timeout (uri : URI) : Z :=
  if uri_ConnectionTimeout uri =? 0 then defaultConnectionTimeout
  else sintw 64 (uri_ConnectionTimeout uri * Millisecond).

Definition dial_addr (uri : URI) : string := JoinHostPort (uri_Host uri) (Itoa (uri_Port uri)).

(** ** TLS *)

(** The pointer to the TLS configuration; [tlsConfigFromURI] allocates. *)
Definition tls_pointer (uri : URI) (config : DialSettings) (h : Machine) : Machine * (dial_error + nat) :=
  match set_TLSClientConfig config with
  | Some p => (h, inr p)
  | None =>
      match tlsConfigFromURI uri with
      | inl err => (h, inl err)
      | inr tlsConfig =>
          let p := fresh (dom (tls_heap h)) in
          (MkMachine (<[p := tlsConfig]> (tls_heap h)) (net_log h), inr p)
      end
  end.

(** [if config.TLSClientConfig.ServerName == "" { ... = uri.Host }] *)
Definition default_ServerName (host : string) (c : tls_Config) : tls_Config :=
  if bool_decide (tls_ServerName c = "") then MkTls (tls_Certificates c) (tls_RootCAs c) host else c.

(** The TLS part of [DialConfig]; a pointer that points nowhere is a panic of
    Go's, which no [*tls.Config] of the language is ([None]). *)
Definition dial_tls (uri : URI) (config : DialSettings) (conn : NetConn) (h : Machine)
  : Machine * option (dial_error + NetConn) :=
  match tls_pointer uri config h with
  | (h, inl err) => (h, Some (inl err))
  | (h, inr p) =>
      match tls_heap h !! p with
      | None => (h, None)
      | Some c =>
          let c := default_ServerName (uri_Host uri) c in
          let h := say (EvHandshake conn c) (MkMachine (<[p := c]> (tls_heap h)) (net_log h)) in
          match tls_Handshake net conn c with
          | Some err => (say (EvClose conn) h, Some (inl (DialHandshake err)))
          | None => (h, Some (inr (tls_Client net conn c)))
          end
      end
  end.

(** ** [DialConfig] up to [Open]: the transport and the configuration *)

Definition dial_transport (url : string) (config : DialSettings) (h : Machine)
  : Machine * option (dial_error + (NetConn * Config)) :=
  match ParseURI url with
  | (_, Some err) => (h, Some (inl (DialUri err)))
  | (uri, None) =>
      match dial_SASL uri config with
      | inl err => (h, Some (inl err))
      | inr SASL =>
          let cfg := dial_Config uri SASL config in
          let dial := match set_Dial config with
                      | Some d => d
                      | None => DefaultDial (dial_timeout uri)
                      end in
          match dial "tcp" (dial_addr uri) h with
          | (h, inl err) => (h, Some (inl (DialNet err)))
          | (h, inr conn) =>
              if bool_decide (uri_Scheme uri = "amqps") then
                match dial_tls uri config conn h with
                | (h, Some (inr client)) => (h, Some (inr (client, cfg)))
                | (h, Some (inl err)) => (h, Some (inl err))
                | (h, None) => (h, None)
                end
              else (h, Some (inr (conn, cfg)))
          end
      end
  end.

(** [Open]: a new connection and its handshake, with the replies it waits
    for. *)
Definition Open (config : Config) (login_first : bool) (hb : nat) (rstart rtune ropen : reply)
  : outcome (option goerror * Connection) :=
  Connection_open config login_first hb rstart rtune ropen initial_connection.

Definition DialConfig (url : string) (config : DialSettings) (login_first : bool) (hb : nat)
  (rstart rtune ropen : reply) (h : Machine)
  : Machine * option (dial_error + outcome (option goerror * Connection)) :=
  match dial_transport url config h with
  | (h, Some (inr (_, cfg))) =>
      (h, Some (inr (Open cfg login_first hb rstart rtune ropen)))
  | (h, Some (inl err)) => (h, Some (inl err))
  | (h, None) => (h, None)
  end.

(** The settings of the shorter forms. *)
Definition Dial_settings : DialSettings := MkSettings None "" 0 0 0 None [] defaultLocale None.
Definition DialTLS_settings (amqps : option nat) : DialSettings :=
  MkSettings None "" 0 0 0 amqps [] defaultLocale None.
Definition DialTLS_ExternalAuth_settings (amqps : option nat) : DialSettings :=
  MkSettings (Some [ExternalAuth]) "" 0 0 0 amqps [] "" None.

Definition Dial (url : string) := DialConfig url Dial_settings.
Definition DialTLS (url : string) (amqps : option nat) := DialConfig url (DialTLS_settings amqps).
Definition DialTLS_ExternalAuth (url : string) (amqps : option nat) :=
  DialConfig url (DialTLS_ExternalAuth_settings amqps).

(** ** Addresses of the transport *)

(** A transport that may implement the optional methods [LocalAddr],
    [RemoteAddr] (printed) and [ConnectionState] (the negotiated version). *)
Record Transport := MkTransport {
  tr_LocalAddr : option string;
  tr_RemoteAddr : option string;
  tr_ConnectionState : option Z
}.

(** [(&net.TCPAddr{}).String()] *)
Definition zero_TCPAddr : string := ":0".

Definition LocalAddr (conn : Transport) : string := default zero_TCPAddr (tr_LocalAddr conn).
Definition RemoteAddr (conn : Transport) : string := default zero_TCPAddr (tr_RemoteAddr conn).
(** What [SetDeadline] of the transport returns; [None] for a transport that
    is no [net.Conn]. *)
Definition setDeadline (SetDeadline : option (option goerror)) : option goerror :=
  match SetDeadline with
  | Some err => err
  | None => Some (AmqpError errInvalidTypeAssertion)
  end.

Definition ConnectionState (conn : Transport) : Z := default 0 (tr_ConnectionState conn).

End Dial.
