(* ===== verification/DialFacts.v ===== *)
(** * DialFacts: what dialing a URI does

    From the string of a URI to the transport, the TLS handshake and the
    negotiated connection. *)

From S2P Require Import Prelude Types GoStrings Url UrlFacts Io SpecConnection Spec091 Wire Auth Frame.
From S2P Require Import State Channel ChannelFacts ChannelApi Connection ConnectionFacts Registry Shutdown Safety Executions Uri UriFacts Dial.

(** ** What the handshake settles *)

Definition same_tuning (c c' : Connection) : Prop :=
  cn_ChannelMax c' = cn_ChannelMax c /\ cn_FrameSize c' = cn_FrameSize c /\ cn_Heartbeat c' = cn_Heartbeat c.

Definition keeps_tuning {A} (m : M A) : Prop := forall c x c', m c = Ok (x, c') -> same_tuning c c'.

#[export] Instance same_tuning_preorder : PreOrder same_tuning.
Proof.
  split; [by intros c|]. intros c1 c2 c3 (A1 & A2 & A3) (B1 & B2 & B3). split_and!; congruence.
Qed.

Lemma tuning_bind {A B} (m : M A) (k : A -> M B) :
  keeps_tuning m -> (forall a, keeps_tuning (k a)) -> keeps_tuning (mbind m k).
Proof.
  intros Hm Hk c b c' (a & c1 & E1 & E2)%mbind_inv.
  transitivity c1; [by eapply Hm|by eapply Hk].
Qed.

Lemma tuning_mret {A} (x : A) : keeps_tuning (mret x).
Proof. by intros c y c' [= _ <-]. Qed.

Lemma tuning_modify f : (forall c, same_tuning c (f c)) -> keeps_tuning (modify f).
Proof. intros Hf c x c' [= _ <-]. apply Hf. Qed.

Lemma tuning_writes {A} (m : M A) : writes m -> keeps_tuning m.
Proof. intros Hm c x c' E. by destruct (Hm c x c' E) as (b & w & t & g & ->). Qed.

Lemma tuning_send f : keeps_tuning (Connection_send f).
Proof. apply tuning_writes. writing. Qed.

Lemma tuning_call req res r : keeps_tuning (Connection_call req res r).
Proof.
  apply tuning_bind; [destruct req; [apply tuning_send|apply tuning_mret]|].
  intros [e|]; [apply tuning_mret|]. destruct r as [[e|]|[m|]]; try apply tuning_mret.
  - apply tuning_bind; [by apply tuning_modify|intros; apply tuning_mret].
  - destruct (existsb _ _); apply tuning_mret.
Qed.

Lemma tuning_openVhost config r : keeps_tuning (openVhost config r).
Proof.
  apply tuning_bind; [apply tuning_call|]. intros [[e|] m]; [apply tuning_mret|].
  apply tuning_bind; [by apply tuning_modify|intros; apply tuning_mret].
Qed.

Lemma tuning_NotifyClose l : keeps_tuning (Connection_NotifyClose l).
Proof.
  intros c x c' (a & c1 & E1 & E)%mbind_inv. injection E1 as <- <-.
  destruct (cn_noNotify c); [|injection E as <- <-; done].
  revert E. apply tuning_bind; [by intros ? ? ? [= _ <-]|]. intros closed. case_bool_decide; [done|].
  apply tuning_bind; [by apply tuning_modify|intros _; by apply tuning_modify].
Qed.

(** A call that succeeds has received the reply it was given. *)
Lemma Connection_call_received req res m c x c' :
  Connection_call req [res] (FromRpc (Some m)) c = Ok ((None, x), c') -> x = Some m.
Proof.
  intros E. destruct (Connection_call_ok _ _ _ _ _ _ E) as (m' & -> & _).
  apply Connection_call_reply in E. congruence.
Qed.

Definition tuned (config : Config) (tune : connectionTune) (c : Connection) : Prop :=
  cn_ChannelMax c = tune_ChannelMax (cfg_ChannelMax config) (connectionTune_ChannelMax tune) /\
  cn_FrameSize c = pick (cfg_FrameSize config) (connectionTune_FrameMax tune) /\
  cn_Heartbeat c = tune_Heartbeat (cfg_Heartbeat config) (connectionTune_Heartbeat tune).

Lemma openTune_tuned config auth lf hb tune r3 c c' :
  openTune config auth lf hb (FromRpc (Some (M_connectionTune tune))) r3 c = Ok (None, c') ->
  tuned config tune c'.
Proof.
  intros E. unfold openTune in E. apply mbind_inv in E as ([[e|] y] & c1 & E1 & E).
  { destruct y; unfold mret in E; by simplify_eq. }
  apply Connection_call_received in E1 as ->. cbv zeta in E.
  rewrite (mbind_ok _ _ _ _ _ eq_refl), (mbind_ok _ _ _ _ _ eq_refl) in E.
  apply mbind_inv in E as (u & c2 & E2 & E). apply tuning_NotifyClose in E2.
  apply mbind_inv in E as (err & c3 & E3 & E). apply tuning_send in E3.
  destruct err as [e|]; [unfold mret in E; by simplify_eq|]. apply tuning_openVhost in E.
  destruct (transitivity (transitivity E2 E3) E) as (B1 & B2 & B3).
  unfold tuned. rewrite B1, B2, B3. done.
Qed.

(** A connection that is open has the tuning of its configuration and of the
    server's proposal. *)
Lemma open_tuned config lf hb r1 tune r3 c :
  Connection_open config lf hb r1 (FromRpc (Some (M_connectionTune tune))) r3 initial_connection =
    Ok (None, c) ->
  tuned config tune c.
Proof.
  intros E. unfold Connection_open in E. apply mbind_inv in E as (err & c1 & _ & E).
  destruct err; [unfold mret in E; by simplify_eq|].
  unfold openStart in E. apply mbind_inv in E as (y & c2 & E2 & E).
  destruct y as [[e|] y]; [destruct y; unfold mret in E; by simplify_eq|].
  apply Connection_call_ok in E2 as (m & -> & Hid). destruct m; try done.
  cbv zeta in E. rewrite (mbind_ok _ _ _ _ _ eq_refl) in E.
  destruct (pickSASLMechanism _ _) as [auth|]; [|unfold mret in E; by simplify_eq].
  rewrite (mbind_ok _ _ _ _ _ eq_refl) in E. by apply openTune_tuned in E.
Qed.

(** ** Dialing *)

Section DialFacts.
Context {NetConn CertPool Certificate : Type}.
Abbreviation Net := (@Net NetConn CertPool Certificate).
Abbreviation Machine := (@Machine NetConn CertPool Certificate).
Abbreviation Settings := (@DialSettings NetConn CertPool Certificate).
Implicit Types (net : Net) (h : Machine) (config : Settings).

(** A URI without the query parameters that are settings. *)
Definition no_settings (u : URI) : Prop :=
  uri_AuthMechanism u = [] /\ uri_Heartbeat u = no_heartbeat /\
  uri_ConnectionTimeout u = 0 /\ uri_ChannelMax u = 0.

(** The settings [Dial] hands to [Open] for it. *)
Definition plain_settings (u : URI) : Config :=
  MkConfig [PlainAuth (uri_Username u) (uri_Password u)] (uri_Vhost u) 0 0 (10 * Second) [] "en_US".

Lemma dial_Config_plain u : no_settings u ->
  dial_SASL u (Dial_settings (NetConn:=NetConn) (CertPool:=CertPool) (Certificate:=Certificate)) =
    inr [URI_PlainAuth u] /\
  dial_Config u [URI_PlainAuth u]
    (Dial_settings (NetConn:=NetConn) (CertPool:=CertPool) (Certificate:=Certificate)) = plain_settings u /\
  dial_timeout u = 30 * Second.
Proof.
  intros (H3 & H4 & H5 & H6). unfold dial_SASL, dial_Config, dial_Heartbeat, dial_timeout.
  cbn. rewrite H3, H4, H5, H6. done.
Qed.

(** The events of a dial that succeeds. *)
Definition dial_events (u : URI) (conn : NetConn) : list (@net_event NetConn CertPool Certificate) :=
  [EvDial "tcp" (JoinHostPort (uri_Host u) (Itoa (uri_Port u))); EvDialed conn;
   EvSetDeadline conn (30 * Second)].

(** The name that the server's certificate is checked for. *)
Definition server_name (u : URI) : string := if bool_decide (uri_ServerName u = "") then uri_Host u else uri_ServerName u.

(** [Dial] of a URL that says [u], when the network answers. *)
Definition dials net (url : string) h (conn : NetConn) (u : URI) : Prop :=
  ParseURI url = (u, None) /\ no_settings u /\
  net_DialTimeout net "tcp" (JoinHostPort (uri_Host u) (Itoa (uri_Port u))) (30 * Second) = inr conn /\
  conn_SetDeadline net conn (30 * Second) = None.

Lemma dial_follows net url u h conn :
  ParseURI url = (u, None) -> no_settings u ->
  net_DialTimeout net "tcp" (JoinHostPort (uri_Host u) (Itoa (uri_Port u))) (30 * Second) = inr conn ->
  conn_SetDeadline net conn (30 * Second) = None ->
  (uri_Scheme u = "amqp" ->
   dial_transport net url Dial_settings h =
     (MkMachine (tls_heap h) (net_log h ++ dial_events u conn), Some (inr (conn, plain_settings u)))) /\
  (forall c, uri_Scheme u = "amqps" -> tlsConfigFromURI net u = inr c ->
   let c := MkTls (tls_Certificates c) (tls_RootCAs c) (server_name u) in
   tls_Handshake net conn c = None ->
   exists p, tls_heap h !! p = None /\
   dial_transport net url Dial_settings h =
     (MkMachine (<[p := c]> (tls_heap h)) (net_log h ++ dial_events u conn ++ [EvHandshake conn c]),
      Some (inr (tls_Client net conn c, plain_settings u)))).
Proof.
  intros Hr Hq Hd Hs. destruct (dial_Config_plain u Hq) as (E1 & E2 & E3). cbv zeta.
  set (name := server_name u).
  unfold dial_transport. rewrite Hr, E1, E2. cbn [set_Dial Dial_settings].
  unfold DefaultDial, dial_addr, say. rewrite E3, Hd, Hs. cbn [tls_heap net_log].
  rewrite <- !(assoc_L app). split.
  - intros ->. done.
  - intros c -> Hc. set (c' := MkTls _ _ name). intros Hh. rewrite bool_decide_eq_true_2 by done.
    unfold dial_tls, tls_pointer. cbn [set_TLSClientConfig Dial_settings tls_heap net_log]. rewrite Hc.
    cbn [tls_heap net_log]. set (p := base.fresh (dom (tls_heap h))). exists p.
    split; [by apply not_elem_of_dom, is_fresh|]. rewrite lookup_insert_eq.
    assert (tls_ServerName c = uri_ServerName u) as Hn.
    { revert Hc. unfold tlsConfigFromURI. destruct (uri_certPool net u); [done|]. cbn [ebind].
      destruct (_ || _); [by intros [= <-]|]. destruct (tls_LoadX509KeyPair _ _ _); [done|]. by intros [= <-]. }
    assert (default_ServerName (uri_Host u) c = c') as ->.
    { unfold default_ServerName, c', name, server_name. rewrite Hn. case_bool_decide; [done|].
      destruct c as [c1 c2 c3]; cbn in *. by rewrite Hn. }
    rewrite Hh, insert_insert_eq. unfold say. cbn [tls_heap net_log]. by rewrite <- !(assoc_L app).
Qed.

(** C21: [Dial] of a URL that parses and has none of the parameters for
    authentication, heartbeat, timeout and channels goes to the host and port of
    the URI over TCP, with a deadline of 30 seconds, and opens the connection
    with the credentials of the URI by PLAIN, its virtual host and a heartbeat
    of 10 seconds.  For amqps there is a TLS handshake first; when the URL
    names no files for TLS its configuration has no certificates, the system's
    authorities, and the name of the server that the URI gives or else its
    host. *)
Theorem dial_follows_uri net url u h conn :
  dials net url h conn u ->
  (uri_Scheme u = "amqp" ->
   dial_transport net url Dial_settings h =
     (MkMachine (tls_heap h) (net_log h ++ dial_events u conn), Some (inr (conn, plain_settings u)))) /\
  (forall pool, uri_Scheme u = "amqps" -> uri_CertFile u = "" -> uri_KeyFile u = "" -> uri_CACertFile u = "" ->
   x509_SystemCertPool net = inr pool ->
   let c := MkTls [] (Some pool) (server_name u) in
   tls_Handshake net conn c = None ->
   exists p, tls_heap h !! p = None /\
   dial_transport net url Dial_settings h =
     (MkMachine (<[p := c]> (tls_heap h)) (net_log h ++ dial_events u conn ++ [EvHandshake conn c]),
      Some (inr (tls_Client net conn c, plain_settings u)))).
Proof.
  intros (Hr & Hq & Hd & Hs). destruct (dial_follows net url u h conn Hr Hq Hd Hs) as [H1 H2]. split; [done|].
  intros pool Hsch Hc _ Hca Hp. apply (H2 (MkTls [] (Some pool) (uri_ServerName u)) Hsch). unfold tlsConfigFromURI, uri_certPool.
  by rewrite Hc, Hca, Hp.
Qed.

(** The files that a URL names are used by [Dial] as well, whose
    documentation says that it uses the zero value of [tls.Config]. *)
Theorem dial_uses_files net url u h conn cert pool :
  dials net url h conn u -> uri_Scheme u = "amqps" -> tlsConfigFromURI net u = inr (MkTls [cert] (Some pool) (uri_ServerName u)) ->
  let c := MkTls [cert] (Some pool) (server_name u) in
  tls_Handshake net conn c = None ->
  exists h', dial_transport net url Dial_settings h = (h', Some (inr (tls_Client net conn c, plain_settings u))).
Proof.
  intros (Hr & Hq & Hd & Hs) Hsch Hc. destruct (dial_follows net url u h conn Hr Hq Hd Hs) as [_ H2]. cbv zeta. intros Hh.
  destruct (H2 _ Hsch Hc Hh) as (p & _ & E). by eexists.
Qed.

(** A connection that was dialed and never closed. *)
Definition left_open h : Prop :=
  exists conn, EvDialed conn ∈ net_log h /\ (EvClose conn ∉ net_log h).

(** What is in the log after the TLS part fails. *)
Lemma dial_tls_fails net u config conn h h' err :
  dial_tls net u config conn h = (h', Some (inl err)) ->
  (exists what e, err = DialTlsConfig what e /\ net_log h' = net_log h) \/
  (exists e c, err = DialHandshake e /\ net_log h' = net_log h ++ [EvHandshake conn c; EvClose conn]).
Proof.
  assert (forall e, tlsConfigFromURI net u = inl e -> exists what e', e = DialTlsConfig what e') as Ht.
  { intros e. unfold tlsConfigFromURI, uri_certPool.
    destruct (negb _); [destruct (os_ReadFile _ _)|destruct (x509_SystemCertPool _)]; cbn [ebind];
      try (intros [= <-]; by eauto); (destruct (_ || _); [done|]);
      (destruct (tls_LoadX509KeyPair _ _ _); [intros [= <-]; by eauto|done]). }
  unfold dial_tls, tls_pointer.
  destruct (set_TLSClientConfig config) as [p|].
  2: { destruct (tlsConfigFromURI net u) as [e|c]; [intros [= <- <-]|].
       { left. destruct (Ht _ eq_refl) as (what & e' & ->). by eauto. }
       cbn [tls_heap net_log]. rewrite lookup_insert_eq.
       destruct (tls_Handshake _ _ _) as [e|]; [|done]. intros [= <- <-]. right.
       unfold say. cbn [net_log]. rewrite <- (assoc_L app). by eauto. }
  destruct (tls_heap h !! p) as [c|]; [|done].
  destruct (tls_Handshake _ _ _) as [e|]; [|done]. intros [= <- <-]. right.
  unfold say. cbn [net_log]. rewrite <- (assoc_L app). by eauto.
Qed.

(** when dialing fails with the default dialer, a connection that was
    established is left open exactly when what failed is the making of the
    TLS configuration or the setting of the deadline; only a TLS handshake
    that fails closes it. *)
Theorem dial_leaves_open_iff net url config h h' err :
  set_Dial config = None -> net_log h = [] ->
  dial_transport net url config h = (h', Some (inl err)) ->
  left_open h' <->
  (exists what e, err = DialTlsConfig what e) \/
  (exists e conn t, err = DialNet e /\ EvSetDeadline conn t ∈ net_log h').
Proof.
  intros Hd Hl. unfold dial_transport. destruct (ParseURI url) as [u [e|]].
  { intros [= <- <-]. unfold left_open. rewrite Hl. set_solver. }
  destruct (dial_SASL u config) as [e|SASL] eqn:Ha.
  { intros [= <- <-]. unfold left_open. rewrite Hl.
    assert (forall what e', e <> DialTlsConfig what e') as Hne.
    { clear -Ha. unfold dial_SASL in Ha. destruct (set_SASL config); [done|].
      destruct (uri_AuthMechanism u) as [|i r]; [done|]. revert Ha. generalize (@nil Authentication).
      generalize (i :: r). intros l. induction l as [|x l IH]; intros SASL; [done|]. cbn [auth_mechanisms].
      repeat (case_bool_decide; [apply IH|]). by intros [= <-]. }
    split; [set_solver|]. intros [(what & e' & ->)|(e' & conn & t & _ & H)]; [by edestruct Hne|set_solver]. }
  rewrite Hd. unfold DefaultDial. destruct (net_DialTimeout _ _ _ _) as [e|conn].
  { intros [= <- <-]. unfold left_open, say. cbn [net_log]. rewrite Hl. set_solver. }
  destruct (conn_SetDeadline _ _ _) as [e|].
  { intros [= <- <-]. unfold left_open, say. cbn [net_log]. rewrite Hl. split.
    - intros _. right. exists e, conn, (dial_timeout u). split; [done|set_solver].
    - intros _. exists conn. set_solver. }
  case_bool_decide; [|done].
  destruct (dial_tls net u config conn _) as [h1 [[e|cl]|]] eqn:Et; [|done|done].
  intros [= <- <-]. apply dial_tls_fails in Et. revert Et.
  unfold say. cbn [net_log]. rewrite Hl. cbn [app].
  intros [(what & e' & -> & E)|(e' & c & -> & E)]; unfold left_open; rewrite E; split.
  - intros _. left. by eauto.
  - intros _. exists conn. set_solver.
  - intros (cn & H1 & H2). exfalso. apply H2. set_solver.
  - intros [(? & ? & ?)|(? & ? & ? & ? & _)]; done.
Qed.

(** ** A TLS configuration that is used twice *)

(** The configuration a pointer holds after it was dialed with. *)
Lemma dial_tls_fixes_name net u config conn h h' r p c :
  set_TLSClientConfig config = Some p -> tls_heap h !! p = Some c ->
  dial_tls net u config conn h = (h', r) ->
  let c' := default_ServerName (uri_Host u) c in
  tls_heap h' !! p = Some c' /\ EvHandshake conn c' ∈ net_log h'.
Proof.
  intros Hp Hc. unfold dial_tls, tls_pointer. rewrite Hp, Hc. cbv zeta.
  destruct (tls_Handshake _ _ _) as [e|]; intros [= <- <-]; unfold say; cbn [tls_heap net_log];
    (split; [by rewrite lookup_insert_eq|set_solver]).
Qed.

Lemma dial_transport_tls net url config h h' conn' cfg u p c :
  ParseURI url = (u, None) -> uri_Scheme u = "amqps" -> set_Dial config = None ->
  set_TLSClientConfig config = Some p -> tls_heap h !! p = Some c ->
  dial_transport net url config h = (h', Some (inr (conn', cfg))) ->
  let c' := default_ServerName (uri_Host u) c in
  tls_heap h' !! p = Some c' /\ exists conn, EvHandshake conn c' ∈ net_log h'.
Proof.
  intros Hu Hs Hd Hp Hc. unfold dial_transport. rewrite Hu.
  destruct (dial_SASL u config); [done|]. rewrite Hd. unfold DefaultDial.
  destruct (net_DialTimeout _ _ _ _) as [e|conn]; [done|].
  destruct (conn_SetDeadline _ _ _); [done|]. rewrite bool_decide_eq_true_2 by done.
  destruct (dial_tls net u config conn _) as [h1 [[e|cl]|]] eqn:Et; [done| |done].
  intros [= <- <- <-]. eapply dial_tls_fixes_name in Et as [H1 H2]; [|exact Hp|exact Hc]. by eauto.
Qed.

(** [DialConfig] writes the host of the first URI into the TLS
    configuration it is given, so a second dial with the same configuration
    asks the server of its own URI for the name of the first one. *)
Theorem tls_config_keeps_first_name net1 net2 url1 url2 config1 config2 h h1 h2 u1 u2 r1 r2 p c :
  ParseURI url1 = (u1, None) -> uri_Scheme u1 = "amqps" ->
  ParseURI url2 = (u2, None) -> uri_Scheme u2 = "amqps" ->
  set_Dial config1 = None -> set_Dial config2 = None ->
  set_TLSClientConfig config1 = Some p -> set_TLSClientConfig config2 = Some p ->
  tls_heap h !! p = Some c -> tls_ServerName c = "" ->
  dial_transport net1 url1 config1 h = (h1, Some (inr r1)) ->
  dial_transport net2 url2 config2 (MkMachine (tls_heap h1) []) = (h2, Some (inr r2)) ->
  exists conn c', EvHandshake conn c' ∈ net_log h2 /\ tls_ServerName c' = uri_Host u1.
Proof.
  intros P1 S1 P2 S2 D1 D2 T1 T2 Hc Hn E1 E2. destruct r1 as [cn1 g1], r2 as [cn2 g2].
  destruct (dial_transport_tls _ _ _ _ _ _ _ _ p c P1 S1 D1 T1 Hc E1) as [H1 _].
  destruct (dial_transport_tls _ _ _ (MkMachine (tls_heap h1) []) _ _ _ _ p _ P2 S2 D2 T2 H1 E2)
    as [_ [conn H2]].
  exists conn. eexists. split; [exact H2|].
  pose proof (typed_host _ (parse_yields_typed url1)) as Hh. rewrite P1 in Hh. cbn [fst] in Hh.
  unfold default_ServerName. rewrite Hn, (bool_decide_eq_true_2 ("" = "")) by done. cbn [tls_ServerName].
  by rewrite bool_decide_eq_false_2.
Qed.

(** ** Heartbeats *)

(** the heartbeat of a URI is what the client proposes, and the smaller of
    both proposals is agreed unless one is zero; a URI that sets it to zero
    does not disable heartbeats: the interval the server proposes is used. *)
Theorem uri_heartbeat_agreed net url config lf hb r1 tune r3 h h' u n c :
  ParseURI url = (u, None) -> uri_Heartbeat u = newHeartbeatDurationFromSeconds n ->
  - 2 ^ 32 <= n < 2 ^ 32 -> is_uint 16 (connectionTune_Heartbeat tune) ->
  DialConfig net url config lf hb r1 (FromRpc (Some (M_connectionTune tune))) r3 h =
    (h', Some (inr (Ok (None, c)))) ->
  cn_Heartbeat c = pick n (connectionTune_Heartbeat tune) * Second /\
  (n = 0 -> cn_Heartbeat c = connectionTune_Heartbeat tune * Second).
Proof.
  intros Hu Hn Hr Ht. unfold DialConfig.
  destruct (dial_transport net url config h) as [h1 [[e|[conn cfg]]|]] eqn:E; [done| |done].
  intros [= <- Hopen]. apply open_tuned in Hopen as (_ & _ & Hhb).
  assert (cfg_Heartbeat cfg = n * Second) as Hc.
  { revert E. unfold dial_transport. rewrite Hu. destruct (dial_SASL u config); [done|].
    destruct (match set_Dial config with Some _ => _ | None => _ end _ _ h) as [h2 [e|cn]]; [done|].
    assert (cfg_Heartbeat (dial_Config u l config) = n * Second) as Hd.
    { cbn. unfold dial_Heartbeat. rewrite Hn. cbn. apply sintw_small; [done|].
      unfold is_sint, Second. change (2 ^ (64 - 1)) with 9223372036854775808. lia. }
    case_bool_decide; [|by intros [= _ _ <-]].
    destruct (dial_tls net u config cn h2) as [h3 [[e|cl]|]]; [done| |done]. by intros [= _ _ <-]. }
  assert (cn_Heartbeat c = pick n (connectionTune_Heartbeat tune) * Second) as H.
  { rewrite Hhb, Hc. unfold tune_Heartbeat. rewrite Z.quot_mul by done. rewrite Z.mul_comm.
    apply sintw_small; [done|]. unfold is_sint, Second, is_uint in *.
    change (2 ^ (64 - 1)) with 9223372036854775808. change (2 ^ 16) with 65536 in Ht.
    unfold pick, max, min. repeat case_match; lia. }
  split; [exact H|]. intros ->. rewrite H. unfold pick, max. cbn [Z.eqb orb].
  unfold is_uint in Ht. destruct (Z.ltb_spec (connectionTune_Heartbeat tune) 0); [lia|done].
Qed.
End DialFacts.

(** ** Instances *)

Section Instances.
(** A network that answers every dial; no file can be read. *)
Definition test_net : @Net nat unit nat :=
  MkNet (fun _ _ _ => inr 7%nat) (fun _ _ => None) (fun _ => inl (TransportError "no such file"))
    (inr tt) tt (fun p _ => p) (fun _ _ => inr 1%nat) (fun c _ => c) (fun _ _ => None).

Definition no_tls : @Machine nat unit nat := MkMachine ∅ [].

(** A URL without files. *)
Definition secure_url : string := "amqps://guest:secret@[fe80::1%25eth0]:5671/a%2fb?server_name_indication=mq.example.com".
Definition secure_uri : URI := fst (ParseURI secure_url).

Lemma dial_follows_uri_witness :
  exists p, tls_heap no_tls !! p = None /\
  dial_transport test_net secure_url Dial_settings no_tls =
    (MkMachine {[p := MkTls [] (Some tt) "mq.example.com"]}
       (dial_events secure_uri 7%nat ++ [EvHandshake 7%nat (MkTls [] (Some tt) "mq.example.com")]),
     Some (inr (7%nat, plain_settings secure_uri))).
Proof.
  destruct (dial_follows_uri test_net secure_url secure_uri no_tls 7%nat) as [_ H];
    [split_and!; [vm_compute; reflexivity|split_and!; by vm_compute|reflexivity|reflexivity]|].
  exact (H tt eq_refl eq_refl eq_refl eq_refl eq_refl eq_refl).
Defined.

Lemma dial_uses_files_witness :
  exists h', dial_transport test_net (URI_String odd_uri) Dial_settings no_tls = (h', Some (inr (7%nat, plain_settings odd_uri))).
Proof.
  apply (dial_uses_files test_net (URI_String odd_uri) odd_uri no_tls 7%nat 1%nat tt);
    [split_and!; [vm_compute; reflexivity|split_and!; by vm_compute|reflexivity|reflexivity]|reflexivity|reflexivity|reflexivity].
Defined.

(** A certificate authority's file that is missing. *)
Definition missing_ca : string := "amqps://broker/?cacertfile=/missing.pem".

Lemma dial_leaves_open_iff_witness :
  exists h err, dial_transport test_net missing_ca Dial_settings no_tls = (h, Some (inl err)) /\ left_open h.
Proof.
  eexists _, _. split; [vm_compute; reflexivity|].
  eapply (dial_leaves_open_iff test_net missing_ca Dial_settings no_tls);
    [reflexivity|reflexivity|vm_compute; reflexivity|left; by eauto].
Defined.

Definition shared_tls : @Machine nat unit nat := MkMachine {[0%nat := MkTls [] None ""]} [].
Definition after_first : @Machine nat unit nat :=
  fst (dial_transport test_net "amqps://a.example" (DialTLS_settings (Some 0%nat)) shared_tls).

Lemma tls_config_keeps_first_name_witness :
  exists conn c',
    EvHandshake conn c' ∈ net_log (fst (dial_transport test_net "amqps://b.example"
      (DialTLS_settings (Some 0%nat)) (MkMachine (tls_heap after_first) []))) /\
    tls_ServerName c' = "a.example".
Proof.
  refine (tls_config_keeps_first_name test_net test_net "amqps://a.example" "amqps://b.example"
    (DialTLS_settings (Some 0%nat)) (DialTLS_settings (Some 0%nat)) shared_tls after_first _
    (set_Port 5671 (set_Host "a.example" (set_Scheme "amqps" defaultURI)))
    (set_Port 5671 (set_Host "b.example" (set_Scheme "amqps" defaultURI)))
    (7%nat, plain_settings defaultURI) (7%nat, plain_settings defaultURI) 0%nat (MkTls [] None "")
    _ _ _ _ _ _ _ _ _ _ _ _); by vm_compute.
Defined.

(** Dialing with heartbeat=0 a server that proposes a minute. *)
Definition dial_zero : option Connection :=
  match DialConfig test_net "amqp://broker/?heartbeat=0" Dial_settings true 0
          (FromRpc (Some (M_connectionStart (Mk_connectionStart 0 9 [] "PLAIN AMQPLAIN" "en_US"))))
          (FromRpc (Some (M_connectionTune (Mk_connectionTune 2047 131072 60))))
          (FromRpc (Some (M_connectionOpenOk (Mk_connectionOpenOk "")))) no_tls with
  | (_, Some (inr (Ok (None, c)))) => Some c
  | _ => None
  end.

Lemma uri_heartbeat_agreed_witness : exists c, dial_zero = Some c /\ cn_Heartbeat c = 60 * Second.
Proof.
  eexists. split; [vm_compute; reflexivity|].
  eapply (uri_heartbeat_agreed test_net "amqp://broker/?heartbeat=0" Dial_settings true 0
    (FromRpc (Some (M_connectionStart (Mk_connectionStart 0 9 [] "PLAIN AMQPLAIN" "en_US"))))
    (Mk_connectionTune 2047 131072 60)
    (FromRpc (Some (M_connectionOpenOk (Mk_connectionOpenOk "")))) no_tls _ _ 0);
    [vm_compute; reflexivity|vm_compute; reflexivity|lia|by vm_compute|vm_compute; reflexivity|reflexivity].
Defined.
End Instances.

(** ** From a URI to a connection in use *)

(** C22: a dial that succeeds, with whatever URI and settings, gives a
    connection from which every later call within the limits returns: its
    number of channels is a 16-bit number whatever the URI says, and the only
    thing asked of the server is a frame size that can carry content. *)
Theorem dial_establishes {NetConn CertPool Certificate : Type} (net : @Net NetConn CertPool Certificate)
    url config lf hb r1 tune r3 h h' c :
  is_uint 16 (set_ConfigChannelMax config) -> is_uint 16 (connectionTune_ChannelMax tune) ->
  DialConfig net url config lf hb r1 (FromRpc (Some (M_connectionTune tune))) r3 h =
    (h', Some (inr (Ok (None, c)))) ->
  (cn_FrameSize c <= 0 \/ frameHeaderSize < cn_FrameSize c) ->
  usable c /\ forall k, call_fits c k -> exists c', perform k c = Ok (tt, c').
Proof.
  intros Hc Ht E Hf. assert (usable c) as Hu.
  2: { split; [exact Hu|]. intros k Hk. destruct (perform_returns k c (usable_wf c Hu) Hk) as (c' & Ek & _). eauto. }
  exists c. split; [|done]. unfold DialConfig in E.
  destruct (dial_transport net url config h) as [h1 [[e|[conn cfg]]|]] eqn:Ed; [done| |done].
  injection E as _ Eo. exists cfg, lf, hb, r1, (FromRpc (Some (M_connectionTune tune))), r3.
  split; [|split; [by intros t [= <-]|split; [exact Eo|exact Hf]]].
  revert Ed. unfold dial_transport. pose proof (typed_channels _ (parse_yields_typed url)) as Hu.
  destruct (ParseURI url) as [u [e|]]; [done|]. cbn [fst] in Hu.
  destruct (dial_SASL u config) as [e|SASL]; [done|].
  assert (is_uint 16 (cfg_ChannelMax (dial_Config u SASL config))) as Hd.
  { cbn. by destruct (set_ConfigChannelMax config =? 0). }
  destruct (match set_Dial config with Some _ => _ | None => _ end _ _ h) as [h2 [e|cn]]; [done|].
  case_bool_decide; [|by intros [= _ _ <-]; apply Hd].
  destruct (dial_tls net u config cn h2) as [h3 [[e|cl]|]]; [done| |done]. intros [= _ _ <-]. apply Hd.
Qed.

Lemma dial_establishes_witness :
  exists c, dial_zero = Some c /\ usable c /\ forall k, call_fits c k -> exists c', perform k c = Ok (tt, c').
Proof.
  eexists. split; [vm_compute; reflexivity|].
  eapply (dial_establishes test_net "amqp://broker/?heartbeat=0" Dial_settings true 0
    (FromRpc (Some (M_connectionStart (Mk_connectionStart 0 9 [] "PLAIN AMQPLAIN" "en_US"))))
    (Mk_connectionTune 2047 131072 60)
    (FromRpc (Some (M_connectionOpenOk (Mk_connectionOpenOk "")))) no_tls);
    [by vm_compute|by vm_compute|vm_compute; reflexivity|by right].
Defined.
