(* ===== verification/Interleave.v ===== *)
(** * Interleave: goroutines that send on one connection (channel.go, connection.go)

    Several goroutines are inside [ch.send] at the same time.  What is atomic
    is what [c.sendM] protects: the write of one frame ([Connection_send],
    [Connection_sendUnflushed]) and the flush.  Publish, Ack, Nack, Reject and
    the reader's close-ok hold [ch.m] from before the first frame to after the
    flush; other methods, and the reader's flow-ok, do not. *)

From S2P Require Import Prelude Types Io SpecConnection SpecChannel SpecBasic Spec091 Frame FrameFacts.
From S2P Require Import Delivery State Channel ChannelFacts ChannelApi Connection ConnectionFacts.

(** ** The system *)

(** A goroutine sending [msg] on the channel object [a]: before it has
    [ch.m] ([locks] tells whether it takes it), inside [ch.send], between two
    frames of [sendOpen] with those still to write, before the deferred flush
    after an error, and back from [ch.send]. *)
Inductive sender :=
  | Waiting (locks : bool) (a : nat) (msg : message)
  | Entered (locks : bool) (a : nat) (msg : message)
  | Writing (locks : bool) (a : nat) (msg : message) (rest : list frame)
  | Failing (locks : bool) (a : nat) (msg : message) (err : goerror)
  | Returned (locks : bool) (a : nat) (msg : message) (err : option goerror).

Record system := MkSystem {
  sys_conn : Connection;
  sys_mutex : gset nat;         (** the channels whose [ch.m] is held *)
  sys_senders : list sender;
  sys_sent : list frame;        (** the frames written so far *)
  sys_failed : bool             (** some write or flush has returned an error *)
}.

(** The messages that are sent with [ch.m] held: those of the Publish methods,
    Ack, Nack and Reject, and the reader's close-ok. *)
Definition takes_mutex (msg : message) : bool :=
  match msg with
  | M_basicPublish _ | M_basicAck _ | M_basicNack _ | M_basicReject _ | M_channelCloseOk _ => true
  | _ => false
  end.

(** [defer ch.m.Unlock()] *)
Definition release_mutex (locks : bool) (a : nat) (mutex : gset nat) : gset nat :=
  if locks then mutex ∖ {[a]} else mutex.

Definition is_error (err : option goerror) : bool := match err with Some _ => true | None => false end.

(** The frame of a method without content. *)
Definition method_frame (id : Z) (msg : message) : frame := F_method (Mk_methodFrame id 0 0 (Some msg)).

(** What other goroutines may do meanwhile: anything but writing. *)
Definition no_write (c c' : Connection) : Prop :=
  cn_buf c' = cn_buf c /\ cn_wire c' = cn_wire c /\ cn_FrameSize c' = cn_FrameSize c /\
  forall a ch, cn_objs c !! a = Some ch -> exists ch', cn_objs c' !! a = Some ch' /\ ch_id ch' = ch_id ch.

Inductive sys_step : system -> system -> Prop :=
  | step_lock i a msg c mu ss sent fl :
      ss !! i = Some (Waiting true a msg) -> (a ∉ mu) ->
      sys_step (MkSystem c mu ss sent fl) (MkSystem c ({[a]} ∪ mu) (<[i := Entered true a msg]> ss) sent fl)
  | step_enter i a msg c mu ss sent fl :
      ss !! i = Some (Waiting false a msg) ->
      sys_step (MkSystem c mu ss sent fl) (MkSystem c mu (<[i := Entered false a msg]> ss) sent fl)
  | step_refused i l a msg ch c mu ss sent fl :
      ss !! i = Some (Entered l a msg) -> cn_objs c !! a = Some ch -> ch_closed ch = true ->
      (forall m, msg <> M_channelCloseOk m) ->
      sys_step (MkSystem c mu ss sent fl)
        (MkSystem c (release_mutex l a mu) (<[i := Returned l a msg (Some (AmqpError ErrClosed))]> ss) sent fl)
  | step_method i l a msg ch c mu ss sent fl err c' :
      ss !! i = Some (Entered l a msg) -> cn_objs c !! a = Some ch ->
      message_getContent msg = None -> ch_closed ch = false \/ (exists m, msg = M_channelCloseOk m) ->
      Connection_send (method_frame (ch_id ch) msg) c = Ok (err, c') ->
      sys_step (MkSystem c mu ss sent fl)
        (MkSystem c' (release_mutex l a mu) (<[i := Returned l a msg err]> ss)
           (if is_error err then sent else sent ++ [method_frame (ch_id ch) msg]) (fl || is_error err))
  | step_content i l a msg ch props body c mu ss sent fl :
      ss !! i = Some (Entered l a msg) -> cn_objs c !! a = Some ch -> ch_closed ch = false ->
      message_getContent msg = Some (props, body) ->
      (cn_FrameSize c <= 0 \/ frameHeaderSize < cn_FrameSize c) ->
      sys_step (MkSystem c mu ss sent fl)
        (MkSystem c mu
           (<[i := Writing l a msg (content_frames (ch_id ch) (piece_size (cn_FrameSize c) body) msg props body)]> ss)
           sent fl)
  | step_write i l a msg f rest c mu ss sent fl c' :
      ss !! i = Some (Writing l a msg (f :: rest)) -> Connection_sendUnflushed f c = Ok (None, c') ->
      sys_step (MkSystem c mu ss sent fl)
        (MkSystem c' mu (<[i := Writing l a msg rest]> ss) (sent ++ [f]) fl)
  | step_write_error i l a msg f rest c mu ss sent fl e c' :
      ss !! i = Some (Writing l a msg (f :: rest)) -> Connection_sendUnflushed f c = Ok (Some e, c') ->
      sys_step (MkSystem c mu ss sent fl) (MkSystem c' mu (<[i := Failing l a msg e]> ss) sent true)
  | step_flush i l a msg c mu ss sent fl err c' :
      ss !! i = Some (Writing l a msg []) -> Connection_flush c = Ok (err, c') ->
      sys_step (MkSystem c mu ss sent fl)
        (MkSystem c' (release_mutex l a mu) (<[i := Returned l a msg err]> ss) sent (fl || is_error err))
  | step_flush_error i l a msg e c mu ss sent fl err c' :
      ss !! i = Some (Failing l a msg e) -> Connection_flush c = Ok (err, c') ->
      sys_step (MkSystem c mu ss sent fl)
        (MkSystem c' (release_mutex l a mu) (<[i := Returned l a msg (Some e)]> ss) sent true)
  | step_other c c' mu ss sent fl :
      no_write c c' -> sys_step (MkSystem c mu ss sent fl) (MkSystem c' mu ss sent fl).

(** ** Specification *)

Definition sender_chan (x : sender) : nat :=
  match x with
  | Waiting _ a _ | Entered _ a _ | Writing _ a _ _ | Failing _ a _ _ | Returned _ a _ _ => a
  end.

Definition sender_locks (x : sender) : bool :=
  match x with
  | Waiting l _ _ | Entered l _ _ | Writing l _ _ _ | Failing l _ _ _ | Returned l _ _ _ => l
  end.

(** Between taking and releasing [ch.m] of [a]. *)
Definition inside (a : nat) (x : sender) : bool :=
  match x with
  | Entered _ b _ | Writing _ b _ _ | Failing _ b _ _ => bool_decide (a = b)
  | _ => false
  end.

(** The messages on [a] whose sending has succeeded. *)
Definition succeeded (a : nat) (x : sender) : option message :=
  match x with
  | Returned _ b msg None => if bool_decide (a = b) then Some msg else None
  | _ => None
  end.

Definition all_sent (a : nat) (ss : list sender) : list message := omap (succeeded a) ss.

(** The frames of a message on channel [id] with frame size [fs]. *)
Definition message_frames (id fs : Z) (msg : message) : list frame :=
  match message_getContent msg with
  | Some (props, body) => content_frames id (piece_size fs body) msg props body
  | None => [method_frame id msg]
  end.

(** The frames of one channel. *)
Definition on_channel (id : Z) (fs : list frame) : list frame :=
  filter (fun f => frame_channel f = Some id) fs.

(** The start: nobody has sent anything, and each takes the mutex as its
    method does. *)
Definition starts (s : system) : Prop :=
  sys_mutex s = ∅ /\ sys_sent s = [] /\ sys_failed s = false /\
  Forall (fun x => exists a msg, x = Waiting (takes_mutex msg) a msg) (sys_senders s).

(** Everyone who sends on [a0] takes its mutex, and no other channel object
    in use has its number. *)
Definition guarded (a0 : nat) (id : Z) (s : system) : Prop :=
  (exists ch, cn_objs (sys_conn s) !! a0 = Some ch /\ ch_id ch = id) /\
  Forall (fun x => (sender_chan x = a0 /\ sender_locks x = true) \/
    (sender_chan x <> a0 /\ exists ch, cn_objs (sys_conn s) !! sender_chan x = Some ch /\ ch_id ch <> id))
    (sys_senders s).

(** ** Facts about the writer *)

Lemma writer_keeps f c err c' :
  Connection_sendUnflushed f c = Ok (err, c') \/ Connection_send f c = Ok (err, c') \/
    Connection_flush c = Ok (err, c') ->
  cn_objs c' = cn_objs c /\ cn_FrameSize c' = cn_FrameSize c.
Proof.
  unfold Connection_sendUnflushed, Connection_send, Connection_flush, writer_WriteFrame, writer_WriteFrameNoFlush,
    writer_Flush, mbind, gets, start, modify, mret.
  intros [H|[H|H]]; repeat case_match; simplify_eq; done.
Qed.

Lemma frame_channel_content id size msg props body :
  Forall (fun f => frame_channel f = Some id) (content_frames id size msg props body).
Proof.
  unfold content_frames. constructor; [done|]. constructor; [done|].
  apply Forall_fmap, Forall_forall. done.
Qed.

Lemma message_frames_channel id fs msg : Forall (fun f => frame_channel f = Some id) (message_frames id fs msg).
Proof.
  unfold message_frames. destruct (message_getContent msg) as [[props body]|].
  - apply frame_channel_content.
  - by repeat constructor.
Qed.

Lemma on_channel_app id l k : on_channel id (l ++ k) = on_channel id l ++ on_channel id k.
Proof. apply list.filter_app. Qed.

Lemma on_channel_one id f : frame_channel f = Some id -> on_channel id [f] = [f].
Proof. intros H. unfold on_channel. by rewrite list.filter_cons_True, list.filter_nil. Qed.

Lemma on_channel_other id f : frame_channel f <> Some id -> on_channel id [f] = [].
Proof. intros H. unfold on_channel. by rewrite list.filter_cons_False, list.filter_nil. Qed.

(** Replacing a sender that had not succeeded. *)
Lemma all_sent_insert a i x y ss :
  ss !! i = Some x -> succeeded a x = None ->
  all_sent a (<[i := y]> ss) ≡ₚ from_option (fun m => [m]) [] (succeeded a y) ++ all_sent a ss.
Proof.
  intros Hi Hx. rewrite insert_take_drop by (by eapply lookup_lt_Some).
  rewrite <- (take_drop_middle ss i x Hi) at 3. unfold all_sent.
  rewrite !omap_app. cbn [omap list_omap]. rewrite Hx.
  destruct (succeeded a y); simpl; [|done]. by rewrite Permutation_middle.
Qed.

Lemma insert_cases {A} (l : list A) i j x y :
  <[i := x]> l !! j = Some y -> (j = i /\ y = x) \/ (j <> i /\ l !! j = Some y).
Proof. intros [(-> & -> & _)|[? ?]]%list_lookup_insert_Some; auto. Qed.

(** ** The mutex *)

Section Invariant.
Context (a0 : nat) (id fs : Z).

(** Whoever is inside [a0] holds its mutex, alone. *)
Record exclusive (mu : gset nat) (ss : list sender) : Prop := {
  ex_held : forall i x, ss !! i = Some x -> inside a0 x = true -> a0 ∈ mu;
  ex_alone : forall i j x y, ss !! i = Some x -> ss !! j = Some y ->
    inside a0 x = true -> inside a0 y = true -> i = j
}.

Lemma exclusive_stay mu ss i x y :
  exclusive mu ss -> ss !! i = Some x -> (inside a0 y = true -> inside a0 x = true) ->
  exclusive mu (<[i := y]> ss).
Proof.
  intros [H1 H2] Hi Hxy. split.
  - intros j z [[-> ->]|[_ Hj]]%insert_cases Hz; [by eapply H1; [|apply Hxy]|by eapply H1].
  - intros j k z w [[-> ->]|[Hnj Hj]]%insert_cases [[-> ->]|[Hnk Hk]]%insert_cases Hz Hw; [done| | |by eapply H2].
    + by eapply H2; [..|apply Hxy|].
    + symmetry. by eapply H2; [..|apply Hxy|].
Qed.

Lemma exclusive_lock mu ss i a y :
  exclusive mu ss -> (a ∉ mu) -> (inside a0 y = true -> a = a0) -> exclusive ({[a]} ∪ mu) (<[i := y]> ss).
Proof.
  intros [H1 H2] Ha Hy. split.
  - intros j z [[-> ->]|[_ Hj]]%insert_cases Hz; [rewrite (Hy Hz); set_solver|].
    apply (H1 j z Hj) in Hz. set_solver.
  - intros j k z w [[-> ->]|[Hnj Hj]]%insert_cases [[-> ->]|[Hnk Hk]]%insert_cases Hz Hw; [done| | |by eapply H2].
    + destruct Ha. rewrite (Hy Hz). by eapply H1.
    + destruct Ha. rewrite (Hy Hw). by eapply H1.
Qed.

Lemma exclusive_release mu ss i l x y :
  exclusive mu ss -> ss !! i = Some x -> inside (sender_chan x) x = true -> inside a0 y = false ->
  exclusive (release_mutex l (sender_chan x) mu) (<[i := y]> ss).
Proof.
  intros [H1 H2] Hi Hx Hy. split.
  - intros j z [[-> ->]|[Hnj Hj]]%insert_cases Hz; [congruence|].
    pose proof (H1 j z Hj Hz) as Hin. unfold release_mutex. destruct l; [|done].
    destruct (decide (sender_chan x = a0)) as [E|E]; [|set_solver].
    destruct Hnj. eapply (H2 j i); [done|done|done|by rewrite <- E].
  - intros j k z w [[-> ->]|[Hnj Hj]]%insert_cases [[-> ->]|[Hnk Hk]]%insert_cases Hz Hw; [done| | |by eapply H2];
      congruence.
Qed.

(** ** Channels and their numbers *)

(** As [guarded], with the frames others still have to write. *)
Definition good_sender (c : Connection) (x : sender) : Prop :=
  (sender_chan x = a0 /\ sender_locks x = true) \/
  (sender_chan x <> a0 /\ (exists ch, cn_objs c !! sender_chan x = Some ch /\ ch_id ch <> id) /\
   match x with Writing _ _ _ rest => Forall (fun f => frame_channel f <> Some id) rest | _ => True end).

Definition same_ids (c c' : Connection) : Prop :=
  cn_FrameSize c' = cn_FrameSize c /\
  forall a ch, cn_objs c !! a = Some ch -> exists ch', cn_objs c' !! a = Some ch' /\ ch_id ch' = ch_id ch.

Lemma same_ids_refl c c' : cn_objs c' = cn_objs c /\ cn_FrameSize c' = cn_FrameSize c -> same_ids c c'.
Proof. intros [E1 E2]. split; [done|]. rewrite E1. eauto. Qed.

Record numbered (c : Connection) (ss : list sender) : Prop := {
  nb_size : cn_FrameSize c = fs;
  nb_id : exists ch, cn_objs c !! a0 = Some ch /\ ch_id ch = id;
  nb_senders : forall i x, ss !! i = Some x -> good_sender c x
}.

Lemma good_sender_ids c c' x : same_ids c c' -> good_sender c x -> good_sender c' x.
Proof.
  intros [_ H] [?|(Hn & (ch & Hch & Hid) & Hr)]; [by left|right]. split_and!; [done| |done].
  destruct (H _ _ Hch) as (ch' & Hch' & E). exists ch'. by rewrite E.
Qed.

Lemma numbered_step c c' ss ss' :
  numbered c ss -> same_ids c c' ->
  (forall i x, ss' !! i = Some x -> ss !! i = Some x \/ good_sender c x) -> numbered c' ss'.
Proof.
  intros [H1 (ch & Hch & Hid) H3] Hs Hx. split.
  - by rewrite (proj1 Hs).
  - destruct (proj2 Hs _ _ Hch) as (ch' & Hch' & E). exists ch'. by rewrite E.
  - intros i x [Hi|Hg]%Hx; eapply good_sender_ids; eauto.
Qed.

Lemma numbered_insert c c' ss i x y :
  numbered c ss -> same_ids c c' -> ss !! i = Some x ->
  sender_chan y = sender_chan x -> sender_locks y = sender_locks x ->
  match y with
  | Writing _ a _ rest => a <> a0 -> Forall (fun f => frame_channel f <> Some id) rest
  | _ => True
  end ->
  numbered c' (<[i := y]> ss).
Proof.
  intros H Hs Hi Hc Hl Hr. eapply numbered_step; [exact H|exact Hs|].
  intros j z [[-> ->]|[_ Hj]]%insert_cases; [right|by left].
  destruct (nb_senders _ _ H i x Hi) as [[E1 E2]|(Hn & Hch & _)].
  - left. by rewrite Hc, Hl.
  - right. rewrite Hc. split_and!; [done|done|]. destruct y; try done. simpl in Hc. apply Hr. congruence.
Qed.

Lemma numbered_chan c ss i x ch :
  numbered c ss -> ss !! i = Some x -> cn_objs c !! sender_chan x = Some ch ->
  (sender_chan x = a0 /\ sender_locks x = true /\ ch_id ch = id) \/ (sender_chan x <> a0 /\ ch_id ch <> id).
Proof.
  intros H Hi Hch. destruct (nb_senders _ _ H i x Hi) as [[E1 E2]|(Hn & (ch' & Hch' & Hid) & _)].
  - left. destruct (nb_id _ _ H) as (ch' & Hch' & <-). rewrite E1 in Hch. naive_solver.
  - right. split; [done|congruence].
Qed.

(** ** The order of the frames *)

(** What is on the wire for the channel: whole messages in some order, then
    the part of one that is being written. *)
Record lined (ss : list sender) (sent : list frame) : Prop := {
  ln_split : exists done part,
    on_channel id sent = concat (message_frames id fs <$> done) ++ part /\
    done ≡ₚ all_sent a0 ss /\
    ((forall i l msg rest, ss !! i <> Some (Writing l a0 msg rest)) -> part = []) /\
    (forall i l msg rest, ss !! i = Some (Writing l a0 msg rest) -> message_frames id fs msg = part ++ rest)
}.

Definition writing (x : sender) : Prop := exists l msg rest, x = Writing l a0 msg rest.

(** A sender changes without writing: neither before nor after is it writing
    on [a0] or done there. *)
Lemma lined_quiet ss sent i x y :
  lined ss sent -> ss !! i = Some x -> ~ writing x -> ~ writing y ->
  succeeded a0 x = None -> succeeded a0 y = None -> lined (<[i := y]> ss) sent.
Proof.
  intros [(done & part & H1 & H2 & H3 & H4)] Hi Hx Hy Sx Sy. split. exists done, part.
  rewrite (all_sent_insert a0 i x y ss Hi Sx), Sy. split_and!; [done|done| |].
  - intros Hno. apply H3. intros j l msg rest Hj. destruct (decide (j = i)) as [->|Hn].
    + apply Hx. exists l, msg, rest. congruence.
    + apply (Hno j l msg rest). by rewrite list_lookup_insert_ne.
  - intros j l msg rest [[-> <-]|[_ Hj]]%insert_cases; [destruct Hy; by repeat eexists|by eapply H4].
Qed.

(** A frame of another channel. *)
Lemma lined_foreign ss sent f : lined ss sent -> frame_channel f <> Some id -> lined ss (sent ++ [f]).
Proof.
  intros [H] Hf. split. by rewrite on_channel_app, (on_channel_other id f Hf), app_nil_r.
Qed.

(** The only sender inside [a0] is [i]: nobody else is writing there. *)
Lemma alone_not_writing mu ss i x :
  exclusive mu ss -> ss !! i = Some x -> inside a0 x = true -> ~ writing x ->
  forall j l msg rest, ss !! j <> Some (Writing l a0 msg rest).
Proof.
  intros Hex Hi Hx Hw j l msg rest Hj.
  assert (j = i) as ->.
  { eapply (ex_alone _ _ Hex); [done|done| |done]. simpl. by rewrite bool_decide_eq_true_2. }
  apply Hw. exists l, msg, rest. congruence.
Qed.

Lemma lined_start mu ss sent i x l msg :
  exclusive mu ss -> lined ss sent -> ss !! i = Some x -> inside a0 x = true -> ~ writing x ->
  succeeded a0 x = None -> lined (<[i := Writing l a0 msg (message_frames id fs msg)]> ss) sent.
Proof.
  intros Hex [(done & part & H1 & H2 & H3 & H4)] Hi Hx Hw Sx. split.
  pose proof (alone_not_writing mu ss i x Hex Hi Hx Hw) as Hno. rewrite (H3 Hno) in H1. exists done, [].
  rewrite (all_sent_insert a0 i x _ ss Hi Sx). split_and!; [done|done|done|].
  intros j l' msg' rest' [[-> E]|[_ Hj]]%insert_cases; [by simplify_eq|by destruct (Hno _ _ _ _ Hj)].
Qed.

Lemma lined_write mu ss sent i l msg f rest :
  exclusive mu ss -> lined ss sent -> ss !! i = Some (Writing l a0 msg (f :: rest)) ->
  lined (<[i := Writing l a0 msg rest]> ss) (sent ++ [f]).
Proof.
  intros Hex [(done & part & H1 & H2 & H3 & H4)] Hi. split. exists done, (part ++ [f]).
  pose proof (H4 _ _ _ _ Hi) as Hf.
  assert (frame_channel f = Some id) as Hid.
  { pose proof (message_frames_channel id fs msg) as Hc. rewrite Hf in Hc.
    apply Forall_app in Hc as [_ Hc]. by inversion Hc. }
  rewrite (all_sent_insert a0 i _ (Writing l a0 msg rest) ss Hi eq_refl), on_channel_app,
    (on_channel_one id f Hid), H1, <- app_assoc.
  split_and!; [done|done| |].
  - intros Hno. exfalso. apply (Hno i l msg rest). rewrite list_lookup_insert_eq; [done|by eapply lookup_lt_Some].
  - intros j l' msg' rest' [[-> E]|[Hn Hj]]%insert_cases; [simplify_eq; by rewrite <- app_assoc|].
    destruct Hn. eapply (ex_alone _ _ Hex); [done|done|..]; simpl; by rewrite bool_decide_eq_true_2.
Qed.

(** The sender [i] on [a0] is done, and has written all of its message. *)
Lemma lined_done mu ss sent part' i x l msg :
  exclusive mu ss -> lined ss sent -> ss !! i = Some x -> inside a0 x = true -> succeeded a0 x = None ->
  (forall part, (forall l' m' r', x = Writing l' a0 m' r' -> message_frames id fs m' = part ++ r') ->
     (~ writing x -> part = []) -> message_frames id fs msg = part ++ on_channel id part') ->
  lined (<[i := Returned l a0 msg None]> ss) (sent ++ part').
Proof.
  intros Hex [(done & part & H1 & H2 & H3 & H4)] Hi Hx Sx Hm. split. exists (done ++ [msg]), [].
  assert (message_frames id fs msg = part ++ on_channel id part') as E.
  { apply Hm; [intros l' m' r' ->; by eapply H4|]. intros Hw. apply H3. by eapply alone_not_writing. }
  rewrite (all_sent_insert a0 i x _ ss Hi Sx). cbn [succeeded]. rewrite bool_decide_eq_true_2 by done.
  rewrite on_channel_app, H1, fmap_app, concat_app. cbn [fmap list_fmap concat]. rewrite !app_nil_r, E, app_assoc.
  split_and!; [done|by rewrite H2, Permutation_app_comm|done|].
  intros j l' msg' rest' [[-> ?]|[Hn Hj]]%insert_cases; [done|].
  destruct Hn. eapply (ex_alone _ _ Hex); [done|done|..|done]. simpl. by rewrite bool_decide_eq_true_2.
Qed.

(** ** The invariant *)

Definition ordered (s : system) : Prop :=
  numbered (sys_conn s) (sys_senders s) /\ exclusive (sys_mutex s) (sys_senders s) /\
  (sys_failed s = false -> lined (sys_senders s) (sys_sent s)).

Lemma other_not_writing l a msg rest : a <> a0 -> ~ writing (Writing l a msg rest).
Proof. intros H (? & ? & ? & [= _ -> _ _]). done. Qed.

Lemma inside_self l a msg : inside a (Entered l a msg) = true.
Proof. simpl. by rewrite bool_decide_eq_true_2. Qed.

Lemma ordered_method i l a msg ch c mu ss sent fl err c' :
  ordered (MkSystem c mu ss sent fl) ->
  ss !! i = Some (Entered l a msg) -> cn_objs c !! a = Some ch -> message_getContent msg = None ->
  Connection_send (method_frame (ch_id ch) msg) c = Ok (err, c') ->
  ordered (MkSystem c' (release_mutex l a mu) (<[i := Returned l a msg err]> ss)
    (if is_error err then sent else sent ++ [method_frame (ch_id ch) msg]) (fl || is_error err)).
Proof.
  intros (Hnb & Hex & Hln) Hi Hch Hm E. unfold ordered. cbn [sys_conn sys_mutex sys_senders sys_sent sys_failed] in *.
  pose proof (same_ids_refl c c' (writer_keeps _ c err c' (or_intror (or_introl E)))) as Hs.
  split_and!; [by eapply numbered_insert| |].
  { eapply (exclusive_release mu ss i l (Entered l a msg)); [done|done|apply inside_self|by destruct err]. }
  intros [-> He]%orb_false_iff. specialize (Hln eq_refl). destruct err; [done|]. cbn [is_error].
  destruct (numbered_chan c ss i _ ch Hnb Hi Hch) as [(Ea & El & Eid)|[Ha Eid]]; cbn [sender_chan sender_locks] in *.
  - subst a l. rewrite Eid. eapply lined_done; [done|done|done|apply inside_self|done|].
    intros part _ Hw. rewrite Hw by (by intros (? & ? & ? & ?)).
    unfold message_frames. rewrite Hm. symmetry. by apply on_channel_one.
  - apply lined_foreign; [|by intros [= ?]].
    eapply lined_quiet; [done|done|by intros (? & ? & ? & ?)|by intros (? & ? & ? & ?)|done|].
    cbn [succeeded]. by rewrite bool_decide_eq_false_2.
Qed.

Lemma ordered_content i l a msg ch props body c mu ss sent fl :
  ordered (MkSystem c mu ss sent fl) ->
  ss !! i = Some (Entered l a msg) -> cn_objs c !! a = Some ch -> message_getContent msg = Some (props, body) ->
  ordered (MkSystem c mu
    (<[i := Writing l a msg (content_frames (ch_id ch) (piece_size (cn_FrameSize c) body) msg props body)]> ss)
    sent fl).
Proof.
  intros (Hnb & Hex & Hln) Hi Hch Hm. unfold ordered. cbn [sys_conn sys_mutex sys_senders sys_sent sys_failed] in *.
  pose proof (numbered_chan c ss i _ ch Hnb Hi Hch) as Hcase. cbn [sender_chan sender_locks] in Hcase.
  split_and!.
  - eapply numbered_insert; [done|by apply same_ids_refl|done|done|done|]. intros Ha.
    destruct Hcase as [(? & _)|[_ Hid]]; [done|].
    eapply Forall_impl; [|apply frame_channel_content]. intros f -> [= ?]. done.
  - by eapply exclusive_stay.
  - intros Hf. specialize (Hln Hf). destruct Hcase as [(-> & _ & Hid)|[Ha Hid]].
    + assert (content_frames (ch_id ch) (piece_size (cn_FrameSize c) body) msg props body =
              message_frames id fs msg) as ->.
      { unfold message_frames. by rewrite Hm, Hid, (nb_size _ _ Hnb). }
      eapply lined_start; [done|done|done|apply inside_self|by intros (? & ? & ? & ?)|done].
    + eapply lined_quiet; [done|done|by intros (? & ? & ? & ?)|by apply other_not_writing|done|done].
Qed.

Lemma ordered_write i l a msg f rest c mu ss sent fl c' :
  ordered (MkSystem c mu ss sent fl) ->
  ss !! i = Some (Writing l a msg (f :: rest)) -> Connection_sendUnflushed f c = Ok (None, c') ->
  ordered (MkSystem c' mu (<[i := Writing l a msg rest]> ss) (sent ++ [f]) fl).
Proof.
  intros (Hnb & Hex & Hln) Hi E. unfold ordered. cbn [sys_conn sys_mutex sys_senders sys_sent sys_failed] in *.
  pose proof (same_ids_refl c c' (writer_keeps f c None c' (or_introl E))) as Hs.
  pose proof (nb_senders _ _ Hnb i _ Hi) as Hg.
  assert (a <> a0 -> Forall (fun f => frame_channel f <> Some id) (f :: rest)) as Hr.
  { intros Ha. destruct Hg as [[? _]|(_ & _ & Hr)]; [done|exact Hr]. }
  split_and!; [|by eapply exclusive_stay|].
  - eapply numbered_insert; [done|done|done|done|done|]. intros Ha. specialize (Hr Ha); by inversion Hr.
  - intros Hf. specialize (Hln Hf). destruct (decide (a = a0)) as [->|Ha]; [by eapply lined_write|].
    apply lined_foreign; [|specialize (Hr Ha); by inversion Hr].
    eapply lined_quiet; [done|done|by apply other_not_writing|by apply other_not_writing|done|done].
Qed.

Lemma ordered_flush i l a msg c mu ss sent fl err c' :
  ordered (MkSystem c mu ss sent fl) ->
  ss !! i = Some (Writing l a msg []) -> Connection_flush c = Ok (err, c') ->
  ordered (MkSystem c' (release_mutex l a mu) (<[i := Returned l a msg err]> ss) sent (fl || is_error err)).
Proof.
  intros (Hnb & Hex & Hln) Hi E. unfold ordered. cbn [sys_conn sys_mutex sys_senders sys_sent sys_failed] in *.
  pose proof (same_ids_refl c c' (writer_keeps F_protocolHeader c err c' (or_intror (or_intror E)))) as Hs.
  assert (inside a (Writing l a msg []) = true) as Hin by (simpl; by rewrite bool_decide_eq_true_2).
  split_and!; [by eapply numbered_insert| |].
  { eapply (exclusive_release mu ss i l (Writing l a msg [])); [done|done|exact Hin|by destruct err]. }
  intros [-> He]%orb_false_iff. specialize (Hln eq_refl). destruct err; [done|].
  destruct (decide (a = a0)) as [->|Ha].
  - rewrite <- (app_nil_r sent). eapply lined_done; [done|done|done|done|done|].
    intros part Hp _. rewrite (Hp l msg [] eq_refl). done.
  - eapply lined_quiet; [done|done|by apply other_not_writing|by intros (? & ? & ? & ?)|done|].
    cbn [succeeded]. by rewrite bool_decide_eq_false_2.
Qed.

(** A step after which the sender is neither writing nor done. *)
Lemma ordered_error i l a msg x y c c' mu mu' ss sent fl :
  ordered (MkSystem c mu ss sent fl) -> same_ids c c' ->
  ss !! i = Some x -> (exists e, y = Failing l a msg e) \/ (exists e, y = Returned l a msg (Some e)) ->
  sender_chan x = a -> sender_locks x = l -> inside a x = true ->
  (mu' = mu /\ (exists e, y = Failing l a msg e)) \/ (mu' = release_mutex l a mu /\ exists e, y = Returned l a msg (Some e)) ->
  ordered (MkSystem c' mu' (<[i := y]> ss) sent true).
Proof.
  intros (Hnb & Hex & Hln) Hs Hi Hy Hc Hl Hin Hmu. unfold ordered.
  cbn [sys_conn sys_mutex sys_senders sys_sent sys_failed] in *. split_and!; [| |done].
  - eapply numbered_insert; [done|done|done|..]; destruct Hy as [[e ->]|[e ->]]; done.
  - subst a l. destruct Hmu as [[-> [e ->]]|[-> [e ->]]].
    + eapply exclusive_stay; [done|done|]. cbn [inside]. intros E%bool_decide_eq_true. by rewrite E.
    + by eapply exclusive_release.
Qed.

Lemma ordered_step s s' : ordered s -> sys_step s s' -> ordered s'.
Proof.
  intros Ho Hs. destruct Hs as
    [i a msg c mu ss sent fl Hi Ha|i a msg c mu ss sent fl Hi|i l a msg ch c mu ss sent fl Hi Hch Hc Hm
    |i l a msg ch c mu ss sent fl err c' Hi Hch Hm Hc E|i l a msg ch props body c mu ss sent fl Hi Hch Hc Hm Hsz
    |i l a msg f rest c mu ss sent fl c' Hi E|i l a msg f rest c mu ss sent fl e c' Hi E
    |i l a msg c mu ss sent fl err c' Hi E|i l a msg e c mu ss sent fl err c' Hi E|c c' mu ss sent fl Hw].
  - destruct Ho as (Hnb & Hex & Hln). split_and!; cbn [sys_conn sys_mutex sys_senders sys_sent sys_failed] in *.
    + eapply numbered_insert; [done|by apply same_ids_refl|done|done|done|done].
    + apply exclusive_lock; [done|done|]. simpl. by intros ->%bool_decide_eq_true.
    + intros Hf. eapply lined_quiet; [by apply Hln|done|by intros (? & ? & ? & ?)|by intros (? & ? & ? & ?)|done|done].
  - destruct Ho as (Hnb & Hex & Hln). split_and!; cbn [sys_conn sys_mutex sys_senders sys_sent sys_failed] in *.
    + eapply numbered_insert; [done|by apply same_ids_refl|done|done|done|done].
    + eapply exclusive_stay; [done|done|]. simpl. intros <-%bool_decide_eq_true.
      destruct (nb_senders _ _ Hnb i _ Hi) as [[_ ?]|[? _]]; done.
    + intros Hf. eapply lined_quiet; [by apply Hln|done|by intros (? & ? & ? & ?)|by intros (? & ? & ? & ?)|done|done].
  - destruct Ho as (Hnb & Hex & Hln). split_and!; cbn [sys_conn sys_mutex sys_senders sys_sent sys_failed] in *.
    + eapply numbered_insert; [done|by apply same_ids_refl|done|done|done|done].
    + eapply (exclusive_release mu ss i l (Entered l a msg)); [done|done|apply inside_self|done].
    + intros Hf. eapply lined_quiet; [by apply Hln|done|by intros (? & ? & ? & ?)|by intros (? & ? & ? & ?)|done|done].
  - by eapply ordered_method.
  - by eapply ordered_content.
  - by eapply ordered_write.
  - eapply (ordered_error i l a msg); [done| |done|left; by eauto|done|done| |left; by eauto].
    + apply same_ids_refl. eapply writer_keeps. by left.
    + simpl. by rewrite bool_decide_eq_true_2.
  - by eapply ordered_flush.
  - eapply (ordered_error i l a msg); [done| |done|right; by eauto|done|done| |right; by eauto].
    + apply same_ids_refl. eapply (writer_keeps F_protocolHeader). by right; right.
    + simpl. by rewrite bool_decide_eq_true_2.
  - destruct Ho as (Hnb & Hex & Hln). split_and!; cbn [sys_conn sys_mutex sys_senders sys_sent sys_failed] in *; [|done|done].
    destruct Hw as (_ & _ & E1 & E2). eapply numbered_step; [done|by split|by left].
Qed.
End Invariant.

(** The senders' frames on one channel. *)
Lemma ordered_start a0 id s :
  starts s -> guarded a0 id s -> ordered a0 id (cn_FrameSize (sys_conn s)) s.
Proof.
  intros (Hm & Hsent & Hf & Hw) (Hid & Hg). rewrite Forall_forall in Hw, Hg.
  assert (forall i x, sys_senders s !! i = Some x -> exists a msg, x = Waiting (takes_mutex msg) a msg) as Hw'.
  { intros i x Hi. apply Hw. by apply list_elem_of_In, list_elem_of_lookup_2 with i. }
  split_and!.
  - split; [done|done|]. intros i x Hi.
    destruct (Hg x) as [?|[Hn Hch]]; [by apply list_elem_of_In, list_elem_of_lookup_2 with i|by left|right].
    split_and!; [done|done|]. by destruct (Hw' i x Hi) as (a & msg & ->).
  - split; [intros i x Hi|intros i j x y Hi _]; destruct (Hw' i x Hi) as (a & msg & ->); done.
  - intros _. split. exists [], []. rewrite Hsent. split_and!; [done| |done|].
    + assert (all_sent a0 (sys_senders s) = []) as ->; [|done].
      revert Hw'. clear. generalize (sys_senders s). intros ss. induction ss as [|x ss IH]; intros Hw; [done|].
      destruct (Hw 0%nat x eq_refl) as (a & msg & ->). simpl. apply IH. intros i y Hy. by apply (Hw (S i)).
    + intros i l msg rest Hi. destruct (Hw' _ _ Hi) as (? & ? & ?). done.
Qed.

(** C7: goroutines that take the channel's mutex do not interleave their
    frames: in every execution without a failed write, whatever is sent on
    other channels, the frames on the channel are those of whole messages,
    one for each sender that has returned without error, in some order,
    followed by an initial part of the message whose sender is between two
    frames. *)
Theorem senders_do_not_interleave a0 id s0 s :
  starts s0 -> guarded a0 id s0 -> rtc sys_step s0 s -> sys_failed s = false ->
  exists done part,
    on_channel id (sys_sent s) =
      concat (message_frames id (cn_FrameSize (sys_conn s0)) <$> done) ++ part /\
    done ≡ₚ all_sent a0 (sys_senders s) /\
    (part = [] \/ exists i l msg rest, sys_senders s !! i = Some (Writing l a0 msg rest) /\
       message_frames id (cn_FrameSize (sys_conn s0)) msg = part ++ rest).
Proof.
  intros Hs Hg Hr Hf.
  assert (ordered a0 id (cn_FrameSize (sys_conn s0)) s) as (_ & _ & Hl).
  { pose proof (ordered_start a0 id s0 Hs Hg) as H0. revert H0.
    generalize (cn_FrameSize (sys_conn s0)). clear -Hr. intros fs.
    induction Hr as [s|s1 s2 s3 Hstep _ IH]; [done|]. intros H. by apply IH, (ordered_step _ _ _ s1). }
  destruct (Hl Hf) as [(done & part & H1 & H2 & H3 & H4)]. exists done, part. split_and!; [done|done|].
  destruct (existsb (fun x => match x with Writing _ a _ _ => bool_decide (a = a0) | _ => false end)
              (sys_senders s)) eqn:He.
  - right. apply existsb_exists in He as (x & Hx & Hw).
    destruct x as [| |l a msg rest| |]; try done. apply bool_decide_eq_true in Hw as ->.
    apply list_elem_of_In, list_elem_of_lookup in Hx as [i Hi]. exists i, l, msg, rest.
    split; [done|by eapply H4].
  - left. apply H3. intros i l msg rest Hi. apply not_true_iff_false in He. apply He, existsb_exists.
    exists (Writing l a0 msg rest). split; [by eapply list_elem_of_In, list_elem_of_lookup_2|].
    by rewrite bool_decide_eq_true_2.
Qed.

(** ** Schedules *)

Definition is_closeOk (msg : message) : bool := match msg with M_channelCloseOk _ => true | _ => false end.

(** The next step of the sender [i], if it can take one. *)
Definition sys_next (i : nat) (s : system) : option system :=
  let '(MkSystem c mu ss sent fl) := s in
  match ss !! i with
  | Some (Waiting true a msg) =>
      if decide (a ∈ mu) then None
      else Some (MkSystem c ({[a]} ∪ mu) (<[i := Entered true a msg]> ss) sent fl)
  | Some (Waiting false a msg) => Some (MkSystem c mu (<[i := Entered false a msg]> ss) sent fl)
  | Some (Entered l a msg) =>
      match cn_objs c !! a with
      | None => None
      | Some ch =>
          if ch_closed ch && negb (is_closeOk msg) then
            Some (MkSystem c (release_mutex l a mu) (<[i := Returned l a msg (Some (AmqpError ErrClosed))]> ss) sent fl)
          else
            match message_getContent msg with
            | None =>
                match Connection_send (method_frame (ch_id ch) msg) c with
                | Ok (err, c') =>
                    Some (MkSystem c' (release_mutex l a mu) (<[i := Returned l a msg err]> ss)
                            (if is_error err then sent else sent ++ [method_frame (ch_id ch) msg])
                            (fl || is_error err))
                | _ => None
                end
            | Some (props, body) =>
                if (cn_FrameSize c <=? 0) || (frameHeaderSize <? cn_FrameSize c) then
                  Some (MkSystem c mu
                    (<[i := Writing l a msg
                              (content_frames (ch_id ch) (piece_size (cn_FrameSize c) body) msg props body)]> ss)
                    sent fl)
                else None
            end
      end
  | Some (Writing l a msg (f :: rest)) =>
      match Connection_sendUnflushed f c with
      | Ok (None, c') => Some (MkSystem c' mu (<[i := Writing l a msg rest]> ss) (sent ++ [f]) fl)
      | Ok (Some e, c') => Some (MkSystem c' mu (<[i := Failing l a msg e]> ss) sent true)
      | _ => None
      end
  | Some (Writing l a msg []) =>
      match Connection_flush c with
      | Ok (err, c') =>
          Some (MkSystem c' (release_mutex l a mu) (<[i := Returned l a msg err]> ss) sent (fl || is_error err))
      | _ => None
      end
  | Some (Failing l a msg e) =>
      match Connection_flush c with
      | Ok (err, c') => Some (MkSystem c' (release_mutex l a mu) (<[i := Returned l a msg (Some e)]> ss) sent true)
      | _ => None
      end
  | Some (Returned _ _ _ _) | None => None
  end.

Fixpoint run_schedule (sched : list nat) (s : system) : option system :=
  match sched with
  | [] => Some s
  | i :: r => match sys_next i s with Some s' => run_schedule r s' | None => None end
  end.

Lemma sys_next_sound i s s' : sys_next i s = Some s' -> sys_step s s'.
Proof.
  destruct s as [c mu ss sent fl]. unfold sys_next.
  destruct (ss !! i) as [[[] a msg|l a msg|l a msg [|f rest]|l a msg e|]|] eqn:Hi; [..|done|done].
  - case_decide; [done|]. intros [= <-]. by apply step_lock.
  - intros [= <-]. by apply step_enter.
  - destruct (cn_objs c !! a) as [ch|] eqn:Hch; [|done].
    destruct (ch_closed ch && negb (is_closeOk msg)) eqn:Hc.
    { apply andb_true_iff in Hc as [Hc Hm]. intros [= <-]. eapply step_refused; [done..|]. by intros m ->. }
    destruct (message_getContent msg) as [[props body]|] eqn:Hm.
    + destruct (_ || _) eqn:Hsz; [|done]. intros [= <-]. eapply step_content; [done|done| |done|lia].
      destruct msg; simpl in *; by rewrite ?andb_true_r in Hc.
    + destruct (Connection_send _ c) as [[err c']| | |] eqn:E; [|done..]. intros [= <-].
      eapply step_method; [done|done|done| |done]. destruct (ch_closed ch); [right|by left].
      destruct msg; try done. by eauto.
  - destruct (Connection_flush c) as [[err c']| | |] eqn:E; [|done..]. intros [= <-]. by eapply step_flush.
  - destruct (Connection_sendUnflushed f c) as [[[e|] c']| | |] eqn:E; [..|done|done|done]; intros [= <-].
    + by eapply step_write_error.
    + by eapply step_write.
  - destruct (Connection_flush c) as [[err c']| | |] eqn:E; [|done..]. intros [= <-]. by eapply step_flush_error.
Qed.

Lemma run_schedule_sound sched s s' : run_schedule sched s = Some s' -> rtc sys_step s s'.
Proof.
  revert s. induction sched as [|i sched IH]; intros s; simpl; [by intros [= <-]|].
  destruct (sys_next i s) as [s1|] eqn:E; [|done]. intros H.
  eapply rtc_l; [by eapply sys_next_sound|by apply IH].
Qed.

(** Two goroutines that publish on channel 1. *)
Definition two_publishers : system :=
  MkSystem connected ∅
    [Waiting (takes_mutex sample_publish) 0 sample_publish; Waiting (takes_mutex sample_publish) 0 sample_publish]
    [] false.

(** The second starts, and the first has to wait; then the first writes two
    frames. *)
Definition mid_second : system :=
  default two_publishers (run_schedule [1; 1; 1; 1; 1; 1; 0; 0; 0; 0]%nat two_publishers).

Lemma mid_second_reached : rtc sys_step two_publishers mid_second.
Proof. apply (run_schedule_sound [1; 1; 1; 1; 1; 1; 0; 0; 0; 0]%nat). by vm_compute. Qed.

Lemma senders_do_not_interleave_witness :
  exists done part,
    on_channel 1 (sys_sent mid_second) = concat (message_frames 1 4096 <$> done) ++ part /\
    done ≡ₚ all_sent 0 (sys_senders mid_second) /\
    (part = [] \/ exists i l msg rest, sys_senders mid_second !! i = Some (Writing l 0 msg rest) /\
       message_frames 1 4096 msg = part ++ rest).
Proof.
  apply (senders_do_not_interleave 0 1 two_publishers mid_second).
  - split_and!; [done|done|done|]. repeat constructor; by eauto.
  - split; [by exists (newChannel 1)|]. repeat constructor; by left.
  - exact mid_second_reached.
  - by vm_compute.
Defined.

(** ** What the mutex is needed for *)

(** A publisher, and the reader that answers a channel.flow. *)
Definition flow_ok : message := M_channelFlowOk (Mk_channelFlowOk true).
Definition publisher_and_flow : system :=
  MkSystem connected ∅
    [Waiting (takes_mutex sample_publish) 0 sample_publish; Waiting (takes_mutex flow_ok) 0 flow_ok] [] false.

Definition flow_between : system :=
  default publisher_and_flow (run_schedule [0; 0; 0; 1; 1; 0; 0; 0]%nat publisher_and_flow).

(** C36: the reader answers channel.flow without taking the mutex that its
    close-ok takes: there is an execution in which its flow-ok goes out between
    the frames of a publishing.  Both sends succeed, but a peer that puts
    contents together as the reader of this library does drops the
    publishing's method when the flow-ok arrives, and then its header and
    body. *)
Theorem flow_ok_breaks_publishing :
  rtc sys_step publisher_and_flow flow_between /\ sys_failed flow_between = false /\
  sys_senders flow_between = [Returned true 0 sample_publish None; Returned false 0 flow_ok None] /\
  (exists header body, sys_sent flow_between =
     [method_frame 1 sample_publish; method_frame 1 flow_ok; header; body] /\
   on_channel 1 (message_frames 1 4096 sample_publish) = [method_frame 1 sample_publish; header; body]) /\
  (exists c', mfor demux (sys_sent flow_between) connected = Ok (tt, c') /\
   mfor demux [method_frame 1 sample_publish; method_frame 1 flow_ok] connected = Ok (tt, c')).
Proof.
  split; [apply (run_schedule_sound [0; 0; 0; 1; 1; 0; 0; 0]%nat); by vm_compute|].
  split; [by vm_compute|]. split; [by vm_compute|]. split.
  - eexists _, _. split; by vm_compute.
  - eexists. split; vm_compute; reflexivity.
Qed.

(** ** A sender on its own *)

(** Mutex and the end of a sender that is alone. *)
Definition held (l : bool) (a : nat) : gset nat := if l then {[a]} else ∅.

Lemma release_held l a : release_mutex l a (held l a) = ∅.
Proof. unfold release_mutex, held. destruct l; [set_solver|done]. Qed.

Lemma writing_runs l a msg fs sent fl c err c1 end_ c2 :
  send_frames fs c = Ok (err, c1) -> Connection_flush c1 = Ok (end_, c2) ->
  exists sent' fl', rtc sys_step (MkSystem c (held l a) [Writing l a msg fs] sent fl)
    (MkSystem c2 ∅ [Returned l a msg (match err with Some e => Some e | None => end_ end)] sent' fl').
Proof.
  revert c sent. induction fs as [|f fs IH]; intros c sent E Ef.
  - injection E as <- <-. eexists _, _. apply rtc_once. rewrite <- (release_held l a).
    exact (step_flush 0 l a msg c (held l a) [Writing l a msg []] sent fl end_ c2 eq_refl Ef).
  - cbn [send_frames] in E. unfold mbind in E.
    destruct (Connection_sendUnflushed f c) as [[[e|] c']| | |] eqn:E1; [| |done..].
    + injection E as <- <-. eexists _, _. eapply rtc_l.
      { exact (step_write_error 0 l a msg f fs c (held l a) [Writing l a msg (f :: fs)] sent fl e c' eq_refl E1). }
      apply rtc_once. rewrite <- (release_held l a).
      exact (step_flush_error 0 l a msg e c' (held l a) [Failing l a msg e] sent true end_ c2 eq_refl Ef).
    + destruct (IH c' (sent ++ [f]) E Ef) as (sent' & fl' & H). exists sent', fl'. eapply rtc_l; [|exact H].
      exact (step_write 0 l a msg f fs c (held l a) [Writing l a msg (f :: fs)] sent fl c' eq_refl E1).
Qed.

Lemma entering l a msg c :
  rtc sys_step (MkSystem c ∅ [Waiting l a msg] [] false) (MkSystem c (held l a) [Entered l a msg] [] false).
Proof.
  apply rtc_once. destruct l.
  - replace (held true a) with ({[a]} ∪ (∅ : gset nat)) by (unfold held; set_solver).
    apply (step_lock 0 a msg c ∅ [Waiting true a msg]); [done|set_solver].
  - by apply (step_enter 0 a msg c ∅ [Waiting false a msg]).
Qed.

(** A method on its own frame, on an open channel or as the close-ok. *)
Lemma method_runs l a msg c ch err c' :
  cn_objs c !! a = Some ch -> message_getContent msg = None ->
  ch_closed ch = false \/ (exists m, msg = M_channelCloseOk m) ->
  Connection_send (method_frame (ch_id ch) msg) c = Ok (err, c') ->
  exists sent fl, rtc sys_step (MkSystem c (held l a) [Entered l a msg] [] false)
                    (MkSystem c' ∅ [Returned l a msg err] sent fl).
Proof.
  intros Ha Hm Hc E. eexists _, _. apply rtc_once. rewrite <- (release_held l a).
  exact (step_method 0 l a msg ch c (held l a) [Entered l a msg] [] false err c' eq_refl Ha Hm Hc E).
Qed.

Lemma closed_runs l a msg c ch err c' :
  cn_objs c !! a = Some ch -> ch_closed ch = true -> sendClosed a msg c = Ok (err, c') ->
  exists sent fl, rtc sys_step (MkSystem c (held l a) [Entered l a msg] [] false)
                    (MkSystem c' ∅ [Returned l a msg err] sent fl).
Proof.
  intros Ha Hc E. destruct (is_closeOk msg) eqn:Hm.
  - destruct msg; try done. unfold sendClosed, mbind in E. rewrite (get_chan_ok _ _ _ Ha) in E.
    eapply method_runs; [done|done|right; by eauto|exact E].
  - assert (err = Some (AmqpError ErrClosed) /\ c' = c) as [-> ->].
    { destruct msg; try done; by injection E as <- <-. }
    eexists _, _. apply rtc_once. rewrite <- (release_held l a).
    apply (step_refused 0 l a msg ch c (held l a) [Entered l a msg] [] false eq_refl Ha Hc).
    intros m ->. done.
Qed.

(** C27: the steps of a single goroutine amount to the whole call: whatever
    [ch.send] returns, errors included, with or without the mutex, an
    execution frame by frame returns the same and leaves the same connection. *)
Theorem send_is_an_execution l a msg c ch err c' :
  cn_objs c !! a = Some ch -> cn_FrameSize c <= 0 \/ frameHeaderSize < cn_FrameSize c ->
  Channel_send a msg c = Ok (err, c') ->
  exists sent fl, rtc sys_step (MkSystem c ∅ [Waiting l a msg] [] false)
                    (MkSystem c' ∅ [Returned l a msg err] sent fl).
Proof.
  intros Ha Hsz E.
  assert (exists sent fl, rtc sys_step (MkSystem c (held l a) [Entered l a msg] [] false)
            (MkSystem c' ∅ [Returned l a msg err] sent fl)) as (sent & fl & H).
  2: { exists sent, fl. etrans; [apply entering|exact H]. }
  assert (Channel_IsClosed a c = Ok (ch_closed ch, c)) as Hcl.
  { unfold Channel_IsClosed, mbind. by rewrite (get_chan_ok _ _ _ Ha). }
  unfold Channel_send in E. rewrite (mbind_ok _ _ _ _ _ Hcl) in E.
  destruct (ch_closed ch) eqn:Hc; [by eapply closed_runs|]. unfold sendOpen in E.
  destruct (message_getContent msg) as [[props body]|] eqn:Hm.
  - rewrite (mbind_ok _ _ _ _ _ (eq_refl : gets cn_FrameSize c = Ok (cn_FrameSize c, c))) in E. cbv zeta in E.
    rewrite (mbind_ok _ _ _ _ _ Hcl), (mbind_ok _ _ _ _ _ (get_chan_ok _ _ _ Ha)) in E.
    change (if 0 <? cn_FrameSize c then cn_FrameSize c - frameHeaderSize else len body)
      with (piece_size (cn_FrameSize c) body) in E.
    unfold mbind in E. rewrite send_content_frames in E by (by apply size_positive).
    destruct (send_frames _ c) as [[e1 c1]| | |] eqn:E1; [|done..].
    destruct (Connection_flush c1) as [[e2 c2]| | |] eqn:E2; [|done..]. injection E as <- <-.
    destruct (writing_runs l a msg _ [] false c e1 c1 e2 c2 E1 E2) as (sent & fl & H).
    exists sent, fl. eapply rtc_l; [|exact H].
    exact (step_content 0 l a msg ch props body c (held l a) [Entered l a msg] [] false eq_refl Ha Hc Hm Hsz).
  - rewrite (mbind_ok _ _ _ _ _ Hcl), (mbind_ok _ _ _ _ _ (get_chan_ok _ _ _ Ha)) in E.
    eapply method_runs; [done|done|by left|exact E].
Qed.

Lemma send_is_an_execution_witness :
  exists err c', Channel_send 0 sample_publish connected = Ok (err, c') /\
  exists sent fl, rtc sys_step (MkSystem connected ∅ [Waiting true 0 sample_publish] [] false)
                    (MkSystem c' ∅ [Returned true 0 sample_publish err] sent fl).
Proof.
  eexists _, _. split; [vm_compute; reflexivity|].
  eapply (send_is_an_execution true 0 sample_publish connected (newChannel 1));
    [reflexivity|by right|vm_compute; reflexivity].
Defined.
