(* ===== verification/Pending.v ===== *)
(** * Pending: calls that wait while their channel is shut down (channel.go)

    [ch.call] in its two halves: the request is sent, then the [select] on
    [ch.errors] and [ch.rpc] waits.  Several goroutines may be in the second
    half when the channel is shut down. *)

From S2P Require Import Prelude Types Io SpecConnection SpecChannel SpecBasic Spec091 Frame FrameFacts.
From S2P Require Import Delivery Consumers State Channel ChannelFacts ChannelApi Connection ConnectionFacts.
From S2P Require Import Registry Shutdown Safety Executions.

(** The second half of [ch.call], on the case of the [select] that fires. *)
Definition call_receive (a : nat) (res : list message) (r : reply) : M (option goerror * option message) :=
  match r with
  | FromErrors (Some e) =>
      upd_chan a (fun ch => with_errors (drop 1 (ch_errors ch)) ch) >> mret (Some (AmqpError e), None)
  | FromErrors None => mret (Some (AmqpError ErrClosed), None)
  | FromRpc (Some msg) =>
      if existsb (same_type msg) res then mret (None, Some msg)
      else mret (Some (AmqpError ErrCommandInvalid), None)
  | FromRpc None => mret (Some (AmqpError ErrClosed), None)
  end.

Lemma call_in_halves a req res r :
  Channel_call a req res r =
  (do err <- Channel_send a req;
   match err with
   | Some e => mret (Some e, None)
   | None => if message_wait req then call_receive a res r else mret (None, None)
   end).
Proof. done. Qed.

(** What a receive from [ch.errors] gives: an error that is queued, or the
    zero value of a closed channel; [None] when it blocks. *)
Definition errors_ready (ch : Channel) : option reply :=
  match ch_errors ch with
  | e :: _ => Some (FromErrors (Some e))
  | [] => if ch_errors_closed ch then Some (FromErrors None) else None
  end.

(** The goroutines waiting on [a] one after another, each with the types it
    waits for; a goroutine that blocks does not return. *)
Fixpoint waiters (a : nat) (calls : list (list message)) : M (list (option goerror)) :=
  match calls with
  | [] => mret []
  | res :: r =>
      do ch <- get_chan a;
      match errors_ready ch with
      | None => fun _ => NoFuel
      | Some rep =>
          do x <- call_receive a res rep;
          do xs <- waiters a r;
          mret (fst x :: xs)
      end
  end.

(** A channel whose [errors] is closed wakes every waiter: the queued errors
    first, then [ErrClosed]. *)
Lemma waiters_closed a calls c ch :
  cn_objs c !! a = Some ch -> ch_errors_closed ch = true ->
  exists c', waiters a calls c =
    Ok (take (length calls) (((fun e => Some (AmqpError e)) <$> ch_errors ch) ++
                             replicate (length calls) (Some (AmqpError ErrClosed))), c').
Proof.
  revert c ch. induction calls as [|res calls IH]; intros c ch Ha Hc; [by exists c|].
  cbn [waiters]. rewrite (mbind_ok _ _ _ _ _ (get_chan_ok _ _ _ Ha)). unfold errors_ready.
  destruct (ch_errors ch) as [|e es] eqn:He.
  - rewrite Hc. cbn [call_receive]. rewrite (mbind_ok _ _ _ _ _ eq_refl).
    destruct (IH c ch Ha Hc) as (c' & E). rewrite (mbind_ok _ _ _ _ _ E), He. exists c'. done.
  - cbn [call_receive].
    set (ch1 := with_errors (drop 1 (ch_errors ch)) ch).
    assert (upd_chan a (fun ch => with_errors (drop 1 (ch_errors ch)) ch) c = Ok (tt, set_chan a ch1 c)) as Eu
      by exact (upd_chan_ok a _ c ch Ha).
    rewrite mbind_assoc, (mbind_ok _ _ _ _ _ Eu), (mbind_ok _ _ _ _ _ eq_refl).
    destruct (IH (set_chan a ch1 c) ch1) as (c' & E).
    { apply list_lookup_insert_eq. by eapply lookup_lt_Some. }
    { exact Hc. }
    rewrite (mbind_ok _ _ _ _ _ E). exists c'. cbn [ch1 with_errors ch_errors]. rewrite He. cbn [drop].
    unfold mret. do 2 f_equal. cbn [fmap list_fmap app length take replicate fst]. f_equal.
    assert (forall (l k : list (option goerror)) n, (n <= length l + length k)%nat ->
      take n (l ++ k) = take n (l ++ k ++ [Some (AmqpError ErrClosed)])) as Ht.
    { intros l k n Hn. rewrite app_assoc. by rewrite (take_app_le (l ++ k)) by (rewrite length_app; lia). }
    rewrite (Ht _ (replicate (length calls) _)) by (rewrite length_replicate; lia).
    by rewrite <- replicate_S_end.
Qed.

(** C15: shutting a channel down wakes every call that waits on it, however
    many there are: with an error, one of them returns that error and the
    others [ErrClosed]; without, all return [ErrClosed].  None waits for
    ever. *)
Theorem shutdown_wakes_calls a e c ch calls :
  usable c -> cn_objs c !! a = Some ch -> ch_shut ch = false -> ch_errors ch = [] ->
  exists c' c'', Channel_shutdown a e c = Ok (tt, c') /\
    waiters a calls c' =
      Ok (take (length calls) (((fun e => Some (AmqpError e)) <$> option_list e) ++
                               replicate (length calls) (Some (AmqpError ErrClosed))), c'').
Proof.
  intros Hu%usable_wf Ha Hs He.
  destruct (Channel_shutdown_ok _ a e c ch (sw_objects c Hu) Ha) as (c' & E & _ & H).
  rewrite Hs in H. destruct H as (ch' & -> & Hd). destruct (sd_errors _ _ _ Hd) as [E1 E2].
  assert (cn_objs (after_shutdown a e ch ch' c) !! a = Some ch') as Ha'.
  { apply list_lookup_insert_eq. by eapply lookup_lt_Some. }
  destruct (waiters_closed a calls _ ch' Ha' E2) as (c'' & Hw). rewrite E1, He in Hw.
  by exists (after_shutdown a e ch ch' c), c''.
Qed.

Lemma shutdown_wakes_calls_witness :
  exists c' c'', Channel_shutdown 0 (Some ErrUnexpectedFrame) in_use = Ok (tt, c') /\
    waiters 0 [[]; []; []] c' =
      Ok ([Some (AmqpError ErrUnexpectedFrame); Some (AmqpError ErrClosed); Some (AmqpError ErrClosed)], c'').
Proof.
  apply (shutdown_wakes_calls 0 (Some ErrUnexpectedFrame) in_use in_use_channel [[]; []; []]);
    [apply in_use_usable|apply in_use_channel_at|by vm_compute|by vm_compute].
Defined.
