(* ===== verification/Locks.v ===== *)
(** * Locks: the synchronisation of connections and channels (connection.go,
      channel.go, confirms.go, consumers.go)

    What goroutines do to the mutexes, the [sync.Once]s and the state that
    decides which of them are taken, and where they wait for someone outside:
    the transport, a listener, the server.  Every function that takes a lock
    is a program over these; goroutines interleave at each of their steps.
    [notifyM] is an [RWMutex], of which only the goroutine that reads frames
    takes the shared side, so that it is a mutex here. *)

From S2P Require Import Prelude.

Module Locks.

(** ** Locks *)

(** Channels by their address. *)
Inductive lock :=
  | ConnOnce                            (** [c.destructor] *)
  | ConnM                               (** [c.m] *)
  | SendM                               (** [c.sendM] *)
  | ChanOnce (a : nat)                  (** [ch.destructor] *)
  | ChanM (a : nat)                     (** [ch.m] *)
  | NotifyM (a : nat)                   (** [ch.notifyM] *)
  | ConfirmM (a : nat)                  (** [ch.confirmM] *)
  | ConsumersM (a : nat)                (** of [ch.consumers] *)
  | ConfirmsM (a : nat)                 (** [ch.confirms.m] *)
  | PublishedM (a : nat)                (** [ch.confirms.publishedMut] *)
  | DeferredM (a : nat).                (** of the deferred confirmations *)

#[export] Instance lock_eq_dec : EqDecision lock.
Proof. solve_decision. Defined.

(** What a goroutine can wait for besides a lock. *)
Inductive wait :=
  | W_write                             (** the transport takes bytes, or fails *)
  | W_close_transport                   (** [c.conn.Close()] *)
  | W_reply (a : nat)                   (** the [select] of [ch.call] *)
  | W_conn_reply
  | W_rpc (a : nat)                     (** the [select] at the end of [dispatch] *)
  | W_conn_rpc
  | W_closed                            (** a listener of the connection receives *)
  | W_blocked
  | W_chan_closed (a : nat)             (** a listener of the channel receives *)
  | W_flow (a : nat)
  | W_cancel (a : nat)
  | W_return (a : nat)
  | W_confirm (a : nat)
  | W_buffer (a : nat)                  (** the goroutine of a consumer receives *)
  | W_buffers (a : nat).                (** the goroutines of the consumers return *)

(** ** State *)

Record chan_state := MkChanState {
  x_closed : bool;
  x_done : bool;                        (** [ch.destructor] *)
  x_noNotify : bool;
  x_confirming : bool;
  x_closes : nat;                       (** how many listeners *)
  x_flows : nat;
  x_returns : nat;
  x_cancels : nat;
  x_confirms : nat
}.

Definition new_chan : chan_state := MkChanState false false false false 0 0 0 0 0.

Record shared := MkShared {
  s_closed : bool;
  s_done : bool;                        (** [c.destructor] *)
  s_noNotify : bool;
  s_transport : bool;                   (** not closed *)
  s_closes : nat;
  s_blocks : nat;
  s_registry : list nat;                (** [c.channels] *)
  s_chans : list chan_state
}.

Definition chan_at (a : nat) (s : shared) : chan_state := default new_chan (s_chans s !! a).

Definition set_chan (a : nat) (f : chan_state -> chan_state) (s : shared) : shared :=
  MkShared (s_closed s) (s_done s) (s_noNotify s) (s_transport s) (s_closes s) (s_blocks s) (s_registry s)
    (alter f a (s_chans s)).

Definition set_conn_closed (s : shared) : shared :=
  MkShared true (s_done s) (s_noNotify s) (s_transport s) (s_closes s) (s_blocks s) (s_registry s) (s_chans s).
Definition set_conn_done (s : shared) : shared :=
  MkShared (s_closed s) true (s_noNotify s) (s_transport s) (s_closes s) (s_blocks s) (s_registry s) (s_chans s).
Definition close_transport (s : shared) : shared :=
  MkShared (s_closed s) (s_done s) (s_noNotify s) false (s_closes s) (s_blocks s) (s_registry s) (s_chans s).
(** [c.channels = nil; c.noNotify = true] *)
Definition clear_registry (s : shared) : shared :=
  MkShared (s_closed s) (s_done s) true (s_transport s) (s_closes s) (s_blocks s) [] (s_chans s).
Definition set_registry (r : list nat) (s : shared) : shared :=
  MkShared (s_closed s) (s_done s) (s_noNotify s) (s_transport s) (s_closes s) (s_blocks s) r (s_chans s).
Definition add_chan (s : shared) : shared :=
  MkShared (s_closed s) (s_done s) (s_noNotify s) (s_transport s) (s_closes s) (s_blocks s)
    (s_registry s ++ [length (s_chans s)]) (s_chans s ++ [new_chan]).
Definition add_listeners (closes blocks : nat) (s : shared) : shared :=
  MkShared (s_closed s) (s_done s) (s_noNotify s) (s_transport s) (s_closes s + closes) (s_blocks s + blocks)
    (s_registry s) (s_chans s).

Definition set_closed (x : chan_state) : chan_state :=
  MkChanState true (x_done x) (x_noNotify x) (x_confirming x) (x_closes x) (x_flows x) (x_returns x) (x_cancels x) (x_confirms x).
Definition set_done (x : chan_state) : chan_state :=
  MkChanState (x_closed x) true (x_noNotify x) (x_confirming x) (x_closes x) (x_flows x) (x_returns x) (x_cancels x) (x_confirms x).
Definition set_confirming (x : chan_state) : chan_state :=
  MkChanState (x_closed x) (x_done x) (x_noNotify x) true (x_closes x) (x_flows x) (x_returns x) (x_cancels x) (x_confirms x).
(** [ch.flows = nil; ...], [c.listeners = nil] and [ch.noNotify = true] *)
Definition clear_listeners (x : chan_state) : chan_state :=
  MkChanState (x_closed x) (x_done x) (x_noNotify x) (x_confirming x) 0 0 0 0 (x_confirms x).
Definition clear_confirms (x : chan_state) : chan_state :=
  MkChanState (x_closed x) (x_done x) (x_noNotify x) (x_confirming x) (x_closes x) (x_flows x) (x_returns x) (x_cancels x) 0.
Definition set_noNotify (x : chan_state) : chan_state :=
  MkChanState (x_closed x) (x_done x) true (x_confirming x) (x_closes x) (x_flows x) (x_returns x) (x_cancels x) (x_confirms x).
Definition listen (closes flows returns cancels confirms : nat) (x : chan_state) : chan_state :=
  MkChanState (x_closed x) (x_done x) (x_noNotify x) (x_confirming x) (x_closes x + closes) (x_flows x + flows)
    (x_returns x + returns) (x_cancels x + cancels) (x_confirms x + confirms).

(** ** Programs *)

(** [Choose]: what the transport or the server answered. *)
Inductive prog :=
  | Done
  | Lock (l : lock) (k : prog)
  | Unlock (l : lock) (k : prog)
  | Wait (w : wait) (k : prog)
  | Get (k : shared -> prog)
  | Put (f : shared -> shared) (k : prog)
  | Choose (k1 k2 : prog)
  | Go (p : prog) (k : prog).

Fixpoint times (n : nat) (f : prog -> prog) (k : prog) : prog :=
  match n with O => k | S m => f (times m f k) end.

(** [once.Do(f)]: whoever comes while [f] runs waits for its end. *)
Definition once (o : lock) (is_done : shared -> bool) (mark : shared -> shared) (f : prog -> prog) (k : prog) : prog :=
  Get (fun s =>
    if is_done s then k
    else Lock o (Get (fun s =>
           if is_done s then Unlock o k else f (Put mark (Unlock o k))))).

(** *** Confirmations and consumers *)

(** A method of the deferred confirmations. *)
Definition deferred (a : nat) (k : prog) : prog := Lock (DeferredM a) (Unlock (DeferredM a) k).

Definition confirms_Listen (a : nat) (k : prog) : prog :=
  Lock (ConfirmsM a) (Put (set_chan a (listen 0 0 0 0 1)) (Unlock (ConfirmsM a) k)).

(** [publish] and [unpublish] *)
Definition confirms_publish (a : nat) (k : prog) : prog :=
  Lock (PublishedM a) (deferred a (Unlock (PublishedM a) k)).

(** [confirm]: to every listener. *)
Definition confirms_confirm (a : nat) (k : prog) : prog :=
  Get (fun s => times (x_confirms (chan_at a s)) (Wait (W_confirm a)) k).

(** [One] and [Multiple] with [n] confirmations handed out, and [m] in
    [resequence]. *)
Definition confirms_One (a n m : nat) (k : prog) : prog :=
  Lock (ConfirmsM a) (deferred a (times n (confirms_confirm a)
    (Lock (PublishedM a) (times m (confirms_confirm a) (Unlock (PublishedM a) (Unlock (ConfirmsM a) k)))))).

Definition confirms_Close (a : nat) (k : prog) : prog :=
  Lock (ConfirmsM a) (deferred a (Put (set_chan a clear_confirms) (Unlock (ConfirmsM a) k))).

(** [add] and [cancel] *)
Definition consumers_change (a : nat) (k : prog) : prog := Lock (ConsumersM a) (Unlock (ConsumersM a) k).

Definition consumers_send (a : nat) (found : bool) (k : prog) : prog :=
  Lock (ConsumersM a) ((if found then Wait (W_buffer a) else id) (Unlock (ConsumersM a) k)).

Definition consumers_close (a : nat) (k : prog) : prog :=
  Lock (ConsumersM a) (Wait (W_buffers a) (Unlock (ConsumersM a) k)).

(** *** Shutting down *)

Definition Channel_shutdown (a : nat) (err : bool) (k : prog) : prog :=
  Put (set_chan a set_closed)
    (once (ChanOnce a) (fun s => x_done (chan_at a s)) (set_chan a set_done) (fun k =>
       Lock (ChanM a) (Lock (NotifyM a)
         (Get (fun s => times (if err then x_closes (chan_at a s) else 0) (Wait (W_chan_closed a))
           (consumers_close a (Put (set_chan a clear_listeners) (confirms_Close a
             (Put (set_chan a set_noNotify) (Unlock (NotifyM a) (Unlock (ChanM a) k))))))))))
     k).

Fixpoint shutdown_channels (err : bool) (as_ : list nat) (k : prog) : prog :=
  match as_ with [] => k | a :: r => Channel_shutdown a err (shutdown_channels err r k) end.

Definition Connection_shutdown (err : bool) (k : prog) : prog :=
  Put set_conn_closed
    (once ConnOnce s_done set_conn_done (fun k =>
       Lock ConnM
         (Get (fun s => times (if err then s_closes s else 0) (Wait W_closed)
           (shutdown_channels err (s_registry s)
             (Wait W_close_transport (Put clear_registry (Unlock ConnM k)))))))
     k).

Definition releaseChannel (a : nat) (k : prog) : prog :=
  Lock ConnM
    (Get (fun s =>
       if negb (s_closed s) && bool_decide (a ∈ s_registry s)
       then Put (set_registry (List.filter (fun b => negb (Nat.eqb b a)) (s_registry s))) (Unlock ConnM k)
       else Unlock ConnM k)).

Definition closeChannel (a : nat) (err : bool) (k : prog) : prog := Channel_shutdown a err (releaseChannel a k).

(** *** Sending *)

(** [send] and [sendUnflushed]; a failure shuts the connection down in a
    goroutine of its own. *)
Definition Connection_send (kerr kok : prog) : prog :=
  Get (fun s =>
    if s_closed s then kerr
    else Lock SendM (Wait W_write (Unlock SendM (Choose (Go (Connection_shutdown true Done) kerr) kok)))).

(** [endSendUnflushed] *)
Definition endSendUnflushed (kerr kok : prog) : prog :=
  Lock SendM (Wait W_write (Unlock SendM (Choose kerr kok))).

Inductive msg :=
  | Method
  | CloseOk
  | Content (bodies : nat).

Definition sendClosed (m : msg) (kerr kok : prog) : prog :=
  match m with CloseOk => Connection_send kerr kok | _ => kerr end.

(** The frames of a content, and the flush whatever happens. *)
Fixpoint send_frames (n : nat) (kerr kok : prog) : prog :=
  match n with
  | O => endSendUnflushed kerr kok
  | S m => Connection_send (endSendUnflushed kerr kerr) (send_frames m kerr kok)
  end.

Definition sendOpen (a : nat) (m : msg) (kerr kok : prog) : prog :=
  Get (fun s =>
    if x_closed (chan_at a s) then sendClosed m kerr kok
    else match m with
         | Content bodies => send_frames (2 + bodies) kerr kok
         | _ => Connection_send kerr kok
         end).

Definition Channel_send (a : nat) (m : msg) (kerr kok : prog) : prog :=
  Get (fun s => if x_closed (chan_at a s) then sendClosed m kerr kok else sendOpen a m kerr kok).

(** [ch.call] and [c.call], of a method that waits or not. *)
Definition Channel_call (a : nat) (waits : bool) (kerr kok : prog) : prog :=
  Channel_send a Method kerr (if waits then Wait (W_reply a) (Choose kerr kok) else kok).

Definition Connection_call (kerr kok : prog) : prog :=
  Connection_send kerr (Wait W_conn_reply (Choose kerr kok)).

(** ** Operations *)

(** A method of the server for a channel. *)
Inductive delivery :=
  | D_close
  | D_flow
  | D_cancel
  | D_return
  | D_confirm (n m : nat)               (** how many confirmations it lets go *)
  | D_deliver (found : bool)
  | D_reply
  | D_closeOk                           (** a reply as well *)
  | D_part (method : bool).             (** a frame of a content that is not all there *)

Inductive op :=
  | Call (a : nat) (waits : bool)       (** any method that is an RPC *)
  | Publish (a : nat) (bodies : nat)
  | Acknowledge (a : nat)               (** [Ack], [Nack], [Reject] *)
  | Confirm (a : nat)
  | Consume (a : nat) (waits : bool)
  | Cancel (a : nat) (waits : bool)
  | NextSeqNo (a : nat)
  | Listen (a : nat) (closes flows returns cancels : nat)
  | NotifyPublish (a : nat)
  | Close (a : nat)
  | OpenChannel
  | ConnListen (closes blocks : nat)
  | ConnClose                           (** [Close] and [CloseDeadline] *)
  | UpdateSecret
  | Heartbeat
  | Arrives (a : nat) (d : delivery)    (** the reader *)
  | Arrives0 (close : bool)             (** connection.close, or a reply *)
  | Blocked
  | Unexpected0
  | ReadFails.

(** [dispatch], when the frame is the last of its method. *)
Definition dispatch (a : nat) (d : delivery) (k : prog) : prog :=
  match d with
  | D_close =>
      Lock (ChanM a) (let k := Unlock (ChanM a) (closeChannel a true k) in Channel_send a CloseOk k k)
  | D_flow =>
      Lock (NotifyM a) (Get (fun s => times (x_flows (chan_at a s)) (Wait (W_flow a))
        (Unlock (NotifyM a) (Channel_send a Method k k))))
  | D_cancel =>
      Lock (NotifyM a) (Get (fun s => times (x_cancels (chan_at a s)) (Wait (W_cancel a))
        (Unlock (NotifyM a) (consumers_change a k))))
  | D_return =>
      Lock (NotifyM a) (Get (fun s => times (x_returns (chan_at a s)) (Wait (W_return a)) (Unlock (NotifyM a) k)))
  | D_confirm n m => Get (fun s => if x_confirming (chan_at a s) then confirms_One a n m k else k)
  | D_deliver found => consumers_send a found k
  | D_reply | D_closeOk => Wait (W_rpc a) k
  | D_part _ => k
  end.

(** [go func() { c.closeWith(err) }()] *)
Definition close_in_goroutine (k : prog) : prog :=
  Go (Get (fun s => if s_closed s then Done
                    else let k := Connection_shutdown true Done in Connection_call k k)) k.

(** For a channel that is not there; header and body frames are dropped. *)
Definition dispatchClosed (d : delivery) (k : prog) : prog :=
  match d with
  | D_close => Connection_send k k
  | D_closeOk | D_return | D_deliver _ | D_part false => k
  | _ => close_in_goroutine k
  end.

(** [updateChannel]: the channel is marked closed when its close was read. *)
Definition dispatchN (a : nat) (d : delivery) (k : prog) : prog :=
  Lock ConnM
    (Get (fun s =>
       if bool_decide (a ∈ s_registry s)
       then Put (match d with D_close => set_chan a set_closed | _ => id end) (Unlock ConnM (dispatch a d k))
       else Unlock ConnM (dispatchClosed d k))).

(** *** Methods of channels *)

Definition PublishWithDeferredConfirm (a bodies : nat) (k : prog) : prog :=
  Lock (ChanM a)
    (Get (fun s =>
       let confirming := x_confirming (chan_at a s) in
       let k := Unlock (ChanM a) k in
       (if confirming then confirms_publish a else id)
         (Channel_send a (Content bodies)
            (Get (fun s => if x_confirming (chan_at a s) then confirms_publish a k else k)) k))).

(** [Ack], [Nack] and [Reject] *)
Definition Channel_Ack (a : nat) (k : prog) : prog :=
  Lock (ChanM a) (let k := Unlock (ChanM a) k in Channel_send a Method k k).

Definition Channel_Confirm (a : nat) (k : prog) : prog :=
  Channel_call a true k (Lock (ConfirmM a) (Put (set_chan a set_confirming) (Unlock (ConfirmM a) k))).

Definition Channel_Consume (a : nat) (waits : bool) (k : prog) : prog :=
  consumers_change a (Channel_call a waits (consumers_change a k) k).

Definition Channel_Cancel (a : nat) (waits : bool) (k : prog) : prog :=
  Channel_call a waits k (consumers_change a k).

Definition GetNextPublishSeqNo (a : nat) (k : prog) : prog := Lock (PublishedM a) (Unlock (PublishedM a) k).

(** [NotifyClose], [NotifyFlow], [NotifyReturn] and [NotifyCancel] *)
Definition Channel_Notify (a closes flows returns cancels : nat) (k : prog) : prog :=
  Lock (NotifyM a)
    (Put (set_chan a (fun x => if x_noNotify x then x else listen closes flows returns cancels 0 x))
      (Unlock (NotifyM a) k)).

Definition Channel_NotifyPublish (a : nat) (k : prog) : prog :=
  Lock (NotifyM a)
    (Get (fun s =>
       if x_noNotify (chan_at a s) then Unlock (NotifyM a) k else confirms_Listen a (Unlock (NotifyM a) k))).

Definition Channel_Close (a : nat) (k : prog) : prog :=
  Get (fun s =>
    if x_closed (chan_at a s) then k
    else let k := closeChannel a false k in Channel_call a true k k).

(** *** Methods of connections *)

(** [allocateChannel] and [open] *)
Definition openChannel (k : prog) : prog :=
  Lock ConnM
    (Get (fun s =>
       if s_closed s then Unlock ConnM k
       else Choose (Unlock ConnM k)
              (Put add_chan
                (let a := length (s_chans s) in
                 Unlock ConnM (Channel_call a true (releaseChannel a k) k))))).

(** [NotifyClose] and [NotifyBlocked] *)
Definition Connection_Notify (closes blocks : nat) (k : prog) : prog :=
  Lock ConnM (Put (fun s => if s_noNotify s then s else add_listeners closes blocks s) (Unlock ConnM k)).

(** [Close], and [CloseDeadline], whose deadline may not be set. *)
Definition Connection_CloseDeadline (k : prog) : prog :=
  Get (fun s =>
    if s_closed s then k else let k := Connection_shutdown false k in Choose k (Connection_call k k)).

Definition Connection_UpdateSecret (k : prog) : prog := Get (fun s => if s_closed s then k else Connection_call k k).

(** *** The reader *)

(** A [connection.close], or a reply. *)
Definition dispatch0 (close : bool) (k : prog) : prog :=
  if close then let k := Connection_shutdown true k in Connection_send k k else Wait W_conn_rpc k.

Definition dispatch0_blocked (k : prog) : prog := Get (fun s => times (s_blocks s) (Wait W_blocked) k).

Definition run (o : op) (k : prog) : prog :=
  match o with
  | Call a waits => Channel_call a waits k k
  | Publish a bodies => PublishWithDeferredConfirm a bodies k
  | Acknowledge a => Channel_Ack a k
  | Confirm a => Channel_Confirm a k
  | Consume a waits => Channel_Consume a waits k
  | Cancel a waits => Channel_Cancel a waits k
  | NextSeqNo a => GetNextPublishSeqNo a k
  | Listen a closes flows returns cancels => Channel_Notify a closes flows returns cancels k
  | NotifyPublish a => Channel_NotifyPublish a k
  | Close a => Channel_Close a k
  | OpenChannel => openChannel k
  | ConnListen closes blocks => Connection_Notify closes blocks k
  | ConnClose => Connection_CloseDeadline k
  | UpdateSecret => Connection_UpdateSecret k
  | Heartbeat => Connection_send k k
  | Arrives a d => dispatchN a d k
  | Arrives0 close => dispatch0 close k
  | Blocked => dispatch0_blocked k
  | Unexpected0 => close_in_goroutine k
  | ReadFails => Connection_shutdown true k
  end.

(** The operations of a goroutine one after the other. *)
Definition goroutine (os : list op) : prog := foldr run Done os.

(** ** Systems *)

(** A goroutine with the locks it holds. *)
Definition thread : Type := prog * list lock.

Record sys := MkSys { state : shared; threads : list thread }.

Definition free (l : lock) (σ : sys) : bool := forallb (fun t => negb (bool_decide (l ∈ snd t))) (threads σ).

Definition after (w : wait) (s : shared) : shared :=
  match w with W_close_transport => close_transport s | _ => s end.

(** The next step of goroutine [i]: [answered] are the waits that are over,
    [c] resolves [Choose].  Unlocking a mutex that is not locked panics. *)
Definition exec (answered : wait -> bool) (i : nat) (c : bool) (σ : sys) : option sys :=
  match threads σ !! i with
  | Some (p, held) =>
      let next p' held' := MkSys (state σ) (<[i := (p', held')]> (threads σ)) in
      match p with
      | Done => None
      | Lock l k => if free l σ then Some (next k (l :: held)) else None
      | Unlock l k => if bool_decide (l ∈ held) then Some (next k (List.filter (fun h => bool_decide (h <> l)) held)) else None
      | Wait w k => if answered w then Some (MkSys (after w (state σ)) (<[i := (k, held)]> (threads σ))) else None
      | Get k => Some (next (k (state σ)) held)
      | Put f k => Some (MkSys (f (state σ)) (<[i := (k, held)]> (threads σ)))
      | Choose k1 k2 => Some (next (if c then k1 else k2) held)
      | Go p' k => Some (MkSys (state σ) (<[i := (k, held)]> (threads σ) ++ [(p', [])]))
      end
  | None => None
  end.

Definition sys_step (answered : wait -> bool) (σ σ' : sys) : Prop := exists i c, exec answered i c σ = Some σ'.

(** Goroutines of the application, of the connection, and any state. *)
Definition initial (s : shared) (gs : list (list op)) : sys := MkSys s ((fun os => (goroutine os, [])) <$> gs).

Definition reaches (answered : wait -> bool) (s : shared) (gs : list (list op)) (σ : sys) : Prop :=
  rtc (sys_step answered) (initial s gs) σ.

End Locks.
