(* ===== verification/LocksFacts.v ===== *)
(** * LocksFacts: the order of the locks

    Every operation takes the locks in one order, releases them the other way
    round, and has few of them when it waits for somebody outside; in every
    state that goroutines reach each of them goes on so, and a lock has one
    owner. *)

From S2P Require Import Prelude Locks.

Module LocksFacts.
Import Locks.

(** ** The order *)

Definition rank (l : lock) : nat :=
  match l with
  | ConnOnce => 0
  | ConnM => 1
  | ChanOnce _ => 2
  | ChanM _ => 3
  | NotifyM _ => 4
  | ConfirmM _ => 5
  | ConsumersM _ => 6
  | ConfirmsM _ => 7
  | PublishedM _ => 8
  | DeferredM _ => 9
  | SendM => 10
  end.

Definition below (l : lock) (held : list lock) : Prop := Forall (fun h => (rank h < rank l)%nat) held.

(** The locks that may be held while waiting. *)
Definition under (w : wait) (l : lock) : bool :=
  match w, l with
  | W_write, (SendM | ChanM _) => true
  | (W_closed | W_close_transport), (ConnOnce | ConnM) => true
  | (W_chan_closed a | W_buffers a), (ChanOnce b | ChanM b | NotifyM b) => bool_decide (a = b)
  | (W_chan_closed _ | W_buffers _), (ConnOnce | ConnM) => true
  | (W_buffers a | W_buffer a), ConsumersM b => bool_decide (a = b)
  | (W_flow a | W_cancel a | W_return a), NotifyM b => bool_decide (a = b)
  | W_confirm a, (ConfirmsM b | PublishedM b) => bool_decide (a = b)
  | _, _ => false
  end.

(** The transport is closed under the mutex of the connection. *)
Definition may_wait (w : wait) (held : list lock) : Prop :=
  Forall (fun l => under w l = true) held /\ (w = W_close_transport -> ConnM ∈ held).

(** Locks are taken upwards and released in the opposite order, all of them
    before the end. *)
Fixpoint ordered (held : list lock) (p : prog) : Prop :=
  match p with
  | Done => held = []
  | Lock l k => below l held /\ ordered (l :: held) k
  | Unlock l k => match held with h :: r => h = l /\ ordered r k | [] => False end
  | Wait w k => may_wait w held /\ ordered held k
  | Get k => forall s, ordered held (k s)
  | Put f k => (forall s, s_transport (f s) = s_transport s) /\ ordered held k
  | Choose k1 k2 => ordered held k1 /\ ordered held k2
  | Go p k => ordered [] p /\ ordered held k
  end.

Lemma times_ordered held n f k :
  (forall k, ordered held k -> ordered held (f k)) -> ordered held k -> ordered held (times n f k).
Proof. intros Hf Hk. induction n as [|n IH]; [done|]. by apply Hf. Qed.

Lemma below_mono l l' held : (rank l <= rank l')%nat -> below l held -> below l' held.
Proof. intros Hl H. eapply Forall_impl; [|exact H]. simpl. lia. Qed.

Lemma below_cons l h held : (rank h < rank l)%nat -> below h held -> below l (h :: held).
Proof. intros Hl H. constructor; [done|]. eapply below_mono; [|done]. lia. Qed.

(** ** Every program is ordered *)

(** [below] of concrete locks over what is known of the others. *)
Ltac order :=
  solve [repeat first [assumption | apply below_cons; [simpl; lia|] | constructor; [simpl; lia|] | constructor
                       | eapply below_mono; [|eassumption]; simpl; lia]].

Lemma once_ordered o is_done mark f held k :
  below o held -> (forall s, s_transport (mark s) = s_transport s) -> ordered held k ->
  (forall k, ordered (o :: held) k -> ordered (o :: held) (f k)) -> ordered held (once o is_done mark f k).
Proof.
  intros Ho Hm Hk Hf s. destruct (is_done s); [done|]. split; [done|]. intros s'. destruct (is_done s'); [done|].
  apply Hf. by repeat split.
Qed.

Lemma deferred_ordered a held k : below (DeferredM a) held -> ordered held k -> ordered held (deferred a k).
Proof. intros H Hk. by repeat split. Qed.

Lemma publish_ordered a held k :
  below (PublishedM a) held -> ordered held k -> ordered held (confirms_publish a k).
Proof. intros H Hk. split; [done|]. apply deferred_ordered; [order|]. by split. Qed.

Lemma confirm_ordered a held k :
  Forall (fun l => under (W_confirm a) l = true) held -> ordered held k -> ordered held (confirms_confirm a k).
Proof. intros H Hk s. apply times_ordered; [|done]. intros k' Hk'. by split_and!. Qed.

Lemma under_self (a : nat) : bool_decide (a = a) = true.
Proof. by apply bool_decide_eq_true. Qed.

(** The locks held while waiting are among those that may be. *)
Ltac permitted :=
  repeat first [ assumption | constructor; simpl; rewrite ?under_self; reflexivity
               | constructor; [simpl; rewrite ?under_self; reflexivity|] | constructor ].

Lemma One_ordered a n m k : ordered [] k -> ordered [] (confirms_One a n m k).
Proof.
  intros Hk. split; [order|]. apply deferred_ordered; [order|].
  apply times_ordered; [intros k' Hk'; apply confirm_ordered; [permitted|done]|].
  split; [order|]. apply times_ordered; [intros k' Hk'; apply confirm_ordered; [permitted|done]|]. by repeat split.
Qed.

Lemma change_ordered a held k :
  below (ConsumersM a) held -> ordered held k -> ordered held (consumers_change a k).
Proof. intros H Hk. by repeat split. Qed.

(** ** Shutting down *)

(** Nothing, or what the shutdown of the connection holds. *)
Definition outside (held : list lock) : Prop := held = [] \/ held = [ConnM; ConnOnce].

Lemma Channel_shutdown_ordered a err held k :
  outside held -> ordered held k -> ordered held (Channel_shutdown a err k).
Proof.
  intros Ho Hk. split; [done|]. apply once_ordered; [destruct Ho as [-> | ->]; order|done|done|]. clear Hk k. intros k Hk.
  assert (below (ChanM a) (ChanOnce a :: held)) as H1 by (destruct Ho as [-> | ->]; order).
  split; [done|]. split; [order|]. intros s. apply times_ordered.
  - intros k' Hk'. split; [|done]. split; [|done]. destruct Ho as [-> | ->]; permitted.
  - split; [order|]. split; [split; [destruct Ho as [-> | ->]; permitted|done]|]. split; [done|]. split; [done|].
    split; [order|]. apply deferred_ordered; [order|]. by repeat split.
Qed.

Lemma shutdown_channels_ordered err as_ k :
  ordered [ConnM; ConnOnce] k -> ordered [ConnM; ConnOnce] (shutdown_channels err as_ k).
Proof. intros Hk. induction as_ as [|a r IH]; [done|]. apply Channel_shutdown_ordered; [by right|done]. Qed.

Lemma Connection_shutdown_ordered err k : ordered [] k -> ordered [] (Connection_shutdown err k).
Proof.
  intros Hk. split; [done|]. apply once_ordered; [order|done|done|]. clear Hk k. intros k Hk. split; [order|].
  intros s. apply times_ordered; [intros k' Hk'; split; [|done]; split; [permitted|done]|].
  apply shutdown_channels_ordered. split; [split; [permitted|intros _; by left]|]. by repeat split.
Qed.

Lemma release_ordered a k : ordered [] k -> ordered [] (releaseChannel a k).
Proof. intros Hk. split; [order|]. intros s. destruct (_ && _); by repeat split. Qed.

Lemma closeChannel_ordered a err k : ordered [] k -> ordered [] (closeChannel a err k).
Proof. intros Hk. apply Channel_shutdown_ordered; [by left|]. by apply release_ordered. Qed.

(** ** Sending *)

(** Nothing, or the mutex of a channel. *)
Definition sending (held : list lock) : Prop := held = [] \/ exists a, held = [ChanM a].

Lemma Connection_send_ordered held kerr kok :
  sending held -> ordered held kerr -> ordered held kok -> ordered held (Connection_send kerr kok).
Proof.
  intros Hs H1 H2 s. destruct (s_closed s); [done|].
  split; [destruct Hs as [->|[a ->]]; order|]. split; [split; [destruct Hs as [->|[a ->]]; permitted|done]|].
  split; [done|]. split; [|done]. split; [by apply Connection_shutdown_ordered|done].
Qed.

Lemma flush_ordered held kerr kok :
  sending held -> ordered held kerr -> ordered held kok -> ordered held (endSendUnflushed kerr kok).
Proof.
  intros Hs H1 H2. split; [destruct Hs as [->|[a ->]]; order|].
  split; [split; [destruct Hs as [->|[a ->]]; permitted|done]|]. by repeat split.
Qed.

Lemma send_frames_ordered held n kerr kok :
  sending held -> ordered held kerr -> ordered held kok -> ordered held (send_frames n kerr kok).
Proof.
  intros Hs H1 H2. induction n as [|n IH]; [by apply flush_ordered|].
  apply Connection_send_ordered; [done|by apply flush_ordered|done].
Qed.

Lemma Channel_send_ordered a m held kerr kok :
  sending held -> ordered held kerr -> ordered held kok -> ordered held (Channel_send a m kerr kok).
Proof.
  intros Hs H1 H2. assert (ordered held (sendClosed m kerr kok)) as Hc by (destruct m; [done|by apply Connection_send_ordered|done]).
  intros s. destruct (x_closed _); [done|]. intros s'. destruct (x_closed _); [done|].
  destruct m; [by apply Connection_send_ordered..|by apply send_frames_ordered].
Qed.

Lemma Channel_call_ordered a waits kerr kok :
  ordered [] kerr -> ordered [] kok -> ordered [] (Channel_call a waits kerr kok).
Proof.
  intros H1 H2. apply Channel_send_ordered; [by left|done|]. destruct waits; [|done]. by repeat split.
Qed.

Lemma Connection_call_ordered kerr kok : ordered [] kerr -> ordered [] kok -> ordered [] (Connection_call kerr kok).
Proof. intros H1 H2. apply Connection_send_ordered; [by left|done|]. by repeat split. Qed.

Lemma close_in_goroutine_ordered k : ordered [] k -> ordered [] (close_in_goroutine k).
Proof.
  intros Hk. split; [|done]. intros s. destruct (s_closed s); [done|].
  apply Connection_call_ordered; by apply Connection_shutdown_ordered.
Qed.

(** ** Operations *)

Lemma dispatch_ordered a d k : ordered [] k -> ordered [] (dispatch a d k).
Proof.
  intros Hk. destruct d as [| | | |n m|found| | |m]; cbn [dispatch].
  - split; [order|]. apply Channel_send_ordered; [right; by exists a| |]; (split; [done|]; by apply closeChannel_ordered).
  - split; [order|]. intros s. apply times_ordered; [intros k' Hk'; split; [split; [permitted|done]|done]|].
    split; [done|]. apply Channel_send_ordered; [by left|done|done].
  - split; [order|]. intros s. apply times_ordered; [intros k' Hk'; split; [split; [permitted|done]|done]|].
    split; [done|]. apply change_ordered; [order|done].
  - split; [order|]. intros s. apply times_ordered; [intros k' Hk'; split; [split; [permitted|done]|done]|]. by split.
  - intros s. destruct (x_confirming _); [by apply One_ordered|done].
  - split; [order|]. destruct found; [split; [split; [permitted|done]|]|]; by split.
  - by repeat split.
  - by repeat split.
  - done.
Qed.

Lemma dispatchN_ordered a d k : ordered [] k -> ordered [] (dispatchN a d k).
Proof.
  intros Hk. split; [order|]. intros s. destruct (bool_decide _).
  - split; [by destruct d|]. split; [done|]. by apply dispatch_ordered.
  - split; [done|]. assert (ordered [] (Connection_send k k)) as H by (apply Connection_send_ordered; [by left|done|done]).
    pose proof (close_in_goroutine_ordered k Hk). by destruct d as [| | | | | | | |[]].
Qed.

Lemma run_ordered o k : ordered [] k -> ordered [] (run o k).
Proof.
  intros Hk. destruct o as [a w|a n|a|a|a w|a w|a|a c f r x|a|a| |c b| | | |a d|b| | |]; cbn [run];
    unfold PublishWithDeferredConfirm, Channel_Ack, Channel_Confirm, Channel_Consume, Channel_Cancel, GetNextPublishSeqNo,
      Channel_Notify, Channel_NotifyPublish, Channel_Close, openChannel, Connection_Notify, Connection_CloseDeadline,
      Connection_UpdateSecret, dispatch0, dispatch0_blocked.
  - by apply Channel_call_ordered.
  - split; [order|]. intros s.
    assert (ordered [ChanM a] (Channel_send a (Content n)
      (Get (fun s => if x_confirming (chan_at a s) then confirms_publish a (Unlock (ChanM a) k) else Unlock (ChanM a) k))
      (Unlock (ChanM a) k))) as H.
    { apply Channel_send_ordered; [right; by exists a| |by split]. intros s'.
      destruct (x_confirming _); [apply publish_ordered; [order|]|]; by split. }
    destruct (x_confirming _); [apply publish_ordered; [order|done]|done].
  - split; [order|]. apply Channel_send_ordered; [right; by exists a|by split|by split].
  - apply Channel_call_ordered; [done|]. split; [order|]. by repeat split.
  - apply change_ordered; [order|]. apply Channel_call_ordered; [apply change_ordered; [order|done]|done].
  - apply Channel_call_ordered; [done|]. apply change_ordered; [order|done].
  - split; [order|]. by split.
  - split; [order|]. by repeat split.
  - split; [order|]. intros s. destruct (x_noNotify _); [by split|]. split; [order|]. by repeat split.
  - intros s. destruct (x_closed _); [done|]. apply Channel_call_ordered; by apply closeChannel_ordered.
  - split; [order|]. intros s. destruct (s_closed s); [by split|]. split; [by split|]. split; [done|]. split; [done|].
    apply Channel_call_ordered; [by apply release_ordered|done].
  - split; [order|]. split; [intros s; by destruct (s_noNotify s)|]. by split.
  - intros s. destruct (s_closed s); [done|]. pose proof (Connection_shutdown_ordered false k Hk) as H.
    split; [done|]. by apply Connection_call_ordered.
  - intros s. destruct (s_closed s); [done|]. by apply Connection_call_ordered.
  - apply Connection_send_ordered; [by left|done|done].
  - by apply dispatchN_ordered.
  - destruct b; [|by repeat split]. apply Connection_send_ordered; [by left|by apply Connection_shutdown_ordered..].
  - intros s. apply times_ordered; [|done]. intros k' Hk'. by repeat split.
  - by apply close_in_goroutine_ordered.
  - by apply Connection_shutdown_ordered.
Qed.

Lemma goroutine_ordered os : ordered [] (goroutine os).
Proof. induction os as [|o os IH]; [done|]. by apply run_ordered. Qed.

(** ** Systems *)

Record locked (σ : sys) : Prop := {
  lk_ordered : forall i p held, threads σ !! i = Some (p, held) -> ordered held p;
  lk_nodup : forall i p held, threads σ !! i = Some (p, held) -> NoDup held;
  lk_exclusive : forall i j p q h1 h2 l,
    threads σ !! i = Some (p, h1) -> threads σ !! j = Some (q, h2) -> l ∈ h1 -> l ∈ h2 -> i = j
}.

Lemma initial_locked s gs : locked (initial s gs).
Proof.
  assert (forall i p held, threads (initial s gs) !! i = Some (p, held) -> held = [] /\ exists os, p = goroutine os) as H.
  { intros i p held. simpl. rewrite list_lookup_fmap. destruct (gs !! i) as [os|]; [|done]. intros [= <- <-]. eauto. }
  split.
  - intros i p held (-> & os & ->)%H. apply goroutine_ordered.
  - intros i p held (-> & _)%H. constructor.
  - intros i j p q h1 h2 l (-> & _)%H _ Hl%not_elem_of_nil. done.
Qed.

Lemma free_spec l σ : free l σ = true <-> forall i p held, threads σ !! i = Some (p, held) -> l ∉ held.
Proof.
  unfold free. rewrite forallb_forall. split.
  - intros H i p held Hi Hl. apply list_elem_of_lookup_2, list_elem_of_In, H in Hi. simpl in Hi.
    by rewrite bool_decide_eq_true_2 in Hi.
  - intros H [p held] (i & Hi)%list_elem_of_In%list_elem_of_lookup. simpl. by rewrite bool_decide_eq_false_2 by (by eapply H).
Qed.

(** One goroutine goes on and holds at most what it held, or a free lock. *)
Lemma locked_next σ s i p held p' held' new :
  locked σ -> threads σ !! i = Some (p, held) -> ordered held' p' -> NoDup held' ->
  (forall l, l ∈ held' -> l ∈ held \/ free l σ = true) -> Forall (fun t => snd t = [] /\ ordered [] (fst t)) new ->
  locked (MkSys s (<[i := (p', held')]> (threads σ) ++ new)).
Proof.
  intros [L1 L2 L3] Hi Ho Hn Hh Hnew. pose proof (lookup_lt_Some _ _ _ Hi) as Hlt.
  assert (forall j q h, (<[i := (p', held')]> (threads σ) ++ new) !! j = Some (q, h) ->
    (j = i /\ q = p' /\ h = held') \/ (j <> i /\ threads σ !! j = Some (q, h)) \/
    ((length (threads σ) <= j)%nat /\ h = [] /\ ordered [] q)) as H.
  { intros j q h [Hj|[Hj Hq]]%lookup_app_Some.
    - destruct (decide (j = i)) as [->|Hne]; [left|right; left].
      + rewrite list_lookup_insert_eq in Hj by done. by injection Hj as -> ->.
      + by rewrite list_lookup_insert_ne in Hj by congruence.
    - right; right. rewrite length_insert in Hj. apply list_elem_of_lookup_2, list_elem_of_In in Hq.
      destruct (proj1 (Forall_forall _ _) Hnew _ Hq) as [Hs Hq']. simpl in Hs. by subst h. }
  split; simpl.
  - intros j q h [(-> & -> & ->)|[[_ Hj]|(_ & -> & Hq)]]%H; [done|by eapply L1|done].
  - intros j q h [(-> & -> & ->)|[[_ Hj]|(_ & -> & Hq)]]%H; [done|by eapply L2|constructor].
  - intros j1 j2 q1 q2 h1 h2 l H1%H H2%H Hl1 Hl2.
    destruct H1 as [(-> & -> & ->)|[[N1 H1]|(_ & -> & _)]]; [| |by apply not_elem_of_nil in Hl1];
      destruct H2 as [(-> & -> & ->)|[[N2 H2]|(_ & -> & _)]]; try (by apply not_elem_of_nil in Hl2); [done| | |].
    + destruct (Hh l Hl1) as [Hl|Hl]; [symmetry; by eapply (L3 j2 i)|]. by destruct (proj1 (free_spec l σ) Hl j2 q2 h2 H2).
    + destruct (Hh l Hl2) as [Hl|Hl]; [by eapply (L3 j1 i)|]. by destruct (proj1 (free_spec l σ) Hl j1 q1 h1 H1).
    + by eapply (L3 j1 j2).
Qed.

Lemma filter_top (l : lock) held : l ∉ held -> List.filter (fun h => bool_decide (h <> l)) (l :: held) = held.
Proof.
  intros Hl. simpl. rewrite bool_decide_eq_false_2 by (intros H; by apply H). induction held as [|h held IH]; [done|].
  apply not_elem_of_cons in Hl as [H1 H2]. simpl. rewrite bool_decide_eq_true_2 by done. f_equal. by apply IH.
Qed.

Lemma exec_locked answered i c σ σ' : locked σ -> exec answered i c σ = Some σ' -> locked σ'.
Proof.
  intros L E. unfold exec in E. destruct (threads σ !! i) as [[p held]|] eqn:Hi; [|done].
  pose proof (lk_ordered σ L i p held Hi) as Ho. pose proof (lk_nodup σ L i p held Hi) as Hn.
  assert (forall s p' held', ordered held' p' -> NoDup held' -> (forall l, l ∈ held' -> l ∈ held \/ free l σ = true) ->
    locked (MkSys s (<[i := (p', held')]> (threads σ)))) as Hnext.
  { intros s p' held' H1 H2 H3. rewrite <- (app_nil_r (<[i := _]> _)). by eapply locked_next; [..|constructor]. }
  destruct p as [|l k|l k|w k|k|f k|k1 k2|q k]; simpl in Ho.
  - done.
  - destruct (free l σ) eqn:Hf; [|done]. injection E as <-. apply Hnext; [apply Ho| |].
    + constructor; [|done]. by eapply (proj1 (free_spec l σ)).
    + intros x [->|Hx]%elem_of_cons; [by right|by left].
  - destruct held as [|h held]; [done|]. destruct Ho as [-> Ho]. apply list.NoDup_cons in Hn as [Hl Hn].
    rewrite bool_decide_eq_true_2, filter_top in E by (done || by left). injection E as <-.
    apply Hnext; [done|done|]. intros x Hx. left. by right.
  - destruct (answered w); [|done]. injection E as <-. apply Hnext; [apply Ho|done|by left].
  - injection E as <-. apply Hnext; [apply Ho|done|by left].
  - injection E as <-. apply Hnext; [apply Ho|done|by left].
  - injection E as <-. apply Hnext; [destruct c; apply Ho|done|by left].
  - injection E as <-. eapply locked_next; [done|done|apply Ho|done|by left|]. constructor; [|constructor]. split; [done|apply Ho].
Qed.

Lemma reaches_locked answered s gs σ : reaches answered s gs σ -> locked σ.
Proof.
  unfold reaches. intros H. pose proof (initial_locked s gs) as L. induction H as [|σ1 σ2 σ3 (i & c & E) _ IH]; [done|].
  by eapply IH, exec_locked.
Qed.

End LocksFacts.
