(* ===== verification/LocksLive.v ===== *)
(** * LocksLive: executions end, and nobody waits in a circle *)

From S2P Require Import Prelude Locks LocksFacts.

Module LocksLive.
Import Locks LocksFacts.

(** ** Chains *)

(** [i] waits for a lock of [j]. *)
Definition waits_for (σ : sys) (i j : nat) : Prop :=
  exists l k hi q hj, threads σ !! i = Some (Lock l k, hi) /\ threads σ !! j = Some (q, hj) /\ l ∈ hj.

(** It goes on, or waits for somebody outside. *)
Definition not_for_locks (answered : wait -> bool) (σ : sys) (j : nat) : Prop :=
  (exists c σ', exec answered j c σ = Some σ') \/
  exists w k hj, threads σ !! j = Some (Wait w k, hj) /\ answered w = false.

Lemma free_false l σ : free l σ = false -> exists j q h, threads σ !! j = Some (q, h) /\ l ∈ h.
Proof.
  unfold free. induction (threads σ) as [|[q h] ts IH]; [done|]. simpl. intros [H|H]%andb_false_iff.
  - exists 0%nat, q, h. split; [done|]. by apply negb_false_iff, bool_decide_eq_true in H.
  - destruct (IH H) as (j & q' & h' & Hj & Hl). by exists (S j), q', h'.
Qed.

Lemma without_lock answered σ i p held :
  locked σ -> threads σ !! i = Some (p, held) -> p <> Done -> (forall l k, p <> Lock l k) -> not_for_locks answered σ i.
Proof.
  intros L Hi Hd Hl. pose proof (lk_ordered σ L i p held Hi) as Ho. unfold not_for_locks, exec. rewrite Hi.
  destruct p as [|l k|l k|w k|k|f k|k1 k2|q k]; try done; try (left; by exists true; eexists).
  - by destruct (Hl l k).
  - left. exists true. destruct held as [|x h]; [done|]. destruct Ho as [-> _].
    rewrite bool_decide_eq_true_2 by (by left). by eexists.
  - destruct (answered w) eqn:Ew; [left; by exists true; eexists|right; by exists w, k, held].
Qed.

Lemma at_lock answered σ n i l k held :
  locked σ -> threads σ !! i = Some (Lock l k, held) -> (11 - rank l <= n)%nat ->
  exists j, rtc (waits_for σ) i j /\ not_for_locks answered σ j.
Proof.
  intros L. revert i l k held. induction n as [|n IH]; intros i l k held Hi Hn.
  { destruct l; simpl in Hn; lia. }
  destruct (free l σ) eqn:Hf.
  { exists i. split; [done|]. left. exists true. unfold exec. rewrite Hi, Hf. by eexists. }
  destruct (free_false l σ Hf) as (j & q & h & Hj & Hl).
  assert (waits_for σ i j) as Hij by (by exists l, k, held, q, h).
  pose proof (lk_ordered σ L j q h Hj) as Ho.
  assert (q <> Done) as Hd by (intros ->; simpl in Ho; subst h; by apply not_elem_of_nil in Hl).
  assert ((exists l' k', q = Lock l' k') \/ forall l' k', q <> Lock l' k') as [(l' & k' & ->)|Hq] by (destruct q; eauto).
  - destruct Ho as [Hb _]. apply list_elem_of_In in Hl. pose proof (proj1 (Forall_forall _ _) Hb l Hl) as Hr.
    destruct (IH j l' k' h Hj) as (j' & Hjj & H); [simpl in Hr; lia|]. exists j'. split; [by eapply rtc_l|done].
  - exists j. split; [by apply rtc_once|]. by eapply without_lock.
Qed.

Lemma chain answered σ i p held :
  locked σ -> threads σ !! i = Some (p, held) -> p <> Done ->
  exists j, rtc (waits_for σ) i j /\ not_for_locks answered σ j.
Proof.
  intros L Hi Hd. assert ((exists l k, p = Lock l k) \/ forall l k, p <> Lock l k) as [(l & k & ->)|Hp] by (destruct p; eauto).
  - by eapply (at_lock answered σ 11); [done|done|lia].
  - exists i. split; [done|]. by eapply without_lock.
Qed.

(** ** Executions end *)

Inductive next : prog -> prog -> Prop :=
  | next_lock l k : next (Lock l k) k
  | next_unlock l k : next (Unlock l k) k
  | next_wait w k : next (Wait w k) k
  | next_get k s : next (Get k) (k s)
  | next_put f k : next (Put f k) k
  | next_choose (c : bool) k1 k2 : next (Choose k1 k2) (if c then k1 else k2).

(** Some goroutine goes on, whoever holds the locks. *)
Inductive goes_on : list prog -> list prog -> Prop :=
  | goes_next ps p q qs : next p q -> goes_on (ps ++ p :: qs) (ps ++ q :: qs)
  | goes_go ps p k qs : goes_on (ps ++ Go p k :: qs) ((ps ++ k :: qs) ++ [p]).

Definition ends : list prog -> Prop := Acc (fun b a => goes_on a b).

Lemma goes_next_eq ts ts' us x y vs : next x y -> ts = us ++ x :: vs -> ts' = us ++ y :: vs -> goes_on ts ts'.
Proof. intros H -> ->. by constructor. Qed.
Lemma goes_go_eq ts ts' us x k vs : ts = us ++ Go x k :: vs -> ts' = (us ++ k :: vs) ++ [x] -> goes_on ts ts'.
Proof. intros -> ->. constructor. Qed.

(** Where an element is that splits a list around another. *)
Lemma split_at {A} (us vs ps qs : list A) x p :
  us ++ x :: vs = ps ++ p :: qs ->
  (us = ps /\ x = p /\ vs = qs) \/
  (exists r, us = ps ++ p :: r /\ qs = r ++ x :: vs) \/ (exists r, ps = us ++ x :: r /\ vs = r ++ p :: qs).
Proof.
  intros [(r & -> & E)|(r & -> & E)]%app_eq_inv; destruct r as [|z r]; injection E as -> ->;
    rewrite ?app_nil_r; eauto 10.
Qed.

Ltac lists := repeat (progress rewrite <- ?app_assoc; simpl); reflexivity.

(** A step of a list with [p] in it is one of [p] or of the rest. *)
Lemma goes_on_split ps p qs ts :
  goes_on (ps ++ p :: qs) ts ->
  (exists p', next p p' /\ ts = ps ++ p' :: qs) \/
  (exists q k, p = Go q k /\ ts = (ps ++ k :: qs) ++ [q]) \/
  (exists ps' qs', goes_on (ps ++ qs) (ps' ++ qs') /\ ts = ps' ++ p :: qs').
Proof.
  intros H. remember (ps ++ p :: qs) as all eqn:E. destruct H as [us x y vs Hn|us x k vs];
    apply split_at in E as [(-> & <- & ->)|[(r & -> & ->)|(r & -> & ->)]]; eauto 10.
  - right; right. exists ps, (r ++ y :: vs). split; [|lists]. apply (goes_next_eq _ _ (ps ++ r) x y vs); [exact Hn|lists|lists].
  - right; right. exists (us ++ y :: r), qs. split; [|lists]. apply (goes_next_eq _ _ us x y (r ++ qs)); [exact Hn|lists|lists].
  - right; right. exists ps, (r ++ k :: vs ++ [x]). split; [|lists]. apply (goes_go_eq _ _ (ps ++ r) x k vs); lists.
  - right; right. exists (us ++ k :: r), (qs ++ [x]). split; [|lists]. apply (goes_go_eq _ _ us x k (r ++ qs)); lists.
Qed.

(** One more goroutine with [p] does not keep the others from ending. *)
Definition joins (p : prog) : Prop := forall ps qs, ends (ps ++ qs) -> ends (ps ++ p :: qs).

Lemma joins_step p :
  (forall p', next p p' -> joins p') -> (forall q k, p = Go q k -> joins q /\ joins k) -> joins p.
Proof.
  intros Hn Hg ps qs H. remember (ps ++ qs) as ts eqn:E. revert ps qs E. induction H as [ts H IH]. intros ps qs ->.
  constructor. intros ts' [(p' & Hp & ->)|[(q & k & -> & ->)|(ps' & qs' & Hs & ->)]]%goes_on_split.
  - apply Hn; [done|]. by constructor.
  - destruct (Hg q k eq_refl) as [Hq Hk]. rewrite <- app_assoc. apply Hk. rewrite app_assoc.
    apply (Hq (ps ++ qs) []). rewrite app_nil_r. by constructor.
  - by apply (IH _ Hs).
Qed.

Lemma next_inv p p' :
  next p p' ->
  match p with
  | Done | Go _ _ => False
  | Lock _ k | Unlock _ k | Wait _ k | Put _ k => p' = k
  | Get k => exists s, p' = k s
  | Choose k1 k2 => p' = k1 \/ p' = k2
  end.
Proof. intros H. destruct H as [| | |k s| |[] k1 k2]; eauto. Qed.

Lemma all_join p : joins p.
Proof.
  induction p as [|l k IH|l k IH|w k IH|k IH|f k IH|k1 IH1 k2 IH2|q IHq k IH]; apply joins_step; intros p' Hp;
    try discriminate; try (apply next_inv in Hp; simpl in Hp).
  - contradiction.
  - by subst p'.
  - by subst p'.
  - by subst p'.
  - destruct Hp as (s & ->). apply IH.
  - by subst p'.
  - by destruct Hp as [->| ->].
  - contradiction.
  - by intros [= -> ->].
Qed.

Lemma all_end ts : ends ts.
Proof.
  induction ts as [|p ts IH].
  - constructor. intros ts' H. remember [] as none eqn:E. destruct H; symmetry in E; by apply app_cons_not_nil in E.
  - by apply (all_join p [] ts).
Qed.

Lemma exec_goes_on answered i c σ σ' :
  exec answered i c σ = Some σ' -> goes_on (fst <$> threads σ) (fst <$> threads σ').
Proof.
  intros E. unfold exec in E. destruct (threads σ !! i) as [[p held]|] eqn:Hi; [|done].
  apply list_elem_of_split_length in Hi as (us & vs & Et & ->).
  assert (forall q h, fst <$> <[length us := (q, h)]> (threads σ) = (fst <$> us) ++ q :: (fst <$> vs)) as Hins
    by (intros q h; rewrite Et, insert_app_r_alt, Nat.sub_diag by done; by rewrite fmap_app).
  rewrite Et at 1. rewrite fmap_app, fmap_cons. simpl fst at 2.
  destruct p as [|l k|l k|w k|k|f k|k1 k2|q k].
  - done.
  - destruct (free l σ); [|done]. injection E as <-. simpl threads. rewrite Hins. by repeat constructor.
  - destruct (bool_decide _); [|done]. injection E as <-. simpl threads. rewrite Hins. by repeat constructor.
  - destruct (answered w); [|done]. injection E as <-. simpl threads. rewrite Hins. by repeat constructor.
  - injection E as <-. simpl threads. rewrite Hins. by repeat constructor.
  - injection E as <-. simpl threads. rewrite Hins. by repeat constructor.
  - injection E as <-. simpl threads. rewrite Hins. by repeat constructor.
  - injection E as <-. simpl threads. rewrite fmap_app, Hins. by repeat constructor.
Qed.

Lemma executions_end answered σ : Acc (fun σ2 σ1 => sys_step answered σ1 σ2) σ.
Proof.
  remember (fst <$> threads σ) as ts eqn:E. pose proof (all_end ts) as H. revert σ E.
  induction H as [ts _ IH]. intros σ ->. constructor. intros σ' (i & c & Ex). by eapply IH; [by eapply exec_goes_on|].
Qed.

(** C8: Whatever calls the goroutines of the application make, whatever
    arrives, whatever the transport answers and however they interleave, with
    every lock that the library takes: an execution cannot go on for ever, and
    a goroutine that has not returned goes on, or waits, through a chain of
    goroutines each of which waits for a lock of the next, for one that goes
    on or that waits for the transport, a listener or the server.  While it
    waits for one of these it has only the locks of [under]: none at all when
    it waits for an answer of the server.  When they all answer, an execution
    stops only after every call has returned and every lock is free. *)
Theorem locks_never_deadlock answered s gs :
  Acc (fun σ2 σ1 => sys_step answered σ1 σ2) (initial s gs) /\
  (forall σ i p held, reaches answered s gs σ -> threads σ !! i = Some (p, held) -> p <> Done ->
     exists j, rtc (waits_for σ) i j /\ not_for_locks answered σ j) /\
  (forall σ i w k held, reaches answered s gs σ -> threads σ !! i = Some (Wait w k, held) ->
     Forall (fun l => under w l = true) held) /\
  (forall σ, reaches answered s gs σ -> (forall w, answered w = true) -> (forall σ', ~ sys_step answered σ σ') ->
     Forall (fun t => t = (Done, [])) (threads σ)).
Proof.
  split_and!.
  - apply executions_end.
  - intros σ i p held Hr%reaches_locked. by apply chain.
  - intros σ i w k held Hr%reaches_locked Hi. apply (lk_ordered σ Hr i _ _ Hi).
  - intros σ Hr%reaches_locked Hw Hstop. apply Forall_forall. intros [p held] (i & Hi)%list_elem_of_In%list_elem_of_lookup.
    assert ({p = Done} + {p <> Done}) as [->|Hp] by (destruct p; (by left) || (by right)).
    + pose proof (lk_ordered σ Hr i _ _ Hi) as Ho. simpl in Ho. by subst held.
    + destruct (chain answered σ i p held Hr Hi Hp) as (j & _ & [(c & σ' & E)|(w & k & h & _ & E)]).
      * destruct (Hstop σ'). by exists j, c.
      * by rewrite Hw in E.
Qed.

End LocksLive.
