(* ===== verification/LocksStall.v ===== *)
(** * LocksStall: what a write that does not return holds up

    [shutdown] closes the transport, which would end a write, only after it
    has had the mutex of every channel, and a goroutine that publishes holds
    that of its channel while it writes. *)

From S2P Require Import Prelude Locks LocksFacts Runs.

Module LocksStall.
Import Locks LocksFacts.
Local Open Scope nat_scope.

(** Goroutine [i] writes with the mutex of channel [a], for which goroutine
    [j] waits with the mutex of the connection. *)
Definition stalled (i j a : nat) (σ : sys) : Prop :=
  exists k hi k' hj,
    threads σ !! i = Some (Wait W_write k, hi) /\ ChanM a ∈ hi /\
    threads σ !! j = Some (Lock (ChanM a) k', hj) /\ ConnM ∈ hj.

(** Goroutines that do not go on stay where they are. *)
Lemma exec_elsewhere answered i c σ σ' j t :
  exec answered i c σ = Some σ' -> j <> i -> threads σ !! j = Some t -> threads σ' !! j = Some t.
Proof.
  intros E Hne Hj. unfold exec in E. destruct (threads σ !! i) as [[p held]|]; [|done].
  pose proof (lookup_lt_Some _ _ _ Hj) as Hlt.
  destruct p as [|l k|l k|w k|k|f k|k1 k2|q k]; repeat case_match; simplify_eq/=;
    rewrite ?lookup_app_l by (by rewrite length_insert); by rewrite list_lookup_insert_ne by congruence.
Qed.

(** Only a goroutine with the mutex of the connection closes the transport. *)
Lemma exec_transport answered i c σ σ' :
  locked σ -> exec answered i c σ = Some σ' ->
  s_transport (state σ') = s_transport (state σ) \/ exists p held, threads σ !! i = Some (p, held) /\ ConnM ∈ held.
Proof.
  intros L E. unfold exec in E. destruct (threads σ !! i) as [[p held]|] eqn:Hi; [|done].
  pose proof (lk_ordered σ L i p held Hi) as Ho.
  destruct p as [|l k|l k|w k|k|f k|k1 k2|q k]; repeat case_match; simplify_eq/=; try (by left).
  - destruct w; try (by left). right. exists (Wait W_close_transport k), held. split; [done|]. by apply (proj1 Ho).
  - left. apply Ho.
Qed.

Lemma stall_stays answered i j a σ σ' :
  answered W_write = false -> locked σ -> stalled i j a σ -> sys_step answered σ σ' ->
  stalled i j a σ' /\ s_transport (state σ') = s_transport (state σ).
Proof.
  intros Hw L (k & hi & k' & hj & Hi & Ha & Hj & Hc) (m & c & E).
  assert (m <> i) as Hmi by (intros ->; unfold exec in E; by rewrite Hi, Hw in E).
  assert (m <> j) as Hmj.
  { intros ->. unfold exec in E. rewrite Hj in E. destruct (free (ChanM a) σ) eqn:Hf; [|done].
    by destruct (proj1 (free_spec _ σ) Hf i _ hi Hi). }
  split.
  - exists k, hi, k', hj. split_and!; [| done| |done]; by eapply exec_elsewhere.
  - destruct (exec_transport answered m c σ σ' L E) as [H|(p & held & Hm & Hh)]; [done|].
    destruct Hmj. by eapply (lk_exclusive σ L m j).
Qed.

(** Nor do they ever go on. *)
Lemma stall_lasts answered s gs σ i j a σ' :
  answered W_write = false -> reaches answered s gs σ -> stalled i j a σ -> rtc (sys_step answered) σ σ' ->
  stalled i j a σ' /\ s_transport (state σ') = s_transport (state σ).
Proof.
  intros Hw L%reaches_locked Hs Hr. induction Hr as [|σ1 σ2 σ3 Hstep _ IH]; [done|].
  destruct (stall_stays _ _ _ _ _ _ Hw L Hs Hstep) as [Hs' <-]. apply IH; [|done].
  destruct Hstep as (m & c & E). by eapply exec_locked.
Qed.

(** ** The stall happens *)

Definition no_write (w : wait) : bool := match w with W_write => false | _ => true end.

Definition one_channel : shared := MkShared false false false true 1 0 [0%nat] [new_chan].

(** [Publish] gets to its first write, and the shutdown to the channel. *)
Definition schedule : list nat := (repeat 0 6 ++ repeat 1 11)%nat.

Definition at_stall (σ : sys) : bool :=
  match threads σ with
  | [(Wait W_write _, hi); (Lock (ChanM 0) _, hj)] => bool_decide (ChanM 0 ∈ hi) && bool_decide (ConnM ∈ hj)
  | _ => false
  end.

Lemma at_stall_stalled σ : at_stall σ = true -> stalled 0 1 0 σ.
Proof.
  destruct σ as [s ts]. unfold at_stall, stalled. simpl. intros H. repeat case_match; try done. subst.
  apply andb_true_iff in H as [H1%bool_decide_eq_true H2%bool_decide_eq_true]. by eexists _, _, _, _.
Qed.

Definition reached : sys :=
  default (initial one_channel []) (run_all (fun i => exec no_write i true) schedule (initial one_channel [[Publish 0 0]; [ReadFails]])).

Lemma reached_reaches : reaches no_write one_channel [[Publish 0 0]; [ReadFails]] reached.
Proof.
  unfold reached. destruct (run_all _ _ _) as [σ|] eqn:E; [|vm_compute in E; discriminate]. simpl.
  eapply run_all_steps; [|exact E]. intros i σ1 σ2 H. by exists i, true.
Qed.

(** C40: A write that does not return stalls the shutdown that would end it.
    On a connection with one channel, to a peer that takes no bytes, there is an
    execution of [Publish] and of the reader, whose read fails, to a state in
    which [Publish] is in its write with the mutex of the channel, and the
    shutdown holds the mutex of the connection and waits for that of the
    channel; the transport is open.  In every later state both are where they
    were and the transport is open, so that nothing ends the write: the
    shutdown closes the transport only after it has had the mutex of every
    channel.  In the same way any such state of any goroutines lasts. *)
Theorem blocked_write_stalls_shutdown :
  (exists σ, reaches no_write one_channel [[Publish 0 0]; [ReadFails]] σ /\
     forall σ', rtc (sys_step no_write) σ σ' -> stalled 0 1 0 σ' /\ s_transport (state σ') = true) /\
  (forall answered s gs σ i j a σ', answered W_write = false -> reaches answered s gs σ -> stalled i j a σ ->
     rtc (sys_step answered) σ σ' -> stalled i j a σ' /\ s_transport (state σ') = s_transport (state σ)).
Proof.
  split; [|intros; by eapply stall_lasts]. exists reached. split; [apply reached_reaches|]. intros σ' H.
  destruct (stall_lasts no_write one_channel [[Publish 0 0]; [ReadFails]] reached 0 1 0 σ') as [Hs Ht];
    [done|apply reached_reaches|apply at_stall_stalled; vm_compute; reflexivity|done|].
  split; [done|]. rewrite Ht. vm_compute. reflexivity.
Qed.

End LocksStall.
