(* ===== verification/Client.v ===== *)
(** * Client: the reconnecting client (_examples/client/client.go)

    A client keeps a connection and a channel in confirm mode, replaced by a
    goroutine whenever one of them closes, while the application pushes
    messages, consumes and closes.  The connections are those of the library;
    every call of the library is a step of its own, and between two steps of
    one goroutine the other ones, and the connections, may take any number of
    steps. *)

From S2P Require Import Prelude Types Io SpecConnection SpecChannel SpecQueue SpecBasic SpecTx Spec091 Frame.
From S2P Require Import Allocator Confirms Delivery Consumers Auth State Channel ChannelFacts ChannelApi.
From S2P Require Import Connection ConnectionFacts Registry Shutdown Follows Safety Executions Peer.

(** ** The client *)

(** [type Client struct]: pointers are a connection's place in the heap and a
    channel's address in it; Go channels are named by number, those for
    confirmations with the channel they are given to.  A Go channel has its
    name from when another goroutine can have it: [notifyConnClose] and
    [notifyChanClose], which only their maker reads, from when they are given
    to [NotifyClose] ([None] before).  [cl_done] tells that [client.done] is
    closed. *)
Definition confirm_chan : Type := (nat * nat) * nat.

Record Client := MkClient {
  cl_queueName : string;
  cl_connection : option nat;
  cl_channel : option (nat * nat);
  cl_done : bool;
  cl_notifyConnClose : option nat;
  cl_notifyChanClose : option nat;
  cl_notifyConfirm : option confirm_chan;
  cl_isReady : bool
}.

Definition with_isReady (x : bool) (cl : Client) : Client :=
  MkClient (cl_queueName cl) (cl_connection cl) (cl_channel cl) (cl_done cl)
    (cl_notifyConnClose cl) (cl_notifyChanClose cl) (cl_notifyConfirm cl) x.
Definition with_connection (i : nat) (cl : Client) : Client :=
  MkClient (cl_queueName cl) (Some i) (cl_channel cl) (cl_done cl)
    (cl_notifyConnClose cl) (cl_notifyChanClose cl) (cl_notifyConfirm cl) (cl_isReady cl).
Definition with_notifyConnClose (l : option nat) (cl : Client) : Client :=
  MkClient (cl_queueName cl) (cl_connection cl) (cl_channel cl) (cl_done cl)
    l (cl_notifyChanClose cl) (cl_notifyConfirm cl) (cl_isReady cl).
Definition with_channel (p : nat * nat) (cl : Client) : Client :=
  MkClient (cl_queueName cl) (cl_connection cl) (Some p) (cl_done cl)
    (cl_notifyConnClose cl) (cl_notifyChanClose cl) (cl_notifyConfirm cl) (cl_isReady cl).
Definition with_notifyChanClose (l : option nat) (cl : Client) : Client :=
  MkClient (cl_queueName cl) (cl_connection cl) (cl_channel cl) (cl_done cl)
    (cl_notifyConnClose cl) l (cl_notifyConfirm cl) (cl_isReady cl).
Definition with_notifyConfirm (l : confirm_chan) (cl : Client) : Client :=
  MkClient (cl_queueName cl) (cl_connection cl) (cl_channel cl) (cl_done cl)
    (cl_notifyConnClose cl) (cl_notifyChanClose cl) (Some l) (cl_isReady cl).
Definition with_done (cl : Client) : Client :=
  MkClient (cl_queueName cl) (cl_connection cl) (cl_channel cl) true
    (cl_notifyConnClose cl) (cl_notifyChanClose cl) (cl_notifyConfirm cl) (cl_isReady cl).

(** The errors of the client. *)
Inductive client_error :=
  | ErrPushNotConnected     (** ["failed to push: not connected"] *)
  | ErrNotConnected
  | ErrAlreadyClosed
  | ErrShutdown
  | FromLibrary (e : goerror).

(** ** Where the goroutines are *)

(** The goroutine of [New]: [handleReconnect], [handleReInit] and [init] up to
    the next call or [select], or the next store to a field of the client. *)
Inductive reconnect_pc :=
  | R_top                       (** head of the loop of [handleReconnect] *)
  | R_dial
  | R_dial_failed               (** its [select] after an error *)
  | R_connected (i : nat)       (** [changeConnection]: [client.connection = connection] *)
  | R_conn_make (i : nat)       (** ... [client.notifyConnClose = make(...)] *)
  | R_conn_notify (i : nat)     (** ... [client.connection.NotifyClose(...)] *)
  | R_reinit (i : nat)          (** head of the loop of [handleReInit] *)
  | R_channel (i : nat)         (** [conn.Channel()] *)
  | R_confirm (i a : nat)       (** [ch.Confirm(false)] *)
  | R_declare (i a : nat)       (** [ch.QueueDeclare(...)] *)
  | R_change (i a : nat)        (** [changeChannel]: [client.channel = channel] *)
  | R_make_close (i a : nat)    (** ... [client.notifyChanClose = make(...)] *)
  | R_make_confirm (i a : nat)  (** ... [client.notifyConfirm = make(...)] *)
  | R_notify (i a l : nat)      (** ... [client.channel.NotifyClose(...)] *)
  | R_listen (i a l : nat)      (** ... [client.channel.NotifyPublish(...)] *)
  | R_ready (i : nat)           (** [client.isReady = true] *)
  | R_failed (i : nat)          (** the [select] after an error of [init] *)
  | R_wait (i : nat)            (** the [select] after [init] *)
  | R_returned.

(** A message given to the library: the channel, and the tag it has there. *)
Record publication := MkPublication { pub_at : nat * nat; pub_tag : Z }.

Inductive panic := NilDereference | CloseOfClosedChannel.

(** The goroutine of the application, which calls one method at a time. *)
Inductive app_pc :=
  | A_idle
  | Push_start (data : list byte)
  | Push_loop (data : list byte)         (** [client.UnsafePush(data)] *)
  | Push_publish (data : list byte)      (** ... [PublishWithContext] *)
  | Push_retry (data : list byte)        (** the [select] after an error *)
  | Push_await (data : list byte) (p : publication)    (** [<-client.notifyConfirm] *)
  | Push_recv (data : list byte) (p : publication) (l : confirm_chan)
  | Push_returned (r : client_error + publication * Confirmation)
  | Consume_start
  | Consume_qos
  | Consume_consume
  | Consume_returned (r : client_error + option nat)
  | Close_start
  | Close_channel
  | Close_connection
  | Close_returned (r : option client_error)
  | Panicking (why : panic).

(** Connections are never freed; [w_received] counts what was received from
    the Go channels of confirmations, and [w_astray] are the messages for whose
    confirmation [Push] waited at the Go channel of another channel than the
    one it had published them on. *)
Record world := World {
  w_conns : list Connection;
  w_client : Client;
  w_reconnect : reconnect_pc;
  w_app : app_pc;
  w_received : gmap nat nat;
  w_astray : list publication
}.

Definition set_client (cl : Client) (w : world) : world :=
  World (w_conns w) cl (w_reconnect w) (w_app w) (w_received w) (w_astray w).
Definition goto (pc : reconnect_pc) (w : world) : world :=
  World (w_conns w) (w_client w) pc (w_app w) (w_received w) (w_astray w).
Definition app_goto (pc : app_pc) (w : world) : world :=
  World (w_conns w) (w_client w) (w_reconnect w) pc (w_received w) (w_astray w).
Definition set_conns (cs : list Connection) (w : world) : world :=
  World cs (w_client w) (w_reconnect w) (w_app w) (w_received w) (w_astray w).
Definition receive (l : nat) (w : world) : world :=
  World (w_conns w) (w_client w) (w_reconnect w) (w_app w) (<[l := S (default 0 (w_received w !! l))]> (w_received w))%nat
    (w_astray w).
Definition note_astray (p : publication) (h : nat * nat) (w : world) : world :=
  World (w_conns w) (w_client w) (w_reconnect w) (w_app w) (w_received w)
    (if decide (pub_at p = h) then w_astray w else p :: w_astray w).

(** Running a call of the library on a connection. *)
Definition on_conn {A} (i : nat) (m : M A) (w : world) : outcome (A * world) :=
  match w_conns w !! i with
  | None => Panicked
  | Some c => let! x := m c in Ok (fst x, set_conns (<[i := snd x]> (w_conns w)) w)
  end.

(** [client.m] is held over several steps only by [Close]. *)
Definition locked (w : world) : bool :=
  match w_app w with Close_channel | Close_connection => true | _ => false end.

(** A receive from a listener of [NotifyClose] is ready: a shutdown sends the
    error and closes the Go channel in one step. *)
Definition close_ready (l : option nat) (c : Connection) : bool :=
  match l with
  | None => false
  | Some l => bool_decide (LClose l ∈ cn_lclosed c)
  end.

(** What a receive from the Go channel [l] of confirmations of a channel gives
    next: [None] when it blocks, the zero value when the channel is closed. *)
Definition next_confirmation (l : nat) (k : confirms) (received : nat) : option (Confirmation * bool) :=
  match sent k l !! received with
  | Some x => Some (x, true)
  | None => if lclosed k l then Some (MkConfirmation 0 false, false) else None
  end.

(** [make(chan ...)]: a Go channel nobody has. *)
Definition unused (l : nat) (w : world) : Prop :=
  (forall c, c ∈ w_conns w -> fresh (LClose l) c /\
     forall ch, ch ∈ cn_objs c -> silent l (ch_confirms ch)) /\
  w_received w !! l = None /\ (forall h, cl_notifyConfirm (w_client w) <> Some (h, l)) /\
  (forall data p h, w_app w <> Push_recv data p (h, l)) /\
  (forall i a, w_reconnect w <> R_notify i a l /\ w_reconnect w <> R_listen i a l).

Definition New (queueName : string) : world :=
  World [] (MkClient queueName None None false None None None false) R_top A_idle ∅ [].

(** ** Reconnecting *)

(** [changeConnection], store by store and call by call. *)
Inductive changeConnection : world -> world -> Prop :=
  | change_connection i w :
      w_reconnect w = R_connected i ->
      changeConnection w (goto (R_conn_make i) (set_client (with_connection i (w_client w)) w))
  | change_make i w :
      w_reconnect w = R_conn_make i ->
      changeConnection w (goto (R_conn_notify i) (set_client (with_notifyConnClose None (w_client w)) w))
  | change_notify i l w w' :
      w_reconnect w = R_conn_notify i -> unused l w ->
      on_conn i (Connection_NotifyClose l) (set_client (with_notifyConnClose (Some l) (w_client w)) w) = Ok (tt, w') ->
      changeConnection w (goto (R_reinit i) w').

(** [changeChannel] likewise; the methods of the application run in
    between. *)
Inductive changeChannel : world -> world -> Prop :=
  | change_channel i a w :
      w_reconnect w = R_change i a ->
      changeChannel w (goto (R_make_close i a) (set_client (with_channel (i, a) (w_client w)) w))
  | change_make_close i a w :
      w_reconnect w = R_make_close i a ->
      changeChannel w (goto (R_make_confirm i a) (set_client (with_notifyChanClose None (w_client w)) w))
  | change_make_confirm i a l w :
      w_reconnect w = R_make_confirm i a -> unused l w ->
      changeChannel w (goto (R_notify i a l) (set_client (with_notifyConfirm ((i, a), l) (w_client w)) w))
  | change_notify_close i a l k w w' :
      w_reconnect w = R_notify i a l -> unused k w ->
      on_conn i (Channel_NotifyClose a k) (set_client (with_notifyChanClose (Some k) (w_client w)) w) = Ok (tt, w') ->
      changeChannel w (goto (R_listen i a l) w')
  | change_notify_publish i a l w w' :
      w_reconnect w = R_listen i a l -> on_conn i (NotifyPublish a l) w = Ok (tt, w') ->
      changeChannel w (goto (R_ready i) w').

Inductive handleReconnect : world -> world -> Prop :=
  | reconnect_top w :
      w_reconnect w = R_top -> locked w = false ->
      handleReconnect w (goto R_dial (set_client (with_isReady false (w_client w)) w))
  | reconnect_dial_error w :
      w_reconnect w = R_dial -> handleReconnect w (goto R_dial_failed w)
  | reconnect_dial c w :
      w_reconnect w = R_dial -> established c ->
      handleReconnect w (goto (R_connected (length (w_conns w))) (set_conns (w_conns w ++ [c]) w))
  | reconnect_change w w' : changeConnection w w' -> handleReconnect w w'
  | reconnect_done w :
      w_reconnect w = R_dial_failed -> cl_done (w_client w) = true -> handleReconnect w (goto R_returned w)
  | reconnect_retry w :
      w_reconnect w = R_dial_failed -> handleReconnect w (goto R_top w).

(** [err := client.init(conn)], with the reply [r] of the call. *)
Inductive init (r : reply) : world -> world -> Prop :=
  | init_channel i x w w' :
      w_reconnect w = R_channel i -> on_conn i (Connection_Channel r) w = Ok (x, w') ->
      init r w (goto (match x with (None, Some a) => R_confirm i a | _ => R_failed i end) w')
  | init_confirm i a err w w' :
      w_reconnect w = R_confirm i a -> on_conn i (Confirm a false r) w = Ok (err, w') ->
      init r w (goto (match err with None => R_declare i a | Some _ => R_failed i end) w')
  | init_declare i a x w w' :
      w_reconnect w = R_declare i a ->
      on_conn i (QueueDeclare a (cl_queueName (w_client w)) false false false false [] r) w = Ok (x, w') ->
      init r w (goto (match snd x with None => R_change i a | Some _ => R_failed i end) w')
  | init_change w w' : changeChannel w w' -> init r w w'
  | init_ready i w :
      w_reconnect w = R_ready i -> locked w = false ->
      init r w (goto (R_wait i) (set_client (with_isReady true (w_client w)) w)).

Inductive handleReInit (r : reply) : world -> world -> Prop :=
  | reinit_top i w :
      w_reconnect w = R_reinit i -> locked w = false ->
      handleReInit r w (goto (R_channel i) (set_client (with_isReady false (w_client w)) w))
  | reinit_init w w' : init r w w' -> handleReInit r w w'
  | reinit_failed_done i w :
      w_reconnect w = R_failed i -> cl_done (w_client w) = true -> handleReInit r w (goto R_returned w)
  | reinit_failed_closed i c w :
      w_reconnect w = R_failed i -> w_conns w !! i = Some c ->
      close_ready (cl_notifyConnClose (w_client w)) c = true -> handleReInit r w (goto R_top w)
  | reinit_failed_retry i w :
      w_reconnect w = R_failed i -> handleReInit r w (goto (R_reinit i) w)
  | reinit_done i w :
      w_reconnect w = R_wait i -> cl_done (w_client w) = true -> handleReInit r w (goto R_returned w)
  | reinit_conn_closed i c w :
      w_reconnect w = R_wait i -> w_conns w !! i = Some c ->
      close_ready (cl_notifyConnClose (w_client w)) c = true -> handleReInit r w (goto R_top w)
  | reinit_chan_closed i j a c w :
      w_reconnect w = R_wait i -> cl_channel (w_client w) = Some (j, a) -> w_conns w !! j = Some c ->
      close_ready (cl_notifyChanClose (w_client w)) c = true -> handleReInit r w (goto (R_reinit i) w).

(** ** The methods *)

(** [amqp.Publishing{ContentType: "text/plain", Body: data}] *)
Definition push_publishing (data : list byte) : Publishing :=
  MkPublishing [] "text/plain" "" 0 0 "" "" "" "" zeroTime "" "" "" data.

(** The timeout of the context is not used by the library. *)
Inductive UnsafePush : world -> world -> Prop :=
  | unsafe_not_ready data w :
      w_app w = Push_loop data -> cl_isReady (w_client w) = false ->
      UnsafePush w (app_goto (Push_retry data) w)
  | unsafe_ready data w :
      w_app w = Push_loop data -> cl_isReady (w_client w) = true ->
      UnsafePush w (app_goto (Push_publish data) w)
  | unsafe_nil data w :
      w_app w = Push_publish data -> cl_channel (w_client w) = None ->
      UnsafePush w (app_goto (Panicking NilDereference) w)
  | unsafe_error data i a e w w' :
      w_app w = Push_publish data -> cl_channel (w_client w) = Some (i, a) ->
      on_conn i (PublishWithContext a "" (cl_queueName (w_client w)) false false (push_publishing data)) w
        = Ok (Some e, w') ->
      UnsafePush w (app_goto (Push_retry data) w')
  | unsafe_published data i a c ch w w' :
      w_app w = Push_publish data -> cl_channel (w_client w) = Some (i, a) ->
      on_conn i (PublishWithContext a "" (cl_queueName (w_client w)) false false (push_publishing data)) w
        = Ok (None, w') ->
      w_conns w' !! i = Some c -> cn_objs c !! a = Some ch ->
      UnsafePush w (app_goto (Push_await data (MkPublication (i, a) (published (ch_confirms ch)))) w').

Inductive Push : world -> world -> Prop :=
  | push_not_ready data w :
      w_app w = Push_start data -> cl_isReady (w_client w) = false ->
      Push w (app_goto (Push_returned (inl ErrPushNotConnected)) w)
  | push_ready data w :
      w_app w = Push_start data -> cl_isReady (w_client w) = true ->
      Push w (app_goto (Push_loop data) w)
  | push_unsafe w w' : UnsafePush w w' -> Push w w'
  | push_retry_done data w :
      w_app w = Push_retry data -> cl_done (w_client w) = true ->
      Push w (app_goto (Push_returned (inl ErrShutdown)) w)
  | push_retry data w : w_app w = Push_retry data -> Push w (app_goto (Push_loop data) w)
  | push_await data p l w :
      w_app w = Push_await data p -> cl_notifyConfirm (w_client w) = Some l ->
      Push w (app_goto (Push_recv data p l) (note_astray p (fst l) w))
  | push_recv data p l i c a ch x w :
      w_app w = Push_recv data p ((i, a), l) -> w_conns w !! i = Some c -> cn_objs c !! a = Some ch ->
      next_confirmation l (ch_confirms ch) (default 0%nat (w_received w !! l)) = Some (x, true) ->
      Push w (app_goto (if Ack x then Push_returned (inr (p, x)) else Push_loop data) (receive l w))
  | push_recv_closed data p l i c a ch x w :
      w_app w = Push_recv data p ((i, a), l) -> w_conns w !! i = Some c -> cn_objs c !! a = Some ch ->
      next_confirmation l (ch_confirms ch) (default 0%nat (w_received w !! l)) = Some (x, false) ->
      Push w (app_goto (Push_loop data) w).

Inductive Client_Consume (r : reply) : world -> world -> Prop :=
  | consume_not_ready w :
      w_app w = Consume_start -> cl_isReady (w_client w) = false ->
      Client_Consume r w (app_goto (Consume_returned (inl ErrNotConnected)) w)
  | consume_ready w :
      w_app w = Consume_start -> cl_isReady (w_client w) = true ->
      Client_Consume r w (app_goto Consume_qos w)
  | consume_nil w :
      w_app w = Consume_qos \/ w_app w = Consume_consume -> cl_channel (w_client w) = None ->
      Client_Consume r w (app_goto (Panicking NilDereference) w)
  | consume_Qos i a err w w' :
      w_app w = Consume_qos -> cl_channel (w_client w) = Some (i, a) ->
      on_conn i (Qos a 1 0 false r) w = Ok (err, w') ->
      Client_Consume r w
        (app_goto (match err with Some e => Consume_returned (inl (FromLibrary e)) | None => Consume_consume end) w')
  | consume_Consume i a tag x w w' :
      w_app w = Consume_consume -> cl_channel (w_client w) = Some (i, a) ->
      on_conn i (Consume a (cl_queueName (w_client w)) "" false false false false [] tag r) w = Ok (x, w') ->
      Client_Consume r w
        (app_goto (Consume_returned (match fst x with Some e => inl (FromLibrary e) | None => inr (snd x) end)) w').

(** [client.m] is held from the test of [isReady] to the return. *)
Inductive Close (r : reply) : world -> world -> Prop :=
  | close_not_ready w :
      w_app w = Close_start -> cl_isReady (w_client w) = false ->
      Close r w (app_goto (Close_returned (Some ErrAlreadyClosed)) w)
  | close_done_twice w :
      w_app w = Close_start -> cl_isReady (w_client w) = true -> cl_done (w_client w) = true ->
      Close r w (app_goto (Panicking CloseOfClosedChannel) w)
  | close_start w :
      w_app w = Close_start -> cl_isReady (w_client w) = true -> cl_done (w_client w) = false ->
      Close r w (app_goto Close_channel (set_client (with_done (w_client w)) w))
  | close_nil w :
      w_app w = Close_channel /\ cl_channel (w_client w) = None \/
      w_app w = Close_connection /\ cl_connection (w_client w) = None ->
      Close r w (app_goto (Panicking NilDereference) w)
  | close_channel i a err w w' :
      w_app w = Close_channel -> cl_channel (w_client w) = Some (i, a) ->
      on_conn i (Channel_Close a r) w = Ok (err, w') ->
      Close r w (app_goto (match err with Some e => Close_returned (Some (FromLibrary e)) | None => Close_connection end) w')
  | close_connection i err w w' :
      w_app w = Close_connection -> cl_connection (w_client w) = Some i ->
      on_conn i (Connection_Close r) w = Ok (err, w') ->
      Close r w
        (match err with
         | Some e => app_goto (Close_returned (Some (FromLibrary e))) w'
         | None => app_goto (Close_returned None) (set_client (with_isReady false (w_client w')) w')
         end).

(** Between calls the application makes another. *)
Definition between_calls (pc : app_pc) : bool :=
  match pc with A_idle | Push_returned _ | Consume_returned _ | Close_returned _ => true | _ => false end.

Definition starts_call (pc : app_pc) : bool :=
  match pc with Push_start _ | Consume_start | Close_start => true | _ => false end.

(** ** The whole *)

Inductive client_step : world -> world -> Prop :=
  | step_reconnect w w' : handleReconnect w w' -> client_step w w'
  | step_reinit r w w' : handleReInit r w w' -> client_step w w'
  | step_app_call pc w :
      between_calls (w_app w) = true -> starts_call pc = true -> client_step w (app_goto pc w)
  | step_push w w' :
      (forall i a c ch, cl_channel (w_client w) = Some (i, a) -> w_conns w !! i = Some c ->
         cn_objs c !! a = Some ch -> published (ch_confirms ch) + 1 < 2 ^ 64 - 1) ->
      Push w w' -> client_step w w'
  | step_consume r w w' : Client_Consume r w w' -> client_step w w'
  | step_close r w w' : Close r w w' -> client_step w w'
  | step_peer i c c' w :
      w_conns w !! i = Some c -> peer_step c c' ->
      client_step w (set_conns (<[i := c']> (w_conns w)) w).

Definition client_reaches (q : string) (w : world) : Prop := rtc client_step (New q) w.
