(* ===== verification/ClientFacts.v ===== *)
(** * ClientFacts: what the reconnecting client guarantees

    The goroutines of a client, its connections and a conforming server in
    any interleaving: the client never loses the wake-up that makes it
    reconnect, and never uses a nil pointer. *)

From S2P Require Import Prelude Types Io SpecConnection SpecChannel SpecQueue SpecBasic SpecTx Spec091 Frame.
From S2P Require Import Allocator Confirms Delivery Consumers Auth State Channel ChannelFacts ChannelApi.
From S2P Require Import Connection ConnectionFacts Registry Shutdown Follows Safety Executions Peer Client.

(** ** The invariant *)

(** The channel at a place of the heap. *)
Definition has (w : world) (h : nat * nat) (c : Connection) (ch : Channel) : Prop :=
  w_conns w !! fst h = Some c /\ cn_objs c !! snd h = Some ch.

(** A listener is closed exactly when what it listens to is shut down. *)
Definition watched_conn (l : nat) (c : Connection) : Prop :=
  if cn_shut c then LClose l ∈ cn_lclosed c else LClose l ∈ conn_listeners c.
Definition watched_chan (l : nat) (c : Connection) (ch : Channel) : Prop :=
  if ch_shut ch then LClose l ∈ cn_lclosed c else LClose l ∈ chan_listeners ch.

(** The connection [changeConnection] is about. *)
Definition changing_conn (pc : reconnect_pc) : option nat :=
  match pc with R_connected i | R_conn_make i | R_conn_notify i => Some i | _ => None end.

(** From [handleReInit] on the goroutine works on one connection. *)
Definition watching (pc : reconnect_pc) : option nat :=
  match pc with
  | R_reinit i | R_channel i | R_confirm i _ | R_declare i _ | R_change i _ | R_make_close i _ | R_make_confirm i _
  | R_notify i _ _ | R_listen i _ _ | R_ready i | R_failed i | R_wait i => Some i
  | _ => None
  end.

(** The channel [init] is preparing, which the client does not use yet. *)
Definition newborn (pc : reconnect_pc) : option (nat * nat) :=
  match pc with R_confirm i a | R_declare i a | R_change i a => Some (i, a) | _ => None end.
Definition confirm_mode (pc : reconnect_pc) : bool :=
  match pc with R_declare _ _ | R_change _ _ => true | _ => false end.

(** In [changeChannel], once [client.channel] is replaced; once
    [client.notifyConfirm] is; and once [NotifyClose] has returned. *)
Definition changing (pc : reconnect_pc) : option (nat * nat) :=
  match pc with
  | R_make_close i a | R_make_confirm i a | R_notify i a _ | R_listen i a _ => Some (i, a)
  | _ => None
  end.
Definition listening (pc : reconnect_pc) : option confirm_chan :=
  match pc with R_notify i a l | R_listen i a l => Some ((i, a), l) | _ => None end.
Definition watched (pc : reconnect_pc) : option nat :=
  match pc with R_listen i _ _ | R_ready i | R_wait i => Some i | _ => None end.

(** The application is about to use the channel or the connection. *)
Definition needs_channel (pc : app_pc) : bool :=
  match pc with
  | Push_publish _ | Push_await _ _ | Consume_qos | Consume_consume | Close_channel | Close_connection => true
  | _ => false
  end.

Record wired (w : world) : Prop := {
  wi_wf : forall i c, w_conns w !! i = Some c -> conn_wf c;
  wi_connected : forall i, changing_conn (w_reconnect w) = Some i -> is_Some (w_conns w !! i);
  wi_connecting : forall i, w_reconnect w = R_conn_make i \/ w_reconnect w = R_conn_notify i ->
    cl_connection (w_client w) = Some i;
  wi_connection : forall i, watching (w_reconnect w) = Some i ->
    cl_connection (w_client w) = Some i /\
    exists l c, cl_notifyConnClose (w_client w) = Some l /\ w_conns w !! i = Some c /\ watched_conn l c;
  wi_newborn : forall h, newborn (w_reconnect w) = Some h ->
    exists c ch, has w h c ch /\ (confirm_mode (w_reconnect w) = true -> ch_confirming ch = true);
  wi_channel : forall h, cl_channel (w_client w) = Some h ->
    is_Some (cl_connection (w_client w)) /\ exists c ch, has w h c ch /\ ch_confirming ch = true;
  wi_changing : forall h, changing (w_reconnect w) = Some h -> cl_channel (w_client w) = Some h;
  wi_listen : forall h l, listening (w_reconnect w) = Some (h, l) ->
    cl_notifyConfirm (w_client w) = Some (h, l) /\ exists c ch, has w h c ch /\ silent l (ch_confirms ch);
  wi_watched : forall i, watched (w_reconnect w) = Some i ->
    is_Some (cl_notifyConfirm (w_client w)) /\
    exists a c ch l, cl_channel (w_client w) = Some (i, a) /\ has w (i, a) c ch /\
      cl_notifyChanClose (w_client w) = Some l /\ watched_chan l c ch;
  wi_ready : cl_isReady (w_client w) = true \/ needs_channel (w_app w) = true ->
    is_Some (cl_channel (w_client w)) /\ is_Some (cl_notifyConfirm (w_client w));
  wi_panic : forall why, w_app w = Panicking why -> why = CloseOfClosedChannel;
  wi_held : forall j, cl_connection (w_client w) = Some j -> is_Some (w_conns w !! j)
}.

Lemma New_wired q : wired (New q).
Proof. split; simpl; try done; [by intros i [|]|by intros [|]]. Qed.

(** ** Connections that change under the client *)

Lemma watched_conn_follows l c c' : watched_conn l c -> follows c c' -> watched_conn l c'.
Proof.
  intros Hw F. unfold watched_conn in *. destruct (cn_shut c) eqn:Hs.
  - rewrite (fo_shut _ _ F Hs). by apply (fo_lclosed _ _ F).
  - destruct (cn_shut c') eqn:Hs'; [by apply (fo_own_closed _ _ F Hs Hs')|by apply (fo_own _ _ F)].
Qed.

Lemma watched_chan_follows l c c' ch ch' :
  watched_chan l c ch -> cn_lclosed c ⊆ cn_lclosed c' -> chan_follows (cn_lclosed c') ch ch' ->
  watched_chan l c' ch'.
Proof.
  intros Hw Hc F. unfold watched_chan in *. destruct (cf_evolves _ _ _ F) as (_ & _ & Hm).
  destruct (ch_shut ch) eqn:Hs.
  - rewrite Hm by done. by apply Hc.
  - destruct (ch_shut ch') eqn:Hs'; [by apply (cf_closed _ _ _ F Hs Hs')|by apply (cf_listeners _ _ _ F)].
Qed.

Section Replace.
Context (w : world) (i : nat) (c c' : Connection).
Context (Hi : w_conns w !! i = Some c) (Hf : follows c c').
Local Abbreviation w' := (set_conns (<[i := c']> (w_conns w)) w).

Lemma replace_conn j d : w_conns w !! j = Some d ->
  exists d', w_conns w' !! j = Some d' /\ follows d d' /\ (j = i -> d = c /\ d' = c') /\ (j <> i -> d' = d).
Proof.
  intros Hj. simpl. destruct (decide (j = i)) as [->|Hne].
  - exists c'. rewrite list_lookup_insert_eq by (by eapply lookup_lt_Some). assert (d = c) as -> by congruence. done.
  - exists d. by rewrite list_lookup_insert_ne by done.
Qed.

Lemma replace_has h d ch : has w h d ch ->
  exists d' ch', has w' h d' ch' /\ cn_lclosed d ⊆ cn_lclosed d' /\ chan_follows (cn_lclosed d') ch ch'.
Proof.
  intros [Hd Hch]. destruct (replace_conn _ _ Hd) as (d' & Hd' & F & _ & _).
  destruct (fo_objs _ _ F _ _ Hch) as (ch' & Hch' & Fc). exists d', ch'. split; [by split|]. split; [apply F|done].
Qed.

(** ... and what holds of the confirmations. *)
Lemma replace_still K `{!PreOrder K} h d ch : still K c c' -> has w h d ch ->
  exists d' ch', has w' h d' ch' /\ cn_lclosed d ⊆ cn_lclosed d' /\ chan_follows (cn_lclosed d') ch ch' /\
    K (ch_confirms ch) (ch_confirms ch').
Proof.
  intros HK Hh. destruct (replace_has h d ch Hh) as (d' & ch' & [Hd' Hch'] & Hl & Fc). destruct Hh as [Hd Hch].
  exists d', ch'. split; [by split|]. split_and!; [done|done|]. destruct (replace_conn _ _ Hd) as (d1 & Hd1 & _ & H1 & H2).
  assert (d1 = d') as -> by congruence. destruct (decide (fst h = i)) as [E|E].
  - destruct (H1 E) as [-> ->]. destruct (HK _ _ Hch) as (ch1 & Hch1 & Hk). assert (ch1 = ch') as <- by congruence. done.
  - rewrite (H2 E) in Hch'. assert (ch' = ch) as -> by congruence. done.
Qed.

Lemma replace_wired :
  wired w -> conn_wf c' ->
  (forall a l, listening (w_reconnect w) = Some ((i, a), l) -> still (silent_kept l) c c') -> wired w'.
Proof.
  intros [I1 I2 I2' I3 I4 I5 I6' I6 I7 I8 I9 I10] Hwf Hsil. split; try done.
  - intros j d. simpl. destruct (decide (j = i)) as [->|Hne].
    + rewrite list_lookup_insert_eq by (by eapply lookup_lt_Some). by intros [= <-].
    + rewrite list_lookup_insert_ne by done. apply I1.
  - intros j Hj. destruct (I2 j Hj) as [d Hd]. destruct (replace_conn _ _ Hd) as (d' & Hd' & _). by exists d'.
  - intros j Hj. destruct (I3 j Hj) as [Hc (l & d & Hl & Hd & Hw)]. split; [done|].
    destruct (replace_conn _ _ Hd) as (d' & Hd' & F & _). exists l, d'. split_and!; [done|done|].
    by eapply watched_conn_follows.
  - intros h Hh. destruct (I4 h Hh) as (d & ch & Hhas & Hcf). destruct (replace_has h d ch Hhas) as (d' & ch' & H' & _ & Fc).
    exists d', ch'. split; [done|]. intros Hm. by apply (cf_confirming _ _ _ Fc), Hcf.
  - intros h Hh. destruct (I5 h Hh) as [Hc (d & ch & Hhas & Hcf)]. split; [done|].
    destruct (replace_has h d ch Hhas) as (d' & ch' & H' & _ & Fc). exists d', ch'. split; [done|].
    by apply (cf_confirming _ _ _ Fc).
  - intros [j a] l Hpc. destruct (I6 (j, a) l Hpc) as (Hn & d & ch & Hhas & Hs). split; [done|].
    destruct (decide (j = i)) as [->|Hne].
    + destruct (replace_still (silent_kept l) (i, a) d ch (Hsil a l Hpc) Hhas) as (d' & ch' & H' & _ & _ & Hk).
      exists d', ch'. split; [done|]. by apply Hk.
    + destruct Hhas as [Hd Hch']. exists d, ch. split; [|done]. split; [|done]. simpl in *.
      by rewrite list_lookup_insert_ne.
  - intros j Hj. destruct (I7 j Hj) as [Hn (a & d & ch & l & Hcl & Hhas & Hl & Hw)]. split; [done|].
    destruct (replace_has (j, a) d ch Hhas) as (d' & ch' & H' & Hsub & Fc). exists a, d', ch', l.
    split_and!; [done..|by eapply watched_chan_follows].
  - intros j Hj. simpl. destruct (I10 j Hj) as [d Hd]. destruct (replace_conn _ _ Hd) as (d' & Hd' & _). by exists d'.
Qed.
End Replace.

Lemma on_conn_inv {A} i (m : M A) w x w' :
  on_conn i m w = Ok (x, w') -> exists c c', w_conns w !! i = Some c /\ m c = Ok (x, c') /\
    w' = set_conns (<[i := c']> (w_conns w)) w.
Proof.
  unfold on_conn. destruct (w_conns w !! i) as [c|]; [|done]. intros ((y & c') & E & E')%obind_inv.
  injection E' as <- <-. eauto.
Qed.

(** A step that publishes nothing. *)
Lemma gentle_wired w i c c' :
  wired w -> w_conns w !! i = Some c -> gentle c c' -> wired (set_conns (<[i := c']> (w_conns w)) w).
Proof. intros Hw Hi G. apply (replace_wired w i c c' Hi); [apply G|done|apply G|]. intros a l _. apply G. Qed.

Lemma gentle_call_wired {A} w i k (m : M A) x w' :
  wired w -> on_conn i m w = Ok (x, w') -> (forall c, w_conns w !! i = Some c -> call_fits c k) ->
  gentle_call k = true -> (forall c y c', m c = Ok (y, c') -> perform k c = Ok (tt, c')) ->
  exists c c', w_conns w !! i = Some c /\ m c = Ok (x, c') /\ gentle c c' /\
    w' = set_conns (<[i := c']> (w_conns w)) w /\ wired w'.
Proof.
  intros Hw (c & c' & Hi & E & ->)%on_conn_inv Hf Hk Hp. exists c, c'.
  assert (gentle c c') as G by (eapply gentle_perform; [by eapply wi_wf|by apply Hf|done|by eapply Hp]).
  split_and!; [done..|by eapply gentle_wired].
Qed.

(** ** What the calls of the client do *)

Lemma Connection_Channel_new r a c c' :
  Connection_Channel r c = Ok ((None, Some a), c') ->
  a = length (cn_objs c) /\ exists ch, cn_objs c' !! a = Some ch /\ ch_confirms ch = newConfirms.
Proof.
  intros (x & c1 & E1 & E)%mbind_inv.
  unfold allocateChannel, mbind, gets, mlift, modify, mret in E1.
  destruct (cn_closed c); [simplify_eq/=; unfold mret in E; by simplify_eq|].
  destruct (cn_allocator c) as [al|]; [|done].
  destruct (next al) as [[[id|] al']| | |]; simplify_eq/=.
  apply mbind_inv in E as (err & c2 & E2 & E). destruct err.
  { apply mbind_inv in E as ([] & c3 & _ & E). unfold mret in E. by simplify_eq. }
  unfold mret in E. simplify_eq. split; [done|].
  assert (stills eq (Channel_open (length (cn_objs c)) r)) as H by stilling.
  destruct (H _ _ _ E2 (length (cn_objs c)) (newChannel (uintw 16 id))) as (ch & Hch & Hk).
  - simpl. by rewrite list_lookup_middle.
  - exists ch. split; [done|]. by rewrite <- Hk.
Qed.

Lemma Confirm_confirming a nw r c c' :
  Confirm a nw r c = Ok (None, c') -> exists ch, cn_objs c' !! a = Some ch /\ ch_confirming ch = true.
Proof.
  intros (err & c1 & _ & E)%mbind_inv. destruct err; [unfold mret in E; by simplify_eq|].
  apply mbind_inv in E as ([] & c2 & E2 & E). unfold mret in E. simplify_eq.
  apply mbind_inv in E2 as (ch & c3 & E3 & E2). unfold get_chan in E3.
  destruct (cn_objs c1 !! a) as [ch'|] eqn:Ha; simplify_eq. unfold modify in E2. simplify_eq. simpl.
  rewrite list_lookup_insert_eq by (by eapply lookup_lt_Some). by eexists.
Qed.

Lemma Connection_NotifyClose_watched l c c' :
  conn_wf c -> Connection_NotifyClose l c = Ok (tt, c') -> watched_conn l c'.
Proof.
  intros Hwf E. unfold Connection_NotifyClose in E. rewrite (mbind_ok _ _ _ _ _ eq_refl), (sw_noNotify c Hwf) in E.
  pose proof (sw_shut c Hwf) as Hs. destruct (cn_closed c).
  - unfold close_listener in E. rewrite (mbind_ok _ _ _ _ _ eq_refl) in E. case_bool_decide; [done|].
    unfold mbind, modify, emit in E. injection E as <-. unfold watched_conn. simpl. rewrite Hs. by left.
  - unfold modify in E. injection E as <-. unfold watched_conn. simpl. rewrite Hs. unfold conn_listeners. simpl. set_solver.
Qed.

Lemma Channel_NotifyClose_watched a l c ch c' :
  conn_wf c -> cn_objs c !! a = Some ch -> Channel_NotifyClose a l c = Ok (tt, c') ->
  exists ch', cn_objs c' !! a = Some ch' /\ watched_chan l c' ch'.
Proof.
  intros Hwf Ha E. pose proof (ow_channels _ _ (sw_objects c Hwf) a ch Ha) as W. unfold Channel_NotifyClose, register in E.
  rewrite (mbind_ok _ _ _ _ _ (get_chan_ok _ _ _ Ha)), (hw_noNotify _ W) in E.
  destruct (ch_shut ch) eqn:Hs.
  - exists ch. unfold close_listener in E. rewrite (mbind_ok _ _ _ _ _ eq_refl) in E. case_bool_decide; [done|].
    unfold mbind, modify, emit in E. injection E as <-. split; [done|]. unfold watched_chan. simpl. rewrite Hs. by left.
  - rewrite (upd_chan_ok a _ c ch Ha) in E. injection E as <-. eexists. simpl.
    rewrite list_lookup_insert_eq by (by eapply lookup_lt_Some). split; [done|]. unfold watched_chan. simpl. rewrite Hs.
    unfold chan_listeners. simpl. set_solver.
Qed.

(** ** Steps that change no connection *)

(** The goroutine of [New] goes on where no more is known than before. *)
Lemma goto_wired pc w :
  wired w -> changing_conn pc = None -> watching pc = None \/ watching pc = watching (w_reconnect w) ->
  (forall h, newborn pc = Some h ->
     exists c ch, has w h c ch /\ (confirm_mode pc = true -> ch_confirming ch = true)) ->
  changing pc = None -> watched pc = None \/ watched pc = watched (w_reconnect w) -> wired (goto pc w).
Proof.
  intros [I1 I2 I2' I3 I4 I5 I6' I6 I7 I8 I9 I10] Hc Hw Hn Hch Hwd.
  assert (listening pc = None) as Hl by (by destruct pc). split; try done; simpl.
  - intros i. by rewrite Hc.
  - intros i [-> | ->]; done.
  - intros i Hi. apply I3. destruct Hw; congruence.
  - intros h. by rewrite Hch.
  - intros h l. by rewrite Hl.
  - intros i Hi. apply I7. destruct Hwd; congruence.
Qed.

Lemma isReady_wired b w :
  wired w -> (b = true -> is_Some (cl_channel (w_client w)) /\ is_Some (cl_notifyConfirm (w_client w))) ->
  wired (set_client (with_isReady b (w_client w)) w).
Proof.
  intros [I1 I2 I2' I3 I4 I5 I6' I6 I7 I8 I9 I10] Hb. split; try done. simpl. intros [H|H]; [auto|]. apply I8. by right.
Qed.

Lemma app_wired pc w :
  wired w ->
  (needs_channel pc = true -> is_Some (cl_channel (w_client w)) /\ is_Some (cl_notifyConfirm (w_client w))) ->
  (forall why, pc = Panicking why -> why = CloseOfClosedChannel) -> wired (app_goto pc w).
Proof.
  intros [I1 I2 I2' I3 I4 I5 I6' I6 I7 I8 I9 I10] Hn Hp. split; try done. simpl. intros [H|H]; [|auto]. apply I8. by left.
Qed.

Lemma receive_wired l w : wired w -> wired (receive l w).
Proof. intros [I1 I2 I2' I3 I4 I5 I6' I6 I7 I8 I9 I10]. by split. Qed.
Lemma astray_wired p h w : wired w -> wired (note_astray p h w).
Proof. intros [I1 I2 I2' I3 I4 I5 I6' I6 I7 I8 I9 I10]. by split. Qed.

(** ** Every step keeps the invariant *)

Ltac plain_goto :=
  apply goto_wired;
  [try assumption|reflexivity
  |first [by left|right; simpl; match goal with H : w_reconnect _ = _ |- _ => by rewrite H end]
  |try discriminate|reflexivity
  |first [by left|right; simpl; match goal with H : w_reconnect _ = _ |- _ => by rewrite H end]].

Lemma changeConnection_wired w w' : wired w -> changeConnection w w' -> wired w'.
Proof.
  intros Hw Hs. destruct Hs as [i w Hpc|i w Hpc|i l w w' Hpc Hu E].
  - destruct (wi_connected w Hw i) as [c0 Hc0]; [by rewrite Hpc|].
    destruct Hw as [I1 I2 I2' I3 I4 I5 I6' I6 I7 I8 I9 I10]. split; simpl; try done.
    + intros j [= <-]. by exists c0.
    + by intros j [[= <-]|].
    + intros h Hh. destruct (I5 h Hh) as [_ H]. split; [by eexists|done].
    + intros j [= <-]. by exists c0.
  - destruct (wi_connected w Hw i) as [c0 Hc0]; [by rewrite Hpc|].
    pose proof (wi_connecting w Hw i (or_introl Hpc)) as Hcl.
    destruct Hw as [I1 I2 I2' I3 I4 I5 I6' I6 I7 I8 I9 I10]. split; simpl; try done.
    + intros j [= <-]. by exists c0.
    + by intros j [|[= <-]].
  - assert (wired (set_client (with_notifyConnClose (Some l) (w_client w)) w)) as Hw0.
    { destruct Hw as [I1 I2 I2' I3 I4 I5 I6' I6 I7 I8 I9 I10]. split; simpl; try done. intros j. by rewrite Hpc. }
    destruct (gentle_call_wired _ i (Do_ConnectionNotifyClose l) _ _ _ Hw0 E) as (c & c' & Hc & Em & G & -> & Hw').
    { intros c Hc. apply Hu. by eapply list_elem_of_lookup_2. }
    { done. }
    { by intros c [] c'. }
    pose proof (Connection_NotifyClose_watched l c c' (wi_wf w Hw i c Hc) Em) as Hwat.
    pose proof (wi_connecting w Hw i (or_intror Hpc)) as Hcl.
    pose proof (lookup_lt_Some _ _ _ Hc) as Hlt.
    destruct Hw' as [I1 I2 I2' I3 I4 I5 I6' I6 I7 I8 I9 I10]. split; try done; simpl.
    + by intros j [|].
    + intros j [= <-]. split; [done|]. exists l, c'. split_and!; [done|by apply list_lookup_insert_eq|done].
Qed.

Lemma handleReconnect_wired w w' : wired w -> handleReconnect w w' -> wired w'.
Proof.
  intros Hw Hs. destruct Hs as [w Hpc _|w Hpc|c w Hpc He|w w' Hc|w Hpc _|w Hpc].
  - plain_goto. by apply isReady_wired.
  - plain_goto.
  - assert (forall i d, w_conns w !! i = Some d -> (w_conns w ++ [c]) !! i = Some d) as Hold
      by (intros; by apply lookup_app_l_Some).
    destruct Hw as [I1 I2 I2' I3 I4 I5 I6' I6 I7 I8 I9 I10]. split; simpl; try done.
    + intros i d [Hd|[_ Hd]]%lookup_app_Some; [by eapply I1|].
      destruct (i - length (w_conns w))%nat; simpl in Hd; simplify_eq. by apply established_wf.
    + intros i [= <-]. rewrite list_lookup_middle by done. by eexists.
    + by intros i [|].
    + intros h Hh. destruct (I5 h Hh) as [Hc (d & ch & [Hd Hch] & H)]. split; [done|].
      exists d, ch. split; [split; [by apply Hold|done]|done].
    + intros j Hj. destruct (I10 j Hj) as [d Hd]. exists d. by apply Hold.
  - by eapply changeConnection_wired.
  - plain_goto.
  - plain_goto.
Qed.

(** [changeChannel]: the prepared channel becomes the client's ... *)
Lemma change_notify_close_wired i a l k w w' :
  wired w -> w_reconnect w = R_notify i a l -> unused k w ->
  on_conn i (Channel_NotifyClose a k) (set_client (with_notifyChanClose (Some k) (w_client w)) w) = Ok (tt, w') ->
  wired (goto (R_listen i a l) w').
Proof.
  intros Hw Hpc Hu E. destruct (wi_listen w Hw (i, a) l) as (Hn & c & ch & [Hc Hch] & Hs); [by rewrite Hpc|].
  simpl in Hc, Hch. pose proof (wi_wf w Hw i c Hc) as Wc. pose proof (lookup_lt_Some _ _ _ Hc) as Hlt.
  apply on_conn_inv in E as (c1 & c' & Hc1 & Em & ->). simpl in Hc1. assert (c1 = c) as -> by congruence.
  assert (c ∈ w_conns w) as Hin by (by eapply list_elem_of_lookup_2).
  assert (gentle c c') as G.
  { apply (gentle_perform (OnChannel a (Do_NotifyClose k))); [done| |done|exact Em]. exists ch. split; [done|]. by apply Hu. }
  destruct (Channel_NotifyClose_watched a k c ch c' Wc Hch Em) as (ch' & Hch' & Hwat).
  destruct (gentle_wired w i c c' Hw Hc G) as [I1 I2 I2' I3 I4 I5 I6' I6 I7 I8 I9 I10].
  simpl in I3, I6', I6. rewrite Hpc in I3, I6', I6. split; simpl; try done; [by intros j [|]|].
  intros j [= <-]. split; [by rewrite Hn|]. exists a, c', ch', k.
  split_and!; [by apply I6'|split; [by apply list_lookup_insert_eq|done]|done|done].
Qed.

(** ... and confirmations are listened to. *)
Lemma change_notify_publish_wired i a l w w' :
  wired w -> w_reconnect w = R_listen i a l -> on_conn i (NotifyPublish a l) w = Ok (tt, w') ->
  wired (goto (R_ready i) w').
Proof.
  intros Hw Hpc E. destruct (wi_listen w Hw (i, a) l) as (_ & c & ch & [Hc Hch] & Hs1 & Hs2); [by rewrite Hpc|].
  simpl in Hc, Hch.
  apply on_conn_inv in E as (c1 & c' & Hc1 & Em & ->). assert (c1 = c) as -> by congruence.
  destruct (perform_returns (OnChannel a (Do_NotifyPublish l)) c (wi_wf w Hw i c Hc)) as (c2 & E2 & W2 & F2).
  { exists ch. split; [done|]. split; [done|]. unfold lclosed. by rewrite Hs2. }
  assert (c2 = c') as -> by (cbn [perform perform_on] in E2; congruence).
  change (goto (R_ready i) (set_conns ?cs w)) with (set_conns cs (goto (R_ready i) w)).
  apply (replace_wired (goto (R_ready i) w) i c c'); [done|done| |done|done]. plain_goto.
Qed.

Lemma changeChannel_wired w w' : wired w -> changeChannel w w' -> wired w'.
Proof.
  intros Hw Hs. destruct Hs as [i a w Hpc|i a w Hpc|i a l w Hpc Hu|i a l k w w' Hpc Hu E|i a l w w' Hpc E].
  - destruct (wi_newborn w Hw (i, a)) as (c & ch & Hh & Hcf); [by rewrite Hpc|]. rewrite Hpc in Hcf. specialize (Hcf eq_refl).
    destruct Hw as [I1 I2 I2' I3 I4 I5 I6' I6 I7 I8 I9 I10]. rewrite Hpc in I3. split; simpl; try done; [by intros j [|]|..].
    + intros h [= <-]. destruct (I3 i eq_refl) as [Hc _]. split; [by rewrite Hc|]. by exists c, ch.
    + intros H. destruct (I8 H) as [_ Hn]. split; [by eexists|done].
  - destruct Hw as [I1 I2 I2' I3 I4 I5 I6' I6 I7 I8 I9 I10]. rewrite Hpc in I3, I6'.
    split; simpl; try done. by intros j [|].
  - destruct Hw as [I1 I2 I2' I3 I4 I5 I6' I6 I7 I8 I9 I10]. rewrite Hpc in I3, I6'.
    pose proof (I6' (i, a) eq_refl) as Hcl. split; simpl; try done; [by intros j [|]|..].
    intros h k [= <- <-]. split; [done|]. destruct (I5 _ Hcl) as [_ (c & ch & Hh & _)]. exists c, ch. split; [done|].
    destruct Hh as [Hc Hch]. apply (proj1 Hu c); by eapply list_elem_of_lookup_2.
  - by eapply change_notify_close_wired.
  - by eapply change_notify_publish_wired.
Qed.

Lemma init_wired r w w' : wired w -> init r w w' -> wired w'.
Proof.
  intros Hw Hs. destruct Hs as [i x w w' Hpc E|i a err w w' Hpc E|i a x w w' Hpc E|w w' Hc|i w Hpc _].
  - destruct (gentle_call_wired w i (Do_Channel r) _ _ _ Hw E) as (c & c' & Hc & Em & G & -> & Hw'); [done|done| |].
    { intros. by eapply ignore_ok. }
    destruct x as [[e|] [a|]]; try plain_goto.
    destruct (Connection_Channel_new r a c c' Em) as (_ & ch & Hch & _).
    intros h [= <-]. exists c', ch. split; [|done]. split; [|done].
    simpl. apply list_lookup_insert_eq. by eapply lookup_lt_Some.
  - destruct (wi_newborn w Hw (i, a)) as (c0 & ch0 & [Hc0 Hch0] & _); [by rewrite Hpc|]. simpl in Hc0, Hch0.
    destruct (gentle_call_wired w i (OnChannel a (Do_Confirm false r)) _ _ _ Hw E)
      as (c & c' & Hc & Em & G & -> & Hw'); [|done|intros; by eapply ignore_ok|].
    { intros c Hc. assert (c = c0) as -> by congruence. by exists ch0. }
    destruct err as [e|]; plain_goto.
    destruct (Confirm_confirming a false r c c' Em) as (ch & Hch & Hcf).
    intros h [= <-]. exists c', ch. split; [|done]. split; [|done].
    simpl. apply list_lookup_insert_eq. by eapply lookup_lt_Some.
  - destruct (wi_newborn w Hw (i, a)) as (c0 & ch0 & [Hc0 Hch0] & _); [by rewrite Hpc|]. simpl in Hc0, Hch0.
    destruct (gentle_call_wired w i
      (OnChannel a (Do_QueueDeclare false (cl_queueName (w_client w)) false false false false [] r)) _ _ _ Hw E)
      as (c & c' & Hc & Em & G & -> & Hw'); [|done|intros; by eapply ignore_ok|].
    { intros c Hc. assert (c = c0) as -> by congruence. by exists ch0. }
    destruct (snd x) as [e|]; plain_goto.
    intros h [= <-]. destruct (wi_newborn _ Hw' (i, a)) as (c1 & ch1 & H1 & Hcf); [simpl; by rewrite Hpc|].
    exists c1, ch1. split; [done|]. intros _. apply Hcf. simpl. by rewrite Hpc.
  - by eapply changeChannel_wired.
  - destruct (wi_watched w Hw i) as [Hn (a & _ & _ & _ & Ha & _)]; [by rewrite Hpc|].
    plain_goto. apply isReady_wired; [done|]. intros _. split; [by rewrite Ha|done].
Qed.

Lemma handleReInit_wired r w w' : wired w -> handleReInit r w w' -> wired w'.
Proof.
  intros Hw Hs. destruct Hs as [i w Hpc _|w w' Hi|i w Hpc _|i c w Hpc _ _|i w Hpc|i w Hpc _|i c w Hpc _ _|i j a c w Hpc _ _ _];
    [|by eapply init_wired|..]; plain_goto. by apply isReady_wired.
Qed.

(** Publishing on the client's channel. *)
Lemma publish_wired w i a e key m im msg err w' :
  wired w -> cl_channel (w_client w) = Some (i, a) ->
  (forall c ch, has w (i, a) c ch -> published (ch_confirms ch) + 1 < 2 ^ 64 - 1) ->
  on_conn i (PublishWithContext a e key m im msg) w = Ok (err, w') ->
  exists c ch c' ch' x, has w (i, a) c ch /\ follows c c' /\ cn_objs c' = <[a := ch']> (cn_objs c) /\
    published_as ch ch' x /\ err = snd x /\ ch_confirming ch = true /\
    expecting (ch_confirms ch') = expecting (ch_confirms ch) /\
    w' = set_conns (<[i := c']> (w_conns w)) w /\ wired w'.
Proof.
  intros Hw Hcl Hlim E. destruct (wi_channel w Hw _ Hcl) as [_ (c & ch & Hhas & Hcf)].
  pose proof (Hhas) as [Hc Hch]. simpl in Hc, Hch.
  apply on_conn_inv in E as (c1 & c' & Hc1 & Em & ->). assert (c1 = c) as -> by congruence.
  apply mbind_inv in Em as (x & c2 & Ex & Em). unfold mret in Em. injection Em as <- <-.
  destruct (Publish_spec a e key m im msg c ch (wi_wf w Hw i c Hc) Hch (Hlim c ch Hhas))
    as (x' & c3 & ch' & E3 & W3 & F3 & O3 & P3). assert (x' = x /\ c3 = c2) as [-> ->] by (split; congruence).
  pose proof (lookup_lt_Some _ _ _ Hch) as Hlt.
  destruct (Publish_expecting _ _ _ _ _ _ _ _ _ Ex a ch Hch) as (ch2 & Hch2 & He).
  rewrite O3, list_lookup_insert_eq in Hch2 by done. injection Hch2 as <-.
  exists c, ch, c2, ch', x. split_and!; try done.
  apply (replace_wired w i c c2 Hc F3); [done|done|]. intros b k _. by eapply Publish_silent.
Qed.

(** Other calls on the client's channel, and on its connection. *)
Lemma channel_call_wired {A} w i a k (m : M A) x w' :
  wired w -> cl_channel (w_client w) = Some (i, a) -> on_conn i m w = Ok (x, w') ->
  confirms_api k = false -> (forall c ch, cn_objs c !! a = Some ch -> chan_call_fits ch c k) ->
  (forall c y c', m c = Ok (y, c') -> perform_on a k c = Ok (tt, c')) ->
  wired w' /\ w_client w' = w_client w /\ exists c c', w_conns w !! i = Some c /\ gentle c c' /\
    w' = set_conns (<[i := c']> (w_conns w)) w.
Proof.
  intros Hw Hcl E Hk Hf Hp. destruct (wi_channel w Hw _ Hcl) as [_ (c0 & ch & [Hc0 Hch] & _)].
  destruct (gentle_call_wired w i (OnChannel a k) m x w' Hw E) as (c & c' & Hc & _ & G & -> & Hw').
  - intros c Hc. simpl in Hc0. assert (c = c0) as -> by congruence. exists ch. split; [done|]. by apply Hf.
  - simpl. by rewrite Hk.
  - exact Hp.
  - split_and!; [done|done|]. by exists c, c'.
Qed.

Lemma connection_close_wired w i r x w' :
  wired w -> on_conn i (Connection_Close r) w = Ok (x, w') ->
  wired w' /\ w_client w' = w_client w /\ exists c c', w_conns w !! i = Some c /\ gentle c c' /\
    w' = set_conns (<[i := c']> (w_conns w)) w.
Proof.
  intros Hw E. destruct (gentle_call_wired w i (Do_ConnectionClose r) _ x w' Hw E) as (c & c' & Hc & _ & G & -> & Hw');
    [done|done|intros; by eapply ignore_ok|]. split_and!; [done|done|]. by exists c, c'.
Qed.

Definition publish_limit (w : world) : Prop :=
  forall i a c ch, cl_channel (w_client w) = Some (i, a) -> w_conns w !! i = Some c ->
    cn_objs c !! a = Some ch -> published (ch_confirms ch) + 1 < 2 ^ 64 - 1.

(** A step of the application that uses the channel starts with both fields
    set. *)
Lemma wi_app w : wired w -> needs_channel (w_app w) = true ->
  exists h l, cl_channel (w_client w) = Some h /\ cl_notifyConfirm (w_client w) = Some l.
Proof. intros Hw H. destruct (wi_ready w Hw (or_intror H)) as [[h Hh] [l Hl]]. by exists h, l. Qed.

Lemma UnsafePush_wired w w' : wired w -> publish_limit w -> UnsafePush w w' -> wired w'.
Proof.
  intros Hw Hlim Hs. destruct Hs as [data w Hpc Hr|data w Hpc Hr|data w Hpc Hn|data i a e w w' Hpc Hcl E
    |data i a c ch w w' Hpc Hcl E Hc Hch].
  - by apply app_wired.
  - apply app_wired; [done| |done]. intros _. apply (wi_ready w Hw). by left.
  - destruct (wi_app w Hw) as (h & _ & Hh & _); [by rewrite Hpc|]. congruence.
  - destruct (publish_wired _ _ _ _ _ _ _ _ _ _ Hw Hcl (fun c ch H => Hlim i a c ch Hcl (proj1 H) (proj2 H)) E)
      as (? & ? & ? & ? & ? & _ & _ & _ & _ & _ & _ & _ & -> & Hw'). by apply app_wired.
  - destruct (publish_wired _ _ _ _ _ _ _ _ _ _ Hw Hcl (fun c ch H => Hlim i a c ch Hcl (proj1 H) (proj2 H)) E)
      as (? & ? & ? & ? & ? & _ & _ & _ & _ & _ & _ & _ & -> & Hw'). apply app_wired; [done| |done].
    intros _. apply (wi_ready w Hw). right. by rewrite Hpc.
Qed.

Lemma Push_wired w w' : wired w -> publish_limit w -> Push w w' -> wired w'.
Proof.
  intros Hw Hlim Hs. destruct Hs as [data w Hpc Hr|data w Hpc Hr|w w' Hu|data w Hpc Hd|data w Hpc|data p l w Hpc Hl
    |data p l i c a ch x w Hpc Hc Hch Hx|data p l i c a ch x w Hpc Hc Hch Hx]; try (by apply app_wired).
  - by eapply UnsafePush_wired.
  - apply app_wired; [by apply astray_wired|done..].
  - apply app_wired; [by apply receive_wired|..]; by destruct (Ack x).
Qed.

Lemma Consume_wired r w w' : wired w -> Client_Consume r w w' -> wired w'.
Proof.
  intros Hw Hs. destruct Hs as [w Hpc Hr|w Hpc Hr|w Hpc Hn|i a err w w' Hpc Hcl E|i a tag x w w' Hpc Hcl E].
  - by apply app_wired.
  - apply app_wired; [done| |done]. intros _. apply (wi_ready w Hw). by left.
  - destruct (wi_app w Hw) as (h & _ & Hh & _); [by destruct Hpc as [->| ->]|]. congruence.
  - destruct (channel_call_wired w i a (Do_Qos 1 0 false r) _ _ _ Hw Hcl E) as (Hw' & Ecl & _);
      [done|done|intros; by eapply ignore_ok|].
    apply app_wired; [done| |by destruct err]. intros _. rewrite Ecl. apply (wi_ready w Hw). right. by rewrite Hpc.
  - destruct (channel_call_wired w i a (Do_Consume (cl_queueName (w_client w)) "" false false false false [] tag r)
      _ _ _ Hw Hcl E) as (Hw' & Ecl & _); [done|done|intros; by eapply ignore_ok|]. by apply app_wired.
Qed.

Lemma Close_wired r w w' : wired w -> Close r w w' -> wired w'.
Proof.
  intros Hw Hs. destruct Hs as [w Hpc Hr|w Hpc Hr Hd|w Hpc Hr Hd|w Hn|i a err w w' Hpc Hcl E|i err w w' Hpc Hcl E].
  - by apply app_wired.
  - apply app_wired; [done|done|]. by intros why [= <-].
  - apply app_wired; [|intros _; apply (wi_ready w Hw); by left|done].
    destruct Hw as [I1 I2 I2' I3 I4 I5 I6' I6 I7 I8 I9 I10]. by split.
  - destruct (wi_app w Hw) as (h & _ & Hh & _); [by destruct Hn as [[-> _]|[-> _]]|].
    destruct (wi_channel w Hw h Hh) as [[j Hj] _]. destruct Hn as [[_ ?]|[_ ?]]; congruence.
  - destruct (channel_call_wired w i a (Do_Close r) _ _ _ Hw Hcl E) as (Hw' & Ecl & _);
      [done|done|intros; by eapply ignore_ok|].
    apply app_wired; [done| |by destruct err]. intros _. rewrite Ecl. apply (wi_ready w Hw). right. by rewrite Hpc.
  - destruct (connection_close_wired w i r err w' Hw E) as (Hw' & Ecl & _).
    destruct err; apply app_wired; try done. by apply isReady_wired.
Qed.

Lemma client_step_wired w w' : wired w -> client_step w w' -> wired w'.
Proof.
  intros Hw Hs. destruct Hs as [w w' H|r w w' H|pc w Hb Hc|w w' Hl H|r w w' H|r w w' H|i c c' w Hi Hp].
  - by eapply handleReconnect_wired.
  - by eapply handleReInit_wired.
  - apply app_wired; [done|by destruct pc|by intros why ->].
  - by eapply Push_wired.
  - by eapply Consume_wired.
  - by eapply Close_wired.
  - apply (gentle_wired w i c c' Hw Hi). apply peer_gentle; [|done]. by eapply wi_wf.
Qed.

Lemma reaches_wired q w : client_reaches q w -> wired w.
Proof.
  unfold client_reaches. intros H. pose proof (New_wired q) as H0. induction H as [|w1 w2 w3 H1 _ IH]; [done|].
  by eapply IH, client_step_wired.
Qed.

(** ** Reconnecting *)

Lemma watched_conn_closed l c : conn_wf c -> watched_conn l c ->
  close_ready (Some l) c = cn_shut c.
Proof.
  intros Hwf Hw. unfold watched_conn in Hw. unfold close_ready. destruct (cn_shut c) eqn:Hs.
  - by apply bool_decide_eq_true_2.
  - apply bool_decide_eq_false_2. intros Hin. pose proof (ow_nodup _ _ (sw_objects c Hwf)) as H.
    unfold own_listeners in H. rewrite Hs in H. apply list.NoDup_app in H as (_ & H & _).
    apply (H _ Hw). apply elem_of_app. by right.
Qed.

Lemma watched_chan_closed l a c ch : conn_wf c -> cn_objs c !! a = Some ch -> watched_chan l c ch ->
  close_ready (Some l) c = ch_shut ch.
Proof.
  intros Hwf Ha Hw. unfold watched_chan in Hw. unfold close_ready. destruct (ch_shut ch) eqn:Hs.
  - by apply bool_decide_eq_true_2.
  - apply bool_decide_eq_false_2. by eapply open_listener.
Qed.

(** C16: The client is woken exactly when it has to be: while it waits after a
    successful [init], the goroutine goes on if and only if the client was
    closed, or its connection or its channel was shut down, however that
    interleaved with the registration of the listeners; it then reconnects,
    or opens a new channel, or ends. *)
Theorem reconnect_wakes q w i r :
  client_reaches q w -> w_reconnect w = R_wait i ->
  exists a c ch, cl_channel (w_client w) = Some (i, a) /\ has w (i, a) c ch /\
    ((exists w', handleReInit r w w') <->
     cl_done (w_client w) = true \/ cn_shut c = true \/ ch_shut ch = true).
Proof.
  intros Hw%reaches_wired Hpc. destruct (wi_watched w Hw i) as [_ (a & c & ch & l & Ha & Hhas & Hl & Hwat)]; [by rewrite Hpc|].
  pose proof Hhas as [Hc Hch].
  destruct (wi_connection w Hw i) as [_ (l2 & c2 & Hl2 & Hc2 & Hwat2)]; [by rewrite Hpc|].
  simpl in Hc, Hch. assert (c2 = c) as -> by congruence. pose proof (wi_wf w Hw i c Hc) as Wc.
  pose proof (watched_conn_closed l2 c Wc Hwat2) as H2. pose proof (watched_chan_closed l a c ch Wc Hch Hwat) as H1.
  exists a, c, ch. split_and!; [done|done|]. split.
  - intros [w' Hs]. inversion Hs; subst; try congruence; try (by left).
    + match goal with H : init _ _ _ |- _ => inversion H; subst; try congruence end.
      match goal with H : changeChannel _ _ |- _ => inversion H; subst; congruence end.
    + right; left. assert (i0 = i) as -> by congruence. congruence.
    + right; right. assert (j = i /\ a0 = a) as [-> ->] by (split; congruence).
      assert (c0 = c) as -> by congruence. congruence.
  - intros [Hd|[Hs|Hs]].
    + eexists. by eapply reinit_done.
    + eexists. eapply reinit_conn_closed; [done|done|]. rewrite Hl2. congruence.
    + eexists. eapply reinit_chan_closed; [done|done|done|]. rewrite Hl. congruence.
Qed.
