(* ===== verification/ClientPush.v ===== *)
(** * ClientPush: a message is reported as pushed only when it was acknowledged

    The confirmations a client receives are counted against the messages it
    published, on the channel they were published on, over reconnections and
    whatever the races between [Push] and the goroutine that replaces the
    channel. *)

From S2P Require Import Prelude Types Io SpecConnection SpecChannel SpecQueue SpecBasic SpecTx Spec091 Frame.
From S2P Require Import Allocator Confirms Delivery Consumers Auth State Channel ChannelFacts ChannelApi.
From S2P Require Import Connection ConnectionFacts Registry Shutdown Follows Safety Executions Peer Client.
From S2P Require Import ClientFacts.

(** ** One Go channel of confirmations *)

(** The message whose confirmation is to come where [Push] waits, or will
    wait. *)
Definition expects (pc : app_pc) : option publication :=
  match pc with
  | Push_await _ p => Some p
  | Push_recv _ p (h, _) => if decide (pub_at p = h) then Some p else None
  | _ => None
  end.

(** ... on the channel [h]. *)
Definition expected (h : nat * nat) (out : option publication) : Z :=
  match out with Some p => if decide (pub_at p = h) then 1 else 0 | None => 0 end.

Lemma expected_range h out : 0 <= expected h out <= 1.
Proof. unfold expected. destruct out as [p|]; [destruct (decide _)|]; lia. Qed.

Lemma expected_elsewhere h p : pub_at p <> h -> expected h (Some p) = 0.
Proof. intros H. unfold expected. by rewrite decide_False. Qed.

(** It is the last that was published there. *)
Definition newest (h : nat * nat) (out : option publication) (k : confirms) : Prop :=
  forall p, out = Some p -> pub_at p = h -> pub_tag p = published k.

Lemma newest_none h k : newest h None k.
Proof. by intros p. Qed.

(** What is known of the Go channel [l], given to the channel [h] with
    confirmations [k], when [r] confirmations were received from it, [out] is
    expected, and [m] messages published on [h] went astray: it is closed and
    drained; or not registered yet; or it is sent the tags from [e0] on, and
    of those published since at most [m] and the expected one are not
    received. *)
Inductive tally (l : nat) (h : nat * nat) (out : option publication) (m r : Z) (k : confirms) : Prop :=
  | tally_drained : lclosed k l = true -> len (sent k l) <= r -> tally l h out m r k
  | tally_silent :
      silent l k -> r = 0 -> in_range (published k) k -> 1 <= expecting k ->
      published k <= m + expected h out -> newest h out k -> tally l h out m r k
  | tally_open e0 :
      1 <= e0 -> in_range (published k) k -> DeliveryTag <$> sent k l = seqZ e0 (len (sent k l)) ->
      e0 + len (sent k l) <= expecting k ->
      l ∈ listeners k /\ e0 + len (sent k l) = expecting k \/ lclosed k l = true ->
      published k - (e0 - 1 + r) <= m + expected h out -> newest h out k -> tally l h out m r k.

Lemma sent_lookup k l r x :
  sent k l !! r = Some x -> Z.of_nat r < len (sent k l).
Proof. intros H%lookup_lt_Some. unfold len. lia. Qed.

Lemma tally_gentle l h out m r k k' :
  confirms_follow k k' -> silent_kept l k k' -> range_kept (published k) k k' ->
  tally l h out m r k -> tally l h out m r k'.
Proof.
  intros [F1 F2 F3] Hs Hr [Hc Hn|H1 H2 H3 H4 H5 H6|e0 H1 H2 H3 H4 H5 H6 H7].
  - destruct (F2 l Hc) as [Hc' E]. apply tally_drained; [done|]. by rewrite E.
  - destruct (Hr H3) as [P1 P2].
    apply tally_silent; [by apply Hs|done|by rewrite P1|lia|by rewrite P1|unfold newest; by rewrite P1].
  - destruct (Hr H2) as [P1 P2].
    assert (exists new, sent k' l = sent k l ++ new /\ DeliveryTag <$> new = seqZ (e0 + len (sent k l)) (len new) /\
      e0 + len (sent k l) + len new <= expecting k' /\
      (l ∈ listeners k' /\ e0 + len (sent k l) + len new = expecting k' \/ lclosed k' l = true))
      as (new & E & T & B & L).
    { destruct H5 as [[Hl He]|Hc].
      - destruct (F3 l Hl) as (new & E & T & B & L). exists new. rewrite He.
        split_and!; [done|done|done|]. destruct L as [[L1 L2]|L]; [left; split; [done|lia]|by right].
      - destruct (F2 l Hc) as [Hc' E]. exists []. rewrite app_nil_r. change (len []) with 0.
        split_and!; [done|done|lia|by right]. }
    apply (tally_open _ _ _ _ _ _ e0); [done|by rewrite P1| | | |by rewrite P1|unfold newest; by rewrite P1].
    + rewrite E, fmap_app, H3, T, len_app, seqZ_app by apply len_nonneg. done.
    + rewrite E, len_app. lia.
    + rewrite E, len_app. destruct L as [[L1 L2]|L]; [left; split; [done|lia]|by right].
Qed.

(** What is expected, or astray, may be counted otherwise. *)
Lemma tally_recount l h out out' m m' r k :
  m + expected h out <= m' + expected h out' ->
  (forall p, out' = Some p -> pub_at p = h -> out = Some p) -> tally l h out m r k -> tally l h out' m' r k.
Proof.
  intros Hm Ho [Hc Hn|H1 H2 H3 H4 H5 H6|e0 H1 H2 H3 H4 H5 H6 H7].
  - by apply tally_drained.
  - apply tally_silent; try done; [lia|]. intros p Hp Hh. by apply H6; [apply Ho|].
  - apply (tally_open _ _ _ _ _ _ e0); try done; [lia|]. intros p Hp Hh. by apply H7; [apply Ho|].
Qed.

(** The confirmation that is received is of a message that was published on
    this channel, and only messages that went astray are before the newest. *)
Lemma tally_receive l h out m n k x :
  tally l h out m (Z.of_nat n) k -> sent k l !! n = Some x ->
  DeliveryTag x <= published k <= DeliveryTag x + (m + expected h out) - 1 /\ newest h out k /\
  (l ∈ listeners k \/ lclosed k l = true) /\ tally l h None m (Z.of_nat (S n)) k.
Proof.
  intros Ht Hx. pose proof (sent_lookup k l n x Hx) as Hlt. pose proof (expected_range h out) as He.
  destruct Ht as [Hc Hn|[_ Hs] H2 H3 H4 H5 H6|e0 H1 H2 H3 H4 H5 H6 H7]; [lia|..].
  - unfold sent in Hx. by rewrite Hs in Hx.
  - pose proof H2 as [_ Hr]. assert ((DeliveryTag <$> sent k l) !! n = Some (DeliveryTag x)) as Ht
      by (by rewrite list_lookup_fmap, Hx).
    rewrite H3 in Ht. apply lookup_seqZ in Ht as [Ht _].
    split_and!; [lia|lia|done|naive_solver|].
    apply (tally_open _ _ _ _ _ _ e0); try done. simpl. lia.
Qed.

Lemma tally_closed l h n k x :
  next_confirmation l k n = Some (x, false) -> forall out m, tally l h out m (Z.of_nat n) k.
Proof.
  unfold next_confirmation. destruct (sent k l !! n) eqn:E; [done|]. destruct (lclosed k l) eqn:Hc; [|done].
  intros _ out m. apply tally_drained; [done|]. apply lookup_ge_None in E. unfold len. lia.
Qed.

(** A message is published on the channel. *)
Lemma tally_publish l h m r k k' :
  tally l h None m r k -> confirms_follow k k' -> silent_kept l k k' ->
  published k' = published k + 1 -> expecting k' = expecting k ->
  tally l h (Some (MkPublication h (published k'))) m r k'.
Proof.
  intros Ht [F1 F2 F3] Hs Hp He. set (p := MkPublication h (published k')).
  assert (expected h (Some p) = 1) as Ep by (unfold expected, p; simpl; by rewrite decide_True).
  assert (newest h (Some p) k') as Hn by (by intros q [= <-]).
  destruct Ht as [Hc Hd|H1 H2 [P1 P2] H4 H5 H6|e0 H1 [P1 P2] H3 H4 H5 H6 H7].
  - destruct (F2 l Hc) as [Hc' E]. apply tally_drained; [done|]. by rewrite E.
  - simpl in H5. apply tally_silent; [by apply Hs|done|split; [done|lia]|lia|lia|done].
  - simpl in H6.
    assert (sent k' l = sent k l /\ (l ∈ listeners k' \/ lclosed k' l = true)) as (E & L).
    { destruct H5 as [[Hl _]|Hc].
      - destruct (F3 l Hl) as (new & E & _ & B & L). assert (new = []) as ->.
        { destruct new; [done|]. unfold len in B. simpl in B. lia. }
        rewrite app_nil_r in E. split; [done|naive_solver].
      - destruct (F2 l Hc) as [Hc' E]. split; [done|by right]. }
    apply (tally_open _ _ _ _ _ _ e0); rewrite ?E, ?He; try done; [split; [done|lia]| |lia].
    destruct H5 as [[Hl Hq]|Hc]; [|right; by apply F2]. destruct L as [L|L]; [left|by right]. done.
Qed.

(** The Go channel is registered. *)
Lemma tally_Listen l h out m r k :
  tally l h out m r k -> silent l k -> tally l h out m r (Listen l k).
Proof.
  intros Ht [Hl Hc]. assert (sent (Listen l k) l = []) as E
    by (unfold sent; change (chan_of (Listen l k) l) with (chan_of k l); by rewrite Hc).
  destruct Ht as [Hcl _|_ -> [P1 P2] H4 H5 H6|e0 H1 H2 H3 H4 H5 H6 H7].
  - unfold lclosed in Hcl. by rewrite Hc in Hcl.
  - apply (tally_open _ _ _ _ _ _ (expecting k)); rewrite ?E; simpl; try done;
      [change (len []) with 0; lia|left; split; [set_solver|change (len []) with 0; lia]|lia].
  - destruct H5 as [[? _]|Hcl]; [done|]. unfold lclosed in Hcl. by rewrite Hc in Hcl.
Qed.

(** ... or it is closed at once. *)
Lemma tally_chan_close l h out m r k k' :
  silent l k -> 0 <= r -> chan_close l k = Ok k' -> tally l h out m r k'.
Proof.
  intros [_ Hc] Hr E. unfold chan_close in E. destruct (lclosed k l); [done|]. injection E as <-.
  assert (chan_of (set_chans (<[l := MkChan (sent k l) true]> (chans k)) k) l = MkChan (sent k l) true) as El
    by (by rewrite chan_of_insert, decide_True).
  apply tally_drained; [unfold lclosed; by rewrite El|]. unfold sent at 1. rewrite El. unfold sent. by rewrite Hc.
Qed.

(** ** The whole client *)

(** Steps that publish nothing on the channels there are. *)
Record mild (k k' : confirms) : Prop := {
  mi_follow : confirms_follow k k';
  mi_silent : forall l, silent_kept l k k';
  mi_range : forall p, range_kept p k k'
}.

Lemma mild_refl k : mild k k.
Proof. split; [apply confirms_follow_refl|by intros l ?|by intros p ?]. Qed.

Definition mildly (w w' : world) : Prop :=
  forall h c ch, has w h c ch ->
    exists c' ch', has w' h c' ch' /\ mild (ch_confirms ch) (ch_confirms ch').

Lemma mildly_same w w' : w_conns w' = w_conns w -> mildly w w'.
Proof. intros E h c ch [H1 H2]. exists c, ch. unfold has. rewrite E. split; [done|apply mild_refl]. Qed.

Lemma gentle_mild c c' a ch ch' :
  gentle c c' -> cn_objs c !! a = Some ch -> cn_objs c' !! a = Some ch' -> mild (ch_confirms ch) (ch_confirms ch').
Proof.
  intros [_ F S R] Ha Ha'. split.
  - destruct (fo_objs _ _ F a ch Ha) as (x & Hx & Fx). assert (x = ch') as -> by congruence. apply Fx.
  - intros l. destruct (S l a ch Ha) as (x & Hx & Kx). assert (x = ch') as -> by congruence. exact Kx.
  - intros p. destruct (R p a ch Ha) as (x & Hx & Kx). assert (x = ch') as -> by congruence. exact Kx.
Qed.

Lemma gentle_mildly w w' i c c' :
  w_conns w !! i = Some c -> gentle c c' -> w_conns w' = <[i := c']> (w_conns w) -> mildly w w'.
Proof.
  intros Hi G E [j a] d ch [Hd Hch]. simpl in Hd, Hch. unfold has. rewrite E. simpl.
  destruct (decide (i = j)) as [<-|Hne].
  - assert (d = c) as -> by congruence. destruct (fo_objs _ _ (ge_follows _ _ G) a ch Hch) as (ch' & Hch' & _).
    exists c', ch'. rewrite list_lookup_insert_eq by (by eapply lookup_lt_Some). split; [done|]. by eapply gentle_mild.
  - exists d, ch. rewrite list_lookup_insert_ne by done. split; [done|apply mild_refl].
Qed.

(** How often the client received from a Go channel. *)
Definition received_from (w : world) (l : nat) : nat := default 0%nat (w_received w !! l).

(** How many messages published on a channel went astray. *)
Definition astray_at (w : world) (h : nat * nat) : Z := len (filter (fun p => pub_at p = h) (w_astray w)).

Lemma astray_nonneg w h : 0 <= astray_at w h.
Proof. apply len_nonneg. Qed.

Lemma note_astray_at p h w h0 :
  astray_at (note_astray p h w) h0 =
    astray_at w h0 + if decide (pub_at p = h) then 0 else expected h0 (Some p).
Proof.
  unfold astray_at, note_astray, expected. simpl. destruct (decide (pub_at p = h)); [lia|].
  rewrite filter_cons. destruct (decide (pub_at p = h0)); unfold len; simpl; lia.
Qed.

Definition account (w : world) (h : nat * nat) (l : nat) : Prop :=
  exists c ch, has w h c ch /\
    tally l h (expects (w_app w)) (astray_at w h) (Z.of_nat (received_from w l)) (ch_confirms ch).

(** What is known of a channel before it has a Go channel for its
    confirmations. *)
Definition unheard (w : world) (h : nat * nat) : Prop :=
  exists c ch, has w h c ch /\ in_range (published (ch_confirms ch)) (ch_confirms ch) /\ 1 <= expecting (ch_confirms ch) /\
    published (ch_confirms ch) <= astray_at w h + expected h (expects (w_app w)) /\
    newest h (expects (w_app w)) (ch_confirms ch).

(** The confirmation [x] of [p] is an ack and was sent to a listener of some
    channel.  When [p] was published on this channel it has the tag of [p], or
    of a message before [p], by at most as many as went astray there; when it
    was not, then [p] and some message of this channel went astray. *)
Definition confirmed (w : world) (p : publication) (x : Confirmation) : Prop :=
  Ack x = true /\ exists h c ch l, has w h c ch /\ x ∈ sent (ch_confirms ch) l /\
    (l ∈ listeners (ch_confirms ch) \/ lclosed (ch_confirms ch) l = true) /\
    if decide (pub_at p = h) then DeliveryTag x <= pub_tag p <= DeliveryTag x + astray_at w h
    else p ∈ w_astray w /\ 1 <= astray_at w h.

(** Nobody waits, or is about to wait, for confirmations of [h]. *)
Definition apart (w : world) (h : nat * nat) : Prop :=
  (forall l, cl_notifyConfirm (w_client w) <> Some (h, l)) /\ (forall data p l, w_app w <> Push_recv data p (h, l)).

(** Nobody but [init] has the channel. *)
Definition unshared (w : world) (h : nat * nat) : Prop :=
  cl_channel (w_client w) <> Some h /\ (forall p, expects (w_app w) = Some p -> pub_at p <> h) /\ apart w h.

(** [client.channel] is replaced, and [client.notifyConfirm] is not. *)
Definition mute (pc : reconnect_pc) : option (nat * nat) :=
  match pc with R_make_close i a | R_make_confirm i a => Some (i, a) | _ => None end.

Record accounts (w : world) : Prop := {
  ac_new : forall h, newborn (w_reconnect w) = Some h ->
    unshared w h /\ exists c ch, has w h c ch /\ in_range 0 (ch_confirms ch) /\ 1 <= expecting (ch_confirms ch);
  ac_mute : forall h, mute (w_reconnect w) = Some h -> apart w h /\ unheard w h;
  ac_current : forall h l, cl_notifyConfirm (w_client w) = Some (h, l) -> account w h l;
  ac_recv : forall data p h l, w_app w = Push_recv data p (h, l) ->
    account w h l /\ (forall h' l', cl_notifyConfirm (w_client w) = Some (h', l') -> h' = h <-> l' = l) /\
    (pub_at p <> h -> p ∈ w_astray w);
  ac_homes : forall h, (exists p, expects (w_app w) = Some p /\ pub_at p = h) \/ cl_channel (w_client w) = Some h ->
    exists c ch, has w h c ch;
  ac_pushed : forall p x, w_app w = Push_returned (inr (p, x)) -> confirmed w p x
}.

Lemma New_accounts q : accounts (New q).
Proof. split; simpl; try done. intros h [(p & ? & _)|?]; done. Qed.

Lemma mild_account w w' h l :
  mildly w w' -> expects (w_app w') = expects (w_app w) -> w_received w' = w_received w -> w_astray w' = w_astray w ->
  account w h l -> account w' h l.
Proof.
  intros Hm Ea Er Es (c & ch & Hh & Ht). destruct (Hm h c ch Hh) as (c' & ch' & Hh' & M). exists c', ch'.
  split; [done|]. unfold received_from, astray_at. rewrite Ea, Er, Es. eapply tally_gentle; [apply M..|done].
Qed.

Lemma mild_unheard w w' h :
  mildly w w' -> expects (w_app w') = expects (w_app w) -> w_astray w' = w_astray w -> unheard w h -> unheard w' h.
Proof.
  intros Hm Ea Es (c & ch & Hh & R & He & Hp & Hn). destruct (Hm h c ch Hh) as (c' & ch' & Hh' & M).
  destruct (mi_range _ _ M _ R) as [P1 P2]. pose proof (kf_expecting _ _ (mi_follow _ _ M)).
  exists c', ch'. unfold astray_at. rewrite Ea, Es, P1. split_and!; [done|done|lia|done|]. unfold newest. by rewrite P1.
Qed.

Lemma confirmed_later w w' p x :
  (forall h c ch, has w h c ch ->
     exists c' ch', has w' h c' ch' /\ confirms_follow (ch_confirms ch) (ch_confirms ch')) ->
  w_astray w' = w_astray w -> confirmed w p x -> confirmed w' p x.
Proof.
  intros Hm Es (H1 & h & c & ch & l & Hh & Hx & Hl & Ht). destruct (Hm _ c ch Hh) as (c' & ch' & Hh' & [F1 F2 F3]).
  split; [done|]. exists h, c', ch', l. unfold astray_at. rewrite Es. destruct Hl as [Hl|Hl].
  - destruct (F3 l Hl) as (new & E & _ & _ & L). rewrite E.
    split_and!; [done|apply elem_of_app; by left|naive_solver|done].
  - destruct (F2 l Hl) as [L E]. rewrite E. split_and!; [done|done|by right|done].
Qed.

Lemma mild_confirmed w w' p x : mildly w w' -> w_astray w' = w_astray w -> confirmed w p x -> confirmed w' p x.
Proof.
  intros Hm. apply confirmed_later. intros h c ch Hh. destruct (Hm h c ch Hh) as (c' & ch' & Hh' & M).
  exists c', ch'. split; [done|apply M].
Qed.

(** Neither waiting for a confirmation nor back with one. *)
Definition calm (pc : app_pc) : bool :=
  match pc with Push_await _ _ | Push_recv _ _ _ | Push_returned (inr _) => false | _ => true end.

Lemma calm_expects pc : calm pc = true -> expects pc = None.
Proof. by destruct pc. Qed.

(** Every step that does not involve confirmations. *)
Lemma accounts_mild w w' :
  accounts w -> mildly w w' ->
  cl_channel (w_client w') = cl_channel (w_client w) ->
  cl_notifyConfirm (w_client w') = cl_notifyConfirm (w_client w) ->
  w_app w' = w_app w \/ expects (w_app w) = None /\ calm (w_app w') = true ->
  w_received w' = w_received w -> w_astray w' = w_astray w ->
  newborn (w_reconnect w') = None \/ newborn (w_reconnect w') = newborn (w_reconnect w) ->
  mute (w_reconnect w') = None \/ mute (w_reconnect w') = mute (w_reconnect w) -> accounts w'.
Proof.
  intros [A1 A2 A3 A4 A5 A6] Hm Ec En Ea Er Es Eb Eu.
  assert (expects (w_app w') = expects (w_app w)) as Eo.
  { destruct Ea as [->|[-> Hc]]; [done|]. by apply calm_expects. }
  assert (forall data p h l, w_app w' = Push_recv data p (h, l) -> w_app w = Push_recv data p (h, l)) as Hrecv.
  { intros data p h l E. destruct Ea as [<-|[_ Hc]]; [done|]. by rewrite E in Hc. }
  assert (forall h, apart w h -> apart w' h) as Hap.
  { intros h [P1 P2]. split; [by rewrite En|]. intros data p l E. by eapply P2, Hrecv. }
  split.
  - intros h Hh. destruct (A1 h) as [(U1 & U2 & U3) (c & ch & Hhas & R & Ge)]; [destruct Eb; congruence|]. split.
    + unfold unshared. rewrite Ec, Eo. split_and!; [done|done|by apply Hap].
    + destruct (Hm h c ch Hhas) as (c' & ch' & Hhas' & M). exists c', ch'. split_and!; [done|by apply M|].
      pose proof (kf_expecting _ _ (mi_follow _ _ M)). lia.
  - intros h Hh. destruct (A2 h) as [H1 H2]; [destruct Eu; congruence|]. split; [by apply Hap|by eapply mild_unheard].
  - intros h l. rewrite En. intros H. by eapply mild_account; [..|by apply A3].
  - intros data p h l E. rewrite En, Es. destruct (A4 data p h l (Hrecv _ _ _ _ E)) as [H1 H2].
    split; [by eapply mild_account|done].
  - intros h Hh. destruct (A5 h) as (c & ch & Hhas); [by rewrite Eo, Ec in Hh|].
    destruct (Hm h c ch Hhas) as (c' & ch' & Hhas' & _). eauto.
  - intros p x E. apply (mild_confirmed w); [done|done|]. apply A6. destruct Ea as [<-|[_ Hc]]; [done|]. by rewrite E in Hc.
Qed.

(** ** The steps of [init] *)

(** A connection is replaced, all else stays. *)
Lemma gentle_accounts w w' i c c' :
  accounts w -> w_conns w !! i = Some c -> gentle c c' -> w_conns w' = <[i := c']> (w_conns w) ->
  cl_channel (w_client w') = cl_channel (w_client w) ->
  cl_notifyConfirm (w_client w') = cl_notifyConfirm (w_client w) ->
  w_app w' = w_app w \/ expects (w_app w) = None /\ calm (w_app w') = true ->
  w_received w' = w_received w -> w_astray w' = w_astray w ->
  newborn (w_reconnect w') = None \/ newborn (w_reconnect w') = newborn (w_reconnect w) ->
  mute (w_reconnect w') = None \/ mute (w_reconnect w') = mute (w_reconnect w) -> accounts w'.
Proof. intros A Hi G E. apply (accounts_mild w w' A). by eapply gentle_mildly. Qed.

(** A new channel is at an address nobody has. *)
Lemma new_unshared w i c :
  accounts w -> w_conns w !! i = Some c -> unshared w (i, length (cn_objs c)).
Proof.
  intros A Hi.
  assert (forall d ch, ~ has w (i, length (cn_objs c)) d ch) as Hno.
  { intros d ch [Hd Hch]. simpl in Hd, Hch. assert (d = c) as -> by congruence.
    apply lookup_lt_Some in Hch. lia. }
  split_and!.
  - intros E. destruct (ac_homes w A _ (or_intror E)) as (d & ch & Hd). by eapply Hno.
  - intros p E Hp. destruct (ac_homes w A _ (or_introl (ex_intro _ p (conj E Hp)))) as (d & ch & Hd). by eapply Hno.
  - split.
    + intros l E. destruct (ac_current w A _ l E) as (d & ch & Hd & _). by eapply Hno.
    + intros data p l E. destruct (ac_recv w A data p _ l E) as ((d & ch & Hd & _) & _). by eapply Hno.
Qed.

Lemma newborn_accounts w i a c ch :
  accounts w -> unshared w (i, a) -> has w (i, a) c ch -> ch_confirms ch = newConfirms ->
  accounts (goto (R_confirm i a) w).
Proof.
  intros [A1 A2 A3 A4 A5 A6] U Hh E. split; try done. intros h [= <-]. split; [done|]. exists c, ch.
  rewrite E. split; [done|]. split; [split; [done|by vm_compute]|by vm_compute].
Qed.

Lemma change_channel_accounts i a w :
  accounts w -> w_reconnect w = R_change i a ->
  accounts (goto (R_make_close i a) (set_client (with_channel (i, a) (w_client w)) w)).
Proof.
  intros A Hpc. destruct (ac_new w A (i, a)) as [(N1 & N2 & N3) (c & ch & Hh & [P1 P2] & Ge)]; [by rewrite Hpc|].
  destruct A as [A1 A2 A3 A4 A5 A6]. split; try done.
  - intros h [= <-]. split; [done|]. exists c, ch. pose proof (astray_nonneg w (i, a)).
    pose proof (expected_range (i, a) (expects (w_app w))).
    split; [done|]. split; [by rewrite P1|]. split; [done|].
    split; [unfold astray_at in *; simpl; lia|]. intros p Hp Ha. by destruct (N2 p Hp).
  - intros h [H|[= <-]]; [by apply A5; left|by exists c, ch].
Qed.

Lemma change_make_confirm_accounts i a l w :
  accounts w -> w_reconnect w = R_make_confirm i a -> unused l w ->
  accounts (goto (R_notify i a l) (set_client (with_notifyConfirm ((i, a), l) (w_client w)) w)).
Proof.
  intros A Hpc (U1 & U2 & U3 & U4 & U5).
  destruct (ac_mute w A (i, a)) as [[N1 N2] (c & ch & Hh & R & Ge & Hp & Hn)]; [by rewrite Hpc|].
  destruct A as [A1 A2 A3 A4 A5 A6]. split; try done.
  - intros h k [= <- <-]. exists c, ch. split; [done|].
    replace (received_from _ l) with 0%nat by (unfold received_from; simpl; by rewrite U2).
    apply tally_silent; [|done|done|done|done|done]. destruct Hh as [Hc Hch].
    apply (proj2 (U1 c ltac:(by eapply list_elem_of_lookup_2))). by eapply list_elem_of_lookup_2.
  - intros data p h k Hrecv. destruct (A4 data p h k Hrecv) as (H1 & H2 & H3). split_and!; [done| |done].
    intros h' l' [= <- <-]. split; [intros <-; by destruct (N2 data p k)|intros <-; by destruct (U4 data p h)].
Qed.

(** What a call that follows does to the channels. *)
Lemma follows_has w i c c' h d ch :
  w_conns w !! i = Some c -> follows c c' -> has w h d ch ->
  exists d' ch', has (set_conns (<[i := c']> (w_conns w)) w) h d' ch' /\
    confirms_follow (ch_confirms ch) (ch_confirms ch').
Proof.
  intros Hi F Hh. destruct (replace_has w i c c' Hi F h d ch Hh) as (d' & ch' & Hh' & _ & Fc).
  exists d', ch'. split; [done|apply Fc].
Qed.

(** Only one channel of a connection changes. *)
Lemma has_insert w i c c' a ch' h d ch :
  w_conns w !! i = Some c -> cn_objs c' = <[a := ch']> (cn_objs c) -> h <> (i, a) -> has w h d ch ->
  exists d', has (set_conns (<[i := c']> (w_conns w)) w) h d' ch.
Proof.
  intros Hi E Hne [Hd Hch]. destruct h as [j b]. unfold has in *. simpl in *. destruct (decide (i = j)) as [<-|Hij].
  - exists c'. rewrite list_lookup_insert_eq by (by eapply lookup_lt_Some). split; [done|].
    assert (d = c) as -> by congruence. rewrite E, list_lookup_insert_ne; [done|]. intros ->. by destruct Hne.
  - exists d. by rewrite list_lookup_insert_ne.
Qed.

Lemma NotifyPublish_objs a l c ch c' :
  cn_objs c !! a = Some ch -> NotifyPublish a l c = Ok (tt, c') ->
  exists k, cn_objs c' = <[a := with_confirms k ch]> (cn_objs c) /\
    (k = Listen l (ch_confirms ch) \/ chan_close l (ch_confirms ch) = Ok k).
Proof.
  intros Ha E. unfold NotifyPublish in E. rewrite (mbind_ok _ _ _ _ _ (get_chan_ok _ _ _ Ha)) in E.
  destruct (ch_noNotify ch).
  - apply mbind_inv in E as (k & c1 & E1 & E). unfold mlift in E1.
    destruct (chan_close l (ch_confirms ch)) as [k'| | |] eqn:Ek; simplify_eq/=.
    rewrite (upd_chan_ok a _ _ ch Ha) in E. injection E as <-. exists k. split; [done|by right].
  - rewrite (upd_chan_ok a _ _ ch Ha) in E. injection E as <-. eexists. split; [done|by left].
Qed.

Lemma listen_accounts i a l w w' :
  wired w -> accounts w -> w_reconnect w = R_listen i a l -> on_conn i (NotifyPublish a l) w = Ok (tt, w') ->
  accounts (goto (R_ready i) w').
Proof.
  intros Hw A Hpc E. destruct (wi_listen w Hw (i, a) l) as (Hn & c & ch & [Hc Hch] & Hs); [by rewrite Hpc|]. simpl in Hc, Hch.
  apply on_conn_inv in E as (c1 & c' & Hc1 & Em & ->). assert (c1 = c) as -> by congruence.
  destruct (perform_returns (OnChannel a (Do_NotifyPublish l)) c (wi_wf w Hw i c Hc)) as (c2 & E2 & W2 & F).
  { exists ch. split; [done|]. destruct Hs as [Hs1 Hs2]. split; [done|]. unfold lclosed. by rewrite Hs2. }
  assert (c2 = c') as -> by (cbn [perform perform_on] in E2; congruence).
  destruct (NotifyPublish_objs a l c ch c' Hch Em) as (k & O & Hk). destruct A as [A1 A2 A3 A4 A5 A6].
  assert (forall h l0, account w h l0 -> (h = (i, a) <-> l0 = l) ->
    account (goto (R_ready i) (set_conns (<[i:=c']> (w_conns w)) w)) h l0) as Hacc.
  { intros h l0 (d & x & Hd & Ht) Hiff. destruct (decide (h = (i, a))) as [->|Hne].
    - assert (l0 = l) as -> by (by apply Hiff). destruct Hd as [Hd Hx]. simpl in Hd, Hx.
      assert (d = c) as -> by congruence. assert (x = ch) as -> by congruence. exists c', (with_confirms k ch). split.
      + split; simpl; [apply list_lookup_insert_eq; by eapply lookup_lt_Some|].
        rewrite O. apply list_lookup_insert_eq. by eapply lookup_lt_Some.
      + destruct Hk as [->|Hk]; [by apply tally_Listen|by eapply tally_chan_close; [|lia|]].
    - destruct (has_insert w i c c' a _ h d x Hc O Hne Hd) as (d' & Hd'). by exists d', x. }
  split; try done.
  - intros h l0 H. simpl in H. apply Hacc; [by apply A3|]. rewrite Hn in H. by injection H as <- <-.
  - intros data p h l0 Hr. destruct (A4 data p h l0 Hr) as (H1 & H2 & H3). split_and!; [|done|done].
    apply Hacc; [done|]. destruct (H2 (i, a) l Hn) as [P1 P2]. split; intros ->; [by rewrite P1|by rewrite P2].
  - intros h Hh. destruct (A5 h Hh) as (d & x & Hd). destruct (follows_has w i c c' h d x Hc F Hd) as (d' & x' & Hd' & _).
    by exists d', x'.
  - intros p x H. apply (confirmed_later w); [|done|by apply A6]. intros h d y Hd. by eapply follows_has.
Qed.

(** ** The steps of [Push] *)

(** What publishing does to the client's channel, and to no other. *)
Lemma publish_channel w i a e key m im msg err w' :
  wired w -> publish_limit w -> cl_channel (w_client w) = Some (i, a) ->
  on_conn i (PublishWithContext a e key m im msg) w = Ok (err, w') ->
  exists c ch c' ch', has w (i, a) c ch /\ w' = set_conns (<[i := c']> (w_conns w)) w /\
    cn_objs c' = <[a := ch']> (cn_objs c) /\ has w' (i, a) c' ch' /\
    confirms_follow (ch_confirms ch) (ch_confirms ch') /\
    (forall l, silent_kept l (ch_confirms ch) (ch_confirms ch')) /\
    expecting (ch_confirms ch') = expecting (ch_confirms ch) /\
    published (ch_confirms ch') = published (ch_confirms ch) + if err then 0 else 1.
Proof.
  intros Hw Hlim Hcl E.
  destruct (publish_wired _ _ _ _ _ _ _ _ _ _ Hw Hcl (fun c ch H => Hlim i a c ch Hcl (proj1 H) (proj2 H)) E)
    as (c & ch & c' & ch' & x & Hh & F & O & P & -> & Hcf & He & -> & _). pose proof Hh as [Hc Hch]. simpl in Hc, Hch.
  pose proof (lookup_lt_Some _ _ _ Hc) as Hlt. pose proof (lookup_lt_Some _ _ _ Hch) as Hlt0.
  assert (cn_objs c' !! a = Some ch') as Hch' by (rewrite O; by apply list_lookup_insert_eq).
  apply on_conn_inv in E as (c1 & c2 & Hc1 & Em & E2). assert (c1 = c) as -> by congruence.
  assert (c2 = c') as ->.
  { apply (f_equal w_conns) in E2. simpl in E2. apply (f_equal (.!! i)) in E2.
    rewrite !list_lookup_insert_eq in E2 by done. congruence. }
  apply mbind_inv in Em as (y & c3 & Ex & Em). unfold mret in Em. injection Em as _ <-.
  assert (has (set_conns (<[i := c3]> (w_conns w)) w) (i, a) c3 ch') as Hh'
    by (split; [by apply list_lookup_insert_eq|done]).
  exists c, ch, c3, ch'. split_and!; try done.
  - destruct (fo_objs _ _ F a ch Hch) as (z & Hz & Fz). assert (z = ch') as -> by congruence. apply Fz.
  - intros l. destruct (Publish_silent l _ _ _ _ _ _ _ _ _ Ex a ch Hch) as (z & Hz & Kz).
    assert (z = ch') as -> by congruence. exact Kz.
  - unfold published_as in P. destruct x as [[dc|] [err|]]; simpl; try done; [by destruct P as (_ & -> & _)|lia|].
    destruct P as [P _]. congruence.
Qed.

Lemma unpublished_accounts w i a data e w' :
  wired w -> accounts w -> publish_limit w -> w_app w = Push_publish data ->
  cl_channel (w_client w) = Some (i, a) ->
  on_conn i (PublishWithContext a "" (cl_queueName (w_client w)) false false (push_publishing data)) w = Ok (Some e, w') ->
  accounts (app_goto (Push_retry data) w').
Proof.
  intros Hw A Hlim Hpc Hcl E.
  destruct (publish_channel _ _ _ _ _ _ _ _ _ _ Hw Hlim Hcl E) as (c & ch & c' & ch' & Hh & -> & O & Hh' & F & S & Ee & Ep).
  apply (accounts_mild w); [done| |done|done|right; split; [by rewrite Hpc|done]|done|done|by right|by right].
  intros h d x Hd. destruct (decide (h = (i, a))) as [->|Hne].
  - exists c', ch'. split; [done|]. destruct Hh as [Hc Hch], Hd as [Hd Hx].
    assert (d = c) as -> by congruence. assert (x = ch) as -> by congruence. split; [done|done|].
    intros p Hp. eapply in_range_same; [|exact Hp]. split; [lia|done].
  - destruct (has_insert w i c c' a ch' h d x (proj1 Hh) O Hne Hd) as (d' & Hd'). exists d', x. split; [done|apply mild_refl].
Qed.

Lemma published_accounts w i a data w' c1 ch1 :
  wired w -> accounts w -> publish_limit w -> w_app w = Push_publish data ->
  cl_channel (w_client w) = Some (i, a) ->
  on_conn i (PublishWithContext a "" (cl_queueName (w_client w)) false false (push_publishing data)) w = Ok (None, w') ->
  has w' (i, a) c1 ch1 ->
  accounts (app_goto (Push_await data (MkPublication (i, a) (published (ch_confirms ch1)))) w').
Proof.
  intros Hw A Hlim Hpc Hcl E H1.
  destruct (publish_channel _ _ _ _ _ _ _ _ _ _ Hw Hlim Hcl E) as (c & ch & c' & ch' & Hh & -> & O & Hh' & F & S & Ee & Ep).
  assert (ch1 = ch') as -> by (destruct H1, Hh'; congruence). clear H1. pose proof (wi_changing w Hw) as Hm.
  destruct A as [A1 A2 A3 A4 A5 A6]. unfold account, unheard in A2, A3. rewrite Hpc in A2, A3.
  split; try done.
  - intros h Hb. destruct (A1 h Hb) as [(U1 & U2 & U3 & U4) (d & x & Hd & R & Ge)].
    assert (h <> (i, a)) as Hne by congruence. split.
    + split_and!; [done|by intros p [= <-]|split; [done|by intros]].
    + destruct (has_insert w i c c' a ch' h d x (proj1 Hh) O Hne Hd) as (d' & Hd'). by exists d', x.
  - intros h Hb. destruct (A2 h Hb) as [[U1 U2] (d & x & Hd & [R1 R2] & Ge & Hp & _)].
    assert (h = (i, a)) as ->.
    { assert (changing (w_reconnect w) = Some h) as H by (simpl in Hb; by destruct (w_reconnect w)).
      specialize (Hm h H). congruence. }
    assert (x = ch) as -> by (destruct Hh, Hd; congruence). split; [split; [done|by intros]|]. exists c', ch'.
    split; [done|]. simpl in Hp. split; [split; [done|lia]|]. split; [lia|].
    split; [|by intros q [= <-]]. unfold astray_at, expected in *. simpl. rewrite decide_True by done. lia.
  - intros h l Hl. destruct (A3 h l Hl) as (d & x & Hd & Ht). destruct (decide (h = (i, a))) as [->|Hne].
    + assert (x = ch) as -> by (destruct Hh, Hd; congruence). exists c', ch'. split; [done|]. by eapply tally_publish.
    + destruct (has_insert w i c c' a ch' h d x (proj1 Hh) O Hne Hd) as (d' & Hd'). exists d', x. split; [done|].
      eapply tally_recount; [| |exact Ht].
      * pose proof (expected_range h (expects (Push_await data (MkPublication (i, a) (published (ch_confirms ch')))))).
        simpl. change (astray_at _ h) with (astray_at w h). simpl in H. lia.
      * intros p [= <-] Hp. simpl in Hp. congruence.
  - intros h [(p & [= <-] & <-)|Hl]; exists c', ch'; [done|]. simpl in Hl. assert (h = (i, a)) as -> by congruence. done.
Qed.

Lemma await_accounts w data p l :
  accounts w -> w_app w = Push_await data p -> cl_notifyConfirm (w_client w) = Some l ->
  accounts (app_goto (Push_recv data p l) (note_astray p (fst l) w)).
Proof.
  intros [A1 A2 A3 A4 A5 A6] Hpc Hl. destruct l as [h l]. simpl fst.
  set (w' := app_goto (Push_recv data p (h, l)) (note_astray p h w)).
  assert (forall h0, astray_at w h0 + expected h0 (Some p) <= astray_at w' h0 + expected h0 (expects (w_app w'))) as Hle.
  { intros h0. change (astray_at w' h0) with (astray_at (note_astray p h w) h0). rewrite note_astray_at. simpl expects.
    destruct (decide (pub_at p = h)); [|change (expected h0 None) with 0]; lia. }
  assert (forall q, expects (w_app w') = Some q -> q = p) as Hq.
  { simpl. destruct (decide _); [by intros q [= <-]|done]. }
  assert (forall h0 l0, account w h0 l0 -> account w' h0 l0) as Hacc.
  { intros h0 l0 (c & ch & Hh & Ht). exists c, ch. split; [done|]. rewrite Hpc in Ht.
    eapply tally_recount; [apply Hle| |exact Ht]. intros q E _. by rewrite (Hq q E). }
  rewrite Hpc in A5. simpl in A5. split; try done.
  - intros h' Hb. destruct (A1 h' Hb) as [(U1 & U2 & U3 & U4) Hd]. rewrite Hpc in U2. split; [|done].
    split_and!; [done|intros q E; rewrite (Hq q E); by apply U2|]. split; [done|]. intros ? ? ? [= _ _ E _].
    apply (U3 l). by rewrite Hl, E.
  - intros h' Hb. destruct (A2 h' Hb) as [[U1 U2] (c & ch & Hh & R & Ge & Hp & Hn)]. rewrite Hpc in Hp, Hn. split.
    + split; [done|]. intros ? ? ? [= _ _ E _]. apply (U1 l). by rewrite Hl, E.
    + exists c, ch. split; [done|]. split; [done|]. split; [done|]. specialize (Hle h'). split; [exact (Z.le_trans _ _ _ Hp Hle)|].
      intros q E. rewrite (Hq q E). by apply Hn.
  - intros h' l' H. by apply Hacc, A3.
  - intros ? ? ? ? [= _ <- <- <-]. split; [by apply Hacc, A3|]. split.
    + intros h' l' H. simpl in H. rewrite Hl in H. by injection H as <- <-.
    + intros Hne. simpl. rewrite decide_False by done. by left.
  - intros h' [(q & E & <-)|H]; apply A5; [left|by right]. exists q. by rewrite (Hq q E).
Qed.

(** A receive from a Go channel of confirmations. *)
Lemma recv_accounts w w' data p h l :
  accounts w -> w_app w = Push_recv data p (h, l) ->
  w_conns w' = w_conns w -> w_client w' = w_client w -> w_reconnect w' = w_reconnect w -> w_astray w' = w_astray w ->
  (forall k, k <> l -> received_from w' k = received_from w k) ->
  w_app w' = Push_loop data \/ (exists x, w_app w' = Push_returned (inr (p, x)) /\ confirmed w p x) ->
  (forall c ch, has w h c ch -> tally l h None (astray_at w h) (Z.of_nat (received_from w' l)) (ch_confirms ch)) ->
  accounts w'.
Proof.
  intros [A1 A2 A3 A4 A5 A6] Hpc Ec Ecl Er Es Hr Ha Ht.
  assert (expects (w_app w') = None) as Ho by (destruct Ha as [->|(x & -> & _)]; done).
  assert (forall data p l, w_app w' <> Push_recv data p l) as Hnr by (intros; destruct Ha as [->|(x & -> & _)]; done).
  assert (forall h c ch, has w' h c ch <-> has w h c ch) as Hhas by (intros; unfold has; by rewrite Ec).
  assert (forall h0, h0 <> h -> expected h0 (expects (w_app w)) = 0) as Hne.
  { intros h0 H. rewrite Hpc. simpl. destruct (decide (pub_at p = h)) as [<-|]; [|done]. by apply expected_elsewhere. }
  destruct (A4 data p h l Hpc) as (B1 & B2 & B3). split.
  - rewrite Er. intros h' Hb. destruct (A1 h' Hb) as [(U1 & U2 & U3 & U4) (c & ch & Hd & Hx)]. split.
    + unfold unshared, apart. rewrite Ecl, Ho. split_and!; [done|done|done|]. intros ? ? ?. apply Hnr.
    + exists c, ch. by rewrite Hhas.
  - rewrite Er. intros h' Hb. destruct (A2 h' Hb) as [[U1 U2] (c & ch & Hd & R & Ge & Hp & Hn)]. split.
    + split; [by rewrite Ecl|]. intros ? ? ?. apply Hnr.
    + rewrite Hne in Hp by (intros ->; by destruct (U2 data p l)). exists c, ch. unfold astray_at. rewrite Hhas, Ho, Es.
      split; [done|]. split; [done|]. split; [done|]. split; [exact Hp|apply newest_none].
  - rewrite Ecl. intros h' l' Hl. destruct (A3 h' l' Hl) as (c & ch & Hd & Htl). exists c, ch.
    unfold astray_at. rewrite Hhas, Ho, Es. split; [done|]. destruct (decide (h' = h)) as [->|Hh].
    + assert (l' = l) as -> by (by apply (B2 h l')). by apply (Ht c).
    + rewrite Hr by (intros ->; apply Hh; by apply (B2 h' l)). apply (tally_recount l' h' (expects (w_app w)) None (astray_at w h'));
        [|done|exact Htl]. rewrite Hne by done. simpl. unfold astray_at. lia.
  - intros ? ? ? ? H. by destruct (Hnr _ _ _ H).
  - rewrite Ecl, Ho. intros h' [(? & ? & _)|H]; [done|]. destruct (A5 h' (or_intror H)) as (c & ch & Hd).
    exists c, ch. by apply Hhas.
  - intros p' x H. destruct Ha as [Ha|(y & Ha & Hk)]; [congruence|]. assert (p' = p /\ x = y) as [-> ->] by (split; congruence).
    apply (mild_confirmed w); [by apply mildly_same|done|done].
Qed.

Lemma UnsafePush_accounts w w' : wired w -> accounts w -> publish_limit w -> UnsafePush w w' -> accounts w'.
Proof.
  intros Hw A Hlim Hs. destruct Hs as [data w Hpc Hr|data w Hpc Hr|data w Hpc Hn|data i a e w w' Hpc Hcl E
    |data i a c ch w w' Hpc Hcl E Hc Hch].
  1,2,3: (apply (accounts_mild w); [done|by apply mildly_same|done|done|right; split; [by rewrite Hpc|done]|done|done
    |by right|by right]).
  - by eapply unpublished_accounts.
  - by apply (published_accounts w i a data w' c ch).
Qed.

Lemma Push_accounts w w' : wired w -> accounts w -> publish_limit w -> Push w w' -> accounts w'.
Proof.
  intros Hw A Hlim Hs. destruct Hs as [data w Hpc Hr|data w Hpc Hr|w w' Hu|data w Hpc Hd|data w Hpc|data p l w Hpc Hl
    |data p l i c a ch x w Hpc Hc Hch Hx|data p l i c a ch x w Hpc Hc Hch Hx].
  1,2,4,5: apply (accounts_mild w);
    [done|by apply mildly_same|done|done|right; split; [by rewrite Hpc|done]|done|done|by right|by right].
  - by eapply UnsafePush_accounts.
  - by apply await_accounts.
  - destruct (ac_recv w A data p (i, a) l Hpc) as ((c1 & ch1 & Hh & Ht) & _ & Hstray).
    pose proof Hh as [Hc1 Hch1]. simpl in Hc1, Hch1.
    assert (c1 = c) as -> by congruence. assert (ch1 = ch) as -> by congruence.
    unfold next_confirmation in Hx. change (default _ _) with (received_from w l) in Hx.
    destruct (sent (ch_confirms ch) l !! received_from w l) as [y|] eqn:Ey; [|by destruct (lclosed _ _)].
    injection Hx as ->. destruct (tally_receive _ _ _ _ _ _ _ Ht Ey) as (Hp & Hn & Hl & Hnext).
    eapply (recv_accounts w _ data p (i, a) l); [done|done|done|done|done|done| | |].
    + intros k Hk. unfold received_from. simpl. by rewrite lookup_insert_ne.
    + simpl. destruct (Ack x) eqn:Ea; [right|by left]. exists x. split; [done|]. split; [done|].
      exists (i, a), c, ch, l. split_and!; [done|by eapply list_elem_of_lookup_2|done|].
      unfold newest, expected in Hp, Hn. rewrite Hpc in Hp, Hn. simpl in Hp, Hn.
      destruct (decide (pub_at p = (i, a))) as [e|e].
      * rewrite decide_True in Hp by done. rewrite (Hn p eq_refl e). lia.
      * split; [by apply Hstray|lia].
    + intros d z [Hd Hz]. simpl in Hd, Hz. assert (d = c) as -> by congruence. assert (z = ch) as -> by congruence.
      unfold received_from at 1. simpl. by rewrite lookup_insert_eq.
  - eapply (recv_accounts w _ data p (i, a) l); [done|done|done|done|done|done|done|by left|].
    intros d z [Hd Hz]. simpl in Hd, Hz. assert (d = c) as -> by congruence. assert (z = ch) as -> by congruence.
    by eapply tally_closed.
Qed.

(** ** Every other step *)

Ltac mild_step :=
  first [by left|right; split; [by match goal with H : w_app _ = _ |- _ => rewrite H end|done]].

Lemma Consume_accounts r w w' : wired w -> accounts w -> Client_Consume r w w' -> accounts w'.
Proof.
  intros Hw A Hs. destruct Hs as [w Hpc Hr|w Hpc Hr|w Hpc Hn|i a err w w' Hpc Hcl E|i a tag x w w' Hpc Hcl E].
  1,2,3: apply (accounts_mild w); [done|by apply mildly_same|done|done| |done|done|by right|by right];
    right; split; [|done]; try (by rewrite Hpc); by destruct Hpc as [->| ->].
  - destruct (channel_call_wired w i a (Do_Qos 1 0 false r) _ _ _ Hw Hcl E) as (_ & _ & c & c' & Hc & G & ->);
      [done|done|intros; by eapply ignore_ok|].
    eapply (gentle_accounts w _ i c c'); [done..|right; split; [by rewrite Hpc|by destruct err]|done|done|by right|by right].
  - destruct (channel_call_wired w i a (Do_Consume (cl_queueName (w_client w)) "" false false false false [] tag r)
      _ _ _ Hw Hcl E) as (_ & _ & c & c' & Hc & G & ->); [done|done|intros; by eapply ignore_ok|].
    eapply (gentle_accounts w _ i c c'); [done..|right; split; [by rewrite Hpc|done]|done|done|by right|by right].
Qed.

Lemma Close_accounts r w w' : wired w -> accounts w -> Close r w w' -> accounts w'.
Proof.
  intros Hw A Hs. destruct Hs as [w Hpc Hr|w Hpc Hr Hd|w Hpc Hr Hd|w Hn|i a err w w' Hpc Hcl E|i err w w' Hpc Hcl E].
  1,2,3,4: apply (accounts_mild w); [done|by apply mildly_same|done|done| |done|done|by right|by right];
    right; split; [|done]; try (by rewrite Hpc); by destruct Hn as [[-> _]|[-> _]].
  - destruct (channel_call_wired w i a (Do_Close r) _ _ _ Hw Hcl E) as (_ & _ & c & c' & Hc & G & ->);
      [done|done|intros; by eapply ignore_ok|].
    eapply (gentle_accounts w _ i c c'); [done..|right; split; [by rewrite Hpc|by destruct err]|done|done|by right|by right].
  - destruct (connection_close_wired w i r err w' Hw E) as (_ & _ & c & c' & Hc & G & ->).
    destruct err; (eapply (gentle_accounts w _ i c c');
      [done..|right; split; [by rewrite Hpc|done]|done|done|by right|by right]).
Qed.

Lemma changeConnection_accounts w w' : wired w -> accounts w -> changeConnection w w' -> accounts w'.
Proof.
  intros Hw A Hs. destruct Hs as [i w Hpc|i w Hpc|i l w w' Hpc Hu E].
  1,2: apply (accounts_mild w); [done|by apply mildly_same|done|done|by left|done|done|by left|by left].
  apply on_conn_inv in E as (c & c' & Hc & Em & ->). simpl in Hc.
  eapply (gentle_accounts w _ i c c'); [done|done| |done|done|done|by left|done|done|by left|by left].
  apply (gentle_perform (Do_ConnectionNotifyClose l)); [by eapply wi_wf| |done|done].
  apply Hu. by eapply list_elem_of_lookup_2.
Qed.

Lemma handleReconnect_accounts w w' : wired w -> accounts w -> handleReconnect w w' -> accounts w'.
Proof.
  intros Hw A Hs. destruct Hs as [w Hpc _|w Hpc|c w Hpc He|w w' Hc|w Hpc _|w Hpc]; [| | |by eapply changeConnection_accounts|..].
  1,2,4,5: apply (accounts_mild w); [done|by apply mildly_same|done|done|by left|done|done|by left|by left].
  apply (accounts_mild w); [done| |done|done|by left|done|done|by left|by left]. intros h d ch [Hd Hch]. exists d, ch.
  split; [|apply mild_refl]. split; [|done]. by apply lookup_app_l_Some.
Qed.

Lemma changeChannel_accounts w w' : wired w -> accounts w -> changeChannel w w' -> accounts w'.
Proof.
  intros Hw A Hs. destruct Hs as [i a w Hpc|i a w Hpc|i a l w Hpc Hu|i a l k w w' Hpc Hu E|i a l w w' Hpc E].
  - by apply change_channel_accounts.
  - apply (accounts_mild w); [done|by apply mildly_same|done|done|by left|done|done|by left|right; by rewrite Hpc].
  - by apply change_make_confirm_accounts.
  - destruct (wi_listen w Hw (i, a) l) as (_ & c & ch & [Hc Hch] & _); [by rewrite Hpc|]. simpl in Hc, Hch.
    apply on_conn_inv in E as (c1 & c' & Hc1 & Em & ->). simpl in Hc1. assert (c1 = c) as -> by congruence.
    eapply (gentle_accounts w _ i c c'); [done|done| |done|done|done|by left|done|done|by left|by left].
    apply (gentle_perform (OnChannel a (Do_NotifyClose k))); [by eapply wi_wf| |done|exact Em].
    exists ch. split; [done|]. apply Hu. by eapply list_elem_of_lookup_2.
  - by eapply listen_accounts.
Qed.

Lemma init_accounts r w w' : wired w -> accounts w -> init r w w' -> accounts w'.
Proof.
  intros Hw A Hs. destruct Hs as [i x w w' Hpc E|i a err w w' Hpc E|i a x w w' Hpc E|w w' Hc|i w Hpc _].
  - destruct (gentle_call_wired w i (Do_Channel r) _ _ _ Hw E) as (c & c' & Hc & Em & G & -> & _);
      [done|done|intros; by eapply ignore_ok|].
    assert (accounts (goto (R_failed i) (set_conns (<[i:=c']> (w_conns w)) w))) as A1
      by (eapply (gentle_accounts w _ i c c'); [done..|by left|done|done|by left|by left]).
    destruct x as [[e|] [a|]]; try exact A1. destruct (Connection_Channel_new r a c c' Em) as (-> & ch & Hch & Hk).
    change (accounts (goto (R_confirm i (length (cn_objs c))) (goto (R_failed i) (set_conns (<[i:=c']> (w_conns w)) w)))).
    apply (newborn_accounts _ i _ c' ch); [done| |split; [|done]|done].
    + exact (new_unshared w i c A Hc).
    + simpl. apply list_lookup_insert_eq. by eapply lookup_lt_Some.
  - destruct (wi_newborn w Hw (i, a)) as (c0 & ch0 & [Hc0 Hch0] & _); [by rewrite Hpc|]. simpl in Hc0, Hch0.
    destruct (gentle_call_wired w i (OnChannel a (Do_Confirm false r)) _ _ _ Hw E)
      as (c & c' & Hc & Em & G & -> & _); [|done|intros; by eapply ignore_ok|].
    { intros c Hc. assert (c = c0) as -> by congruence. by exists ch0. }
    eapply (gentle_accounts w _ i c c'); [done..|by left|done|done| |left; by destruct err].
    destruct err; [by left|right; simpl; by rewrite Hpc].
  - destruct (wi_newborn w Hw (i, a)) as (c0 & ch0 & [Hc0 Hch0] & _); [by rewrite Hpc|]. simpl in Hc0, Hch0.
    destruct (gentle_call_wired w i
      (OnChannel a (Do_QueueDeclare false (cl_queueName (w_client w)) false false false false [] r)) _ _ _ Hw E)
      as (c & c' & Hc & Em & G & -> & _); [|done|intros; by eapply ignore_ok|].
    { intros c Hc. assert (c = c0) as -> by congruence. by exists ch0. }
    eapply (gentle_accounts w _ i c c'); [done..|by left|done|done| |left; by destruct (snd x)].
    destruct (snd x); [by left|right; simpl; by rewrite Hpc].
  - by eapply changeChannel_accounts.
  - apply (accounts_mild w); [done|by apply mildly_same|done|done|by left|done|done|by left|by left].
Qed.

Lemma handleReInit_accounts r w w' : wired w -> accounts w -> handleReInit r w w' -> accounts w'.
Proof.
  intros Hw A Hs. destruct Hs; [|by eapply init_accounts|..];
    (apply (accounts_mild w); [done|by apply mildly_same|done|done|by left|done|done|by left|by left]).
Qed.

Lemma client_step_accounts w w' : wired w -> accounts w -> client_step w w' -> accounts w'.
Proof.
  intros Hw A Hs. destruct Hs as [w w' H|r w w' H|pc w Hb Hc|w w' Hl H|r w w' H|r w w' H|i c c' w Hi Hp].
  - by eapply handleReconnect_accounts.
  - by eapply handleReInit_accounts.
  - apply (accounts_mild w); [done|by apply mildly_same|done|done| |done|done|by right|by right]. right.
    split; [by destruct (w_app w)|by destruct pc].
  - by eapply Push_accounts.
  - by eapply Consume_accounts.
  - by eapply Close_accounts.
  - eapply (gentle_accounts w _ i c c'); [done|done| |done|done|done|by left|done|done|by right|by right].
    apply peer_gentle; [|done]. by eapply wi_wf.
Qed.

Lemma reaches_accounts q w : client_reaches q w -> wired w /\ accounts w.
Proof.
  unfold client_reaches. intros H. pose proof (New_wired q) as H0. pose proof (New_accounts q) as A0.
  induction H as [|w1 w2 w3 H1 _ IH]; [done|]. apply IH; [by eapply client_step_wired|by eapply client_step_accounts].
Qed.

(** C5: [Push] returns without an error only with an ack that was sent to a
    Go channel of confirmations of the client, over any number of
    reconnections, retries, nacks and interleavings with [changeChannel].  The
    confirmation has the tag of this very message, on the channel it was
    published on, or it lags behind: by at most as many messages as were
    published on this channel while [Push] waited at the Go channel of
    another one.  Without such messages on this channel the tag is exact. *)
Theorem push_confirmed q w p x :
  client_reaches q w -> w_app w = Push_returned (inr (p, x)) ->
  confirmed w p x /\
  (p ∉ w_astray w -> astray_at w (pub_at p) = 0 ->
     DeliveryTag x = pub_tag p /\ exists c ch l, has w (pub_at p) c ch /\ x ∈ sent (ch_confirms ch) l).
Proof.
  intros [_ A]%reaches_accounts Hpc. pose proof (ac_pushed w A p x Hpc) as H. split; [done|]. intros Hp Hs.
  destruct H as (_ & h & c & ch & l & Hh & Hx & _ & Ht). destruct (decide (pub_at p = h)) as [<-|]; [|by destruct Ht].
  rewrite Hs in Ht. split; [lia|]. by exists c, ch, l.
Qed.
