(* ===== verification/ClientRuns.v ===== *)
(** * ClientRuns: executions of the reconnecting client

    The steps of the client as a function of the choices made in them, so
    that executions can be evaluated; and what such executions show. *)

From S2P Require Import Prelude Types Io SpecConnection SpecChannel SpecQueue SpecBasic SpecTx Spec091 Frame.
From S2P Require Import Allocator Confirms Delivery Consumers Auth State Channel ChannelFacts ChannelApi.
From S2P Require Import Connection ConnectionFacts Registry Shutdown Follows Safety Executions Peer Client.
From S2P Require Import Runs ClientFacts ClientPush.

(** ** Choices *)

Inductive move :=
  | Go                            (** the goroutine of [New] takes its only step *)
  | Dial_ok                       (** [amqp.Dial] succeeds *)
  | Fresh (l : nat)               (** ... with a new Go channel *)
  | Reply (r : reply)             (** ... a call of the library with this reply *)
  | Take_conn_close               (** its [select] takes [notifyConnClose] *)
  | Call (pc : app_pc)            (** the application calls a method *)
  | App                           (** the application takes its only step *)
  | App_reply (r : reply)         (** ... a call with this reply *)
  | Server_ack (i : nat) (id tag : Z)
  | Server_gone (i : nat) (e : option Error).

Definition ack_frame (id tag : Z) : frame :=
  F_method (Mk_methodFrame id 0 0 (Some (M_basicAck (Mk_basicAck tag false)))).

(** Nobody has the Go channel [l], as a test. *)
Definition unused_in (l : nat) (c : Connection) : bool :=
  bool_decide (LClose l ∉ own_listeners c ++ concat (chan_listeners <$> cn_objs c) ++ cn_lclosed c) &&
  forallb (fun ch => bool_decide (l ∉ listeners (ch_confirms ch)) &&
             match chan_of (ch_confirms ch) l with MkChan [] false => true | _ => false end) (cn_objs c).

Definition unusedb (l : nat) (w : world) : bool :=
  forallb (unused_in l) (w_conns w) &&
  match w_received w !! l with None => true | Some _ => false end &&
  match cl_notifyConfirm (w_client w) with Some (_, k) => negb (k =? l)%nat | None => true end &&
  match w_app w with Push_recv _ _ (_, k) => negb (k =? l)%nat | _ => true end &&
  match w_reconnect w with R_notify _ _ k | R_listen _ _ k => negb (k =? l)%nat | _ => true end.

Lemma unusedb_sound l w : unusedb l w = true -> unused l w.
Proof.
  unfold unusedb. rewrite !andb_true_iff. intros [[[[H1 H2] H3] H4] H5]. split_and!.
  - intros c Hc. rewrite forallb_forall in H1. apply list_elem_of_In, H1 in Hc. unfold unused_in in Hc.
    rewrite andb_true_iff in Hc. destruct Hc as [Hc Ho]. split; [by apply bool_decide_eq_true_1 in Hc|].
    intros ch Hch. rewrite forallb_forall in Ho. apply list_elem_of_In, Ho in Hch. rewrite andb_true_iff in Hch.
    destruct Hch as [Hl Hk]. split; [by apply bool_decide_eq_true_1 in Hl|]. by destruct (chan_of _ l) as [[|] []].
  - by destruct (w_received w !! l).
  - intros h E. rewrite E in H3. by rewrite Nat.eqb_refl in H3.
  - intros data p h E. rewrite E in H4. by rewrite Nat.eqb_refl in H4.
  - intros i a. split; intros E; rewrite E in H5; by rewrite Nat.eqb_refl in H5.
Qed.

(** Below the bound on the tags. *)
Definition limitb (w : world) : bool :=
  match cl_channel (w_client w) with
  | Some (i, a) =>
      match w_conns w !! i with
      | Some c =>
          match cn_objs c !! a with
          | Some ch => published (ch_confirms ch) + 1 <? 2 ^ 64 - 1
          | None => true
          end
      | None => true
      end
  | None => true
  end.

Lemma limitb_sound w : limitb w = true -> publish_limit w.
Proof. unfold limitb. intros H i a c ch E1 E2 E3. rewrite E1, E2, E3 in H. by apply Z.ltb_lt in H. Qed.

Definition guard (b : bool) (w : world) : option world := if b then Some w else None.
Definition done_with {A} (o : outcome (A * world)) (k : A -> world -> world) : option world :=
  match o with Ok (x, w) => Some (k x w) | _ => None end.

(** ** A step *)

Definition exec_reconnect (m : move) (w : world) : option world :=
  match w_reconnect w, m with
  | R_top, Go => guard (negb (locked w)) (goto R_dial (set_client (with_isReady false (w_client w)) w))
  | R_dial, Dial_ok => Some (goto (R_connected (length (w_conns w))) (set_conns (w_conns w ++ [opened]) w))
  | R_connected i, Go => Some (goto (R_conn_make i) (set_client (with_connection i (w_client w)) w))
  | R_conn_make i, Go => Some (goto (R_conn_notify i) (set_client (with_notifyConnClose None (w_client w)) w))
  | R_conn_notify i, Fresh l =>
      if unusedb l w then
        done_with (on_conn i (Connection_NotifyClose l) (set_client (with_notifyConnClose (Some l) (w_client w)) w))
          (fun _ => goto (R_reinit i))
      else None
  | R_reinit i, Go => guard (negb (locked w)) (goto (R_channel i) (set_client (with_isReady false (w_client w)) w))
  | R_channel i, Reply r =>
      done_with (on_conn i (Connection_Channel r) w)
        (fun x => goto (match x with (None, Some a) => R_confirm i a | _ => R_failed i end))
  | R_confirm i a, Reply r =>
      done_with (on_conn i (Confirm a false r) w)
        (fun err => goto (match err with None => R_declare i a | Some _ => R_failed i end))
  | R_declare i a, Reply r =>
      done_with (on_conn i (QueueDeclare a (cl_queueName (w_client w)) false false false false [] r) w)
        (fun x => goto (match snd x with None => R_change i a | Some _ => R_failed i end))
  | R_change i a, Go => Some (goto (R_make_close i a) (set_client (with_channel (i, a) (w_client w)) w))
  | R_make_close i a, Go => Some (goto (R_make_confirm i a) (set_client (with_notifyChanClose None (w_client w)) w))
  | R_make_confirm i a, Fresh l =>
      guard (unusedb l w) (goto (R_notify i a l) (set_client (with_notifyConfirm ((i, a), l) (w_client w)) w))
  | R_notify i a l, Fresh k =>
      if unusedb k w then
        done_with (on_conn i (Channel_NotifyClose a k) (set_client (with_notifyChanClose (Some k) (w_client w)) w))
          (fun _ => goto (R_listen i a l))
      else None
  | R_listen i a l, Go => done_with (on_conn i (NotifyPublish a l) w) (fun _ => goto (R_ready i))
  | R_ready i, Go => guard (negb (locked w)) (goto (R_wait i) (set_client (with_isReady true (w_client w)) w))
  | R_wait i, Take_conn_close =>
      match w_conns w !! i with
      | Some c => guard (close_ready (cl_notifyConnClose (w_client w)) c) (goto R_top w)
      | None => None
      end
  | _, _ => None
  end.

Definition exec_push (w : world) : option world :=
  match w_app w with
  | Push_start data =>
      Some (app_goto (if cl_isReady (w_client w) then Push_loop data else Push_returned (inl ErrPushNotConnected)) w)
  | Push_loop data => Some (app_goto (if cl_isReady (w_client w) then Push_publish data else Push_retry data) w)
  | Push_publish data =>
      match cl_channel (w_client w) with
      | None => Some (app_goto (Panicking NilDereference) w)
      | Some (i, a) =>
          match on_conn i (PublishWithContext a "" (cl_queueName (w_client w)) false false (push_publishing data)) w with
          | Ok (Some _, w') => Some (app_goto (Push_retry data) w')
          | Ok (None, w') =>
              match w_conns w' !! i with
              | Some c =>
                  match cn_objs c !! a with
                  | Some ch => Some (app_goto (Push_await data (MkPublication (i, a) (published (ch_confirms ch)))) w')
                  | None => None
                  end
              | None => None
              end
          | _ => None
          end
      end
  | Push_retry data => Some (app_goto (Push_loop data) w)
  | Push_await data p =>
      match cl_notifyConfirm (w_client w) with
      | Some l => Some (app_goto (Push_recv data p l) (note_astray p (fst l) w))
      | None => None
      end
  | Push_recv data p ((i, a), l) =>
      match w_conns w !! i with
      | Some c =>
          match cn_objs c !! a with
          | Some ch =>
              match next_confirmation l (ch_confirms ch) (default 0%nat (w_received w !! l)) with
              | Some (x, true) => Some (app_goto (if Ack x then Push_returned (inr (p, x)) else Push_loop data) (receive l w))
              | Some (_, false) => Some (app_goto (Push_loop data) w)
              | None => None
              end
          | None => None
          end
      | None => None
      end
  | _ => None
  end.

Definition exec_close (m : move) (w : world) : option world :=
  match w_app w, m with
  | Close_start, App =>
      Some (if cl_isReady (w_client w) then
              if cl_done (w_client w) then app_goto (Panicking CloseOfClosedChannel) w
              else app_goto Close_channel (set_client (with_done (w_client w)) w)
            else app_goto (Close_returned (Some ErrAlreadyClosed)) w)
  | Close_channel, App_reply r =>
      match cl_channel (w_client w) with
      | Some (i, a) =>
          done_with (on_conn i (Channel_Close a r) w)
            (fun err => app_goto (match err with Some e => Close_returned (Some (FromLibrary e)) | None => Close_connection end))
      | None => None
      end
  | Close_connection, App_reply r =>
      match cl_connection (w_client w) with
      | Some i =>
          done_with (on_conn i (Connection_Close r) w)
            (fun err w' =>
               match err with
               | Some e => app_goto (Close_returned (Some (FromLibrary e))) w'
               | None => app_goto (Close_returned None) (set_client (with_isReady false (w_client w')) w')
               end)
      | None => None
      end
  | _, _ => None
  end.

(** An acknowledgement of a message that was published. *)
Definition acks_published (c : Connection) (id tag : Z) : bool :=
  (0 <=? tag) && (tag <? 2 ^ 64 - 1) &&
  match cn_channels c !! id with
  | Some a => match cn_objs c !! a with Some ch => tag <=? published (ch_confirms ch) | None => false end
  | None => false
  end.

Definition exec (m : move) (w : world) : option world :=
  match m with
  | Call pc => if between_calls (w_app w) && starts_call pc then Some (app_goto pc w) else None
  | App => match w_app w with Close_start => exec_close App w | _ => if limitb w then exec_push w else None end
  | App_reply r => exec_close m w
  | Server_ack i id tag =>
      match w_conns w !! i with
      | Some c =>
          if acks_published c id tag then
            match demux (ack_frame id tag) c with
            | Ok (_, c') => Some (set_conns (<[i := c']> (w_conns w)) w)
            | _ => None
            end
          else None
      | None => None
      end
  | Server_gone i e =>
      match w_conns w !! i with
      | Some c =>
          match Connection_shutdown e c with
          | Ok (_, c') => Some (set_conns (<[i := c']> (w_conns w)) w)
          | _ => None
          end
      | None => None
      end
  | _ => exec_reconnect m w
  end.

Definition exec_all : list move -> world -> option world := run_all exec.

(** ** Soundness *)

Lemma guard_inv b w w' : guard b w = Some w' -> b = true /\ w' = w.
Proof. unfold guard. destruct b; [|done]. by intros [= <-]. Qed.

Lemma done_with_inv {A} (o : outcome (A * world)) k w' :
  done_with o k = Some w' -> exists x w, o = Ok (x, w) /\ w' = k x w.
Proof. unfold done_with. destruct o as [[x w]| | |]; try done. intros [= <-]. eauto. Qed.

Lemma exec_reconnect_sound m w w' : exec_reconnect m w = Some w' -> client_step w w'.
Proof.
  unfold exec_reconnect. destruct (w_reconnect w) eqn:Hpc, m; try done; intros E.
  - apply guard_inv in E as [Hl%negb_true_iff ->]. apply step_reconnect. by apply reconnect_top.
  - injection E as <-. apply step_reconnect. apply reconnect_dial; [done|apply opened_established].
  - injection E as <-. apply step_reconnect, reconnect_change. by apply change_connection.
  - injection E as <-. apply step_reconnect, reconnect_change. by apply change_make.
  - destruct (unusedb l w) eqn:Hu; [|done]. apply done_with_inv in E as ([] & w1 & E & ->).
    apply step_reconnect, reconnect_change. eapply change_notify; [done|by apply unusedb_sound|done].
  - apply guard_inv in E as [Hl%negb_true_iff ->]. apply (step_reinit (FromErrors None)). by apply reinit_top.
  - apply done_with_inv in E as (x & w1 & E & ->). eapply step_reinit, reinit_init. by eapply init_channel.
  - apply done_with_inv in E as (x & w1 & E & ->). eapply step_reinit, reinit_init. by eapply init_confirm.
  - apply done_with_inv in E as (x & w1 & E & ->). eapply step_reinit, reinit_init. by eapply init_declare.
  - injection E as <-. apply (step_reinit (FromErrors None)), reinit_init, init_change. by apply change_channel.
  - injection E as <-. apply (step_reinit (FromErrors None)), reinit_init, init_change. by apply change_make_close.
  - apply guard_inv in E as [Hu%unusedb_sound ->]. apply (step_reinit (FromErrors None)), reinit_init, init_change.
    by apply change_make_confirm.
  - destruct (unusedb l0 w) eqn:Hu; [|done]. apply done_with_inv in E as ([] & w1 & E & ->).
    apply (step_reinit (FromErrors None)), reinit_init, init_change.
    eapply change_notify_close; [done|by apply unusedb_sound|done].
  - apply done_with_inv in E as ([] & w1 & E & ->). apply (step_reinit (FromErrors None)), reinit_init, init_change.
    by eapply change_notify_publish.
  - apply guard_inv in E as [Hl%negb_true_iff ->]. apply (step_reinit (FromErrors None)), reinit_init. by apply init_ready.
  - destruct (w_conns w !! i) as [c|] eqn:Hc; [|done]. apply guard_inv in E as [Hr ->].
    apply (step_reinit (FromErrors None)). by eapply reinit_conn_closed.
Qed.

Lemma exec_push_sound w w' : exec_push w = Some w' -> Push w w'.
Proof.
  unfold exec_push. destruct (w_app w) as [| | | | | | |r| | | |rc| | | |rl|] eqn:Hpc; try done.
  - intros [= <-]. destruct (cl_isReady (w_client w)) eqn:Hr; [by apply push_ready|by eapply push_not_ready].
  - intros [= <-]. apply push_unsafe. destruct (cl_isReady (w_client w)) eqn:Hr; [by apply unsafe_ready|by apply unsafe_not_ready].
  - destruct (cl_channel (w_client w)) as [[i a]|] eqn:Hcl.
    2: { intros [= <-]. by eapply push_unsafe, unsafe_nil. }
    destruct (on_conn i _ w) as [[[e|] w1]| | |] eqn:E; try done.
    + intros [= <-]. by eapply push_unsafe, unsafe_error.
    + destruct (w_conns w1 !! i) as [c|] eqn:Hc; [|done]. destruct (cn_objs c !! a) as [ch|] eqn:Hch; [|done].
      intros [= <-]. by eapply push_unsafe, unsafe_published.
  - intros [= <-]. by apply push_retry.
  - destruct (cl_notifyConfirm (w_client w)) as [l|] eqn:Hl; [|done]. intros [= <-]. by apply push_await.
  - destruct l as [[i a] l]. destruct (w_conns w !! i) as [c|] eqn:Hc; [|done].
    destruct (cn_objs c !! a) as [ch|] eqn:Hch; [|done].
    destruct (next_confirmation _ _ _) as [[x []]|] eqn:Hx; [| |done]; intros [= <-].
    + by eapply push_recv.
    + by eapply push_recv_closed.
Qed.

Definition reply_of (m : move) : reply := match m with App_reply r => r | _ => FromErrors None end.

Lemma exec_close_sound m w w' : exec_close m w = Some w' -> Close (reply_of m) w w'.
Proof.
  unfold exec_close. destruct (w_app w) as [| | | | | | |r| | | |rc| | | |rl|] eqn:Hpc; destruct m; try done.
  - intros [= <-]. destruct (cl_isReady (w_client w)) eqn:Hr; [|by apply close_not_ready].
    destruct (cl_done (w_client w)) eqn:Hd; [by apply close_done_twice|by apply close_start].
  - destruct (cl_channel (w_client w)) as [[i a]|] eqn:Hcl; [|done].
    intros (err & w1 & E & ->)%done_with_inv. by eapply close_channel.
  - destruct (cl_connection (w_client w)) as [i|] eqn:Hcl; [|done].
    intros (err & w1 & E & ->)%done_with_inv. by eapply close_connection.
Qed.

Lemma ack_conforming c id tag :
  acks_published c id tag = true -> arrival_fits c (ack_frame id tag) /\ conforming c (ack_frame id tag).
Proof.
  unfold acks_published. rewrite !andb_true_iff. intros [[Ht%Z.leb_le Hb%Z.ltb_lt] H]. split.
  - split; [|done]. intros m [= <-]. simpl. lia.
  - intros mf msg multiple x a ch [= <-] [= <-] [= _ <-] Hr Ha. simpl in *. rewrite Hr, Ha in H. lia.
Qed.

Lemma exec_sound m w w' : exec m w = Some w' -> client_step w w'.
Proof.
  unfold exec. destruct m; try apply exec_reconnect_sound.
  - destruct (_ && _) eqn:H; [|done]. apply andb_true_iff in H as [H1 H2]. intros [= <-]. by apply step_app_call.
  - intros E. destruct (w_app w) eqn:Hpc; try (eapply step_close; by eapply exec_close_sound);
      (destruct (limitb w) eqn:Hl; [|done]); apply step_push; try (by apply exec_push_sound);
      by apply limitb_sound.
  - intros E. eapply step_close. by eapply exec_close_sound.
  - destruct (w_conns w !! i) as [c|] eqn:Hc; [|done]. destruct (acks_published c id tag) eqn:Ha; [|done].
    apply ack_conforming in Ha as [H1 H2]. destruct (demux _ c) as [[[] c']| | |] eqn:E; try done.
    intros [= <-]. apply (step_peer i c c' w Hc). by eapply peer_frame.
  - destruct (w_conns w !! i) as [c|] eqn:Hc; [|done].
    destruct (Connection_shutdown e c) as [[[] c']| | |] eqn:E; try done.
    intros [= <-]. apply (step_peer i c c' w Hc). by eapply peer_shutdown.
Qed.

Lemma exec_all_steps ms w w' : exec_all ms w = Some w' -> rtc client_step w w'.
Proof. apply run_all_steps. apply exec_sound. Qed.

(** ** Executions *)

Definition from_server (m : message) : reply := FromRpc (Some m).

(** [handleReconnect] up to [changeChannel], with a Go channel [l], and on to
    its wait, with [l + 1] and [l + 2]. *)
Definition dialing (l : nat) : list move :=
  [Go; Dial_ok; Go; Go; Fresh l; Go;
   Reply (from_server (M_channelOpenOk (Mk_channelOpenOk "")));
   Reply (from_server (M_confirmSelectOk Mk_confirmSelectOk));
   Reply (from_server (M_queueDeclareOk (Mk_queueDeclareOk "jobs" 0 0)))].

Definition changing_channel (l : nat) : list move := [Go; Go; Fresh (l + 2); Fresh (l + 1); Go; Go].

Definition connecting (l : nat) : list move := dialing l ++ changing_channel l.

Definition publishing : list move := [Call (Push_start [Zbyte 1]); App; App; App].

Definition after (ms : list move) : world := default (New "jobs") (exec_all ms (New "jobs")).

Lemma after_reached ms : is_Some (exec_all ms (New "jobs")) -> client_reaches "jobs" (after ms).
Proof. intros [w E]. unfold after. rewrite E. by eapply exec_all_steps. Qed.

(** A message is pushed and acknowledged. *)
Definition acknowledging : list move := connecting 1 ++ publishing ++ [Server_ack 0 1 1; App; App].

(** The server breaks the connection before the confirmation, and the client
    has reconnected when [Push] reads [client.notifyConfirm]. *)
Definition losing : list move :=
  connecting 1 ++ publishing ++ [Server_gone 0 (Some ErrUnexpectedFrame); Take_conn_close] ++ connecting 4 ++ [App].

(** [Close] with what the server answers to closing the channel. *)
Definition closing (r : reply) : list move := connecting 1 ++ [Call Close_start; App; App_reply r].

(** ** What they show *)

Lemma reconnect_wakes_witness :
  let w := after (connecting 1) in
  exists a c ch, cl_channel (w_client w) = Some (0%nat, a) /\ has w (0%nat, a) c ch /\
    ((exists w', handleReInit (FromErrors None) w w') <->
     cl_done (w_client w) = true \/ cn_shut c = true \/ ch_shut ch = true).
Proof.
  apply (reconnect_wakes "jobs" (after (connecting 1)) 0).
  - apply after_reached. vm_compute. by eexists.
  - by vm_compute.
Defined.

Lemma push_confirmed_witness :
  let w := after acknowledging in
  let p := MkPublication (0%nat, 0%nat) 1 in
  let x := MkConfirmation 1 true in
  confirmed w p x /\
  (p ∉ w_astray w -> astray_at w (pub_at p) = 0 ->
     DeliveryTag x = pub_tag p /\ exists c ch l, has w (pub_at p) c ch /\ x ∈ sent (ch_confirms ch) l).
Proof.
  apply (push_confirmed "jobs" (after acknowledging)).
  - apply after_reached. vm_compute. by eexists.
  - by vm_compute.
Defined.

(** The connection is lost when [Push] has looked at [isReady]; it publishes
    on the new channel and waits at the old Go channel, which is closed, tries
    again, and is released by the confirmation of the first try.  The next
    message is then reported with the confirmation of the second try. *)
Definition straying : list move :=
  connecting 1 ++ [Call (Push_start [Zbyte 1]); App; App; Server_gone 0 (Some ErrUnexpectedFrame); Take_conn_close] ++
  dialing 4 ++ [Go; App; App; App] ++ tl (changing_channel 4) ++ [App; App; App; Server_ack 1 1 1; App] ++
  [Call (Push_start [Zbyte 2]); App; App; App; App; Server_ack 1 1 2; App].

(** So the exact tag is more than can be had: there is an execution in which
    [Push] returns without an error for a message, the third that was
    published, that the server has not confirmed. *)
Theorem push_returns_unconfirmed :
  exists w p x c ch, client_reaches "jobs" w /\ w_app w = Push_returned (inr (p, x)) /\
    has w (pub_at p) c ch /\ pub_tag p = 3 /\ DeliveryTag x = 2 /\ expecting (ch_confirms ch) = 3.
Proof.
  exists (after straying), (MkPublication (1%nat, 0%nat) 3), (MkConfirmation 2 true).
  destruct (w_conns (after straying) !! 1%nat) as [c|] eqn:Hc; [|vm_compute in Hc; discriminate].
  destruct (cn_objs c !! 0%nat) as [ch|] eqn:Hch.
  2: { exfalso. revert Hch. vm_compute in Hc. injection Hc as <-. by vm_compute. }
  exists c, ch. split_and!; [apply after_reached; vm_compute; by eexists|by vm_compute|by split|done|done|].
  vm_compute in Hc. injection Hc as <-. vm_compute in Hch. injection Hch as <-. done.
Qed.

(** When the race with [changeChannel] makes [Push] wait at the Go channel of
    another channel than its message was published on, on which none went
    astray, no confirmation releases it: it goes on only once that Go channel
    is closed and drained, and then it publishes the message again.  Were the
    message acknowledged meanwhile, it is delivered twice; as long as the new
    channel lives, [Push] does not return. *)
Theorem push_waits_on_other_channel q w data p h l :
  client_reaches q w -> w_app w = Push_recv data p (h, l) -> pub_at p <> h -> astray_at w h = 0 ->
  forall w', Push w w' ->
    w_app w' = Push_loop data /\ exists c ch, has w h c ch /\ lclosed (ch_confirms ch) l = true.
Proof.
  intros [_ A]%reaches_accounts Hpc Hne H0 w' Hs.
  destruct (ac_recv w A data p h l Hpc) as ((c & ch & [Hc Hch] & Ht) & _).
  inversion Hs as [| |? ? Hu| | |d' p' l'|d' p' k i c' a ch' x ? Hpc' Hc' Hch' Hx|d' p' k i c' a ch' x ? Hpc' Hc' Hch' Hx];
    subst; try congruence.
  - inversion Hu; subst; congruence.
  - rewrite Hpc in Hpc'. injection Hpc' as <- <- -> ->. simpl in Hc, Hch. assert (c' = c) as -> by congruence.
    assert (ch' = ch) as -> by congruence. unfold next_confirmation in Hx. change (default _ _) with (received_from w k) in Hx.
    destruct (sent (ch_confirms ch) k !! received_from w k) as [y|] eqn:Ey; [|by destruct (lclosed _ _)].
    destruct (tally_receive _ _ _ _ _ _ _ Ht Ey) as (Hp & _). rewrite Hpc, H0 in Hp. simpl in Hp.
    rewrite decide_False in Hp by done. simpl in Hp. lia.
  - rewrite Hpc in Hpc'. injection Hpc' as <- <- -> ->. split; [done|]. simpl in Hc, Hch. exists c', ch'.
    split; [done|]. unfold next_confirmation in Hx. destruct (sent _ _ !! _); [done|]. by destruct (lclosed _ _).
Qed.

Lemma push_waits_on_other_channel_witness :
  let w := after losing in
  w_app w = Push_recv [Zbyte 1] (MkPublication (0%nat, 0%nat) 1) ((1%nat, 0%nat), 6%nat) /\
  forall w', Push w w' ->
    w_app w' = Push_loop [Zbyte 1] /\ exists c ch, has w (1%nat, 0%nat) c ch /\ lclosed (ch_confirms ch) 6 = true.
Proof.
  split; [by vm_compute|].
  apply (push_waits_on_other_channel "jobs" (after losing) _ (MkPublication (0%nat, 0%nat) 1)).
  - apply after_reached. vm_compute. by eexists.
  - by vm_compute.
  - by vm_compute.
  - by vm_compute.
Defined.

(** A client is not closed for good.  The goroutine may take the closed
    connection for a lost one, since [select] chooses among what is ready:
    after [Close] returned without an error the client can be connected and
    ready again.  And when closing the channel fails, [Close] leaves the
    client ready with [done] closed, so that the next [Close] panics; this
    and the former are the only ways a method of the client panics. *)
Theorem close_is_not_final :
  (exists w, client_reaches "jobs" w /\ w_app w = Close_returned None /\
     cl_isReady (w_client w) = true /\ cl_done (w_client w) = true) /\
  (exists w, client_reaches "jobs" w /\ w_app w = Panicking CloseOfClosedChannel) /\
  (forall q w why, client_reaches q w -> w_app w = Panicking why -> why = CloseOfClosedChannel).
Proof.
  split_and!.
  - exists (after (closing (from_server (M_channelCloseOk Mk_channelCloseOk)) ++
      [App_reply (from_server (M_connectionCloseOk Mk_connectionCloseOk)); Take_conn_close] ++ connecting 4)).
    split; [apply after_reached; vm_compute; by eexists|by vm_compute].
  - exists (after (closing (FromErrors (Some ErrUnexpectedFrame)) ++ [Call Close_start; App])).
    split; [apply after_reached; vm_compute; by eexists|by vm_compute].
  - intros q w why H%reaches_wired. apply (wi_panic w H).
Qed.
