(* ===== verification/ClientLive.v ===== *)
(** * ClientLive: the goroutines of the reconnecting client go on

    Whatever interleaving led there, each goroutine of the client can take a
    step unless it waits for what it is meant to wait for. *)

From S2P Require Import Prelude Types Io SpecConnection SpecChannel SpecQueue SpecBasic SpecTx Spec091 Frame.
From S2P Require Import Allocator Confirms Delivery Consumers Auth State Channel ChannelFacts ChannelApi.
From S2P Require Import Connection ConnectionFacts Registry Shutdown Follows Safety Executions Peer Client.
From S2P Require Import ClientFacts ClientPush ClientRuns.

(** ** There is always another Go channel *)

(** The Go channels a connection knows. *)
Definition close_names (ls : list listener) : list nat :=
  omap (fun x => match x with LClose l => Some l | _ => None end) ls.
Definition confirm_names (ch : Channel) : list nat :=
  listeners (ch_confirms ch) ++ elements (dom (chans (ch_confirms ch)) : gset nat).
Definition names_of (c : Connection) : list nat :=
  close_names (own_listeners c ++ concat (chan_listeners <$> cn_objs c) ++ cn_lclosed c) ++
  concat (confirm_names <$> cn_objs c).
Definition names (w : world) : list nat :=
  concat (names_of <$> w_conns w) ++ elements (dom (w_received w) : gset nat) ++
  match cl_notifyConfirm (w_client w) with Some (_, l) => [l] | None => [] end ++
  match w_app w with Push_recv _ _ (_, l) => [l] | _ => [] end ++
  match w_reconnect w with R_notify _ _ l | R_listen _ _ l => [l] | _ => [] end.

Lemma close_names_in l ls : LClose l ∈ ls -> l ∈ close_names ls.
Proof. intros H. apply list_elem_of_omap. by exists (LClose l). Qed.

Lemma in_concat_fmap {A B} (f : A -> list B) x y xs : x ∈ xs -> y ∈ f x -> y ∈ concat (f <$> xs).
Proof. intros Hx Hy. apply list_elem_of_In, in_concat. exists (f x). split; apply list_elem_of_In; [|done]. by apply list_elem_of_fmap_2. Qed.

Lemma not_named_unused l w : l ∉ names w -> unused l w.
Proof.
  unfold names. rewrite !not_elem_of_app. intros (H1 & H2 & H3 & H4 & H5). split_and!.
  - intros c Hc. split.
    + intros Hin%close_names_in. apply H1. eapply in_concat_fmap; [exact Hc|]. apply elem_of_app. by left.
    + intros ch Hch.
      assert (l ∉ confirm_names ch) as Hn.
      { intros Hl. apply H1. eapply in_concat_fmap; [exact Hc|]. apply elem_of_app. right. by eapply in_concat_fmap. }
      unfold confirm_names in Hn. rewrite not_elem_of_app, elem_of_elements in Hn. destruct Hn as [Hl Hd].
      split; [done|]. unfold chan_of. by rewrite (not_elem_of_dom_1 _ _ Hd).
  - rewrite elem_of_elements in H2. by apply not_elem_of_dom_1.
  - intros h E. rewrite E in H3. apply H3. by left.
  - intros data p h E. rewrite E in H4. apply H4. by left.
  - intros i a. split; intros E; rewrite E in H5; apply H5; by left.
Qed.

Lemma exists_unused w : exists l, unused l w.
Proof. exists (base.fresh (names w)). apply not_named_unused, infinite_is_fresh. Qed.

(** ** Calls return *)

Lemma on_conn_ok {A} w i c (m : M A) x c' :
  w_conns w !! i = Some c -> m c = Ok (x, c') ->
  on_conn i m w = Ok (x, set_conns (<[i := c']> (w_conns w)) w).
Proof. intros Hi E. unfold on_conn. rewrite Hi. by rewrite E. Qed.

Lemma ignored {A} (m : M A) c c' : ignore m c = Ok (tt, c') -> exists x, m c = Ok (x, c').
Proof. intros (x & c1 & E & E')%mbind_inv. injection E' as <-. by exists x. Qed.

Lemma call_runs {A} w i c k (m : M A) :
  wired w -> w_conns w !! i = Some c -> call_fits c k ->
  (forall c', perform k c = Ok (tt, c') -> exists x, m c = Ok (x, c')) ->
  exists x w', on_conn i m w = Ok (x, w').
Proof.
  intros Hw Hi Hf Hm. destruct (perform_returns k c (wi_wf w Hw i c Hi) Hf) as (c' & E & _).
  destruct (Hm c' E) as [x Ex]. eexists x, _. by apply (on_conn_ok w i c m x c').
Qed.

(** ... on the client's channel. *)
Lemma channel_call_runs {A} w i a k (m : M A) :
  wired w -> cl_channel (w_client w) = Some (i, a) -> (forall ch c, chan_call_fits ch c k) ->
  (forall c c', perform_on a k c = Ok (tt, c') -> exists x, m c = Ok (x, c')) ->
  exists x w', on_conn i m w = Ok (x, w').
Proof.
  intros Hw Hcl Hf Hm. destruct (wi_channel w Hw _ Hcl) as [_ (c & ch & [Hc Hch] & _)].
  apply (call_runs w i c (OnChannel a k)); [done|done|by exists ch|]. intros c'. apply Hm.
Qed.

(** ... on the channel [init] prepares. *)
Lemma newborn_call_runs {A} w i a k (m : M A) :
  wired w -> newborn (w_reconnect w) = Some (i, a) ->
  (forall ch c, w_conns w !! i = Some c -> cn_objs c !! a = Some ch -> chan_call_fits ch c k) ->
  (forall c c', perform_on a k c = Ok (tt, c') -> exists x, m c = Ok (x, c')) ->
  exists x w', on_conn i m w = Ok (x, w').
Proof.
  intros Hw Hn Hf Hm. destruct (wi_newborn w Hw _ Hn) as (c & ch & [Hc Hch] & _). simpl in Hc, Hch.
  apply (call_runs w i c (OnChannel a k)); [done|done|exists ch; split; [done|by apply Hf]|]. intros c'. apply Hm.
Qed.

(** ** The goroutine of [New] *)

(** What it waits for: the lock that [Close] holds, or, once the client is
    set up, the end of its connection or channel. *)
Definition reconnect_waits (w : world) : Prop :=
  w_reconnect w = R_returned \/ locked w = true \/ exists i, w_reconnect w = R_wait i.

Lemma connection_of w i : wired w -> watching (w_reconnect w) = Some i -> exists c, w_conns w !! i = Some c.
Proof. intros Hw Hp. destruct (wi_connection w Hw i Hp) as [_ (_ & c & _ & Hc & _)]. by exists c. Qed.

Lemma changeChannel_runs w :
  wired w -> (exists i a, w_reconnect w = R_change i a) \/ changing (w_reconnect w) <> None -> exists w', changeChannel w w'.
Proof.
  intros Hw Hp. destruct (exists_unused w) as [l Hl]. destruct (w_reconnect w) eqn:Hpc; try (by destruct Hp as [(? & ? & ?)|?]).
  - eexists. by apply change_channel.
  - eexists. by apply change_make_close.
  - eexists. by apply (change_make_confirm i a l).
  - destruct (wi_listen w Hw (i, a) l0) as (_ & c & ch & [Hc Hch] & _); [by rewrite Hpc|]. simpl in Hc, Hch.
    destruct (perform_returns (OnChannel a (Do_NotifyClose l)) c (wi_wf w Hw i c Hc)) as (c' & E & _).
    { exists ch. split; [done|]. apply Hl. by eapply list_elem_of_lookup_2. }
    eexists. eapply (change_notify_close i a l0 l); [done|done|].
    exact (on_conn_ok (set_client (with_notifyChanClose (Some l) (w_client w)) w) i c _ tt c' Hc E).
  - destruct (wi_listen w Hw (i, a) l0) as (_ & c & ch & [Hc Hch] & Hs1 & Hs2); [by rewrite Hpc|]. simpl in Hc, Hch.
    destruct (call_runs w i c (OnChannel a (Do_NotifyPublish l0)) (NotifyPublish a l0) Hw Hc) as ([] & w' & E).
    { exists ch. split; [done|]. split; [done|]. unfold lclosed. by rewrite Hs2. }
    { intros c' E. by exists tt. }
    eexists. by eapply change_notify_publish.
Qed.

Lemma changeConnection_runs w i : wired w -> changing_conn (w_reconnect w) = Some i -> exists w', changeConnection w w'.
Proof.
  intros Hw Hi. destruct (wi_connected w Hw i Hi) as [c Hc]. destruct (exists_unused w) as [l Hu].
  destruct (w_reconnect w) eqn:Hpc; simplify_eq/=.
  - eexists. by apply change_connection.
  - eexists. by apply change_make.
  - destruct (perform_returns (Do_ConnectionNotifyClose l) c (wi_wf w Hw i c Hc)) as (c' & E & _).
    { apply Hu. by eapply list_elem_of_lookup_2. }
    eexists. eapply (change_notify i l); [done|done|].
    exact (on_conn_ok (set_client (with_notifyConnClose (Some l) (w_client w)) w) i c _ tt c' Hc E).
Qed.

Lemma init_runs w r :
  wired w -> newborn (w_reconnect w) <> None \/ (exists i, w_reconnect w = R_channel i) \/
    changing (w_reconnect w) <> None -> exists w', init r w w'.
Proof.
  intros Hw Hp. destruct (w_reconnect w) eqn:Hpc; try (by destruct Hp as [|[[? ?]|?]]);
    try (destruct (changeChannel_runs w Hw) as [w' H];
         [rewrite Hpc; (by right) || (left; by do 2 eexists)|exists w'; by apply init_change]).
  - destruct (connection_of w i Hw) as [c Hc]; [by rewrite Hpc|].
    destruct (call_runs w i c (Do_Channel r) (Connection_Channel r) Hw Hc)
      as (x & w' & E); [done|apply ignored|]. eexists. by eapply init_channel.
  - destruct (newborn_call_runs w i a (Do_Confirm false r) (Confirm a false r) Hw)
      as (x & w' & E); [by rewrite Hpc|done|intros c; apply ignored|]. eexists. by eapply init_confirm.
  - destruct (newborn_call_runs w i a
      (Do_QueueDeclare false (cl_queueName (w_client w)) false false false false [] r)
      (QueueDeclare a (cl_queueName (w_client w)) false false false false [] r) Hw)
      as (x & w' & E); [by rewrite Hpc|done|intros c; apply ignored|]. eexists. by eapply init_declare.
Qed.

Lemma reconnect_runs w r :
  wired w -> reconnect_waits w \/ exists w', handleReconnect w w' \/ handleReInit r w w'.
Proof.
  intros Hw. destruct (locked w) eqn:Hl; [left; by right; left|].
  destruct (w_reconnect w) eqn:Hpc; try (left; left; exact Hpc); try (left; right; right; by eexists);
    try (right; destruct (changeConnection_runs w i Hw) as [w' H];
         [by rewrite Hpc|exists w'; left; by apply reconnect_change]);
    try (right; destruct (init_runs w r Hw) as [w' H];
         [rewrite Hpc; (by left) || (right; left; by eexists) || (by right; right)
         |exists w'; right; by apply reinit_init]).
  - right. eexists. left. by apply reconnect_top.
  - right. eexists. left. by apply reconnect_dial_error.
  - right. eexists. left. by apply reconnect_retry.
  - right. eexists. right. by apply reinit_top.
  - right. eexists. right. apply reinit_init. by apply init_ready.
  - right. eexists. right. by apply reinit_failed_retry.
Qed.

(** ** The application *)

(** What it waits for: its next call, or a confirmation. *)
Definition app_waits (w : world) : Prop :=
  between_calls (w_app w) = true \/ w_app w = Panicking CloseOfClosedChannel \/
  exists data p h l c ch, w_app w = Push_recv data p (h, l) /\ has w h c ch /\
    next_confirmation l (ch_confirms ch) (received_from w l) = None.

Lemma Push_publish_runs w data :
  wired w -> publish_limit w -> w_app w = Push_publish data -> exists w', Push w w'.
Proof.
  intros Hw Hlim Hpc. destruct (wi_app w Hw) as ([i a] & _ & Hcl & _); [by rewrite Hpc|].
  destruct (wi_channel w Hw _ Hcl) as [_ (c & ch & [Hc Hch] & _)]. simpl in Hc, Hch.
  destruct (Publish_spec a "" (cl_queueName (w_client w)) false false (push_publishing data) c ch
    (wi_wf w Hw i c Hc) Hch (Hlim i a c ch Hcl Hc Hch)) as (x & c' & ch' & E & _ & _ & O & _).
  assert (PublishWithContext a "" (cl_queueName (w_client w)) false false (push_publishing data) c = Ok (snd x, c')) as E'
    by exact (mbind_ok _ _ _ _ _ E).
  pose proof (on_conn_ok w i c _ _ c' Hc E') as H. destruct (snd x) as [e|].
  - eexists. eapply push_unsafe. by eapply unsafe_error.
  - eexists. eapply push_unsafe. eapply unsafe_published; [done|done|exact H| |].
    + simpl. apply list_lookup_insert_eq. by eapply lookup_lt_Some.
    + rewrite O. apply list_lookup_insert_eq. by eapply lookup_lt_Some.
Qed.

Lemma Push_recv_runs w data p h l :
  accounts w -> w_app w = Push_recv data p (h, l) -> app_waits w \/ exists w', Push w w'.
Proof.
  intros A Hpc. destruct (ac_recv w A data p h l Hpc) as ((c & ch & Hh & _) & _). destruct h as [i a].
  destruct (next_confirmation l (ch_confirms ch) (received_from w l)) as [[x []]|] eqn:Hx; destruct Hh as [Hc Hch].
  - right. eexists. by eapply push_recv.
  - right. eexists. by eapply push_recv_closed.
  - left. right; right. exists data, p, (i, a), l, c, ch. by split_and!.
Qed.

Lemma app_runs w r :
  wired w -> accounts w -> publish_limit w ->
  app_waits w \/ exists w', Push w w' \/ Client_Consume r w w' \/ Close r w w'.
Proof.
  intros Hw A Hlim. pose proof (wi_app w Hw) as Hr. unfold app_waits. destruct (w_app w) eqn:Hpc;
    try (left; by left); try (destruct Hr as ([i a] & l' & Hh & Hn); [done|]).
  - right. destruct (cl_isReady (w_client w)) eqn:E; eexists; left; [by apply push_ready|by eapply push_not_ready].
  - right. destruct (cl_isReady (w_client w)) eqn:E; eexists; left; apply push_unsafe;
      [by apply unsafe_ready|by apply unsafe_not_ready].
  - right. destruct (Push_publish_runs w data Hw Hlim Hpc) as [w' H]. exists w'. by left.
  - right. eexists. left. by apply push_retry.
  - right. eexists. left. by eapply push_await.
  - destruct l as [h l]. destruct (Push_recv_runs w data p h l A Hpc) as [H|[w' H]].
    + left. unfold app_waits in H. by rewrite Hpc in H.
    + right. exists w'. by left.
  - right. destruct (cl_isReady (w_client w)) eqn:E; eexists; right; left; [by apply consume_ready|by apply consume_not_ready].
  - right. destruct (channel_call_runs w i a (Do_Qos 1 0 false r) (Qos a 1 0 false r) Hw Hh)
      as (x & w' & E); [done|intros c c'; apply ignored|]. eexists. right; left. by eapply consume_Qos.
  - right. destruct (channel_call_runs w i a
      (Do_Consume (cl_queueName (w_client w)) "" false false false false [] "" r)
      (Consume a (cl_queueName (w_client w)) "" false false false false [] "" r) Hw Hh)
      as (x & w' & E); [done|intros c c'; apply ignored|]. eexists. right; left. by eapply consume_Consume.
  - right. destruct (cl_isReady (w_client w)) eqn:E; [|eexists; right; right; by apply close_not_ready].
    destruct (cl_done (w_client w)) eqn:Hd; eexists; right; right; [by apply close_done_twice|by apply close_start].
  - right. destruct (channel_call_runs w i a (Do_Close r) (Channel_Close a r) Hw Hh)
      as (x & w' & E); [done|intros c c'; apply ignored|]. eexists. right; right. by eapply close_channel.
  - right. destruct (wi_channel w Hw _ Hh) as [[j Hj] _].
    destruct (wi_held w Hw j Hj) as [c Hc].
    destruct (call_runs w j c (Do_ConnectionClose r) (Connection_Close r) Hw Hc)
      as (x & w' & E); [done|apply ignored|]. eexists. right; right. by eapply close_connection.
  - left. right; left. f_equal. by apply (wi_panic w Hw).
Qed.

(** ** Both *)

(** C17: No goroutine of the client gets stuck between two steps, in any
    interleaving and whatever the library call it is in is answered: the one
    of the application has a next step unless it is between calls, waits for a
    confirmation that has not come, or has panicked because [Close] closed
    [done] twice; the one of [New] has one unless it has returned, [Close]
    holds the lock, or it waits, set up, for the end of its connection or
    channel. *)
Theorem client_progress q w r :
  client_reaches q w -> publish_limit w ->
  (app_waits w \/ exists w', Push w w' \/ Client_Consume r w w' \/ Close r w w') /\
  (reconnect_waits w \/ exists w', handleReconnect w w' \/ handleReInit r w w').
Proof. intros [Hw A]%reaches_accounts Hlim. split; [by apply app_runs|by apply reconnect_runs]. Qed.

Lemma client_progress_witness :
  let w := after (connecting 1 ++ publishing) in
  let r := FromErrors None in
  (app_waits w \/ exists w', Push w w' \/ Client_Consume r w w' \/ Close r w w') /\
  (reconnect_waits w \/ exists w', handleReconnect w w' \/ handleReInit r w w').
Proof.
  apply (client_progress "jobs" (after (connecting 1 ++ publishing))).
  - apply after_reached. vm_compute. by eexists.
  - apply limitb_sound. by vm_compute.
Defined.
