(* ===== verification/Producer.v ===== *)
(** * Producer: publishing with a window of deferred confirmations (_examples/producer/producer.go)

    Three goroutines and four Go channels around one channel of the library:
    [publish] publishes a message for every value of [publishOkCh] and hands
    the deferred confirmation to the confirm handler, which keeps those that
    are not acknowledged and gives the next OK while there are few.  A step of
    a goroutine is a function of the choice made in it. *)

From S2P Require Import Prelude Types Io SpecConnection SpecChannel SpecQueue SpecBasic SpecTx Spec091 Frame.
From S2P Require Import Allocator Confirms Delivery Consumers Auth State Channel ChannelFacts ChannelApi.
From S2P Require Import Connection ConnectionFacts Registry Shutdown Follows Safety Executions Peer.

Module Producer.

(** ** State *)

(** The command line. *)
Record flags := MkFlags {
  f_exchange : string;
  f_exchangeType : string;
  f_queue : string;
  f_routingKey : string;
  f_body : list byte;
  f_continuous : bool
}.

(** A [*DeferredConfirmation]: the channel it belongs to, and which it is. *)
Definition deferred : Type := nat * nat.

(** [publish]; [a] is the address of its channel. *)
Inductive publish_pc :=
  | P_dial
  | P_channel
  | P_exchange (a : nat)
  | P_queue (a : nat)
  | P_bind (a : nat) (name : string)
  | P_confirm (a : nat)
  | P_wait (a : nat)                      (** waiting on the OK to publish *)
  | P_publish (a : nat)
  | P_hand (a : nat) (d : option nat)     (** [confirmsCh <- dConfirmation] *)
  | P_pause (a : nat)
  | P_stop (a : nat)                      (** the [select] after [close(exitCh)] *)
  | P_close_channel (a : nat)             (** [defer channel.Close()] *)
  | P_close_connection                    (** [defer conn.Close()] *)
  | P_returned
  | P_fatal                               (** [ErrLog.Fatalf] *)
  | P_panic (closing : bool).             (** [true]: a closed channel is closed *)

(** The goroutine of [startConfirmHandler]; [H_check] and [H_wait] carry the
    keys the loops have yet to visit, [exiting] that it is [waitConfirmations]
    that called [checkConfirmations]. *)
Inductive handler_pc :=
  | H_top
  | H_count
  | H_grant                               (** [publishOkCh <- struct{}{}] *)
  | H_receive
  | H_received
  | H_exiting                             (** [exitConfirmHandler] *)
  | H_check (exiting : bool) (ks : list Z)
  | H_wait (ks : list Z)
  | H_exited.

(** [publishOkCh] has room for one value; [confirmsDoneCh] and [exitCh] are
    closed or not; [p_interrupted] tells that the goroutine of
    [setupCloseHandler] is through. *)
Record producer := MkProducer {
  p_conn : option Connection;
  p_main : publish_pc;
  p_handler : handler_pc;
  p_confirms : gmap Z deferred;
  p_publishOk : bool;
  p_confirmsDone : bool;
  p_exit : bool;
  p_interrupted : bool
}.

Definition set_main (pc : publish_pc) (p : producer) : producer :=
  MkProducer (p_conn p) pc (p_handler p) (p_confirms p) (p_publishOk p) (p_confirmsDone p) (p_exit p) (p_interrupted p).
Definition set_conn (c : Connection) (p : producer) : producer :=
  MkProducer (Some c) (p_main p) (p_handler p) (p_confirms p) (p_publishOk p) (p_confirmsDone p) (p_exit p) (p_interrupted p).
Definition set_handler (pc : handler_pc) (m : gmap Z deferred) (p : producer) : producer :=
  MkProducer (p_conn p) (p_main p) pc m (p_publishOk p) (p_confirmsDone p) (p_exit p) (p_interrupted p).
Definition set_publishOk (b : bool) (p : producer) : producer :=
  MkProducer (p_conn p) (p_main p) (p_handler p) (p_confirms p) b (p_confirmsDone p) (p_exit p) (p_interrupted p).
Definition close_confirmsDone (p : producer) : producer :=
  MkProducer (p_conn p) (p_main p) (p_handler p) (p_confirms p) (p_publishOk p) true (p_exit p) (p_interrupted p).
Definition close_exit (p : producer) : producer :=
  MkProducer (p_conn p) (p_main p) (p_handler p) (p_confirms p) (p_publishOk p) (p_confirmsDone p) true (p_interrupted p).
Definition interrupt (p : producer) : producer :=
  MkProducer (p_conn p) (p_main p) (p_handler p) (p_confirms p) (p_publishOk p) (p_confirmsDone p) (p_exit p) true.

(** [main] up to the calls. *)
Definition main : producer := MkProducer None P_dial H_top ∅ false false false false.

(** The process ends when [main] returns, on [Fatalf] and on a panic. *)
Definition running (p : producer) : bool :=
  match p_main p with P_returned | P_fatal | P_panic _ => false | _ => true end.

(** What a pointer points to. *)
Definition deref (p : producer) (d : deferred) : option DeferredConfirmation :=
  match p_conn p with
  | Some c => match cn_objs c !! fst d with Some ch => dcs (ch_confirms ch) !! snd d | None => None end
  | None => None
  end.

(** ** [publish] *)

(** What a [select] takes: a call that returns, with the reply of the server,
    or a receive, or the timer. *)
Inductive choice :=
  | Returns (r : reply)
  | Take_confirmsDone
  | Take_publishOk
  | Timer.

(** A call of the library, and where [publish] goes with its result. *)
Definition calling {A} (p : producer) (m : M A) (k : A -> publish_pc) : option producer :=
  match p_conn p with
  | Some c => match m c with Ok (x, c') => Some (set_main (k x) (set_conn c' p)) | _ => None end
  | None => None
  end.

Definition or_fatal (pc : publish_pc) (err : option goerror) : publish_pc :=
  match err with None => pc | Some _ => P_fatal end.

(** [amqp.Persistent] is 2. *)
Definition publishing (f : flags) : Publishing :=
  MkPublishing [] "text/plain" "" 2 0 "" "" "" "" zeroTime "" "" "sequential-producer" (f_body f).

Definition publish (f : flags) (x : choice) (p : producer) : option producer :=
  match p_main p, x with
  | P_channel, Returns r =>
      calling p (Connection_Channel r) (fun x => match x with (None, Some a) => P_exchange a | _ => P_fatal end)
  | P_exchange a, Returns r =>
      calling p (ExchangeDeclare a (f_exchange f) (f_exchangeType f) true false false false [] r) (or_fatal (P_queue a))
  | P_queue a, Returns r =>
      calling p (QueueDeclare a (f_queue f) true false false false [] r)
        (fun x => or_fatal (P_bind a (Queue_Name (fst x))) (snd x))
  | P_bind a name, Returns r =>
      calling p (QueueBind a name (f_routingKey f) (f_exchange f) false [] r) (or_fatal (P_confirm a))
  | P_confirm a, Returns r => calling p (Confirm a false r) (or_fatal (P_wait a))
  | P_wait a, Take_confirmsDone => if p_confirmsDone p then Some (set_main (P_close_channel a) p) else None
  | P_wait a, Take_publishOk => if p_publishOk p then Some (set_main (P_publish a) (set_publishOk false p)) else None
  | P_wait a, Timer => Some p
  | P_publish a, Returns _ =>
      calling p (PublishWithDeferredConfirm a (f_exchange f) (f_routingKey f) true false (publishing f))
        (fun x => or_fatal (P_hand a (fst x)) (snd x))
  | P_hand a _, Take_confirmsDone => if p_confirmsDone p then Some (set_main (P_close_channel a) p) else None
  | P_pause a, Take_confirmsDone => if p_confirmsDone p then Some (set_main (P_close_channel a) p) else None
  | P_pause a, Timer =>
      if f_continuous f then Some (set_main (P_wait a) p)
      else if p_exit p then Some (set_main (P_panic true) p)
      else Some (set_main (P_stop a) (close_exit p))
  | P_stop a, Take_confirmsDone => if p_confirmsDone p then Some (set_main (P_close_channel a) p) else None
  | P_stop a, Timer => Some (set_main (P_close_channel a) p)
  | P_close_channel a, Returns r => calling p (Channel_Close a r) (fun _ => P_close_connection)
  | P_close_connection, Returns r => calling p (Connection_Close r) (fun _ => P_returned)
  | _, _ => None
  end.

(** ** The confirm handler *)

(** [ks] is an order in which [range] may visit the map. *)
Definition visits (ks : list Z) (m : gmap Z deferred) : bool := bool_decide (ks ≡ₚ (map_to_list m).*1).

(** The body of the loop of [checkConfirmations]. *)
Definition check_one (p : producer) (k : Z) (m : gmap Z deferred) : gmap Z deferred :=
  match m !! k with
  | Some d => match deref p d with Some x => if Acked x then delete k m else m | None => m end
  | None => m
  end.

(** ... and of [waitConfirmations] when the first case of its [select] is
    ready. *)
Definition wait_one (p : producer) (k : Z) : bool :=
  match p_confirms p !! k with
  | Some d => match deref p d with Some x => dc_closed x | None => false end
  | None => false
  end.

Inductive handler_choice :=
  | Handler_step
  | Handler_order (ks : list Z)
  | Handler_exit
  | Handler_timer.

Definition startConfirmHandler (x : handler_choice) (p : producer) : option producer :=
  match p_handler p, x with
  | H_top, Handler_step => Some (set_handler (if p_exit p then H_exiting else H_count) (p_confirms p) p)
  | H_count, Handler_step =>
      Some (set_handler (if bool_decide (size (p_confirms p) <= 8)%nat then H_grant else H_receive) (p_confirms p) p)
  | H_grant, Handler_step =>
      if p_publishOk p then None else Some (set_handler H_receive (p_confirms p) (set_publishOk true p))
  | H_grant, Handler_timer =>
      if p_publishOk p then Some (set_handler H_receive (p_confirms p) p) else None
  | H_receive, Handler_exit => if p_exit p then Some (set_handler H_exiting (p_confirms p) p) else None
  | H_received, Handler_order ks =>
      if visits ks (p_confirms p) then Some (set_handler (H_check false ks) (p_confirms p) p) else None
  | H_exiting, Handler_order ks =>
      if visits ks (p_confirms p) then Some (set_handler (H_check true ks) (p_confirms p) p) else None
  | H_check exiting (k :: ks), Handler_step =>
      Some (set_handler (H_check exiting ks) (check_one p k (p_confirms p)) p)
  | H_check false [], Handler_step => Some (set_handler H_top (p_confirms p) p)
  | H_check true [], Handler_order ks =>
      if visits ks (p_confirms p) then Some (set_handler (H_wait ks) (p_confirms p) p) else None
  | H_wait (k :: ks), Handler_step =>
      if wait_one p k then Some (set_handler (H_wait ks) (delete k (p_confirms p)) p) else None
  | H_wait (k :: ks), Handler_timer => Some (set_handler (H_wait ks) (p_confirms p) p)
  | H_wait [], Handler_step => Some (close_confirmsDone (set_handler H_exited (p_confirms p) p))
  | _, _ => None
  end.

(** [confirmsCh <- dConfirmation] meets [confirmation := <-confirmsCh]. *)
Definition handover (p : producer) : option producer :=
  match p_main p, p_handler p with
  | P_hand a (Some d), H_receive =>
      match deref p (a, d) with
      | Some x =>
          Some (set_main (P_pause a) (set_handler H_received (<[dc_DeliveryTag x := (a, d)]> (p_confirms p)) p))
      | None => None
      end
  | P_hand a None, H_receive => Some (set_main (P_panic false) p)
  | _, _ => None
  end.

(** The goroutine of [setupCloseHandler] after a signal. *)
Definition setupCloseHandler (p : producer) : option producer :=
  if p_interrupted p then None
  else if p_exit p then Some (set_main (P_panic true) p)
  else Some (close_exit (interrupt p)).

(** ** The whole *)

(** Fewer than 2^64-2 messages are published. *)
Definition in_limit (p : producer) : bool :=
  match p_main p, p_conn p with
  | P_publish a, Some c =>
      match cn_objs c !! a with Some ch => published (ch_confirms ch) + 1 <? 2 ^ 64 - 1 | None => true end
  | _, _ => true
  end.

Inductive event :=
  | Ev_publish (x : choice)
  | Ev_handler (x : handler_choice)
  | Ev_handover
  | Ev_signal.

Definition step (f : flags) (e : event) (p : producer) : option producer :=
  if running p then
    match e with
    | Ev_publish x => if in_limit p then publish f x p else None
    | Ev_handler x => startConfirmHandler x p
    | Ev_handover => handover p
    | Ev_signal => setupCloseHandler p
    end
  else None.

(** [amqp.DialConfig] succeeds or fails; the connection changes without a call
    of the program. *)
Inductive producer_step (f : flags) : producer -> producer -> Prop :=
  | step_event e p p' : step f e p = Some p' -> producer_step f p p'
  | step_dial c p : p_main p = P_dial -> established c -> producer_step f p (set_main P_channel (set_conn c p))
  | step_dial_error p : p_main p = P_dial -> producer_step f p (set_main P_fatal p)
  | step_peer c c' p : p_conn p = Some c -> running p = true -> peer_step c c' -> producer_step f p (set_conn c' p).

Definition reaches (f : flags) (p : producer) : Prop := rtc (producer_step f) main p.

End Producer.
