(* ===== verification/ProducerFacts.v ===== *)
(** * ProducerFacts: the window of the producer

    Over any interleaving of the goroutines of the producer, the frames of a
    conforming server and failures of the connection: how many confirmations
    are outstanding, and that none is forgotten. *)

From S2P Require Import Prelude Types Io SpecConnection SpecChannel SpecQueue SpecBasic SpecTx Spec091 Frame.
From S2P Require Import Allocator Confirms Delivery Consumers Auth State Channel ChannelFacts ChannelApi.
From S2P Require Import Connection ConnectionFacts Registry Shutdown Follows Safety Executions Peer Settled.
From S2P Require Import Client ClientFacts Producer.

Module ProducerFacts.
Import Producer.

(** ** The invariant *)

(** Before there is a channel. *)
Definition early (pc : publish_pc) : bool := match pc with P_dial | P_channel => true | _ => false end.

(** The channel at [a] is used. *)
Definition uses (pc : publish_pc) (a : nat) : Prop :=
  match pc with
  | P_exchange b | P_queue b | P_bind b _ | P_confirm b | P_wait b | P_publish b | P_hand b _ | P_pause b | P_stop b
  | P_close_channel b => b = a
  | P_close_connection => True
  | _ => False
  end.

Definition confirm_on (pc : publish_pc) : bool :=
  match pc with P_wait _ | P_publish _ | P_hand _ _ | P_pause _ => true | _ => false end.

(** The OK was taken and the confirmation is not handed over. *)
Definition granted (pc : publish_pc) : bool := match pc with P_publish _ | P_hand _ _ => true | _ => false end.

(** When the handler may forget a confirmation: when it is acknowledged; on
    the way out, also when it is nacked. *)
Definition settled_at (pc : handler_pc) (x : DeferredConfirmation) : bool :=
  match pc with H_wait _ => dc_closed x | H_exited => true | _ => Acked x end.

Record ledger (p : producer) (a : nat) (k : confirms) : Prop := {
  le_numbered : published k = len (dcs k);
  le_tags : forall d x, dcs k !! d = Some x -> dc_DeliveryTag x = Z.of_nat d + 1;
  le_map : forall t x, p_confirms p !! t = Some x ->
    exists d y, x = (a, d) /\ dcs k !! d = Some y /\ dc_DeliveryTag y = t;
  le_covered : forall d x, dcs k !! d = Some x ->
    settled_at (p_handler p) x = true \/ p_confirms p !! dc_DeliveryTag x = Some (a, d) \/
    p_main p = P_hand a (Some d)
}.

Definition window (p : producer) : Prop :=
  (size (p_confirms p) <= 9)%nat /\
  match p_handler p with
  | H_top | H_count | H_received | H_check false _ => p_publishOk p = false /\ granted (p_main p) = false
  | H_grant => (p_publishOk p = false /\ granted (p_main p) = false) /\ (size (p_confirms p) <= 8)%nat
  | H_receive =>
      (p_publishOk p = true -> granted (p_main p) = false /\ (size (p_confirms p) <= 8)%nat) /\
      (granted (p_main p) = true -> (size (p_confirms p) <= 8)%nat)
  | _ => True
  end.

Record kept (p : producer) : Prop := {
  ke_wf : forall c, p_conn p = Some c -> conn_wf c;
  ke_conn : p_main p = P_channel -> is_Some (p_conn p);
  ke_early : early (p_main p) = true -> p_confirms p = ∅;
  ke_book : running p = true -> early (p_main p) = false ->
    exists c a ch, p_conn p = Some c /\ uses (p_main p) a /\ cn_objs c !! a = Some ch /\
      (confirm_on (p_main p) = true -> ch_confirming ch = true) /\ ledger p a (ch_confirms ch);
  ke_done : p_confirmsDone p = true -> p_handler p = H_exited;
  ke_window : window p
}.

Lemma main_kept : kept main.
Proof. split; simpl; try done. split; [|done]. simpl. rewrite map_size_empty. lia. Qed.

(** ** The ledger *)

Lemma ledger_settles p a k k' : settles k k' -> ledger p a k -> ledger p a k'.
Proof.
  intros [P D] [L1 L2 L3 L4].
  assert (forall d x', dcs k' !! d = Some x' -> exists x, dcs k !! d = Some x /\ same_outcome x x') as Hb
    by (intros d x' H; by eapply Forall2_lookup_r).
  split.
  - unfold len in *. rewrite P, L1. by rewrite (Forall2_length D).
  - intros d x' Hx. destruct (Hb d x' Hx) as (x & Hx0 & T & _). rewrite T. by apply L2.
  - intros t y Hy. destruct (L3 t y Hy) as (d & x & E & Hx & Ht).
    destruct (Forall2_lookup_l _ _ _ _ _ D Hx) as (x' & Hx' & T & _). exists d, x'. split_and!; [done|done|congruence].
  - intros d x' Hx. destruct (Hb d x' Hx) as (x & Hx0 & T & C). rewrite T.
    destruct (L4 d x Hx0) as [H|H]; [left|by right].
    unfold settled_at, Acked in *. destruct (p_handler p); destruct (dc_closed x) eqn:Hc; try done; by rewrite (C eq_refl), ?Hc.
Qed.

(** [publish] goes on. *)
Lemma ledger_main p pc a k :
  ledger p a k -> (forall d, p_main p <> P_hand a (Some d)) \/ p_handler p = H_exited -> ledger (set_main pc p) a k.
Proof.
  intros [L1 L2 L3 L4] H. split; try done. simpl. intros d x Hx. destruct H as [H|H].
  - destruct (L4 d x Hx) as [|[|E]]; [by left|by right; left|by destruct (H d)].
  - left. by rewrite H.
Qed.

(** ... or something the ledger does not mention changes. *)
Lemma ledger_same p p' a k :
  p_confirms p' = p_confirms p -> p_main p' = p_main p ->
  (forall x, settled_at (p_handler p) x = true -> settled_at (p_handler p') x = true) ->
  ledger p a k -> ledger p' a k.
Proof.
  intros E1 E2 E3 [L1 L2 L3 L4]. split; [done|done|by rewrite E1|]. intros d x Hx. rewrite E1, E2.
  destruct (L4 d x Hx) as [H|H]; [left; by apply E3|by right].
Qed.

(** The handler forgets an entry. *)
Lemma ledger_delete p p' a k t :
  p_confirms p' = delete t (p_confirms p) -> p_main p' = p_main p ->
  (forall x, settled_at (p_handler p) x = true -> settled_at (p_handler p') x = true) ->
  (forall d x, p_confirms p !! t = Some (a, d) -> dcs k !! d = Some x -> settled_at (p_handler p') x = true) ->
  ledger p a k -> ledger p' a k.
Proof.
  intros E1 E2 E3 Hd [L1 L2 L3 L4]. split; [done|done| |].
  - intros t' x. rewrite E1, lookup_delete_Some. intros [_ H]. by apply L3.
  - intros d x Hx. rewrite E1, E2. destruct (L4 d x Hx) as [H|[H|H]]; [left; by apply E3| |by right; right].
    destruct (decide (t = dc_DeliveryTag x)) as [->|Hne]; [left; by eapply Hd|].
    right; left. by rewrite lookup_delete_ne.
Qed.

(** It is handed a confirmation. *)
Lemma ledger_insert p p' a d y k :
  dcs k !! d = Some y -> p_confirms p' = <[dc_DeliveryTag y := (a, d)]> (p_confirms p) ->
  p_main p = P_hand a (Some d) -> (forall x, settled_at (p_handler p) x = true -> settled_at (p_handler p') x = true) ->
  ledger p a k -> ledger p' a k.
Proof.
  intros Hy E1 Hm E3 [L1 L2 L3 L4]. split; [done|done| |].
  - intros t x. rewrite E1, lookup_insert_Some. intros [[<- <-]|[_ H]]; [by exists d, y|by apply L3].
  - intros d' x Hx. rewrite E1. destruct (decide (d = d')) as [<-|Hne].
    + right; left. assert (x = y) as -> by congruence. by rewrite lookup_insert_eq.
    + assert (dc_DeliveryTag y <> dc_DeliveryTag x) as Ht
        by (rewrite (L2 d y Hy), (L2 d' x Hx); lia).
      rewrite lookup_insert_ne by done. destruct (L4 d' x Hx) as [H|[H|H]]; [left; by apply E3|by right; left|].
      rewrite Hm in H. by injection H as ->.
Qed.

(** A message is published. *)
Lemma publish_confirms a e key m i msg c ch dc c' :
  cn_objs c !! a = Some ch -> ch_confirming ch = true ->
  PublishWithDeferredConfirm a e key m i msg c = Ok ((dc, None), c') ->
  dc = Some (length (dcs (ch_confirms ch))) /\
  cn_objs c' = <[a := with_confirms (snd (Confirms.publish (ch_confirms ch))) ch]> (cn_objs c).
Proof.
  intros Ha Hcf E. unfold PublishWithDeferredConfirm in E. destruct (Validate (pub_Headers msg)); [by simplify_eq|].
  rewrite (mbind_ok _ _ _ _ _ (get_chan_ok _ _ _ Ha)), Hcf in E.
  apply mbind_inv in E as (o & c1 & E1 & E). destruct (Confirms.publish (ch_confirms ch)) as [d k] eqn:Ek.
  apply mbind_inv in E1 as ([] & c2 & E2 & E1). unfold mret in E1. injection E1 as <- <-.
  rewrite (upd_chan_ok a _ _ ch Ha) in E2. injection E2 as <-.
  apply mbind_inv in E as (err & c3 & E3 & E). destruct err as [err|].
  { apply mbind_inv in E as (? & ? & _ & E). apply mbind_inv in E as (? & ? & _ & E). unfold mret in E. by simplify_eq. }
  unfold mret in E. injection E as <- <-. destruct (writes_Channel_send _ _ _ _ _ E3) as (b & w & t & g & ->).
  simpl. split; [|done]. unfold Confirms.publish, deferred_Add in Ek. simpl in Ek. by injection Ek as <- _.
Qed.

Lemma ledger_publish p pc a k :
  published k + 1 < 2 ^ 64 - 1 -> ledger p a k -> (forall d, p_main p <> P_hand a (Some d)) ->
  pc = P_hand a (Some (length (dcs k))) -> ledger (set_main pc p) a (snd (Confirms.publish k)).
Proof.
  intros Hlim [L1 L2 L3 L4] Hm ->. pose proof (len_nonneg (dcs k)) as Hlen. unfold len in *.
  assert (uintw 64 (published k + 1) = published k + 1) as Eu by (rewrite uintw_small; [done|unfold is_uint; lia]).
  unfold Confirms.publish, deferred_Add. simpl. rewrite Eu.
  assert (forall d x, (dcs k ++ [MkDeferred (published k + 1) false false]) !! d = Some x ->
    dcs k !! d = Some x \/ d = length (dcs k) /\ x = MkDeferred (published k + 1) false false) as Hsplit.
  { intros d x [H|[Hge H]]%lookup_app_Some; [by left|right]. destruct (d - length (dcs k))%nat eqn:Ed; [|done].
    simpl in H. split; [lia|congruence]. }
  split; simpl.
  - unfold len. rewrite length_app. simpl. lia.
  - intros d x [H|[-> ->]]%Hsplit; [by apply L2|]. simpl. lia.
  - intros t x Hx. destruct (L3 t x Hx) as (d & y & E & Hy & Ht). exists d, y. split_and!; [done|by apply lookup_app_l_Some|done].
  - intros d x [H|[-> ->]]%Hsplit; [|by right; right].
    destruct (L4 d x H) as [|[|E]]; [by left|by right; left|by destruct (Hm d)].
Qed.

(** ** Calls of the library *)

Lemma calling_inv {A} p (m : M A) k p' :
  calling p m k = Some p' -> exists c x c', p_conn p = Some c /\ m c = Ok (x, c') /\
    p' = set_main (k x) (set_conn c' p).
Proof.
  unfold calling. destruct (p_conn p) as [c|]; [|done]. destruct (m c) as [[x c']| | |] eqn:E; try done.
  intros [= <-]. eauto 10.
Qed.

(** The connection changes, by a call or otherwise, without publishing. *)
Lemma conn_kept p c c' :
  kept p -> p_conn p = Some c -> conn_wf c' -> follows c c' -> still settles c c' -> kept (set_conn c' p).
Proof.
  intros [K1 K2 K3 K4 K5 K6] Hc W F S. split; try done.
  - intros d [= <-]. done.
  - intros Hr He. destruct (K4 Hr He) as (d & a & ch & Hd & Hu & Ha & Hcf & L).
    assert (d = c) as -> by congruence. destruct (fo_objs _ _ F a ch Ha) as (ch' & Ha' & Fc).
    destruct (S a ch Ha) as (ch2 & Ha2 & Hs). assert (ch2 = ch') as -> by congruence.
    exists c', a, ch'. split_and!; [done|done|done|intros H; by apply (cf_confirming _ _ _ Fc), Hcf|].
    apply (ledger_same p); [done..|]. by eapply ledger_settles.
Qed.

(** [publish] goes on. *)
Lemma goto_kept p pc :
  kept p -> early pc = false -> (granted pc = true -> granted (p_main p) = true) ->
  (running p = true /\ early (p_main p) = false /\ (forall a, uses (p_main p) a -> uses pc a) /\
   (confirm_on pc = true -> forall c a ch, p_conn p = Some c -> uses (p_main p) a -> cn_objs c !! a = Some ch ->
      ch_confirming ch = true) /\
   ((forall a d, p_main p <> P_hand a (Some d)) \/ p_handler p = H_exited)) \/
  running (set_main pc p) = false ->
  kept (set_main pc p).
Proof.
  intros [K1 K2 K3 K4 K5 K6] He Hg H. split; try done; simpl.
  - by intros ->.
  - congruence.
  - intros Hr _. destruct H as [(H1 & H2 & H3 & H4 & H5)|H]; [|congruence].
    destruct (K4 H1 H2) as (c & a & ch & Hc & Hu & Ha & Hcf & L). exists c, a, ch.
    split_and!; [done|by apply H3|done|intros Hpc; by eapply H4|]. apply ledger_main; [done|]. naive_solver.
  - destruct K6 as [W1 W2]. split; [done|]. simpl.
    assert (granted (p_main p) = false -> granted pc = false) as Hf.
    { intros E. apply not_true_is_false. intros E'. rewrite (Hg E') in E. done. }
    clear -W2 Hg Hf. destruct (p_handler p) as [| | | | | |[] ks|ks|]; simpl in *; try done.
    1,2,5,6: (destruct W2; split; [done|by apply Hf]).
    + destruct W2 as [[W2 W3] W4]. split_and!; [done|by apply Hf|done].
    + destruct W2 as [W2 W3]. split; [|by intros H; apply W3, Hg]. intros H. destruct (W2 H). split; [by apply Hf|done].
Qed.

(** A call that publishes nothing, on the channel. *)
Lemma call_kept p pc c c' k :
  kept p -> p_conn p = Some c -> call_fits c k -> gentle_call k = true -> perform k c = Ok (tt, c') ->
  early (p_main p) = false -> running p = true -> early pc = false -> granted pc = false -> confirm_on pc = false ->
  (forall a, uses (p_main p) a -> uses pc a) \/ running (set_main pc p) = false ->
  (forall a d, p_main p <> P_hand a (Some d)) -> kept (set_main pc (set_conn c' p)).
Proof.
  intros K Hc Hf Hg E H1 H2 H3 H4 H5 H6 H7. pose proof (ke_wf p K c Hc) as Wc.
  pose proof (gentle_perform k c c' Wc Hf Hg E) as G.
  assert (kept (set_conn c' p)) as K' by (eapply (conn_kept p c); [done|done|apply G|apply G|by eapply perform_settles]).
  apply goto_kept; [done|done|congruence|]. destruct H6 as [H6|H6]; [left|by right].
  split_and!; [done|done|done|congruence|by left].
Qed.

(** ** The steps of [publish] *)

(** Calls on the channel that the program has. *)
Lemma channel_call_kept {A} p a (m : M A) k (j : A -> publish_pc) p' :
  kept p -> running p = true -> early (p_main p) = false -> uses (p_main p) a -> (forall b, uses (p_main p) b -> b = a) ->
  (forall b d, p_main p <> P_hand b (Some d)) -> calling p m j = Some p' ->
  confirms_api k = false -> (forall c ch, chan_call_fits ch c k) ->
  (forall c y c', m c = Ok (y, c') -> perform_on a k c = Ok (tt, c')) ->
  (forall x, early (j x) = false /\ granted (j x) = false /\ confirm_on (j x) = false /\
     (uses (j x) a \/ running (set_main (j x) p) = false)) -> kept p'.
Proof.
  intros K Hr He Hu Hua Hh (c & x & c' & Hc & E & ->)%calling_inv Hk Hf Hp Hj.
  destruct (ke_book p K Hr He) as (c0 & b & ch & Hc0 & Hb & Ha & _). rewrite (Hua b Hb) in *.
  assert (c0 = c) as -> by congruence. destruct (Hj x) as (J1 & J2 & J3 & J4).
  apply (call_kept p (j x) c c' (OnChannel a k)); try done.
  - exists ch. split; [done|apply Hf].
  - simpl. by rewrite Hk.
  - by eapply Hp.
  - destruct J4 as [J4|J4]; [left|by right]. intros b' Hb'. by rewrite (Hua b' Hb').
Qed.

(** [conn.Channel()] *)
Lemma open_kept p r p' :
  kept p -> p_main p = P_channel ->
  calling p (Connection_Channel r) (fun x => match x with (None, Some a) => P_exchange a | _ => P_fatal end) = Some p' ->
  kept p'.
Proof.
  intros K Hpc (c & x & c' & Hc & E & ->)%calling_inv.
  pose proof (gentle_perform (Do_Channel r) c c' (ke_wf p K c Hc) I eq_refl (ignore_ok _ _ _ _ E)) as G.
  assert (kept (set_conn c' p)) as K'.
  { eapply (conn_kept p c); [done|done|apply G|apply G|]. apply (perform_settles (Do_Channel r)); [done|by eapply ignore_ok]. }
  destruct x as [[e|] [a|]]; try (apply goto_kept; [done|done|done|by right]).
  destruct (Connection_Channel_new r a c c' E) as (-> & ch & Hch & Hk).
  pose proof (ke_early p K) as Hm. rewrite Hpc in Hm. specialize (Hm eq_refl).
  pose proof K as [K1 K2 K3 K4 K5 K6]. split; try done.
  - intros d [= <-]. apply G.
  - intros _ _. exists c', (length (cn_objs c)), ch. split_and!; [done|done|done|done|]. rewrite Hk.
    split; simpl; try done. intros t x. by rewrite Hm, lookup_empty.
  - destruct K6 as [W1 W2]. split; [done|]. simpl. rewrite Hpc in W2. simpl in W2.
    by destruct (p_handler p) as [| | | | | |[] ks|ks|].
Qed.

(** [channel.Confirm(false)] *)
Lemma confirm_kept p a r p' :
  kept p -> p_main p = P_confirm a -> calling p (Confirm a false r) (or_fatal (P_wait a)) = Some p' -> kept p'.
Proof.
  intros K Hpc E. assert (running p = true) as Hr by (unfold running; by rewrite Hpc).
  assert (early (p_main p) = false) as He by (by rewrite Hpc).
  apply calling_inv in E as (c & err & c' & Hc & E & ->).
  destruct (ke_book p K Hr He) as (c0 & b & ch & Hc0 & Hb & Ha & _). rewrite Hpc in Hb. simpl in Hb. subst b.
  assert (c0 = c) as -> by congruence.
  assert (gentle c c') as G.
  { apply (gentle_perform (OnChannel a (Do_Confirm false r))); [by apply (ke_wf p K)|by exists ch|done|by eapply ignore_ok]. }
  assert (kept (set_conn c' p)) as K'.
  { eapply (conn_kept p c); [done|done|apply G|apply G|].
    apply (perform_settles (OnChannel a (Do_Confirm false r))); [done|by eapply ignore_ok]. }
  destruct err as [e|]; [apply goto_kept; [done|done|done|by right]|].
  destruct (Confirm_confirming a false r c c' E) as (ch' & Hch' & Hcf).
  apply goto_kept; [done|done|done|]. left. split_and!; [done|simpl; by rewrite Hpc|simpl; by rewrite Hpc| |left; intros; simpl; by rewrite Hpc].
  intros _ d b x [= <-]. simpl. rewrite Hpc. simpl. intros <- Hx. congruence.
Qed.

Lemma publishing_kept p f a p' :
  kept p -> p_main p = P_publish a -> in_limit p = true ->
  calling p (PublishWithDeferredConfirm a (f_exchange f) (f_routingKey f) true false (publishing f))
    (fun x => or_fatal (P_hand a (fst x)) (snd x)) = Some p' -> kept p'.
Proof.
  intros K Hpc Hlim (c & [dc err] & c' & Hc & E & ->)%calling_inv.
  assert (running p = true) as Hr by (unfold running; by rewrite Hpc).
  assert (early (p_main p) = false) as He by (by rewrite Hpc).
  destruct (ke_book p K Hr He) as (c0 & b & ch & Hc0 & Hb & Ha & Hcf & L). rewrite Hpc in Hb, Hcf. simpl in Hb, Hcf. subst b.
  assert (c0 = c) as -> by congruence. unfold in_limit in Hlim. rewrite Hpc, Hc, Ha in Hlim. apply Z.ltb_lt in Hlim.
  destruct (Publish_spec a (f_exchange f) (f_routingKey f) true false (publishing f) c ch (ke_wf p K c Hc) Ha Hlim)
    as (x & c1 & ch1 & E1 & W1 & F1 & _ & P1).
  assert (x = (dc, err) /\ c1 = c') as [-> ->] by (split; congruence).
  pose proof K as [K1 K2 K3 K4 K5 K6]. destruct err as [e|].
  - split; try done; simpl. by intros d [= <-]. destruct K6 as [V1 V2]. split; [done|]. simpl. rewrite Hpc in V2. simpl in V2.
    destruct (p_handler p) as [| | | | | |[] ks|ks|]; naive_solver.
  - destruct (publish_confirms a _ _ _ _ _ c ch dc c' Ha (Hcf eq_refl) E) as [-> O].
    pose proof (lookup_lt_Some _ _ _ Ha) as Hlt. split; try done; simpl.
    + by intros d [= <-].
    + intros _ _. exists c', a. eexists. split; [done|]. split; [done|]. split; [rewrite O; by apply list_lookup_insert_eq|].
      split; [done|]. simpl. apply (ledger_publish (set_conn c' p)); [done|by apply (ledger_same p)| |done].
      intros d. simpl. by rewrite Hpc.
    + destruct K6 as [V1 V2]. split; [done|]. simpl. rewrite Hpc in V2. simpl in V2.
      destruct (p_handler p) as [| | | | | |[] ks|ks|]; naive_solver.
Qed.

(** [publish] takes [confirmsDoneCh], or its timer, and stops. *)
Lemma stopping_kept p a :
  kept p -> running p = true -> early (p_main p) = false -> (forall b, uses (p_main p) b -> b = a) ->
  ((forall b d, p_main p <> P_hand b (Some d)) \/ p_handler p = H_exited) -> kept (set_main (P_close_channel a) p).
Proof. intros K Hr He Hu Hh. apply goto_kept; [done|done|done|]. left. split_and!; try done. intros b Hb. by rewrite (Hu b Hb). Qed.

Lemma close_connection_kept p r p' :
  kept p -> p_main p = P_close_connection -> calling p (Connection_Close r) (fun _ => P_returned) = Some p' -> kept p'.
Proof.
  intros K Hpc (c & x & c' & Hc & E & ->)%calling_inv.
  apply (call_kept p _ c c' (Do_ConnectionClose r)); try done; [by eapply ignore_ok|by rewrite Hpc| |by right|by rewrite Hpc].
  unfold running. by rewrite Hpc.
Qed.

Lemma publish_kept f x p p' : kept p -> in_limit p = true -> publish f x p = Some p' -> kept p'.
Proof.
  intros K Hlim E. unfold publish in E. pose proof (ke_done p K) as Hd.
  destruct (p_main p) as [| |a|a|a name|a|a|a|a d|a|a|a| | | |] eqn:Hpc; destruct x; try done;
    assert (running p = true) as Hr by (unfold running; by rewrite Hpc).
  - by eapply open_kept.
  - eapply (channel_call_kept p a _ (Do_ExchangeDeclare false (f_exchange f) (f_exchangeType f) true false false false [] r));
      [done|done|by rewrite Hpc..|exact E|done|done|intros; by eapply ignore_ok|intros [e|]; simpl; auto].
  - eapply (channel_call_kept p a _ (Do_QueueDeclare false (f_queue f) true false false false [] r));
      [done|done|by rewrite Hpc..|exact E|done|done|intros; by eapply ignore_ok|intros [q [e|]]; simpl; auto].
  - eapply (channel_call_kept p a _ (Do_QueueBind name (f_routingKey f) (f_exchange f) false [] r));
      [done|done|by rewrite Hpc..|exact E|done|done|intros; by eapply ignore_ok|intros [e|]; simpl; auto].
  - by eapply confirm_kept.
  - destruct (p_confirmsDone p); [|done]. injection E as <-. apply stopping_kept; [done|done|by rewrite Hpc..|right; auto].
  - destruct (p_publishOk p) eqn:Hok; [|done]. injection E as <-.
    destruct (ke_book p K Hr) as (c & b & ch & Hc & Hb & Ha & Hcf & L); [by rewrite Hpc|]. rewrite Hpc in Hb, Hcf.
    destruct K as [K1 K2 K3 K4 K5 [W1 W2]]. split; try done.
    + intros _ _. exists c, b, ch. split; [done|]. split; [exact Hb|]. split; [done|]. split; [exact Hcf|].
      apply (ledger_main (set_publishOk false p)); [by apply (ledger_same p)|]. left. intros d. simpl. by rewrite Hpc.
    + split; [done|]. simpl. rewrite Hok in W2. simpl in W2.
      destruct (p_handler p) as [| | | | | |[] ks|ks|]; try done; try (destruct W2 as [[W2 _] _] || destruct W2 as [W2 _]; congruence).
      split; [done|]. intros _. destruct W2 as [W2 _]. by destruct (W2 eq_refl).
  - injection E as <-. done.
  - by eapply publishing_kept.
  - destruct (p_confirmsDone p); [|done]. injection E as <-. apply stopping_kept; [done|done|by rewrite Hpc..|right; auto].
  - destruct (p_confirmsDone p); [|done]. injection E as <-. apply stopping_kept; [done|done|by rewrite Hpc..|right; auto].
  - destruct (f_continuous f).
    + injection E as <-. apply goto_kept; [done|done|done|]. left. split_and!; [done|by rewrite Hpc..| |left; by rewrite Hpc].
      intros _ c b ch Hc Hb Ha. destruct (ke_book p K Hr) as (c0 & b0 & ch0 & Hc0 & Hb0 & Ha0 & Hcf & _); [by rewrite Hpc|].
      rewrite Hpc in Hb, Hb0, Hcf. simpl in *. assert (ch0 = ch) as <- by congruence. by apply Hcf.
    + destruct (p_exit p); injection E as <-.
      * apply goto_kept; [done|done|done|by right].
      * assert (kept (close_exit p)) as K'
          by (destruct K as [K1 K2 K3 K4 K5 K6]; split; try done; intros H1 H2;
              destruct (K4 H1 H2) as (c & b & ch & Hc & Hb & Ha & Hcf & L); exists c, b, ch;
              split_and!; [done..|by apply (ledger_same p)]).
        apply goto_kept; [done|done|done|]. left. simpl. rewrite Hpc. split_and!; [done|done|done|done|by left].
  - destruct (p_confirmsDone p); [|done]. injection E as <-. apply stopping_kept; [done|done|by rewrite Hpc..|right; auto].
  - injection E as <-. apply stopping_kept; [done|done|by rewrite Hpc..|left; by rewrite Hpc].
  - eapply (channel_call_kept p a _ (Do_Close r));
      [done|done|by rewrite Hpc..|exact E|done|done|intros; by eapply ignore_ok|intros; simpl; auto].
  - by eapply close_connection_kept.
Qed.

(** ** The steps of the handler *)

(** It goes on with the same confirmations. *)
Lemma handler_goto p p' :
  kept p -> p_conn p' = p_conn p -> p_main p' = p_main p -> p_confirms p' = p_confirms p ->
  (forall x, settled_at (p_handler p) x = true -> settled_at (p_handler p') x = true) ->
  (p_confirmsDone p' = true -> p_handler p' = H_exited) -> window p' -> kept p'.
Proof.
  intros [K1 K2 K3 K4 K5 K6] E1 E2 E3 Hs Hd Hw. split; rewrite ?E1, ?E2, ?E3; try done.
  unfold running. rewrite E2. intros H1 H2. destruct (K4 H1 H2) as (c & a & ch & Hc & Hu & Ha & Hcf & L).
  exists c, a, ch. split_and!; [done..|by apply (ledger_same p)].
Qed.

(** It forgets an entry. *)
Lemma handler_forget p p' t :
  kept p -> p_conn p' = p_conn p -> p_main p' = p_main p -> p_confirms p' = delete t (p_confirms p) ->
  (forall x, settled_at (p_handler p) x = true -> settled_at (p_handler p') x = true) ->
  (forall d x, p_confirms p !! t = Some d -> deref p d = Some x -> settled_at (p_handler p') x = true) ->
  p_confirmsDone p' = p_confirmsDone p -> (p_handler p <> H_exited) -> window p' -> kept p'.
Proof.
  intros [K1 K2 K3 K4 K5 K6] E1 E2 E3 Hs Hf Ed Hx Hw. split; rewrite ?E1, ?E2, ?E3; try done.
  - intros He. by rewrite (K3 He), delete_empty.
  - unfold running. rewrite E2. intros H1 H2. destruct (K4 H1 H2) as (c & a & ch & Hc & Hu & Ha & Hcf & L).
    exists c, a, ch. split_and!; [done..|]. apply (ledger_delete p _ _ _ t); [done..| |done].
    intros d x Hd Hx'. eapply Hf; [exact Hd|]. unfold deref. simpl. by rewrite Hc, Ha.
  - rewrite Ed. intros H. by destruct Hx; apply K5.
Qed.

Lemma size_delete_le (m : gmap Z deferred) t n : (size m <= n)%nat -> (size (delete t m) <= n)%nat.
Proof. intros H. etrans; [apply map_subseteq_size, delete_subseteq|done]. Qed.

(** The loops visit keys of the map. *)
Lemma check_one_cases p k m :
  check_one p k m = m \/ check_one p k m = delete k m /\ exists d x, m !! k = Some d /\ deref p d = Some x /\ Acked x = true.
Proof.
  unfold check_one. destruct (m !! k) as [d|]; [|by left]. destruct (deref p d) as [x|] eqn:Ed; [|by left].
  destruct (Acked x) eqn:Ex; [right|by left]. eauto 10.
Qed.

Lemma handler_kept x p p' : kept p -> startConfirmHandler x p = Some p' -> kept p'.
Proof.
  intros K E. pose proof (ke_window p K) as [W1 W2]. pose proof (ke_done p K) as Hd. unfold startConfirmHandler in E.
  assert (p_handler p <> H_exited -> p_confirmsDone p = true -> False) as Hn by (intros H H'; by apply H, Hd).
  destruct (p_handler p) as [| | | | | |ex ks|ks|] eqn:Hpc.
  - destruct x; try done. injection E as <-. apply (handler_goto p); try done; simpl.
    + rewrite Hpc. by destruct (p_exit p).
    + intros H. by destruct Hn.
    + split; [done|]. simpl. by destruct (p_exit p).
  - destruct x; try done. injection E as <-. apply (handler_goto p); try done; simpl.
    + rewrite Hpc. by case_bool_decide.
    + intros H. by destruct Hn.
    + split; [done|]. simpl. case_bool_decide as Hs; [by split|]. destruct W2 as [-> ->]. done.
  - destruct x; try done; destruct (p_publishOk p) eqn:Hok; try done; injection E as <-.
    + apply (handler_goto p); try done; simpl; [by rewrite Hpc|intros H; by destruct Hn|].
      split; [done|]. simpl. destruct W2 as [[_ Hg] Hs]. rewrite Hg. by split.
    + destruct W2 as [[W2 _] _]. congruence.
  - destruct x; try done. destruct (p_exit p); [|done]. injection E as <-.
    apply (handler_goto p); try done; simpl; [by rewrite Hpc|intros H; by destruct Hn].
  - destruct x; try done. destruct (visits _ _); [|done]. injection E as <-.
    apply (handler_goto p); try done; simpl; [by rewrite Hpc|intros H; by destruct Hn].
  - destruct x; try done. destruct (visits _ _); [|done]. injection E as <-.
    apply (handler_goto p); try done; simpl; [by rewrite Hpc|intros H; by destruct Hn].
  - destruct ks as [|k ks]; [destruct ex; destruct x; try done|destruct x; try (by destruct ex)].
    + destruct (visits _ _); [|done]. injection E as <-.
      apply (handler_goto p); try done; simpl; [|intros H; by destruct Hn]. rewrite Hpc. simpl. intros y.
      unfold Acked. by destruct (dc_closed y).
    + injection E as <-. apply (handler_goto p); try done; simpl; [by rewrite Hpc|intros H; by destruct Hn].
    + assert (p' = set_handler (H_check ex ks) (check_one p k (p_confirms p)) p) as ->
        by (destruct ex; by injection E as <-). clear E.
      destruct (check_one_cases p k (p_confirms p)) as [->|[-> (d & y & Hk & Hy & Hack)]].
      * apply (handler_goto p); try done; simpl; [by rewrite Hpc|intros H; by destruct Hn].
      * apply (handler_forget p _ k); try done; simpl; [by rewrite Hpc| |by rewrite Hpc|].
        -- intros d' y' Hd' Hy'. congruence.
        -- split; [by apply size_delete_le|done].
  - destruct ks as [|k ks]; destruct x; try done.
    + injection E as <-. by apply (handler_goto p).
    + destruct (wait_one p k) eqn:Hw; [|done]. injection E as <-.
      apply (handler_forget p _ k); try done; simpl; [by rewrite Hpc| |by rewrite Hpc|].
      * intros d y Hk Hy. unfold wait_one in Hw. by rewrite Hk, Hy in Hw.
      * split; [by apply size_delete_le|done].
    + injection E as <-. apply (handler_goto p); try done; simpl; [by rewrite Hpc|intros H; by destruct Hn].
  - by destruct x.
Qed.

Lemma handover_kept p p' : kept p -> handover p = Some p' -> kept p'.
Proof.
  intros K E. unfold handover in E. destruct (p_main p) as [| | | | | | | |a [d|]| | | | | | |] eqn:Hpc; try done;
    destruct (p_handler p) eqn:Hh; try done; [|injection E as <-; apply goto_kept; [done|done|done|by right]].
  destruct (deref p (a, d)) as [x|] eqn:Hx; [|done]. injection E as <-.
  pose proof (ke_window p K) as [W1 W2]. rewrite Hh in W2. destruct W2 as [_ W2]. rewrite Hpc in W2. specialize (W2 eq_refl).
  destruct (ke_book p K) as (c & b & ch & Hc & Hu & Ha & Hcf & L); [unfold running; by rewrite Hpc|by rewrite Hpc|].
  rewrite Hpc in Hu. simpl in Hu. subst b. unfold deref in Hx. simpl in Hx. rewrite Hc, Ha in Hx.
  assert (p_publishOk p = false) as Hok.
  { destruct (ke_window p K) as [_ H]. rewrite Hh, Hpc in H. destruct H as [H _].
    apply not_true_is_false. intros Ht. by destruct (H Ht). }
  destruct K as [K1 K2 K3 K4 K5 K6]. split; simpl; try done.
  - intros _ _. exists c, a, ch. split_and!; [done|done|done|by rewrite Hpc in Hcf|].
    apply (ledger_insert p _ a d x); [done|done|done|by rewrite Hh|done].
  - intros H. by rewrite (K5 H) in Hh.
  - split; simpl; [|done]. rewrite map_size_insert.
    destruct (p_confirms p !! _); unfold id; lia.
Qed.

Lemma signal_kept p p' : kept p -> setupCloseHandler p = Some p' -> kept p'.
Proof.
  intros K E. unfold setupCloseHandler in E. destruct (p_interrupted p); [done|].
  destruct (p_exit p); injection E as <-; [apply goto_kept; [done|done|done|by right]|].
  by apply (handler_goto p); try done; apply K.
Qed.

Lemma producer_step_kept f p p' : kept p -> producer_step f p p' -> kept p'.
Proof.
  intros K Hs. destruct Hs as [e q q' E|c q Hpc He|q Hpc|c c' q Hc Hr Hp].
  - unfold step in E. destruct (running q); [|done]. destruct e.
    + destruct (in_limit q) eqn:Hl; [|done]. exact (publish_kept f x q q' K Hl E).
    + by eapply handler_kept.
    + by eapply handover_kept.
    + by eapply signal_kept.
  - pose proof (ke_early q K) as Hm. rewrite Hpc in Hm. destruct K as [K1 K2 K3 K4 K5 [W1 W2]].
    split; try done; simpl; [intros d [= <-]; by apply established_wf|].
    split; [done|]. simpl. rewrite Hpc in W2. done.
  - apply goto_kept; [done|done|done|by right].
  - destruct (use_step_ok c c' (ke_wf q K c Hc) (peer_use _ _ Hp)) as [W F].
    apply (conn_kept q c); try done. apply peer_settles; [by apply (ke_wf q K)|done].
Qed.

Lemma reaches_kept f p : reaches f p -> kept p.
Proof.
  unfold reaches. intros H. pose proof main_kept as K. induction H as [|p1 p2 p3 H1 _ IH]; [done|].
  by eapply IH, producer_step_kept.
Qed.

(** ** What the producer guarantees *)

(** The confirm handler has not begun to give up waiting. *)
Definition waiting (pc : handler_pc) : bool := match pc with H_wait _ | H_exited => false | _ => true end.

(** C18: The confirm handler keeps at most nine confirmations, and never blocks
    giving the OK to publish, as a warning of the code says.  While the process
    runs, from when it has its channel until the handler is told to exit, every message that was published is acknowledged, or kept by the
    handler under its tag, or on its way there.  (Once it is told to exit, the
    handler forgets what was nacked as well.) *)
Theorem producer_window f p :
  reaches f p ->
  (size (p_confirms p) <= 9)%nat /\
  (p_handler p = H_grant -> p_publishOk p = false) /\
  (running p = true -> early (p_main p) = false -> waiting (p_handler p) = true ->
   exists c a ch, p_conn p = Some c /\ cn_objs c !! a = Some ch /\
     published (ch_confirms ch) = len (dcs (ch_confirms ch)) /\
     forall d x, dcs (ch_confirms ch) !! d = Some x ->
       dc_DeliveryTag x = Z.of_nat d + 1 /\
       (Acked x = true \/ p_confirms p !! dc_DeliveryTag x = Some (a, d) \/ p_main p = P_hand a (Some d))).
Proof.
  intros K%reaches_kept. pose proof (ke_window p K) as [W1 W2]. split_and!; [done| |].
  - intros H. rewrite H in W2. apply W2.
  - intros Hr He Hw. destruct (ke_book p K Hr He) as (c & a & ch & Hc & _ & Ha & _ & [L1 L2 L3 L4]).
    exists c, a, ch. split_and!; [done..|]. intros d x Hx. split; [by apply L2|].
    destruct (L4 d x Hx) as [H|H]; [left|by right]. by destruct (p_handler p).
Qed.
End ProducerFacts.
