(* ===== verification/ProducerRuns.v ===== *)
(** * ProducerRuns: where the producer stalls and where it panics

    Executions of the producer that its window and its exit channel allow. *)

From S2P Require Import Prelude Types Io SpecConnection SpecChannel SpecExchange SpecQueue SpecBasic SpecTx Spec091.
From S2P Require Import Frame Allocator Confirms Delivery Consumers Auth State Channel ChannelFacts ChannelApi.
From S2P Require Import Connection ConnectionFacts Registry Shutdown Follows Safety Executions Peer Settled.
From S2P Require Import Runs Client ClientFacts ClientPush ClientRuns Producer ProducerFacts.

Module ProducerRuns.
Import Producer ProducerFacts.

(** ** Stalling *)

(** The window is full, no OK is on its way, and the handler waits for the
    next confirmation. *)
Definition stalled (p : producer) : Prop :=
  p_handler p = H_receive /\ (8 < size (p_confirms p))%nat /\ p_publishOk p = false /\ p_exit p = false /\
  exists a, p_main p = P_wait a.

(** Anything but a signal. *)
Definition quiet_step (f : flags) (p p' : producer) : Prop := producer_step f p p' /\ p_exit p' = false.

Lemma stalled_step f p p' :
  kept p -> stalled p -> quiet_step f p p' -> stalled p' /\ p_confirms p' = p_confirms p.
Proof.
  intros K (S1 & S2 & S3 & S4 & a & S5) [Hs Hx]. destruct Hs as [e p p' E|c p Hpc _|p Hpc|c c' p Hc Hr Hp].
  - unfold step in E. destruct (running p); [|done]. destruct e as [x|x| |].
    + destruct (in_limit p); [|done]. unfold Producer.publish in E. rewrite S5 in E. destruct x; try done.
      * destruct (p_confirmsDone p) eqn:Hd; [|done]. rewrite (ke_done p K Hd) in S1. done.
      * by rewrite S3 in E.
      * injection E as <-. split; [|done]. split_and!; [done..|by exists a].
    + unfold startConfirmHandler in E. rewrite S1 in E. destruct x; try done. by rewrite S4 in E.
    + unfold handover in E. by rewrite S5 in E.
    + unfold setupCloseHandler in E. destruct (p_interrupted p); [done|]. rewrite S4 in E. by injection E as <-.
  - congruence.
  - congruence.
  - split; [|done]. split_and!; [done..|by exists a].
Qed.

Lemma stalled_for_good f p p' :
  kept p -> stalled p -> rtc (quiet_step f) p p' -> stalled p' /\ p_confirms p' = p_confirms p.
Proof.
  intros K S H. induction H as [|p1 p2 p3 H1 _ IH]; [done|].
  destruct (stalled_step f p1 p2 K S H1) as [S2 E2]. destruct IH as [S3 E3]; [|done|].
  - eapply producer_step_kept; [exact K|apply H1].
  - split; [done|congruence].
Qed.

(** ** Panics *)

Definition sane (pc : publish_pc) : Prop := (forall a, pc <> P_hand a None) /\ pc <> P_panic false.

Lemma publish_sane f x p p' : kept p -> in_limit p = true -> Producer.publish f x p = Some p' -> sane (p_main p').
Proof.
  intros K Hlim E. assert (sane (p_main p) -> p' = p -> sane (p_main p')) as Hsame by (by intros ? ->).
  unfold Producer.publish in E. destruct (p_main p) as [| |a|a|a name|a|a|a|a d|a|a|a| | | |] eqn:Hpc;
    destruct x; try done;
    try (apply calling_inv in E as (c & y & c' & Hc & E & ->); simpl);
    try (destruct (p_confirmsDone p); [|done]; by injection E as <-).
  - by destruct y as [[?|] [?|]].
  - by destruct y.
  - by destruct y as [? [?|]].
  - by destruct y.
  - by destruct y.
  - destruct (p_publishOk p); [|done]. by injection E as <-.
  - apply Hsame; [done|congruence].
  - destruct (ke_book p K) as (c0 & b & ch & Hc0 & Hb & Ha & Hcf & _); [unfold running; by rewrite Hpc|by rewrite Hpc|].
    rewrite Hpc in Hb, Hcf. simpl in Hb, Hcf. subst b. assert (c0 = c) as -> by congruence.
    destruct y as [dc [e|]]; simpl; [done|].
    destruct (publish_confirms a _ _ _ _ _ c ch dc c' Ha (Hcf eq_refl) E) as [-> _]. done.
  - destruct (f_continuous f); [by injection E as <-|]. destruct (p_exit p); by injection E as <-.
  - by injection E as <-.
  - done.
  - done.
Qed.

Lemma handler_main x p p' : startConfirmHandler x p = Some p' -> p_main p' = p_main p.
Proof.
  unfold startConfirmHandler. destruct (p_handler p) as [| | | | | |[] [|k ks]|[|k ks]|]; destruct x; try done;
    repeat match goal with |- context [if ?b then _ else _] => destruct b end; try done; by intros [= <-].
Qed.

Lemma producer_step_sane f p p' : kept p -> sane (p_main p) -> producer_step f p p' -> sane (p_main p').
Proof.
  intros K Hsane Hs. destruct Hs as [e p p' E|c p Hpc _|p Hpc|c c' p Hc Hr Hp]; try done.
  unfold step in E. destruct (running p); [|done]. destruct e as [x|x| |].
  - destruct (in_limit p) eqn:Hl; [|done]. exact (publish_sane f x p p' K Hl E).
  - by rewrite (handler_main x p p' E).
  - unfold handover in E. destruct Hsane as [H1 H2]. destruct (p_main p) as [| | | | | | | |a [d|]| | | | | | |]; try done;
      [|by destruct (H1 a)]. destruct (p_handler p); try done. destruct (deref p (a, d)); [|done]. by injection E as <-.
  - unfold setupCloseHandler in E. destruct (p_interrupted p); [done|]. destruct (p_exit p); by injection E as <-.
Qed.

Lemma reaches_sane f p : reaches f p -> sane (p_main p).
Proof.
  unfold reaches. intros H. pose proof main_kept as K. assert (sane (p_main main)) as S by done.
  induction H as [|p1 p2 p3 H1 _ IH]; [done|]. apply IH; [by eapply producer_step_kept|by eapply producer_step_sane].
Qed.

(** ** Executions *)

Inductive action :=
  | Does (e : event)
  | Dials
  | Acks (id tag : Z).

Definition act (f : flags) (x : action) (p : producer) : option producer :=
  match x with
  | Does e => step f e p
  | Dials => match p_main p with P_dial => Some (set_main P_channel (set_conn opened p)) | _ => None end
  | Acks id tag =>
      match p_conn p with
      | Some c =>
          if running p && acks_published c id tag then
            match demux (ack_frame id tag) c with Ok (_, c') => Some (set_conn c' p) | _ => None end
          else None
      | None => None
      end
  end.

Definition acts (f : flags) : list action -> producer -> option producer := run_all (act f).

Lemma producer_act_sound f x p p' : act f x p = Some p' -> producer_step f p p'.
Proof.
  destruct x as [e| |id tag]; simpl.
  - apply step_event.
  - destruct (p_main p) eqn:Hpc; try done. intros [= <-]. apply step_dial; [done|apply opened_established].
  - destruct (p_conn p) as [c|] eqn:Hc; [|done]. destruct (running p && acks_published c id tag) eqn:H; [|done].
    apply andb_true_iff in H as [Hr [H1 H2]%ack_conforming]. destruct (demux _ c) as [[[] c']| | |] eqn:E; try done.
    intros [= <-]. apply (step_peer f c c' p Hc Hr). by eapply peer_frame.
Qed.

Lemma producer_acts_steps f xs p p' : acts f xs p = Some p' -> rtc (producer_step f) p p'.
Proof. apply run_all_steps. apply producer_act_sound. Qed.

Definition sample (continuous : bool) : flags :=
  MkFlags "test-exchange" "direct" "test-queue" "test-key" [Zbyte 1] continuous.

Definition finish (continuous : bool) (xs : list action) : producer := default main (acts (sample continuous) xs main).

Lemma producer_finish_reached b xs : is_Some (acts (sample b) xs main) -> reaches (sample b) (finish b xs).
Proof. intros [p E]. unfold finish. rewrite E. by eapply producer_acts_steps. Qed.

Definition pub (x : choice) : action := Does (Ev_publish x).
Definition hdl : action := Does (Ev_handler Handler_step).
Definition reply_with (m : message) : action := pub (Returns (from_server m)).

(** [publish] up to its loop. *)
Definition preparing : list action :=
  [Dials; reply_with (M_channelOpenOk (Mk_channelOpenOk "")); reply_with (M_exchangeDeclareOk Mk_exchangeDeclareOk);
   reply_with (M_queueDeclareOk (Mk_queueDeclareOk "test-queue" 0 0)); reply_with (M_queueBindOk Mk_queueBindOk);
   reply_with (M_confirmSelectOk Mk_confirmSelectOk)].

(** The OK is given and taken, a message is published and its confirmation is
    handed over. *)
Definition one_message : list action :=
  [hdl; hdl; hdl; pub Take_publishOk; pub (Returns (FromErrors None)); Does Ev_handover].

(** ... the handler checks [n] confirmations. *)
Definition checking (n : nat) : list action :=
  Does (Ev_handler (Handler_order (Z.of_nat <$> seq 1 n))) :: replicate n hdl ++ [hdl].

Definition round (n : nat) : list action := one_message ++ pub Timer :: checking n.

(** Nine messages are published before the server acknowledges them all. *)
Definition bursting : list action :=
  preparing ++ concat (round <$> seq 1 9) ++ [hdl; hdl] ++ ((fun n => Acks 1 (Z.of_nat n)) <$> seq 1 9).

(** All that the handler keeps is acknowledged. *)
Definition all_acked (p : producer) : bool :=
  forallb (fun kv => match deref p (snd kv) with Some x => Acked x | None => false end) (map_to_list (p_confirms p)).

Lemma all_acked_sound p t d x :
  all_acked p = true -> p_confirms p !! t = Some d -> deref p d = Some x -> Acked x = true.
Proof.
  unfold all_acked. rewrite forallb_forall. intros H Ht Hx. specialize (H (t, d)). simpl in H. rewrite Hx in H.
  apply H, list_elem_of_In. by apply elem_of_map_to_list.
Qed.

(** ** What they show *)

(** The window does not open again.  The handler checks its confirmations
    only after it received one, which needs an OK to publish, which it gives
    only while it keeps fewer than nine: once it keeps nine, no message is
    published any more and none is forgotten, whatever the server
    acknowledges, until a signal arrives.  This happens when the server is
    nine messages behind once, and acknowledges them all. *)
Theorem producer_stalls :
  (forall f p p', reaches f p -> stalled p -> rtc (quiet_step f) p p' ->
     stalled p' /\ p_confirms p' = p_confirms p) /\
  (exists f p, reaches f p /\ stalled p /\
     forall t d x, p_confirms p !! t = Some d -> deref p d = Some x -> Acked x = true).
Proof.
  split.
  - intros f p p' K%reaches_kept. by apply stalled_for_good.
  - exists (sample true), (finish true bursting). split_and!.
    + apply producer_finish_reached. vm_compute. by eexists.
    + split_and!; [by vm_compute|apply Nat.ltb_lt; by vm_compute|by vm_compute|by vm_compute|exists 0%nat; by vm_compute].
    + intros t d x. apply all_acked_sound. by vm_compute.
Qed.

(** The producer panics when a signal arrives once it stops by itself, or
    has stopped: [exitCh] is closed by both, and closing it twice panics.
    Nothing else panics; the handler is never handed a nil confirmation. *)
Theorem producer_panics :
  (exists f p, reaches f p /\ p_main p = P_panic true) /\
  (forall f p b, reaches f p -> p_main p = P_panic b -> b = true).
Proof.
  split.
  - exists (sample false), (finish false (preparing ++ one_message ++ [pub Timer; Does Ev_signal])).
    split; [apply producer_finish_reached; vm_compute; by eexists|by vm_compute].
  - intros f p [] H%reaches_sane E; [done|]. by destruct H.
Qed.

(** The example of the window: one message published and handed over. *)
Lemma producer_window_witness :
  let p := finish true (preparing ++ one_message) in
  (size (p_confirms p) <= 9)%nat /\
  (p_handler p = H_grant -> p_publishOk p = false) /\
  (running p = true -> early (p_main p) = false -> waiting (p_handler p) = true ->
   exists c a ch, p_conn p = Some c /\ cn_objs c !! a = Some ch /\
     published (ch_confirms ch) = len (dcs (ch_confirms ch)) /\
     forall d x, dcs (ch_confirms ch) !! d = Some x ->
       dc_DeliveryTag x = Z.of_nat d + 1 /\
       (Acked x = true \/ p_confirms p !! dc_DeliveryTag x = Some (a, d) \/ p_main p = P_hand a (Some d))).
Proof.
  apply (producer_window (sample true) (finish true (preparing ++ one_message))).
  apply producer_finish_reached. vm_compute. by eexists.
Defined.
End ProducerRuns.
