(* ===== verification/PubSub.v ===== *)
(** * PubSub: publishing and subscribing over sessions (_examples/pubsub/pubsub.go)

    [redial] makes sessions, a connection with a channel each; [publish] takes
    one after the other and hands the lines of its input to them, one at a
    time; [subscribe] passes on what is delivered.  Steps are functions of the
    choices made in them. *)

From S2P Require Import Prelude Types Io SpecConnection SpecChannel SpecQueue SpecBasic SpecTx Spec091 Frame.
From S2P Require Import Allocator Confirms Delivery Consumers Auth State Channel ChannelFacts ChannelApi.
From S2P Require Import Connection ConnectionFacts Registry Shutdown Follows Safety Executions Peer Client.

Module PubSub.

Definition exchange : string := "pubsub".
Definition Fanout : string := "fanout".

(** A [session] of [redial]: its connection, and the address of its
    channel. *)
Definition session : Type := nat * nat.

(** ** Calls on a connection *)

Definition conn_call {A} (i : nat) (m : M A) (cs : list Connection) : option (A * list Connection) :=
  match cs !! i with
  | Some c => match m c with Ok (x, c') => Some (x, <[i := c']> cs) | _ => None end
  | None => None
  end.

(** [session.Close]; sessions that [redial] makes have a connection. *)
Definition session_Close (s : session) (r : reply) (cs : list Connection) : option (option goerror * list Connection) :=
  conn_call (fst s) (Connection_Close r) cs.

(** ** [redial] *)

Inductive redial_pc :=
  | D_offer                       (** [sessions <- sess] *)
  | D_dial
  | D_channel (i : nat)
  | D_exchange (i a : nat)
  | D_deliver (i a : nat)         (** [sess <- session{conn, ch}] *)
  | D_returned                    (** [sessions] is closed *)
  | D_fatal.                      (** [log.Fatalf] *)

(** [amqp.Dial] has its own step below; [ctx] tells that the context is
    done. *)
Definition redial (ctx : bool) (r : reply) (pc : redial_pc) (cs : list Connection)
  : option (redial_pc * list Connection) :=
  match pc with
  | D_offer => if ctx then Some (D_returned, cs) else None
  | D_channel i =>
      match conn_call i (Connection_Channel r) cs with
      | Some (x, cs') => Some (match x with (None, Some a) => D_exchange i a | _ => D_fatal end, cs')
      | None => None
      end
  | D_exchange i a =>
      match conn_call i (ExchangeDeclare a exchange Fanout false true false false [] r) cs with
      | Some (err, cs') => Some (match err with None => D_deliver i a | Some _ => D_fatal end, cs')
      | None => None
      end
  | D_deliver _ _ => if ctx then Some (D_returned, cs) else None
  | _ => None
  end.

(** ** [publish] *)

(** A line of the input.  [scan.Bytes()] is a view of the scanner's buffer,
    which the next [Scan] may overwrite (Lines), so a line is known by its
    number, and what it holds when it is published is a choice. *)
Definition message : Type := nat.

(** [Unsupported]: [close(confirm)]. *)
Inductive confirm_chan := Listening | Unsupported.

Inductive publish_pc :=
  | B_next                                          (** [range sessions] *)
  | B_session                                       (** [pub := <-session] *)
  | B_confirm (s : session)
  | B_listen (s : session)                          (** [pub.NotifyPublish(confirm)] *)
  | B_loop (s : session) (k : confirm_chan) (reading : bool)
  | B_publish (s : session) (k : confirm_chan) (reading : bool) (body : message)
  | B_retry (s : session) (body : message)          (** [pending <- body] after an error *)
  | B_put (s : session) (k : confirm_chan) (body : message)    (** [pending <- body] *)
  | B_close (s : session)
  | B_returned.

(** [b_pending] is the Go channel [pending], with room for one; [b_input] what
    [messages] still gives before it is closed; [b_received] counts what was
    received from [confirm], number 0 among the Go channels of the session's
    channel.  [b_read] and [b_sent] record what was received from [messages]
    and published without an error. *)
Record publisher := MkPublisher {
  b_conns : list Connection;
  b_redial : redial_pc;
  b_pc : publish_pc;
  b_ctx : bool;
  b_pending : option message;
  b_input : list message;
  b_received : nat;
  b_read : list message;
  b_sent : list message
}.

Definition b_goto (pc : publish_pc) (p : publisher) : publisher :=
  MkPublisher (b_conns p) (b_redial p) pc (b_ctx p) (b_pending p) (b_input p) (b_received p) (b_read p) (b_sent p).
Definition b_set_conns (cs : list Connection) (p : publisher) : publisher :=
  MkPublisher cs (b_redial p) (b_pc p) (b_ctx p) (b_pending p) (b_input p) (b_received p) (b_read p) (b_sent p).
Definition b_set_redial (pc : redial_pc) (p : publisher) : publisher :=
  MkPublisher (b_conns p) pc (b_pc p) (b_ctx p) (b_pending p) (b_input p) (b_received p) (b_read p) (b_sent p).
Definition b_set_pending (m : option message) (p : publisher) : publisher :=
  MkPublisher (b_conns p) (b_redial p) (b_pc p) (b_ctx p) m (b_input p) (b_received p) (b_read p) (b_sent p).
Definition b_set_received (n : nat) (p : publisher) : publisher :=
  MkPublisher (b_conns p) (b_redial p) (b_pc p) (b_ctx p) (b_pending p) (b_input p) n (b_read p) (b_sent p).
Definition b_take (m : message) (rest : list message) (p : publisher) : publisher :=
  MkPublisher (b_conns p) (b_redial p) (b_pc p) (b_ctx p) (b_pending p) rest (b_received p) (b_read p ++ [m]) (b_sent p).
Definition b_record (m : message) (p : publisher) : publisher :=
  MkPublisher (b_conns p) (b_redial p) (b_pc p) (b_ctx p) (b_pending p) (b_input p) (b_received p) (b_read p) (b_sent p ++ [m]).
Definition b_cancel (p : publisher) : publisher :=
  MkPublisher (b_conns p) (b_redial p) (b_pc p) true (b_pending p) (b_input p) (b_received p) (b_read p) (b_sent p).

Definition publish_start (lines : list message) : publisher :=
  MkPublisher [] D_offer B_next false None lines 0 [] [].

Definition routingKey : string := "ignored for fanout exchanges, application dependent for other exchanges".

Definition body_publishing (bytes : list byte) : Publishing :=
  MkPublishing [] "" "" 0 0 "" "" "" "" zeroTime "" "" "" bytes.

(** The confirmations of the session's channel. *)
Definition session_confirms (s : session) (cs : list Connection) : option confirms :=
  match cs !! fst s with
  | Some c => match cn_objs c !! snd s with Some ch => Some (ch_confirms ch) | None => None end
  | None => None
  end.

(** What happens: a call returns, a [select] takes one of its cases. *)
Inductive choice :=
  | Goes (r : reply)
  | Holds (bytes : list byte)     (** publishing, with what the line holds *)
  | Take_confirm
  | Take_pending
  | Take_reading.

Definition publish (x : choice) (p : publisher) : option publisher :=
  match b_pc p, x with
  | B_next, Goes _ => match b_redial p with D_returned => Some (b_goto B_returned p) | _ => None end
  | B_confirm s, Goes r =>
      match conn_call (fst s) (Confirm (snd s) false r) (b_conns p) with
      | Some (None, cs) => Some (b_goto (B_listen s) (b_set_conns cs p))
      | Some (Some _, cs) => Some (b_goto (B_loop s Unsupported true) (b_set_conns cs p))
      | None => None
      end
  | B_listen s, Goes _ =>
      match conn_call (fst s) (NotifyPublish (snd s) 0) (b_conns p) with
      | Some (_, cs) => Some (b_goto (B_loop s Listening true) (b_set_conns cs p))
      | None => None
      end
  | B_loop s Unsupported _, Take_confirm => Some (b_goto (B_close s) p)
  | B_loop s Listening _, Take_confirm =>
      match session_confirms s (b_conns p) with
      | Some k =>
          match next_confirmation 0 k (b_received p) with
          | Some (_, true) => Some (b_goto (B_loop s Listening true) (b_set_received (S (b_received p)) p))
          | Some (_, false) => Some (b_goto (B_close s) p)
          | None => None
          end
      | None => None
      end
  | B_loop s k reading, Take_pending =>
      match b_pending p with
      | Some body => Some (b_goto (B_publish s k reading body) (b_set_pending None p))
      | None => None
      end
  | B_loop s k true, Take_reading =>
      match b_input p with
      | body :: rest => Some (b_goto (B_put s k body) (b_take body rest p))
      | [] => Some (b_goto B_returned p)
      end
  | B_publish s k reading body, Holds bytes =>
      match conn_call (fst s) (Publish (snd s) exchange routingKey false false (body_publishing bytes)) (b_conns p) with
      | Some (None, cs) => Some (b_goto (B_loop s k reading) (b_record body (b_set_conns cs p)))
      | Some (Some _, cs) => Some (b_goto (B_retry s body) (b_set_conns cs p))
      | None => None
      end
  | B_retry s body, Goes _ =>
      match b_pending p with
      | None => Some (b_goto (B_close s) (b_set_pending (Some body) p))
      | Some _ => None
      end
  | B_put s k body, Goes _ =>
      match b_pending p with
      | None => Some (b_goto (B_loop s k false) (b_set_pending (Some body) p))
      | Some _ => None
      end
  | B_close s, Goes r =>
      match session_Close s r (b_conns p) with
      | Some (_, cs) => Some (b_goto B_next (b_set_conns cs p))
      | None => None
      end
  | _, _ => None
  end.

(** The goroutines meet: on [sessions], and on [sess]. *)
Definition meet_offer (p : publisher) : option publisher :=
  match b_redial p, b_pc p with
  | D_offer, B_next => Some (b_set_redial D_dial (b_goto B_session p))
  | _, _ => None
  end.
Definition meet_deliver (p : publisher) : option publisher :=
  match b_redial p, b_pc p with
  | D_deliver i a, B_session => Some (b_set_redial D_offer (b_set_received 0 (b_goto (B_confirm (i, a)) p)))
  | _, _ => None
  end.

Definition redials (r : reply) (p : publisher) : option publisher :=
  match redial (b_ctx p) r (b_redial p) (b_conns p) with
  | Some (pc, cs) => Some (b_set_redial pc (b_set_conns cs p))
  | None => None
  end.

(** [log.Fatalf] ends the process; so does [main] once the context is done. *)
Definition b_running (p : publisher) : bool := match b_redial p with D_fatal => false | _ => true end.

(** Fewer than 2^64-2 messages are published on a channel. *)
Definition b_in_limit (p : publisher) : Prop :=
  forall s k reading body c, b_pc p = B_publish s k reading body ->
    session_confirms s (b_conns p) = Some c -> published c + 1 < 2 ^ 64 - 1.

Inductive publish_step : publisher -> publisher -> Prop :=
  | pub_step x p p' : b_running p = true -> b_in_limit p -> publish x p = Some p' -> publish_step p p'
  | pub_redial r p p' : b_running p = true -> redials r p = Some p' -> publish_step p p'
  | pub_dial c p :
      b_redial p = D_dial -> established c ->
      publish_step p (b_set_redial (D_channel (length (b_conns p))) (b_set_conns (b_conns p ++ [c]) p))
  | pub_dial_error p : b_redial p = D_dial -> publish_step p (b_set_redial D_fatal p)
  | pub_offer p p' : meet_offer p = Some p' -> publish_step p p'
  | pub_deliver p p' : meet_deliver p = Some p' -> publish_step p p'
  | pub_cancel p : publish_step p (b_cancel p)
  | pub_peer i c c' p :
      b_conns p !! i = Some c -> b_running p = true -> peer_step c c' ->
      publish_step p (b_set_conns (<[i := c']> (b_conns p)) p).

Definition publish_reaches (lines : list message) (p : publisher) : Prop := rtc publish_step (publish_start lines) p.

(** ** [subscribe] *)

Inductive subscribe_pc :=
  | S_next
  | S_session
  | S_declare (s : session)
  | S_bind (s : session)
  | S_consume (s : session)
  | S_range (s : session) (i n : nat)                (** [range deliveries], [n] received *)
  | S_send (s : session) (i n : nat) (d : Delivery)  (** [messages <- msg.Body] *)
  | S_ack (s : session) (i n : nat) (d : Delivery)
  | S_close (s : session)
  | S_returned.

(** [u_written] and [u_acked] record the deliveries whose body was sent to
    [messages] and those that were acknowledged. *)
Record subscriber := MkSubscriber {
  u_conns : list Connection;
  u_redial : redial_pc;
  u_pc : subscribe_pc;
  u_written : list Delivery;
  u_acked : list Delivery
}.

Definition u_goto (pc : subscribe_pc) (cs : list Connection) (u : subscriber) : subscriber :=
  MkSubscriber cs (u_redial u) pc (u_written u) (u_acked u).
Definition u_write (d : Delivery) (u : subscriber) : subscriber :=
  MkSubscriber (u_conns u) (u_redial u) (u_pc u) (u_written u ++ [d]) (u_acked u).
Definition u_acks (d : Delivery) (u : subscriber) : subscriber :=
  MkSubscriber (u_conns u) (u_redial u) (u_pc u) (u_written u) (u_acked u ++ [d]).

Definition bindingKey : string := "application specific routing key for fancy topologies".

(** What a receive from the deliveries of the goroutine [i] of a channel gives
    after [n] of them: [None] when nothing yet, [Some None] when they are
    closed. *)
Definition deliveries_next (a i n : nat) (c : Connection) : option (option Delivery) :=
  match cn_objs c !! a with
  | Some ch =>
      match c_bufs (ch_consumers ch) !! i with
      | Some b =>
          match b_out b !! n with
          | Some d => Some (Some d)
          | None => match b_phase b with Finished => Some None | _ => None end
          end
      | None => None
      end
  | None => None
  end.

Definition next_delivery (s : session) (i n : nat) (cs : list Connection) : option (option Delivery) :=
  match cs !! fst s with Some c => deliveries_next (snd s) i n c | None => None end.

(** [queue] is [identity()], [fresh] the tag the library makes up. *)
Definition subscribe (queue fresh : string) (r : reply) (u : subscriber) : option subscriber :=
  match u_pc u with
  | S_next => match u_redial u with D_returned => Some (u_goto S_returned (u_conns u) u) | _ => None end
  | S_declare s =>
      match conn_call (fst s) (QueueDeclare (snd s) queue false true true false [] r) (u_conns u) with
      | Some (x, cs) => Some (u_goto (match snd x with None => S_bind s | Some _ => S_returned end) cs u)
      | None => None
      end
  | S_bind s =>
      match conn_call (fst s) (QueueBind (snd s) queue bindingKey exchange false [] r) (u_conns u) with
      | Some (err, cs) => Some (u_goto (match err with None => S_consume s | Some _ => S_returned end) cs u)
      | None => None
      end
  | S_consume s =>
      match conn_call (fst s) (Consume (snd s) queue "" false true false false [] fresh r) (u_conns u) with
      | Some (x, cs) => Some (u_goto (match x with (None, Some i) => S_range s i 0 | _ => S_returned end) cs u)
      | None => None
      end
  | S_range s i n =>
      match next_delivery s i n (u_conns u) with
      | Some (Some d) => Some (u_goto (S_send s i n d) (u_conns u) u)
      | Some None => Some (u_goto (S_close s) (u_conns u) u)
      | None => None
      end
  | S_send s i n d => Some (u_goto (S_ack s i n d) (u_conns u) (u_write d u))
  | S_ack s i n d =>
      match conn_call (fst s) (Channel_Ack (snd s) (d_DeliveryTag d) false) (u_conns u) with
      | Some (_, cs) => Some (u_goto (S_range s i (S n)) cs (u_acks d u))
      | None => None
      end
  | S_close s =>
      match session_Close s r (u_conns u) with
      | Some (_, cs) => Some (u_goto S_next cs u)
      | None => None
      end
  | _ => None
  end.

Definition subscribe_start : subscriber := MkSubscriber [] D_offer S_next [] [].

Definition u_set_redial (pc : redial_pc) (cs : list Connection) (u : subscriber) : subscriber :=
  MkSubscriber cs pc (u_pc u) (u_written u) (u_acked u).

Inductive subscribe_step (queue : string) : subscriber -> subscriber -> Prop :=
  | sub_step fresh r u u' : subscribe queue fresh r u = Some u' -> subscribe_step queue u u'
  | sub_redial ctx r u pc cs :
      redial ctx r (u_redial u) (u_conns u) = Some (pc, cs) -> subscribe_step queue u (u_set_redial pc cs u)
  | sub_dial c u :
      u_redial u = D_dial -> established c ->
      subscribe_step queue u (u_set_redial (D_channel (length (u_conns u))) (u_conns u ++ [c]) u)
  | sub_offer u :
      u_redial u = D_offer -> u_pc u = S_next ->
      subscribe_step queue u (u_set_redial D_dial (u_conns u) (u_goto S_session (u_conns u) u))
  | sub_deliver i a u :
      u_redial u = D_deliver i a -> u_pc u = S_session ->
      subscribe_step queue u (u_set_redial D_offer (u_conns u) (u_goto (S_declare (i, a)) (u_conns u) u))
  | sub_peer i c c' u :
      u_conns u !! i = Some c -> peer_step c c' ->
      subscribe_step queue u (u_goto (u_pc u) (<[i := c']> (u_conns u)) u).

End PubSub.
