(* ===== verification/PubSubFacts.v ===== *)
(** * PubSubFacts: what publishing over sessions keeps, and where it stops

    The lines of the input are published in order and none twice, over any
    number of sessions, and none is left out while the publisher runs, though
    one can be when it returns; the publisher can deadlock with itself on its
    own buffer, and this is the only place where it does. *)

From S2P Require Import Prelude Types Io SpecConnection SpecChannel SpecExchange SpecQueue SpecBasic SpecTx Spec091.
From S2P Require Import Frame Allocator Confirms Delivery Consumers Auth State Channel ChannelFacts ChannelApi.
From S2P Require Import Connection ConnectionFacts Registry Shutdown Follows Safety Executions Peer Client.
From S2P Require Import Runs ClientFacts ClientPush ClientRuns ClientLive PubSub.

Module PubSubFacts.
Import PubSub.

(** ** Order *)

(** What was read and is not published, while [publish] runs; and what was in
    its buffer when it returned. *)
Definition held (p : publisher) : list message :=
  match b_pc p with
  | B_publish _ _ _ m | B_retry _ m => m :: option_list (b_pending p)
  | B_put _ _ m => option_list (b_pending p) ++ [m]
  | B_returned => []
  | _ => option_list (b_pending p)
  end.

Definition lost (p : publisher) : list message :=
  match b_pc p with B_returned => option_list (b_pending p) | _ => [] end.

(** The buffer was emptied. *)
Definition emptied (pc : publish_pc) : bool := match pc with B_publish _ _ _ _ | B_retry _ _ => true | _ => false end.

Record in_order (lines : list message) (p : publisher) : Prop := {
  io_lines : lines = b_read p ++ b_input p;
  io_read : b_read p = b_sent p ++ lost p ++ held p;
  io_empty : emptied (b_pc p) = true -> b_pending p = None
}.

Lemma returned_in_order lines p :
  in_order lines p -> held p = option_list (b_pending p) -> lost p = [] -> in_order lines (b_goto B_returned p).
Proof.
  intros [I1 I2 I3] Hh Hl. split; [done| |done]. rewrite Hh, Hl in I2. unfold held, lost. simpl. by rewrite app_nil_r.
Qed.

Lemma publish_in_order lines x p p' : in_order lines p -> publish x p = Some p' -> in_order lines p'.
Proof.
  intros I E. pose proof (returned_in_order lines p I) as Hr. destruct I as [I1 I2 I3]. unfold publish in E.
  unfold held, lost in I2, Hr.
  destruct (b_pc p) as [| |s|s|s [] rd|s k rd m|s m|s k m|s|] eqn:Hpc; destruct x; try done;
    try (by destruct rd).
  - destruct (b_redial p); try done. injection E as <-. by apply Hr.
  - destruct (conn_call _ _ _) as [[[e|] cs]|]; [| |done]; injection E as <-; by split.
  - destruct (conn_call _ _ _) as [[[] cs]|]; [|done]. injection E as <-. by split.
  - destruct rd; (destruct (session_confirms _ _) as [k|]; [|done]);
      (destruct (next_confirmation _ _ _) as [[y []]|]; [| |done]); injection E as <-; by split.
  - destruct (b_pending p) as [m|] eqn:Hp; [|by destruct rd]. assert (p' = b_goto (B_publish s Listening rd m) (b_set_pending None p)) as ->
      by (destruct rd; by injection E as <-). split; [done|exact I2|done].
  - destruct rd; [|done]. destruct (b_input p) as [|m rest] eqn:Hi; injection E as <-; [by apply Hr|].
    split; [simpl; by rewrite <- app_assoc, I1|simpl; rewrite I2; unfold held; simpl; by rewrite app_assoc|done].
  - destruct rd; injection E as <-; by split.
  - destruct (b_pending p) as [m|] eqn:Hp; [|by destruct rd]. assert (p' = b_goto (B_publish s Unsupported rd m) (b_set_pending None p)) as ->
      by (destruct rd; by injection E as <-). split; [done|exact I2|done].
  - destruct rd; [|done]. destruct (b_input p) as [|m rest] eqn:Hi; injection E as <-; [by apply Hr|].
    split; [simpl; by rewrite <- app_assoc, I1|simpl; rewrite I2; unfold held; simpl; by rewrite app_assoc|done].
  - destruct (conn_call _ _ _) as [[[e|] cs]|]; [| |done]; injection E as <-; split; try done; simpl.
    unfold held. simpl. rewrite (I3 eq_refl) in *. simpl in *. by rewrite app_nil_r.
  - rewrite (I3 eq_refl) in *. injection E as <-. by split.
  - destruct (b_pending p) as [m'|] eqn:Hp; [done|]. injection E as <-. by split.
  - destruct (session_Close _ _ _) as [[y cs]|]; [|done]. injection E as <-. by split.
Qed.

Lemma publish_step_in_order lines p p' : in_order lines p -> publish_step p p' -> in_order lines p'.
Proof.
  intros I Hs. destruct Hs as [x p p' _ _ E|r p p' _ E|c p Hpc _|p Hpc|p p' E|p p' E|p|i c c' p Hi _ _].
  - by eapply publish_in_order.
  - unfold redials in E. destruct (redial _ _ _ _) as [[pc cs]|]; [|done]. injection E as <-. destruct I. by split.
  - destruct I. by split.
  - destruct I. by split.
  - unfold meet_offer in E. destruct (b_redial p); try done. destruct I as [I1 I2 I3]. unfold held, lost in I2.
    destruct (b_pc p); try done. injection E as <-. by split.
  - unfold meet_deliver in E. destruct (b_redial p); try done. destruct I as [I1 I2 I3]. unfold held, lost in I2.
    destruct (b_pc p); try done. injection E as <-. by split.
  - destruct I. by split.
  - destruct I. by split.
Qed.

Lemma reaches_in_order lines p : publish_reaches lines p -> in_order lines p.
Proof.
  unfold publish_reaches. intros H. assert (in_order lines (publish_start lines)) as I by (by split).
  induction H as [|p1 p2 p3 H1 _ IH]; [done|]. by eapply IH, publish_step_in_order.
Qed.

Lemma held_bound lines p : in_order lines p -> (length (lost p) + length (held p) <= 2)%nat.
Proof.
  intros [_ _ I3]. unfold held, lost. destruct (b_pc p); try (by destruct (b_pending p); simpl; lia);
    try (rewrite (I3 eq_refl); simpl; lia).
Qed.

(** ** Sessions *)

Definition known (s : session) (cs : list Connection) : Prop := is_Some (session_confirms s cs).
Definition new_session (s : session) (cs : list Connection) : Prop :=
  exists k, session_confirms s cs = Some k /\ silent 0 k.

Definition dialing (pc : redial_pc) : option nat :=
  match pc with D_channel i | D_exchange i _ | D_deliver i _ => Some i | _ => None end.
Definition made (pc : redial_pc) : option session :=
  match pc with D_exchange i a | D_deliver i a => Some (i, a) | _ => None end.
Definition session_of (pc : publish_pc) : option session :=
  match pc with
  | B_confirm s | B_listen s | B_loop s _ _ | B_publish s _ _ _ | B_retry s _ | B_put s _ _ | B_close s => Some s
  | _ => None
  end.
Definition prepared (pc : publish_pc) : option session :=
  match pc with B_confirm s | B_listen s => Some s | _ => None end.

Record set_up (p : publisher) : Prop := {
  su_wf : forall i c, b_conns p !! i = Some c -> conn_wf c;
  su_dial : forall i, dialing (b_redial p) = Some i ->
    is_Some (b_conns p !! i) /\ forall s, session_of (b_pc p) = Some s -> fst s <> i;
  su_made : forall s, made (b_redial p) = Some s -> new_session s (b_conns p);
  su_prepared : forall s, prepared (b_pc p) = Some s -> new_session s (b_conns p);
  su_known : forall s, session_of (b_pc p) = Some s -> known s (b_conns p)
}.

Lemma new_known s cs : new_session s cs -> known s cs.
Proof. intros (k & E & _). by exists k. Qed.

Lemma known_has s cs : known s cs -> exists c ch, cs !! fst s = Some c /\ cn_objs c !! snd s = Some ch /\
  session_confirms s cs = Some (ch_confirms ch).
Proof.
  unfold known, session_confirms. intros [k E]. destruct (cs !! fst s) as [c|]; [|done].
  destruct (cn_objs c !! snd s) as [ch|] eqn:Ha; [|done]. eauto 10.
Qed.

Lemma known_change cs i c c' s : cs !! i = Some c -> follows c c' -> known s cs -> known s (<[i := c']> cs).
Proof.
  intros Hi F (d & ch & Hd & Ha & _)%known_has. unfold known, session_confirms.
  destruct (decide (i = fst s)) as [->|Hne]; [|by rewrite list_lookup_insert_ne, Hd, Ha by done].
  rewrite list_lookup_insert_eq by (by eapply lookup_lt_Some). assert (d = c) as -> by congruence.
  destruct (fo_objs _ _ F _ _ Ha) as (ch' & -> & _). by eexists.
Qed.

Lemma new_change cs i c c' s :
  cs !! i = Some c -> fst s <> i \/ still (silent_kept 0) c c' -> new_session s cs -> new_session s (<[i := c']> cs).
Proof.
  intros Hi Hs (k & E & Hk). destruct (known_has s cs) as (d & ch & Hd & Ha & E'); [by exists k|].
  assert (k = ch_confirms ch) as -> by congruence. unfold new_session, session_confirms.
  destruct (decide (i = fst s)) as [->|Hne].
  - rewrite list_lookup_insert_eq by (by eapply lookup_lt_Some). assert (d = c) as -> by congruence.
    destruct Hs as [Hs|Hs]; [done|]. destruct (Hs _ _ Ha) as (ch' & -> & Hsil). eexists. split; [done|by apply Hsil].
  - rewrite list_lookup_insert_ne, Hd, Ha by done. by eexists.
Qed.

(** A connection changes, and [publish] and [redial] may go on with the
    sessions they have. *)
Lemma change_set_up p p' i c c' :
  set_up p -> b_conns p !! i = Some c -> conn_wf c' -> follows c c' ->
  b_conns p' = <[i := c']> (b_conns p) ->
  (dialing (b_redial p') = None \/ dialing (b_redial p') = dialing (b_redial p)) ->
  (made (b_redial p') = None \/ made (b_redial p') = made (b_redial p)) ->
  (session_of (b_pc p') = None \/ session_of (b_pc p') = session_of (b_pc p)) ->
  (prepared (b_pc p') = None \/ prepared (b_pc p') = prepared (b_pc p)) ->
  still (silent_kept 0) c c' \/
    prepared (b_pc p') = None /\ (forall s, made (b_redial p) = Some s -> fst s <> i) -> set_up p'.
Proof.
  intros [S1 S2 S3 S4 S5] Hi W F E Hd Hm Hs Hp Hk. split; rewrite E.
  - intros j d. destruct (decide (i = j)) as [<-|Hne].
    + rewrite list_lookup_insert_eq by (by eapply lookup_lt_Some). by intros [= <-].
    + rewrite list_lookup_insert_ne by done. apply S1.
  - intros j Hj. destruct (S2 j) as [H1 H2]; [destruct Hd; congruence|]. split.
    + apply lookup_lt_is_Some. rewrite length_insert. by apply lookup_lt_is_Some.
    + intros s Hs'. apply H2. destruct Hs; congruence.
  - intros s Hs'. apply (new_change _ i c); [done| |apply S3; destruct Hm; congruence].
    destruct Hk as [Hk|[_ Hk]]; [by right|left]. apply Hk. destruct Hm; congruence.
  - intros s Hs'. apply (new_change _ i c); [done| |apply S4; destruct Hp; congruence].
    destruct Hk as [Hk|[Hk _]]; [by right|congruence].
  - intros s Hs'. apply (known_change _ i c); [done|done|]. apply S5. destruct Hs; congruence.
Qed.

(** Nothing but where they are changes. *)
Lemma same_set_up p p' :
  set_up p -> b_conns p' = b_conns p ->
  (dialing (b_redial p') = None \/ dialing (b_redial p') = dialing (b_redial p)) ->
  (made (b_redial p') = None \/ made (b_redial p') = made (b_redial p)) ->
  (session_of (b_pc p') = None \/ session_of (b_pc p') = session_of (b_pc p)) ->
  (prepared (b_pc p') = None \/ prepared (b_pc p') = prepared (b_pc p)) -> set_up p'.
Proof.
  intros [S1 S2 S3 S4 S5] E Hd Hm Hs Hp. split; rewrite E; [done|..].
  - intros j Hj. destruct (S2 j) as [H1 H2]; [destruct Hd; congruence|]. split; [done|]. intros s Hs'. apply H2. destruct Hs; congruence.
  - intros s H. apply S3. destruct Hm; congruence.
  - intros s H. apply S4. destruct Hp; congruence.
  - intros s H. apply S5. destruct Hs; congruence.
Qed.

Lemma conn_call_inv {A} i (m : M A) cs x cs' :
  conn_call i m cs = Some (x, cs') -> exists c c', cs !! i = Some c /\ m c = Ok (x, c') /\ cs' = <[i := c']> cs.
Proof.
  unfold conn_call. destruct (cs !! i) as [c|]; [|done]. destruct (m c) as [[y c']| | |] eqn:E; try done.
  intros [= <- <-]. eauto.
Qed.

(** A call on the session that publishes nothing. *)
Lemma session_call_set_up {A} p p' s k (m : M A) x cs :
  set_up p -> known s (b_conns p) -> conn_call (fst s) m (b_conns p) = Some (x, cs) ->
  (forall ch c, chan_call_fits ch c k) -> confirms_api k = false ->
  (forall c y c', m c = Ok (y, c') -> perform_on (snd s) k c = Ok (tt, c')) ->
  b_conns p' = cs -> b_redial p' = b_redial p ->
  (session_of (b_pc p') = None \/ session_of (b_pc p') = session_of (b_pc p)) ->
  (prepared (b_pc p') = None \/ prepared (b_pc p') = prepared (b_pc p)) -> set_up p'.
Proof.
  intros S (c0 & ch & Hc0 & Ha & _)%known_has (c & c' & Hc & E & ->)%conn_call_inv Hf Hk Hp E1 E2 Hs Hpr.
  assert (c0 = c) as -> by congruence.
  assert (gentle c c') as G.
  { apply (gentle_perform (OnChannel (snd s) k)); [by eapply su_wf|exists ch; split; [done|apply Hf]|simpl; by rewrite Hk|by eapply Hp]. }
  apply (change_set_up p p' (fst s) c c'); try done; rewrite ?E2; [apply G|apply G|by right|by right|left; apply G].
Qed.

Lemma close_set_up p p' s r x cs :
  set_up p -> session_Close s r (b_conns p) = Some (x, cs) -> b_conns p' = cs -> b_redial p' = b_redial p ->
  session_of (b_pc p') = None -> prepared (b_pc p') = None -> set_up p'.
Proof.
  intros S (c & c' & Hc & E & ->)%conn_call_inv E1 E2 Hs Hp.
  pose proof (gentle_perform (Do_ConnectionClose r) c c' (su_wf p S _ c Hc) I eq_refl (ignore_ok _ _ _ _ E)) as G.
  apply (change_set_up p p' (fst s) c c'); try done; rewrite ?E2; [apply G|apply G|by right|by right|by left|by left|left; apply G].
Qed.

Lemma listen_set_up p s x cs :
  set_up p -> b_pc p = B_listen s -> conn_call (fst s) (NotifyPublish (snd s) 0) (b_conns p) = Some (x, cs) ->
  set_up (b_goto (B_loop s Listening true) (b_set_conns cs p)).
Proof.
  intros S Hpc (c & c' & Hc & E & ->)%conn_call_inv.
  destruct (su_prepared p S s) as (k & Ek & Hsil); [by rewrite Hpc|].
  destruct (known_has s (b_conns p)) as (c0 & ch & Hc0 & Ha & Ek'); [by exists k|].
  assert (c0 = c) as -> by congruence. assert (k = ch_confirms ch) as -> by congruence.
  destruct (perform_returns (OnChannel (snd s) (Do_NotifyPublish 0)) c (su_wf p S _ c Hc)) as (c1 & E1 & W & F).
  { exists ch. split; [done|]. destruct Hsil as [H1 H2]. split; [done|]. unfold lclosed. by rewrite H2. }
  assert (c1 = c') as -> by (destruct x; cbn [perform perform_on] in E1; congruence).
  apply (change_set_up p _ (fst s) c c'); try done; [by right|by right|right; by rewrite Hpc|by left|].
  right. split; [done|]. intros s' Hs'. destruct (su_dial p S (fst s')) as [_ H].
  { destruct (b_redial p); try done; by injection Hs' as <-. }
  intros Eq. destruct (H s); [by rewrite Hpc|done].
Qed.

Lemma publishing_set_up p p' s k rd m bytes x cs :
  set_up p -> b_in_limit p -> b_pc p = B_publish s k rd m ->
  conn_call (fst s) (Publish (snd s) exchange routingKey false false (body_publishing bytes)) (b_conns p) = Some (x, cs) ->
  b_conns p' = cs -> b_redial p' = b_redial p -> session_of (b_pc p') = Some s -> prepared (b_pc p') = None -> set_up p'.
Proof.
  intros S Hlim Hpc (c & c' & Hc & E & ->)%conn_call_inv E1 E2 Hs Hp.
  destruct (known_has s (b_conns p)) as (c0 & ch & Hc0 & Ha & Ek'); [apply (su_known p S); by rewrite Hpc|].
  assert (c0 = c) as -> by congruence. apply mbind_inv in E as (y & c1 & Ey & E). unfold mret in E. injection E as _ <-.
  destruct (Publish_spec (snd s) exchange routingKey false false (body_publishing bytes) c ch (su_wf p S _ c Hc) Ha
    (Hlim s k rd m _ Hpc Ek')) as (y' & c2 & ch' & E3 & W & F & _). assert (c2 = c1) as -> by congruence.
  apply (change_set_up p p' (fst s) c c1); try done; rewrite ?E2; [by right|by right|right; by rewrite Hpc|by left|].
  left. by eapply Publish_silent.
Qed.

Lemma publish_set_up x p p' : set_up p -> b_in_limit p -> publish x p = Some p' -> set_up p'.
Proof.
  intros S Hlim E. pose proof (su_known p S) as Hk. unfold publish in E.
  destruct (b_pc p) as [| |s|s|s k rd|s k rd m|s m|s k m|s|] eqn:Hpc; destruct x; try done;
    try (by destruct k, rd).
  - destruct (b_redial p); try done. injection E as <-. by apply (same_set_up p); try done; first [by left|by right].
  - destruct (conn_call _ _ _) as [[[e|] cs]|] eqn:Ec; [| |done]; injection E as <-;
      (eapply (session_call_set_up p _ s (Do_Confirm false r)); [done|by apply Hk|exact Ec|done|done| |done|done|right; by rewrite Hpc|]);
      try (intros; by eapply ignore_ok); [by left|right; by rewrite Hpc].
  - destruct (conn_call _ _ _) as [[[] cs]|] eqn:Ec; [|done]. injection E as <-. by eapply listen_set_up.
  - assert (exists n rd', p' = b_goto (B_loop s k rd') (b_set_received n p) \/ p' = b_goto (B_close s) p) as (n & rd' & H).
    { destruct k, rd; try (injection E as <-; exists 0%nat, true; by right);
        (destruct (session_confirms _ _) as [k|]; [|done]); (destruct (next_confirmation _ _ _) as [[y []]|]; [| |done]);
        injection E as <-; first [eexists _, _; left; reflexivity | exists 0%nat, true; by right]. }
    destruct H as [->| ->]; (apply (same_set_up p); [done|done|by right|by right|right; by rewrite Hpc|by left]).
  - assert (exists m, p' = b_goto (B_publish s k rd m) (b_set_pending None p)) as [m ->].
    { destruct k, rd, (b_pending p); try done; injection E as <-; eauto. }
    apply (same_set_up p); [done|done|by right|by right|right; by rewrite Hpc|by left].
  - destruct rd; [|by destruct k]. assert (p' = b_goto B_returned p \/ exists m r, p' = b_goto (B_put s k m) (b_take m r p)) as [->|(m & r & ->)].
    { destruct k, (b_input p); injection E as <-; eauto. }
    + apply (same_set_up p); [done|done|by right|by right|by left|by left].
    + apply (same_set_up p); [done|done|by right|by right|right; by rewrite Hpc|by left].
  - destruct (conn_call _ _ _) as [[[e|] cs]|] eqn:Ec; [| |done]; injection E as <-; by eapply publishing_set_up.
  - destruct (b_pending p); [done|]. injection E as <-.
    apply (same_set_up p); [done|done|by right|by right|right; by rewrite Hpc|by left].
  - destruct (b_pending p); [done|]. injection E as <-.
    apply (same_set_up p); [done|done|by right|by right|right; by rewrite Hpc|by left].
  - destruct (session_Close _ _ _) as [[y cs]|] eqn:Ec; [|done]. injection E as <-. by eapply close_set_up.
Qed.

(** ** [redial] *)

Lemma redials_set_up r p p' : set_up p -> redials r p = Some p' -> set_up p'.
Proof.
  intros S E. unfold redials in E. destruct (redial _ _ _ _) as [[pc cs]|] eqn:Er; [|done]. injection E as <-.
  unfold redial in Er. destruct (b_redial p) as [| |i|i a|i a| |] eqn:Hpc; try done.
  - destruct (b_ctx p); [|done]. injection Er as <- <-. by apply (same_set_up p); try done; first [by left|by right].
  - destruct (conn_call _ _ _) as [[x cs']|] eqn:Ec; [|done]. injection Er as <- <-.
    apply conn_call_inv in Ec as (c & c' & Hc & E & ->).
    pose proof (gentle_perform (Do_Channel r) c c' (su_wf p S _ c Hc) I eq_refl (ignore_ok _ _ _ _ E)) as G.
    assert (forall pc, made pc = None -> dialing pc = Some i \/ dialing pc = None ->
      set_up (b_set_redial pc (b_set_conns (<[i := c']> (b_conns p)) p))) as Hany.
    { intros pc Hm Hd. apply (change_set_up p _ i c c'); try done; [apply G|apply G| |by left|by right|by right|left; apply G].
      rewrite Hpc. destruct Hd as [Hd|Hd]; [by right|by left]. }
    destruct x as [[e|] [a|]]; try (apply Hany; [done|by right]).
    destruct (Connection_Channel_new r a c c' E) as (_ & ch & Hch & Hk). destruct (Hany (D_channel i)) as [S1 S2 S3 S4 S5]; [done|by left|].
    split; try done. intros s [= <-]. exists (ch_confirms ch). unfold session_confirms. simpl.
    rewrite list_lookup_insert_eq by (by eapply lookup_lt_Some). rewrite Hch, Hk. split; [done|]. split; [apply not_elem_of_nil|done].
  - destruct (conn_call _ _ _) as [[x cs']|] eqn:Ec; [|done]. injection Er as <- <-.
    destruct (su_made p S (i, a)) as (k & Ek & Hsil); [by rewrite Hpc|].
    destruct (known_has (i, a) (b_conns p)) as (c0 & ch & Hc0 & Ha & _); [by exists k|]. simpl in Hc0, Ha.
    apply conn_call_inv in Ec as (c & c' & Hc & E & ->). assert (c0 = c) as -> by congruence.
    assert (gentle c c') as G.
    { apply (gentle_perform (OnChannel a (Do_ExchangeDeclare false exchange Fanout false true false false [] r)));
        [by eapply su_wf|by exists ch|done|by eapply ignore_ok]. }
    apply (change_set_up p _ i c c'); try done; [apply G|apply G| | |by right|by right|left; apply G];
      rewrite Hpc; destruct x; (by left) || (by right).
  - destruct (b_ctx p); [|done]. injection Er as <- <-. by apply (same_set_up p); try done; first [by left|by right].
Qed.

Lemma publish_step_set_up p p' : set_up p -> publish_step p p' -> set_up p'.
Proof.
  intros S Hs. destruct Hs as [x p p' _ Hl E|r p p' _ E|c p Hpc He|p Hpc|p p' E|p p' E|p|i c c' p Hi _ Hp].
  - by eapply publish_set_up.
  - by eapply redials_set_up.
  - assert (forall s, new_session s (b_conns p) -> new_session s (b_conns p ++ [c])) as Hn.
    { intros s (k & Ek & Hk). exists k. split; [|done]. unfold session_confirms in *.
      destruct (b_conns p !! fst s) eqn:Hc; [|done]. by rewrite (lookup_app_l_Some _ _ _ _ Hc). }
    assert (forall s, known s (b_conns p) -> known s (b_conns p ++ [c]) /\ fst s <> length (b_conns p)) as Hk.
    { intros s (d & ch & Hd & Ha & Ek)%known_has. pose proof (lookup_lt_Some _ _ _ Hd). split; [|lia].
      unfold known, session_confirms. rewrite (lookup_app_l_Some _ _ _ _ Hd), Ha. by eexists. }
    destruct S as [S1 S2 S3 S4 S5]. split; simpl; try done.
    + intros i d [Hd|[_ Hd]]%lookup_app_Some; [by eapply S1|].
      destruct (i - length (b_conns p))%nat; simpl in Hd; simplify_eq. by apply established_wf.
    + intros i [= <-]. split; [rewrite list_lookup_middle by done; by eexists|]. intros s Hs. by apply Hk, S5.
    + intros s Hs. by apply Hn, S4.
    + intros s Hs. by apply Hk, S5.
  - apply (same_set_up p); [done|done|by left|by left|by right|by right].
  - unfold meet_offer in E. destruct (b_redial p); try done. destruct (b_pc p); try done. injection E as <-.
    apply (same_set_up p); [done|done|by left|by left|by left|by left].
  - unfold meet_deliver in E. destruct (b_redial p) as [| | | |i a| |] eqn:Hr; try done. destruct (b_pc p) eqn:Hpc; try done.
    injection E as <-. destruct S as [S1 S2 S3 S4 S5]. rewrite Hr in *. split; simpl; try done.
    + intros s [= <-]. apply new_known. by apply S3.
  - apply (same_set_up p); [done|done|by right|by right|by right|by right].
  - pose proof (peer_gentle c c' (su_wf p S i c Hi) Hp) as G.
    apply (change_set_up p _ i c c'); try done; [apply G|apply G|by right|by right|by right|by right|left; apply G].
Qed.

Lemma reaches_set_up lines p : publish_reaches lines p -> set_up p.
Proof.
  unfold publish_reaches. intros H. assert (set_up (publish_start lines)) as S by (split; simpl; try done; by intros [|]).
  induction H as [|p1 p2 p3 H1 _ IH]; [done|]. by eapply IH, publish_step_set_up.
Qed.

(** ** Progress *)

(** [pending <- body] with [pending] full: nobody but [publish] itself
    receives from [pending]. *)
Definition deadlocked (p : publisher) : Prop :=
  exists s k body m, b_pc p = B_put s k body /\ b_pending p = Some m.

(** What [publish] waits for: a session, the end, a confirmation of the
    message it published; or itself. *)
Definition publish_waits (p : publisher) : Prop :=
  match b_pc p with
  | B_next | B_session | B_returned => True
  | B_loop s k reading =>
      k = Listening /\ reading = false /\ b_pending p = None /\
      exists c, session_confirms s (b_conns p) = Some c /\ next_confirmation 0 c (b_received p) = None
  | _ => deadlocked p
  end.

Lemma conn_call_runs {A} p i c k (m : M A) :
  set_up p -> b_conns p !! i = Some c -> call_fits c k ->
  (forall c', perform k c = Ok (tt, c') -> exists x, m c = Ok (x, c')) ->
  exists x cs, conn_call i m (b_conns p) = Some (x, cs).
Proof.
  intros S Hi Hf Hm. destruct (perform_returns k c (su_wf p S i c Hi) Hf) as (c' & E & _).
  destruct (Hm c' E) as [x Ex]. exists x, (<[i := c']> (b_conns p)). unfold conn_call. by rewrite Hi, Ex.
Qed.

Lemma publish_runs p :
  set_up p -> in_order (b_read p ++ b_input p) p -> b_in_limit p -> publish_waits p \/ exists x p', publish x p = Some p'.
Proof.
  intros S [_ _ Hemp] Hlim. pose proof (su_known p S) as Hk. unfold publish_waits, deadlocked.
  destruct (b_pc p) as [| |s|s|s k rd|s k rd m|s m|s k m|s|] eqn:Hpc; try (by left);
    try (destruct (known_has s (b_conns p) (Hk s eq_refl)) as (c & ch & Hc & Ha & Ek)).
  - right. destruct (conn_call_runs p (fst s) c (OnChannel (snd s) (Do_Confirm false (FromErrors None)))
      (Confirm (snd s) false (FromErrors None)) S Hc) as (x & cs & E); [by exists ch|apply ignored|].
    exists (Goes (FromErrors None)). unfold publish. rewrite Hpc, E. destruct x; eauto.
  - right. destruct (su_prepared p S s) as (k & Ek' & Hs1 & Hs2); [by rewrite Hpc|]. assert (k = ch_confirms ch) as -> by congruence.
    destruct (conn_call_runs p (fst s) c (OnChannel (snd s) (Do_NotifyPublish 0)) (NotifyPublish (snd s) 0) S Hc) as (x & cs & E).
    { exists ch. split; [done|]. split; [done|]. unfold lclosed. by rewrite Hs2. }
    { intros c' E. by exists tt. }
    exists (Goes (FromErrors None)). unfold publish. rewrite Hpc, E. destruct x. eauto.
  - destruct k; [|right; exists Take_confirm; unfold publish; rewrite Hpc; destruct rd; eauto].
    destruct (next_confirmation 0 (ch_confirms ch) (b_received p)) as [[y ok]|] eqn:En.
    { right. exists Take_confirm. unfold publish. rewrite Hpc, Ek, En. destruct rd, ok; eauto. }
    destruct rd; [right; exists Take_reading; unfold publish; rewrite Hpc; destruct (b_input p); eauto|].
    destruct (b_pending p) as [m|] eqn:Hp; [right; exists Take_pending; unfold publish; rewrite Hpc, Hp; eauto|].
    left. eauto 10.
  - right. pose proof (Hlim s k rd m _ Hpc Ek) as Hl.
    destruct (Publish_spec (snd s) exchange routingKey false false (body_publishing []) c ch (su_wf p S _ c Hc) Ha Hl)
      as (x & c' & ch' & E & _).
    assert (Publish (snd s) exchange routingKey false false (body_publishing []) c = Ok (snd x, c')) as E'
      by exact (mbind_ok _ _ _ _ _ E).
    exists (Holds []). unfold publish, conn_call. rewrite Hpc, Hc, E'. destruct (snd x); eauto.
  - right. exists (Goes (FromErrors None)). unfold publish. rewrite Hpc, (Hemp eq_refl). eauto.
  - destruct (b_pending p) as [m'|] eqn:Hp; [left; eauto 10|].
    right. exists (Goes (FromErrors None)). unfold publish. rewrite Hpc, Hp. eauto.
  - right. destruct (conn_call_runs p (fst s) c (Do_ConnectionClose (FromErrors None)) (Connection_Close (FromErrors None)) S Hc)
      as (x & cs & E); [done|apply ignored|].
    exists (Goes (FromErrors None)). unfold publish, session_Close. rewrite Hpc, E. eauto.
Qed.

Lemma deadlocked_step p p' :
  deadlocked p -> publish_step p p' -> deadlocked p' /\ b_sent p' = b_sent p /\ b_input p' = b_input p.
Proof.
  intros (s & k & body & m & Hpc & Hp) Hs.
  destruct Hs as [x p p' _ _ E|r p p' _ E|c p _ _|p _|p p' E|p p' E|p|i c c' p _ _ _]; try (split; [by exists s, k, body, m|done]).
  - unfold publish in E. rewrite Hpc, Hp in E. by destruct x.
  - unfold redials in E. destruct (redial _ _ _ _) as [[pc cs]|]; [|done]. injection E as <-. split; [by exists s, k, body, m|done].
  - unfold meet_offer in E. rewrite Hpc in E. by destruct (b_redial p).
  - unfold meet_deliver in E. rewrite Hpc in E. by destruct (b_redial p).
Qed.

Lemma deadlocked_for_good p p' :
  deadlocked p -> rtc publish_step p p' -> deadlocked p' /\ b_sent p' = b_sent p /\ b_input p' = b_input p.
Proof.
  intros D H. induction H as [|p1 p2 p3 H1 _ IH]; [done|]. destruct (deadlocked_step p1 p2 D H1) as (D2 & E1 & E2).
  destruct (IH D2) as (D3 & E3 & E4). split_and!; [done|congruence|congruence].
Qed.

(** ** Executions *)

Inductive action :=
  | Chooses (x : choice)
  | Redials (r : reply)
  | Dials
  | Offers
  | Delivers
  | Nacks (i : nat) (id tag : Z)
  | Gone (i : nat) (e : option Error).

Definition nack_frame (id tag : Z) : frame :=
  F_method (Mk_methodFrame id 0 0 (Some (M_basicNack (Mk_basicNack tag false false)))).

Definition b_limitb (p : publisher) : bool :=
  match b_pc p with
  | B_publish s _ _ _ =>
      match session_confirms s (b_conns p) with Some c => published c + 1 <? 2 ^ 64 - 1 | None => true end
  | _ => true
  end.

Lemma b_limitb_sound p : b_limitb p = true -> b_in_limit p.
Proof. intros H s k rd m c Hpc Hc. unfold b_limitb in H. rewrite Hpc, Hc in H. lia. Qed.

Definition act (x : action) (p : publisher) : option publisher :=
  if b_running p then
    match x with
    | Chooses x => if b_limitb p then publish x p else None
    | Redials r => redials r p
    | Dials =>
        match b_redial p with
        | D_dial => Some (b_set_redial (D_channel (length (b_conns p))) (b_set_conns (b_conns p ++ [opened]) p))
        | _ => None
        end
    | Offers => meet_offer p
    | Delivers => meet_deliver p
    | Nacks i id tag =>
        match b_conns p !! i with
        | Some c =>
            if acks_published c id tag then
              match demux (nack_frame id tag) c with
              | Ok (_, c') => Some (b_set_conns (<[i := c']> (b_conns p)) p)
              | _ => None
              end
            else None
        | None => None
        end
    | Gone i e =>
        match b_conns p !! i with
        | Some c =>
            match Connection_shutdown e c with
            | Ok (_, c') => Some (b_set_conns (<[i := c']> (b_conns p)) p)
            | _ => None
            end
        | None => None
        end
    end
  else None.

Definition acts : list action -> publisher -> option publisher := run_all act.

Lemma nack_conforming c id tag :
  acks_published c id tag = true -> arrival_fits c (nack_frame id tag) /\ conforming c (nack_frame id tag).
Proof.
  unfold acks_published. rewrite !andb_true_iff. intros [[Ht%Z.leb_le Hb%Z.ltb_lt] H]. split.
  - split; [|done]. intros m [= <-]. simpl. lia.
  - intros mf msg multiple x a ch [= <-] [= <-] [= _ <-] Hr Ha. simpl in *. rewrite Hr, Ha in H. lia.
Qed.

Lemma pubsub_act_sound x p p' : act x p = Some p' -> publish_step p p'.
Proof.
  unfold act. destruct (b_running p) eqn:Hr; [|done]. destruct x as [x|r| | | |i id tag|i e].
  - destruct (b_limitb p) eqn:Hl; [|done]. apply pub_step; [done|by apply b_limitb_sound].
  - by apply pub_redial.
  - destruct (b_redial p) eqn:Hpc; try done. intros [= <-]. apply pub_dial; [done|apply opened_established].
  - apply pub_offer.
  - apply pub_deliver.
  - destruct (b_conns p !! i) as [c|] eqn:Hc; [|done]. destruct (acks_published c id tag) eqn:Ha; [|done].
    apply nack_conforming in Ha as [H1 H2]. destruct (demux _ c) as [[[] c']| | |] eqn:E; try done.
    intros [= <-]. eapply pub_peer; [done|done|]. by eapply peer_frame.
  - destruct (b_conns p !! i) as [c|] eqn:Hi; [|done]. destruct (Connection_shutdown e c) as [[[] c']| | |] eqn:E; try done.
    intros [= <-]. eapply pub_peer; [done|done|]. by eapply peer_shutdown.
Qed.

Lemma pubsub_acts_steps xs p p' : acts xs p = Some p' -> rtc publish_step p p'.
Proof. apply run_all_steps. apply pubsub_act_sound. Qed.

Definition finish (lines : list message) (xs : list action) : publisher :=
  default (publish_start []) (acts xs (publish_start lines)).

Lemma pubsub_finish_reached lines xs : is_Some (acts xs (publish_start lines)) -> publish_reaches lines (finish lines xs).
Proof. intros [p E]. unfold finish. rewrite E. by eapply pubsub_acts_steps. Qed.

(** A session is made and set up. *)
Definition beginning : list action :=
  [Offers; Dials; Redials (from_server (M_channelOpenOk (Mk_channelOpenOk "")));
   Redials (from_server (M_exchangeDeclareOk Mk_exchangeDeclareOk)); Delivers;
   Chooses (Goes (from_server (M_confirmSelectOk Mk_confirmSelectOk))); Chooses (Goes (FromErrors None))].

(** The connection is gone when the first line is published; in the next
    session the second line is read before the first is tried again. *)
Definition rereading : list action :=
  beginning ++ [Chooses Take_reading; Chooses (Goes (FromErrors None)); Chooses Take_pending;
    Gone 0 (Some ErrUnexpectedFrame); Chooses (Holds [Zbyte 1]); Chooses (Goes (FromErrors None));
    Chooses (Goes (FromErrors None))] ++ beginning ++ [Chooses Take_reading].

(** The connection is gone when the only line is published, and the next
    session finds the input at its end. *)
Definition ending : list action :=
  beginning ++ [Chooses Take_reading; Chooses (Goes (FromErrors None)); Chooses Take_pending;
    Gone 0 (Some ErrUnexpectedFrame); Chooses (Holds [Zbyte 1]); Chooses (Goes (FromErrors None));
    Chooses (Goes (FromErrors None))] ++ beginning ++ [Chooses Take_reading].

(** The first line is nacked, and the second one read. *)
Definition nacking : list action :=
  beginning ++ [Chooses Take_reading; Chooses (Goes (FromErrors None)); Chooses Take_pending;
    Chooses (Holds [Zbyte 1]); Nacks 0 1 1; Chooses Take_confirm; Chooses Take_reading].

(** ** What [publish] guarantees *)


(** C34: [publish] always goes on unless it waits for a session, or for the
    confirmation of the one message it published, or deadlocks: it can read
    the next line while it keeps one that failed, with room for one only, and
    then neither publishes nor reads any more, whatever happens. *)
Theorem pubsub_deadlock :
  (forall lines p, publish_reaches lines p -> b_in_limit p ->
     publish_waits p \/ exists x p', publish x p = Some p') /\
  (exists p, publish_reaches [0; 1]%nat p /\ deadlocked p /\ b_sent p = []) /\
  (forall p p', deadlocked p -> rtc publish_step p p' ->
     deadlocked p' /\ b_sent p' = b_sent p /\ b_input p' = b_input p).
Proof.
  split_and!.
  - intros lines p Hr. pose proof (reaches_in_order _ _ Hr) as [I1 I2 I3]. apply publish_runs; [by eapply reaches_set_up|by split].
  - exists (finish [0; 1]%nat rereading). split_and!; [apply pubsub_finish_reached; vm_compute; by eexists| |by vm_compute].
    exists (1%nat, 0%nat), Listening, 1%nat, 0%nat. by vm_compute.
  - intros p p'. apply deadlocked_for_good.
Qed.

(** ** [subscribe] *)

Definition passed_on (u : subscriber) : list Delivery := match u_pc u with S_ack _ _ _ d => [d] | _ => [] end.

Lemma subscribe_step_acks queue u u' :
  u_written u = u_acked u ++ passed_on u -> subscribe_step queue u u' -> u_written u' = u_acked u' ++ passed_on u'.
Proof.
  intros I Hs. unfold passed_on in *. destruct Hs as [fresh r u u' E|ctx r u pc cs E|c u _ _|u _ Hpc|i a u _ Hpc|i c c' u _ _];
    try exact I; [|simpl; by rewrite I, Hpc..]. unfold subscribe in E.
  destruct (u_pc u) as [| |s|s|s|s i n|s i n d|s i n d|s|]; try done.
  - destruct (u_redial u); try done. by injection E as <-.
  - destruct (conn_call _ _ _) as [[x cs]|]; [|done]. injection E as <-. simpl. by destruct (snd x).
  - destruct (conn_call _ _ _) as [[[e|] cs]|]; [| |done]; by injection E as <-.
  - destruct (conn_call _ _ _) as [[[[e|] [i|]] cs]|]; [..|done]; by injection E as <-.
  - destruct (next_delivery _ _ _ _) as [[d|]|]; [| |done]; by injection E as <-.
  - injection E as <-. simpl. rewrite I. by rewrite app_nil_r.
  - destruct (conn_call _ _ _) as [[x cs]|]; [|done]. injection E as <-. simpl. by rewrite I, app_nil_r.
  - destruct (session_Close _ _ _) as [[x cs]|]; [|done]. by injection E as <-.
Qed.

(** [subscribe] acknowledges the deliveries it passed on, in their order, each
    once and after passing it on, over all sessions. *)
Lemma subscribe_acks queue u :
  rtc (subscribe_step queue) subscribe_start u -> u_written u = u_acked u ++ passed_on u.
Proof.
  intros H. assert (u_written subscribe_start = u_acked subscribe_start ++ passed_on subscribe_start) as I by done.
  induction H as [|u1 u2 u3 H1 _ IH]; [done|]. by eapply IH, subscribe_step_acks.
Qed.
End PubSubFacts.
