(* ===== verification/ConsumerApp.v ===== *)
(** * ConsumerApp: a consumer that shuts down (_examples/consumer/consumer.go)

    [NewConsumer] sets up a connection, a channel and a consumer, whose
    deliveries [handle] acknowledges until they end, when it sends on the
    unbuffered [done]; [Shutdown] cancels, closes and receives from [done].
    [main] and the goroutine of [SetupCloseHandler] call it. *)

From S2P Require Import Prelude Types Io SpecConnection SpecChannel SpecExchange SpecQueue SpecBasic Spec091.
From S2P Require Import Frame Allocator Confirms Delivery Consumers Auth State Channel ChannelFacts ChannelApi.
From S2P Require Import Connection ConnectionFacts Registry Shutdown Follows Safety Executions Peer.
From S2P Require Import Client PubSub.

Module ConsumerApp.

(** ** State *)

(** The command line; of [*lifetime] it matters whether it is positive. *)
Record flags := MkFlags {
  f_exchange : string;
  f_exchangeType : string;
  f_queue : string;
  f_bindingKey : string;
  f_tag : string;
  f_lifetime : bool;
  f_autoAck : bool
}.

Inductive new_pc :=
  | N_dial
  | N_channel
  | N_exchange (a : nat)
  | N_queue (a : nat)
  | N_bind (a : nat) (name : string)
  | N_consume (a : nat) (name : string).

Inductive shutdown_pc := X_cancel | X_close | X_wait.

Inductive main_pc :=
  | M_new (n : new_pc)                  (** in [NewConsumer] *)
  | M_run (a : nat)                     (** the sleep, or [<-c.done] *)
  | M_shutdown (a : nat) (x : shutdown_pc)
  | M_returned.

(** [handle] feeds from the goroutine [i] of the consumer's channel; [n]
    deliveries are received. *)
Inductive handle_pc :=
  | G_range (a i n : nat)
  | G_ack (a i n : nat) (d : Delivery)
  | G_cleanup                           (** [done <- nil] *)
  | G_returned.

Inductive signal_pc := I_waiting | I_shutdown (x : shutdown_pc).

(** [k_over]: [Fatalf], or [os.Exit]. *)
Record consumer := MkConsumer {
  k_conn : option Connection;
  k_main : main_pc;
  k_handle : option handle_pc;
  k_signal : signal_pc;
  k_over : bool;
  k_handled : list Delivery;
  k_acked : list Delivery
}.

Definition set_main (pc : main_pc) (k : consumer) : consumer :=
  MkConsumer (k_conn k) pc (k_handle k) (k_signal k) (k_over k) (k_handled k) (k_acked k).
Definition set_conn (c : Connection) (k : consumer) : consumer :=
  MkConsumer (Some c) (k_main k) (k_handle k) (k_signal k) (k_over k) (k_handled k) (k_acked k).
Definition set_handle (pc : handle_pc) (k : consumer) : consumer :=
  MkConsumer (k_conn k) (k_main k) (Some pc) (k_signal k) (k_over k) (k_handled k) (k_acked k).
Definition set_signal (pc : signal_pc) (k : consumer) : consumer :=
  MkConsumer (k_conn k) (k_main k) (k_handle k) pc (k_over k) (k_handled k) (k_acked k).
Definition fatal (k : consumer) : consumer :=
  MkConsumer (k_conn k) (k_main k) (k_handle k) (k_signal k) true (k_handled k) (k_acked k).
Definition record_handled (d : Delivery) (k : consumer) : consumer :=
  MkConsumer (k_conn k) (k_main k) (k_handle k) (k_signal k) (k_over k) (k_handled k ++ [d]) (k_acked k).
Definition record_acked (d : Delivery) (k : consumer) : consumer :=
  MkConsumer (k_conn k) (k_main k) (k_handle k) (k_signal k) (k_over k) (k_handled k) (k_acked k ++ [d]).

Definition main : consumer := MkConsumer None (M_new N_dial) None I_waiting false [] [].

Definition running (k : consumer) : bool :=
  negb (k_over k) && match k_main k with M_returned => false | _ => true end.

(** A call of the library. *)
Definition calling {A} (m : M A) (k : consumer) (j : A -> consumer -> consumer) : option consumer :=
  match k_conn k with
  | Some c => match m c with Ok (x, c') => Some (j x (set_conn c' k)) | _ => None end
  | None => None
  end.

Definition or_fatal (n : new_pc) (err : option goerror) (k : consumer) : consumer :=
  match err with None => set_main (M_new n) k | Some _ => fatal k end.

(** ** [NewConsumer], whose error [main] reports with [Fatalf] *)

Definition NewConsumer (f : flags) (fresh : string) (r : reply) (k : consumer) : option consumer :=
  match k_main k with
  | M_new N_channel =>
      calling (Connection_Channel r) k
        (fun x => match x with (None, Some a) => set_main (M_new (N_exchange a)) | _ => fatal end)
  | M_new (N_exchange a) =>
      calling (ExchangeDeclare a (f_exchange f) (f_exchangeType f) true false false false [] r) k (or_fatal (N_queue a))
  | M_new (N_queue a) =>
      calling (QueueDeclare a (f_queue f) true false false false [] r) k
        (fun x => or_fatal (N_bind a (Queue_Name (fst x))) (snd x))
  | M_new (N_bind a name) =>
      calling (QueueBind a name (f_bindingKey f) (f_exchange f) false [] r) k (or_fatal (N_consume a name))
  | M_new (N_consume a name) =>
      calling (Consume a name (f_tag f) (f_autoAck f) false false false [] fresh r) k
        (fun x => match x with
                  | (None, Some i) => fun k => set_main (M_run a) (set_handle (G_range a i 0) k)
                  | _ => fatal
                  end)
  | _ => None
  end.

(** ** [Shutdown], up to the receive *)

(** [None] is an error. *)
Definition Consumer_Shutdown (f : flags) (a : nat) (r : reply) (x : shutdown_pc) (k : consumer)
  : option (option shutdown_pc * consumer) :=
  match k_conn k with
  | Some c =>
      match x with
      | X_cancel =>
          match Channel_Cancel a (f_tag f) true r c with
          | Ok (err, c') => Some (match err with None => Some X_close | Some _ => None end, set_conn c' k)
          | _ => None
          end
      | X_close =>
          match Connection_Close r c with
          | Ok (err, c') => Some (match err with None => Some X_wait | Some _ => None end, set_conn c' k)
          | _ => None
          end
      | X_wait => None
      end
  | None => None
  end.

(** ** [handle] *)

Definition handle (f : flags) (k : consumer) : option consumer :=
  match k_handle k with
  | Some (G_range a i n) =>
      match k_conn k with
      | Some c =>
          match PubSub.deliveries_next a i n c with
          | Some (Some d) =>
              Some (set_handle (if f_autoAck f then G_range a i (S n) else G_ack a i n d) (record_handled d k))
          | Some None => Some (set_handle G_cleanup k)
          | None => None
          end
      | None => None
      end
  | Some (G_ack a i n d) =>
      calling (Delivery_Ack d false) k (fun _ k => set_handle (G_range a i (S n)) (record_acked d k))
  | _ => None
  end.

(** ** [main] and the signal *)

Definition main_shutdown (f : flags) (r : reply) (k : consumer) : option consumer :=
  match k_main k with
  | M_shutdown a x =>
      match Consumer_Shutdown f a r x k with
      | Some (Some x', k') => Some (set_main (M_shutdown a x') k')
      | Some (None, k') => Some (fatal k')
      | None => None
      end
  | _ => None
  end.

(** The sleep ends. *)
Definition main_wakes (f : flags) (k : consumer) : option consumer :=
  match k_main k with
  | M_run a => if f_lifetime f then Some (set_main (M_shutdown a X_cancel) k) else None
  | _ => None
  end.

(** The address of the channel, once there is a [Consumer]. *)
Definition consumer_channel (k : consumer) : option nat :=
  match k_main k with M_run a | M_shutdown a _ => Some a | _ => None end.

Definition SetupCloseHandler (f : flags) (r : reply) (k : consumer) : option consumer :=
  match consumer_channel k with
  | Some a =>
      match k_signal k with
      | I_waiting => Some (set_signal (I_shutdown X_cancel) k)
      | I_shutdown x =>
          match Consumer_Shutdown f a r x k with
          | Some (Some x', k') => Some (set_signal (I_shutdown x') k')
          | Some (None, k') => Some (fatal k')
          | None => None
          end
      end
  | None => None
  end.

(** [done <- nil] meets a receive: of [main] before it shuts down, of its
    [Shutdown], which returns, or of the other one, which exits. *)
Inductive receiver := By_main | By_shutdown | By_signal.

Definition meet_done (f : flags) (x : receiver) (k : consumer) : option consumer :=
  match k_handle k with
  | Some G_cleanup =>
      match x, k_main k, k_signal k with
      | By_main, M_run a, _ =>
          if f_lifetime f then None else Some (set_main (M_shutdown a X_cancel) (set_handle G_returned k))
      | By_shutdown, M_shutdown a X_wait, _ => Some (set_main M_returned (set_handle G_returned k))
      | By_signal, _, I_shutdown X_wait => Some (fatal (set_handle G_returned k))
      | _, _, _ => None
      end
  | _ => None
  end.

(** ** The whole *)

Inductive event :=
  | Ev_new (fresh : string) (r : reply)
  | Ev_wakes
  | Ev_shutdown (r : reply)
  | Ev_handle
  | Ev_signal (r : reply)
  | Ev_done (x : receiver).

Definition step (f : flags) (e : event) (k : consumer) : option consumer :=
  if running k then
    match e with
    | Ev_new fresh r => NewConsumer f fresh r k
    | Ev_wakes => main_wakes f k
    | Ev_shutdown r => main_shutdown f r k
    | Ev_handle => handle f k
    | Ev_signal r => SetupCloseHandler f r k
    | Ev_done x => meet_done f x k
    end
  else None.

(** [step_notify]: the goroutine of [NewConsumer] that logs why the connection
    closed registers its listener. *)
Inductive consumer_step (f : flags) : consumer -> consumer -> Prop :=
  | step_event e k k' : step f e k = Some k' -> consumer_step f k k'
  | step_dial c k :
      k_main k = M_new N_dial -> running k = true -> established c ->
      consumer_step f k (set_main (M_new N_channel) (set_conn c k))
  | step_dial_error k : k_main k = M_new N_dial -> running k = true -> consumer_step f k (fatal k)
  | step_notify l c c' k :
      k_conn k = Some c -> running k = true -> fresh (LClose l) c -> Connection_NotifyClose l c = Ok (tt, c') ->
      consumer_step f k (set_conn c' k)
  | step_peer c c' k :
      k_conn k = Some c -> running k = true -> peer_step c c' -> consumer_step f k (set_conn c' k).

Definition reaches (f : flags) (k : consumer) : Prop := rtc (consumer_step f) main k.

End ConsumerApp.
