(* ===== verification/ConsumerAppFacts.v ===== *)
(** * ConsumerAppFacts: what the consumer acknowledges, and where it hangs *)

From S2P Require Import Prelude Types Io SpecConnection SpecChannel SpecExchange SpecQueue SpecBasic Spec091.
From S2P Require Import Frame Allocator Confirms Delivery Consumers Auth State Channel ChannelFacts ChannelApi.
From S2P Require Import Connection ConnectionFacts Registry Shutdown Follows Safety Executions Peer Settled.
From S2P Require Import Runs Client ClientFacts ClientPush ClientRuns PubSub ConsumerApp.

Module ConsumerAppFacts.
Import ConsumerApp.

(** ** Acknowledging *)

Definition in_hand (k : consumer) : list Delivery :=
  match k_handle k with Some (G_ack _ _ _ d) => [d] | _ => [] end.

Record booked (f : flags) (k : consumer) : Prop := {
  bo_acks : f_autoAck f = false -> k_handled k = k_acked k ++ in_hand k;
  bo_auto : f_autoAck f = true -> k_acked k = [] /\ in_hand k = [];
  bo_new : k_handle k = None -> exists n, k_main k = M_new n;
  bo_started : forall n, k_main k = M_new n -> k_handle k = None;
  bo_returned : k_main k = M_returned -> k_handle k = Some G_returned
}.

Lemma main_booked f : booked f main.
Proof. split; try done. by exists N_dial. Qed.

(** The connection and what [main] is doing change. *)
Lemma booked_same f k k' :
  booked f k -> k_handle k' = k_handle k -> k_handled k' = k_handled k -> k_acked k' = k_acked k ->
  (k_main k' = k_main k \/ (exists n, k_main k = M_new n) /\ (exists n, k_main k' = M_new n) \/
   (exists a x, k_main k = M_run a \/ k_main k = M_shutdown a x) /\ exists a x, k_main k' = M_shutdown a x) -> booked f k'.
Proof.
  intros [B1 B2 B3 B4 B5] E1 E2 E3 Hm. unfold in_hand in *. split; unfold in_hand; rewrite ?E1, ?E2, ?E3; try done.
  - intros H. destruct (B3 H) as [n Hn]. destruct Hm as [->|[(_ & Hm)|((a & x & [Hm|Hm]) & _)]]; [by exists n|done|congruence|congruence].
  - intros n Hn. destruct Hm as [Hm|[([n' Hn'] & _)|(_ & a & x & Hm)]]; [apply (B4 n); congruence|by eapply B4|congruence].
  - intros H. destruct Hm as [Hm|[(_ & n & Hm)|(_ & a & x & Hm)]]; [apply B5; congruence|congruence|congruence].
Qed.

Lemma consumer_calling_inv {A} (m : M A) k j k' :
  calling m k j = Some k' -> exists c x c', k_conn k = Some c /\ m c = Ok (x, c') /\ k' = j x (set_conn c' k).
Proof.
  unfold calling. destruct (k_conn k) as [c|]; [|done]. destruct (m c) as [[x c']| | |] eqn:E; try done.
  intros [= <-]. eauto 10.
Qed.

Lemma Shutdown_same f a r x k y k' :
  Consumer_Shutdown f a r x k = Some (y, k') -> exists c', k' = set_conn c' k.
Proof.
  unfold Consumer_Shutdown. destruct (k_conn k) as [c|]; [|done]. destruct x; [| |done].
  - destruct (Channel_Cancel _ _ _ _ c) as [[err c']| | |]; try done. intros [= _ <-]. eauto.
  - destruct (Connection_Close r c) as [[err c']| | |]; try done. intros [= _ <-]. eauto.
Qed.

Lemma NewConsumer_booked f fresh r k k' : booked f k -> NewConsumer f fresh r k = Some k' -> booked f k'.
Proof.
  intros B E. unfold NewConsumer in E. destruct (k_main k) as [[| |a|a|a name|a name]|a|a x|] eqn:Hpc; try done;
    apply consumer_calling_inv in E as (c & x & c' & Hc & E & ->); pose proof (bo_started f k B _ Hpc) as Hh.
  - destruct x as [[e|] [a|]]; (apply (booked_same f k); [done..|]); try (by left); right; left; split; by eexists.
  - destruct x as [e|]; (apply (booked_same f k); [done..|]); [by left|]; right; left; split; by eexists.
  - destruct x as [q [e|]]; (apply (booked_same f k); [done..|]); [by left|]; right; left; split; by eexists.
  - destruct x as [e|]; (apply (booked_same f k); [done..|]); [by left|]; right; left; split; by eexists.
  - destruct x as [[e|] [i|]]; try (by apply (booked_same f k); [done..|left]).
    destruct B as [B1 B2 B3 B4 B5]. unfold in_hand in *. rewrite Hh in *. by split.
Qed.

Lemma handle_booked f k k' : booked f k -> handle f k = Some k' -> booked f k'.
Proof.
  intros [B1 B2 B3 B4 B5] E. unfold handle in E. unfold in_hand in *.
  assert (forall n, k_main k <> M_new n \/ k_handle k = None) as Hn.
  { intros n. destruct (k_handle k) eqn:Hh; [left|by right]. intros H. by specialize (B4 n H). }
  destruct (k_handle k) as [[a i n|a i n d| |]|] eqn:Hh; try done.
  - destruct (k_conn k) as [c|]; [|done]. destruct (PubSub.deliveries_next a i n c) as [[d|]|]; [| |done]; injection E as <-.
    + destruct (f_autoAck f) eqn:Ha; split; unfold in_hand; simpl; rewrite ?Ha; try done; try (intros m Hm; by destruct (Hn m));
        try (intros H; by specialize (B5 H)); try (intros _; by apply B2).
      intros _. rewrite (B1 eq_refl). by rewrite app_nil_r.
    + split; unfold in_hand; simpl; [exact B1|exact B2|done|intros m Hm; by destruct (Hn m)|intros H; by specialize (B5 H)].
  - apply consumer_calling_inv in E as (c & x & c' & Hc & E & ->). split; unfold in_hand; simpl; try done.
    + intros Ha. by rewrite (B1 Ha), app_nil_r.
    + intros Ha. by destruct (B2 Ha).
    + intros m Hm. by destruct (Hn m).
    + intros H. by specialize (B5 H).
Qed.

Lemma main_shutdown_booked f r k k' : booked f k -> main_shutdown f r k = Some k' -> booked f k'.
Proof.
  intros B E. unfold main_shutdown in E. destruct (k_main k) as [|a|a x|] eqn:Hpc; try done.
  destruct (Consumer_Shutdown f a r x k) as [[[x'|] k1]|] eqn:Es; [| |done]; injection E as <-;
    apply Shutdown_same in Es as [c' ->]; (apply (booked_same f k); [done..|]); [right; right|by left].
  split; [exists a, x; by right|by exists a, x'].
Qed.

Lemma signal_booked f r k k' : booked f k -> SetupCloseHandler f r k = Some k' -> booked f k'.
Proof.
  intros B E. unfold SetupCloseHandler in E. destruct (consumer_channel k) as [a|]; [|done].
  destruct (k_signal k) as [|x]; [injection E as <-; by apply (booked_same f k); try done; left|].
  destruct (Consumer_Shutdown f a r x k) as [[[x'|] k1]|] eqn:Es; [| |done]; injection E as <-;
    apply Shutdown_same in Es as [c' ->]; by apply (booked_same f k); try done; left.
Qed.

Lemma done_booked f x k k' : booked f k -> meet_done f x k = Some k' -> booked f k'.
Proof.
  intros [B1 B2 B3 B4 B5] E. unfold meet_done in E. unfold in_hand in *.
  destruct (k_handle k) as [[a i n|a i n d| |]|] eqn:Hh; try done.
  assert (forall n, k_main k <> M_new n) as Hn by (intros n H; by specialize (B4 n H)).
  destruct x; [destruct (k_main k) as [|a|a x|] eqn:Hpc; try done|destruct (k_main k) as [|a|a x|] eqn:Hpc; try done|].
  - destruct (f_lifetime f); [done|]. injection E as <-. by split.
  - destruct x; try done. injection E as <-. by split.
  - destruct (k_main k) as [n|a|a []|] eqn:Hpc; destruct (k_signal k) as [|[]]; try done; injection E as <-;
      split; try done; simpl; rewrite ?Hpc; try done; intros n' Hn'; by destruct (Hn n').
Qed.

Lemma consumer_step_booked f k k' : booked f k -> consumer_step f k k' -> booked f k'.
Proof.
  intros B Hs. destruct Hs as [e k k' E|c k Hpc _ _|k Hpc _|l c c' k _ _ _ _|c c' k _ _ _].
  - unfold step in E. destruct (running k); [|done]. destruct e as [fr r| |r| |r|x].
    + by eapply NewConsumer_booked.
    + unfold main_wakes in E. destruct (k_main k) as [|a|a x|] eqn:Hpc; try done. destruct (f_lifetime f); [|done].
      injection E as <-. apply (booked_same f k); [done..|]. right; right. split; [exists a, X_cancel; by left|by exists a, X_cancel].
    + by eapply main_shutdown_booked.
    + by eapply handle_booked.
    + by eapply signal_booked.
    + by eapply done_booked.
  - apply (booked_same f k); [done..|]. right; left. split; by eexists.
  - apply (booked_same f k); [done..|by left].
  - apply (booked_same f k); [done..|by left].
  - apply (booked_same f k); [done..|by left].
Qed.

(** ** Where the deliveries come from *)

Definition the_buffer (a i : nat) (c : Connection) : option buffer :=
  match cn_objs c !! a with Some ch => c_bufs (ch_consumers ch) !! i | None => None end.

Lemma the_buffer_follows a i c c' b :
  follows c c' -> the_buffer a i c = Some b -> exists b', the_buffer a i c' = Some b' /\ buffer_follows b b'.
Proof.
  unfold the_buffer. intros F H. destruct (cn_objs c !! a) as [ch|] eqn:Ha; [|done].
  destruct (fo_objs _ _ F _ _ Ha) as (ch' & -> & Fc). by apply (cf_consumers _ _ _ Fc).
Qed.

Lemma deliveries_next_inv a i n c x :
  PubSub.deliveries_next a i n c = Some x -> exists b, the_buffer a i c = Some b /\ b_out b !! n = x /\
    (x = None -> b_phase b = Finished).
Proof.
  unfold PubSub.deliveries_next, the_buffer. destruct (cn_objs c !! a) as [ch|]; [|done].
  destruct (c_bufs (ch_consumers ch) !! i) as [b|]; [|done]. intros H. exists b. split; [done|].
  destruct (b_out b !! n) as [d|]; [by injection H as <-|]. destruct (b_phase b); try done. by injection H as <-.
Qed.

(** What [handle] received is the beginning of what the goroutine of its
    consumer handed over, and all of it once the deliveries ended. *)
Definition fed (g : handle_pc) (handled : list Delivery) (c : Connection) : Prop :=
  match g with
  | G_range a i n => exists b, the_buffer a i c = Some b /\ handled `prefix_of` b_out b /\ length handled = n
  | G_ack a i n _ => exists b, the_buffer a i c = Some b /\ handled `prefix_of` b_out b /\ length handled = S n
  | G_cleanup | G_returned =>
      exists a i b, the_buffer a i c = Some b /\ b_phase b = Finished /\ handled = b_out b
  end.

Lemma fed_follows g handled c c' : follows c c' -> fed g handled c -> fed g handled c'.
Proof.
  intros F. destruct g as [a i n|a i n d| |]; simpl.
  1-2: intros (b & Hb & Hp & Hn); destruct (the_buffer_follows a i c c' b F Hb) as (b' & Hb' & Fb); exists b';
    split_and!; [done|etrans; [exact Hp|apply Fb]|done].
  1-2: intros (a & i & b & Hb & Hf & ->); destruct (the_buffer_follows a i c c' b F Hb) as (b' & Hb' & Fb);
    destruct (bf_finished _ _ Fb Hf) as [Hf' E]; by exists a, i, b'.
Qed.

Definition main_channel (pc : main_pc) : option nat :=
  match pc with
  | M_new (N_exchange a | N_queue a | N_bind a _ | N_consume a _) | M_run a | M_shutdown a _ => Some a
  | _ => None
  end.

Record attached (k : consumer) : Prop := {
  at_wf : forall c, k_conn k = Some c -> conn_wf c;
  at_chan : forall a, main_channel (k_main k) = Some a -> exists c ch, k_conn k = Some c /\ cn_objs c !! a = Some ch;
  at_idle : k_handle k = None -> k_handled k = [];
  at_fed : forall g, k_handle k = Some g -> exists c, k_conn k = Some c /\ fed g (k_handled k) c
}.

Lemma main_attached : attached main.
Proof. by split. Qed.

(** The connection changes, and [main] goes on with its channel. *)
Lemma attached_change k k' c c' :
  attached k -> k_conn k = Some c -> conn_wf c' -> follows c c' -> k_conn k' = Some c' ->
  k_handle k' = k_handle k -> k_handled k' = k_handled k ->
  (main_channel (k_main k') = None \/ main_channel (k_main k') = main_channel (k_main k)) -> attached k'.
Proof.
  intros [A1 A2 A3 A4] Hc W F E Eh Ed Hm. split; rewrite ?E, ?Eh, ?Ed.
  - by intros c1 [= <-].
  - intros a Ha. destruct (A2 a) as (c1 & ch & H1 & Hch); [destruct Hm; congruence|]. assert (c1 = c) as -> by congruence.
    destruct (fo_objs _ _ F _ _ Hch) as (ch' & Hch' & _). by exists c', ch'.
  - done.
  - intros g Hg. destruct (A4 g Hg) as (c1 & H1 & Hf). assert (c1 = c) as -> by congruence. exists c'. split; [done|by eapply fed_follows].
Qed.

Lemma attached_same k k' :
  attached k -> k_conn k' = k_conn k -> k_handle k' = k_handle k -> k_handled k' = k_handled k ->
  (main_channel (k_main k') = None \/ main_channel (k_main k') = main_channel (k_main k)) -> attached k'.
Proof.
  intros [A1 A2 A3 A4] E Eh Ed Hm. split; rewrite ?E, ?Eh, ?Ed; try done.
  intros a Ha. apply A2. destruct Hm; congruence.
Qed.

Lemma perform_follows j c c' :
  conn_wf c -> call_fits c j -> perform j c = Ok (tt, c') -> conn_wf c' /\ follows c c'.
Proof. intros W Hf E. destruct (perform_returns j c W Hf) as (c1 & E1 & H). by replace c' with c1 by congruence. Qed.

Lemma call_follows {A} j (m : M A) c x c' :
  conn_wf c -> call_fits c j -> perform j = ignore m -> m c = Ok (x, c') -> conn_wf c' /\ follows c c'.
Proof. intros W Hf Ep E. apply (perform_follows j); [done|done|]. rewrite Ep. by eapply ignore_ok. Qed.

(** A call on the channel of [main]. *)
Lemma attached_call {A} {m : M A} k a j c x c' :
  attached k -> k_conn k = Some c -> m c = Ok (x, c') -> main_channel (k_main k) = Some a ->
  (forall ch, chan_call_fits ch c j) -> perform_on a j = ignore m -> conn_wf c' /\ follows c c'.
Proof.
  intros At Hc E Ha Hf Ep. destruct (at_chan k At a Ha) as (c1 & ch & H1 & Hch). assert (c1 = c) as -> by congruence.
  apply (call_follows (OnChannel a j) m c x); [by apply (at_wf k At)|by exists ch|done|done].
Qed.

Lemma NewConsumer_attached f fresh r k k' : booked f k -> attached k -> NewConsumer f fresh r k = Some k' -> attached k'.
Proof.
  intros B At E. unfold NewConsumer in E. destruct (k_main k) as [[| |a|a|a name|a name]|a|a x|] eqn:Hpc; try done;
    apply consumer_calling_inv in E as (c & x & c' & Hc & E & ->).
  - destruct (call_follows (Do_Channel r) _ c x c' (at_wf k At c Hc) I eq_refl E) as [W F].
    assert (attached (set_conn c' (fatal k))) as [A1 A2 A3 A4].
    { apply (attached_change k _ c c'); try done. by right. }
    destruct x as [[e|] [a|]]; try done. split; try done. simpl. intros b [= <-].
    destruct (Connection_Channel_new r a c c' E) as (_ & ch & Hch & _). by exists c', ch.
  - destruct (attached_call k a (Do_ExchangeDeclare false (f_exchange f) (f_exchangeType f) true false false false [] r) c x c' At Hc E)
      as [W F]; [by rewrite Hpc|done|done|].
    destruct x as [e|]; apply (attached_change k _ c c'); try done; right; simpl; by rewrite Hpc.
  - destruct (attached_call k a (Do_QueueDeclare false (f_queue f) true false false false [] r) c x c' At Hc E)
      as [W F]; [by rewrite Hpc|done|done|].
    destruct x as [q [e|]]; apply (attached_change k _ c c'); try done; right; simpl; by rewrite Hpc.
  - destruct (attached_call k a (Do_QueueBind name (f_bindingKey f) (f_exchange f) false [] r) c x c' At Hc E)
      as [W F]; [by rewrite Hpc|done|done|].
    destruct x as [e|]; apply (attached_change k _ c c'); try done; right; simpl; by rewrite Hpc.
  - destruct (attached_call k a (Do_Consume name (f_tag f) (f_autoAck f) false false false [] fresh r) c x c' At Hc E)
      as [W F]; [by rewrite Hpc|done|done|].
    assert (attached (set_conn c' (fatal k))) as [A1 A2 A3 A4].
    { apply (attached_change k _ c c'); try done. by right. }
    destruct x as [[e|] [i|]]; try done.
    destruct (Consume_new _ _ _ _ _ _ _ _ _ _ _ _ _ (at_wf k At c Hc) E) as (ch & b & Hch & Hb).
    assert (k_handled k = []) as Hh by (by eapply (at_idle k At), (bo_started f k B)). split; try done.
    + simpl. intros b' [= <-]. by exists c', ch.
    + simpl. intros g [= <-]. exists c'. split; [done|]. exists b. unfold the_buffer. rewrite Hch, Hh.
      split_and!; [done|apply prefix_nil|done].
Qed.

Lemma Delivery_Ack_follows d multiple c x c' :
  conn_wf c -> Delivery_Ack d multiple c = Ok (x, c') -> conn_wf c' /\ follows c c'.
Proof.
  intros W. unfold Delivery_Ack. destruct (d_Acknowledger d) as [a|]; [|by intros [= _ <-]]. intros E.
  assert (exists ch, cn_objs c !! a = Some ch) as [ch Hch].
  { destruct (cn_objs c !! a) as [ch|] eqn:Ha; [by exists ch|]. exfalso.
    unfold Acknowledger_Ack in E. simpl in E. unfold Channel_Ack, Channel_send, Channel_IsClosed, mbind, get_chan in E.
    by rewrite Ha in E. }
  by apply (call_follows (OnChannel a (Do_Ack (d_DeliveryTag d) multiple)) (Channel_Ack a (d_DeliveryTag d) multiple) c x); [|exists ch|..].
Qed.

Lemma handle_attached f k k' : attached k -> handle f k = Some k' -> attached k'.
Proof.
  intros At E. unfold handle in E. pose proof At as [A1 A2 A3 A4].
  destruct (k_handle k) as [[a i n|a i n d| |]|] eqn:Hh; try done; destruct (A4 _ eq_refl) as (c & Hc & Hf).
  - rewrite Hc in E. destruct (PubSub.deliveries_next a i n c) as [x|] eqn:En; [|done].
    apply deliveries_next_inv in En as (b & Hb & Hx & Hfin). destruct Hf as (b0 & Hb0 & Hp & Hn).
    assert (b0 = b) as -> by congruence. destruct x as [d|]; injection E as <-.
    + assert (k_handled k ++ [d] `prefix_of` b_out b) as Hp'.
      { destruct Hp as [rest Hr]. rewrite Hr in Hx |- *. rewrite lookup_app_r, Hn, Nat.sub_diag in Hx by lia.
        destruct rest as [|d' rest]; [done|]. injection Hx as ->. apply prefix_app. by exists rest. }
      split; try done. simpl. intros g [= <-]. exists c. split; [done|].
      destruct (f_autoAck f); exists b; (split_and!; [done|done|rewrite length_app; simpl; lia]).
    + split; try done. simpl. intros g [= <-]. exists c. split; [done|]. exists a, i, b. split_and!; [done|by apply Hfin|].
      destruct Hp as [rest Hr]. rewrite Hr in Hx |- *. apply lookup_ge_None in Hx. rewrite length_app in Hx.
      destruct rest; [by rewrite app_nil_r|simpl in Hx; lia].
  - apply consumer_calling_inv in E as (c1 & x & c' & Hc1 & E & ->). assert (c1 = c) as -> by congruence.
    destruct (Delivery_Ack_follows d false c x c' (A1 c Hc) E) as [W F].
    assert (attached (set_conn c' k)) as [B1 B2 B3 B4].
    { apply (attached_change k _ c c'); try done. by right. }
    split; try done. simpl. intros g [= <-]. exists c'. split; [done|]. by apply (fed_follows (G_range a i (S n)) _ c c' F).
Qed.


Lemma Shutdown_attached f a r x k y k' :
  attached k -> main_channel (k_main k) = Some a -> Consumer_Shutdown f a r x k = Some (y, k') ->
  exists c c', k_conn k = Some c /\ conn_wf c' /\ follows c c' /\ k' = set_conn c' k.
Proof.
  intros At Ha E. unfold Consumer_Shutdown in E. destruct (k_conn k) as [c|] eqn:Hc; [|done]. exists c. destruct x; [| |done].
  - destruct (Channel_Cancel _ _ _ _ c) as [[err c']| | |] eqn:Em; try done. injection E as _ <-.
    destruct (attached_call k a (Do_Cancel (f_tag f) true r) c err c' At Hc Em Ha) as [W F]; [done|done|]. by exists c'.
  - destruct (Connection_Close r c) as [[err c']| | |] eqn:Em; try done. injection E as _ <-.
    destruct (call_follows (Do_ConnectionClose r) _ c err c' (at_wf k At c Hc) I eq_refl Em) as [W F]. by exists c'.
Qed.

Lemma shutdowns_attached f k :
  attached k ->
  (forall r k', main_shutdown f r k = Some k' -> attached k') /\
  (forall r k', SetupCloseHandler f r k = Some k' -> attached k').
Proof.
  intros At. split; intros r k' E.
  - unfold main_shutdown in E. destruct (k_main k) as [|a|a x|] eqn:Hpc; try done.
    destruct (Consumer_Shutdown f a r x k) as [[[x'|] k1]|] eqn:Es; [| |done]; injection E as <-;
      (apply Shutdown_attached in Es as (c & c' & Hc & W & F & ->); [|done|by rewrite Hpc]);
      apply (attached_change k _ c c'); try done; right; simpl; by rewrite Hpc.
  - unfold SetupCloseHandler in E. destruct (consumer_channel k) as [a|] eqn:Ha; [|done].
    assert (main_channel (k_main k) = Some a) as Ha' by (unfold consumer_channel in Ha; by destruct (k_main k)).
    destruct (k_signal k) as [|x]; [injection E as <-; apply (attached_same k); try done; by right|].
    destruct (Consumer_Shutdown f a r x k) as [[[x'|] k1]|] eqn:Es; [| |done]; injection E as <-;
      (apply Shutdown_attached in Es as (c & c' & Hc & W & F & ->); [|done|done]);
      apply (attached_change k _ c c'); try done; by right.
Qed.

Lemma done_attached f x k k' : attached k -> meet_done f x k = Some k' -> attached k'.
Proof.
  intros [A1 A2 A3 A4] E. unfold meet_done in E. destruct (k_handle k) as [[a i n|a i n d| |]|] eqn:Hh; try done.
  assert (k_handle k' = Some G_returned -> k_conn k' = k_conn k -> k_handled k' = k_handled k ->
    main_channel (k_main k') = None \/ main_channel (k_main k') = main_channel (k_main k) -> attached k') as H.
  { intros E1 E2 E3 Hm. split; rewrite ?E1, ?E2, ?E3; try done; [intros a Ha; apply A2; destruct Hm; congruence|].
    intros g [= <-]. by apply (A4 _ eq_refl). }
  destruct x; [destruct (k_main k) as [|a|a x|] eqn:Hpc; try done|destruct (k_main k) as [|a|a x|] eqn:Hpc; try done|].
  - destruct (f_lifetime f); [done|]. injection E as <-. apply H; try done. by right.
  - destruct x; try done. injection E as <-. apply H; try done. by left.
  - destruct (k_main k) as [n|a|a []|] eqn:Hpc; destruct (k_signal k) as [|[]]; try done; injection E as <-;
      apply H; try done; right; simpl; by rewrite Hpc.
Qed.

Lemma consumer_step_attached f k k' : booked f k -> attached k -> consumer_step f k k' -> attached k'.
Proof.
  intros B At Hs. destruct Hs as [e k k' E|c k Hpc _ He|k Hpc _|l c c' k Hc _ Hl E|c c' k Hc _ Hp].
  - unfold step in E. destruct (running k); [|done]. destruct e as [fr r| |r| |r|x].
    + by eapply NewConsumer_attached.
    + unfold main_wakes in E. destruct (k_main k) as [|a|a x|] eqn:Hpc; try done. destruct (f_lifetime f); [|done].
      injection E as <-. apply (attached_same k); try done. right. simpl. by rewrite Hpc.
    + by apply (proj1 (shutdowns_attached f k At) r).
    + by eapply handle_attached.
    + by apply (proj2 (shutdowns_attached f k At) r).
    + by eapply done_attached.
  - pose proof (bo_started f k B _ Hpc) as Hh. destruct At as [A1 A2 A3 A4]. split; simpl; try done.
    + intros c1 [= <-]. by apply established_wf.
    + rewrite Hh. done.
  - apply (attached_same k); try done. by right.
  - destruct (perform_follows (Do_ConnectionNotifyClose l) c c' (at_wf k At c Hc) Hl E) as [W F].
    apply (attached_change k _ c c'); try done. by right.
  - destruct (use_step_ok c c' (at_wf k At c Hc) (peer_use _ _ Hp)) as [W F].
    apply (attached_change k _ c c'); try done. by right.
Qed.

Lemma reaches_booked f k : reaches f k -> booked f k /\ attached k.
Proof.
  unfold reaches. intros H. pose proof (conj (main_booked f) main_attached) as B.
  induction H as [|k1 k2 k3 H1 _ IH]; [done|]. destruct B as [B1 B2].
  apply IH. split; [by eapply consumer_step_booked|by eapply consumer_step_attached].
Qed.

(** C20: What [handle] received is the beginning of what the goroutine of its
    consumer handed over.  Without [auto_ack], [Ack] is called for each of
    these deliveries, once, in their order, before the next is received.  When
    [main] returns [handle] is through, that goroutine has returned, and [Ack]
    was called for all that it handed over. *)
Theorem consumer_acknowledges f k :
  reaches f k -> f_autoAck f = false ->
  k_handled k = k_acked k ++ in_hand k /\
  (forall g, k_handle k = Some g -> exists c, k_conn k = Some c /\ fed g (k_handled k) c) /\
  (k_main k = M_returned -> k_handle k = Some G_returned /\
     exists c a i b, k_conn k = Some c /\ the_buffer a i c = Some b /\ b_phase b = Finished /\ k_acked k = b_out b).
Proof.
  intros [[B1 B2 B3 B4 B5] [A1 A2 A3 A4]]%reaches_booked Ha. split_and!; [by apply B1|done|].
  intros H. pose proof (B5 H) as Hh. split; [done|]. destruct (A4 _ Hh) as (c & Hc & a & i & b & Hb & Hf & E).
  exists c, a, i, b. split_and!; try done. rewrite <- E, (B1 Ha). unfold in_hand. by rewrite Hh, app_nil_r.
Qed.

(** ** Hanging *)

(** [handle] has sent its only value, and [Shutdown] waits for another. *)
Definition hung (k : consumer) : Prop :=
  k_handle k = Some G_returned /\ exists a, k_main k = M_shutdown a X_wait.

Lemma hung_step f k k' : hung k -> consumer_step f k k' -> hung k'.
Proof.
  intros (Hh & a & Hm) Hs. destruct Hs as [e k k' E|c k Hpc _ _|k Hpc _|l c c' k _ _ _ _|c c' k _ _ _];
    try congruence; try (by split; [|exists a]).
  unfold step in E. destruct (running k); [|done]. destruct e as [fr r| |r| |r|x].
  - unfold NewConsumer in E. by rewrite Hm in E.
  - unfold main_wakes in E. by rewrite Hm in E.
  - unfold main_shutdown, Consumer_Shutdown in E. rewrite Hm in E. by destruct (k_conn k).
  - unfold handle in E. by rewrite Hh in E.
  - unfold SetupCloseHandler in E. destruct (consumer_channel k) as [b|]; [|done].
    destruct (k_signal k) as [|x]; [injection E as <-; by split; [|exists a]|].
    destruct (Consumer_Shutdown f b r x k) as [[[x'|] k1]|] eqn:Es; [| |done]; injection E as <-;
      apply Shutdown_same in Es as [c' ->]; by split; [|exists a].
  - unfold meet_done in E. by rewrite Hh in E.
Qed.

Lemma hung_for_good f k k' : hung k -> rtc (consumer_step f) k k' -> hung k'.
Proof. intros H Hr. induction Hr as [|k1 k2 k3 H1 _ IH]; [done|]. by eapply IH, hung_step. Qed.

(** ** Executions *)

(** A frame that confirms nothing and is within the limits. *)
Definition harmless (f : frame) : bool :=
  negb (is_blocking f) &&
  match f with
  | F_method mf =>
      match mf_Method mf with
      | Some m => match confirmation_of m with Some _ => false | None => true end
      | None => true
      end
  | F_header hf => (0 <=? hf_Size hf) && (hf_Size hf <=? maxAlloc)
  | F_body _ => true
  | _ => false
  end.

Lemma harmless_fits c f : harmless f = true -> arrival_fits c f /\ conforming c f.
Proof.
  unfold harmless. intros [Hb%negb_true_iff H]%andb_true_iff. split.
  - split; [|congruence]. destruct f as [|mf|hf|bf|hb]; try done.
    + intros m Em. rewrite Em in H. by destruct m.
    + apply andb_true_iff in H as [H1 H2]. simpl. lia.
  - intros mf msg multiple x a ch -> Em Ex. by rewrite Em, Ex in H.
Qed.

Inductive action :=
  | Does (e : event)
  | Dials
  | Sends (fr : frame)                  (** the server *)
  | Feeds (a i : nat).                  (** the consumer's goroutine takes its first choice *)

Definition act (f : flags) (x : action) (k : consumer) : option consumer :=
  match x with
  | Does e => step f e k
  | Dials =>
      match k_main k, running k with
      | M_new N_dial, true => Some (set_main (M_new N_channel) (set_conn opened k))
      | _, _ => None
      end
  | Sends fr =>
      match k_conn k, running k && harmless fr with
      | Some c, true => match demux fr c with Ok (_, c') => Some (set_conn c' k) | _ => None end
      | _, _ => None
      end
  | Feeds a i =>
      match k_conn k, running k with
      | Some c, true =>
          match cn_objs c !! a with
          | Some ch =>
              match c_bufs (ch_consumers ch) !! i with
              | Some b =>
                  match buffer_choices (c_closed (ch_consumers ch)) b with
                  | b' :: _ => Some (set_conn (set_chan a (with_consumers (set_buffer i b' (ch_consumers ch)) ch) c) k)
                  | [] => None
                  end
              | None => None
              end
          | None => None
          end
      | _, _ => None
      end
  end.

Definition acts (f : flags) : list action -> consumer -> option consumer := run_all (act f).

Lemma consumer_act_sound f x k k' : act f x k = Some k' -> consumer_step f k k'.
Proof.
  destruct x as [e| |fr|a i]; simpl.
  - apply step_event.
  - destruct (k_main k) as [[]| | |] eqn:Hpc; try done. destruct (running k) eqn:Hr; [|done]. intros [= <-].
    apply step_dial; [done|done|apply opened_established].
  - destruct (k_conn k) as [c|] eqn:Hc; [|done]. destruct (running k && harmless fr) eqn:H; [|done].
    apply andb_true_iff in H as [Hr Hf]. destruct (harmless_fits c fr Hf) as [H1 H2].
    destruct (demux fr c) as [[[] c']| | |] eqn:E; try done. intros [= <-]. apply (step_peer f c); [done|done|]. by eapply peer_frame.
  - destruct (k_conn k) as [c|] eqn:Hc; [|done]. destruct (running k) eqn:Hr; [|done].
    destruct (cn_objs c !! a) as [ch|] eqn:Ha; [|done]. destruct (c_bufs (ch_consumers ch) !! i) as [b|] eqn:Hb; [|done].
    destruct (buffer_choices _ b) as [|b' bs] eqn:Eb; [done|]. intros [= <-]. apply (step_peer f c); [done|done|].
    eapply peer_consumer; [done|done|]. unfold buffer_step. rewrite Eb. by left.
Qed.

Lemma consumer_acts_steps f xs p p' : acts f xs p = Some p' -> rtc (consumer_step f) p p'.
Proof. apply run_all_steps. apply consumer_act_sound. Qed.

(** With [-lifetime=0s] unless said otherwise. *)
Definition sample (lifetime : bool) : flags :=
  MkFlags "test-exchange" "direct" "test-queue" "test-key" "simple-consumer" lifetime false.

Definition finish (lifetime : bool) (xs : list action) : consumer := default main (acts (sample lifetime) xs main).

Lemma consumer_finish_reached b xs : is_Some (acts (sample b) xs main) -> reaches (sample b) (finish b xs).
Proof. intros [k E]. unfold finish. rewrite E. by eapply consumer_acts_steps. Qed.

Definition answered (m : message) : action := Does (Ev_new "" (from_server m)).

Definition setting_up : list action :=
  [Dials; answered (M_channelOpenOk (Mk_channelOpenOk "")); answered (M_exchangeDeclareOk Mk_exchangeDeclareOk);
   answered (M_queueDeclareOk (Mk_queueDeclareOk "test-queue" 0 0)); answered (M_queueBindOk Mk_queueBindOk);
   answered (M_basicConsumeOk (Mk_basicConsumeOk "simple-consumer"))].

(** A message is delivered, handled and acknowledged. *)
Definition delivering : list action :=
  [Sends (F_method (Mk_methodFrame 1 0 0 (Some (M_basicDeliver
     (Mk_basicDeliver "simple-consumer" 1 false "test-exchange" "test-key" zeroProperties [])))));
   Sends (F_header (Mk_headerFrame 1 60 0 1 zeroProperties)); Sends (F_body (Mk_bodyFrame 1 [Zbyte 1]));
   Feeds 0 0; Does Ev_handle; Does Ev_handle].

(** The server cancels the consumer, as it does when the queue is deleted;
    the deliveries end, and [handle] with them. *)
Definition cancelling : list action :=
  [Sends (F_method (Mk_methodFrame 1 0 0 (Some (M_basicCancel (Mk_basicCancel "simple-consumer" true)))));
   Feeds 0 0; Does Ev_handle].

Definition shutting : list action :=
  [Does (Ev_shutdown (FromErrors None)); Does (Ev_shutdown (from_server (M_connectionCloseOk Mk_connectionCloseOk)))].

(** ** What they show *)

Lemma consumer_acknowledges_witness :
  let k := finish true (setting_up ++ delivering ++ [Does Ev_wakes] ++ shutting ++
             [Feeds 0 0; Does Ev_handle; Does (Ev_done By_shutdown)]) in
  k_handled k = k_acked k ++ in_hand k /\
  (forall g, k_handle k = Some g -> exists c, k_conn k = Some c /\ fed g (k_handled k) c) /\
  (k_main k = M_returned -> k_handle k = Some G_returned /\
     exists c a i b, k_conn k = Some c /\ the_buffer a i c = Some b /\ b_phase b = Finished /\ k_acked k = b_out b).
Proof.
  apply (consumer_acknowledges (sample true)).
  - apply consumer_finish_reached. vm_compute. by eexists.
  - by vm_compute.
Defined.

(** Running until the consumer is done ends in a hang: [main] receives the
    only value that [handle] sends before it calls [Shutdown], which waits
    for it again.  This happens when the deliveries end without the channel
    being closed, as when the server cancels the consumer; nothing but the
    end of the process on a signal follows. *)
Theorem consumer_hangs :
  (exists f k, reaches f k /\ running k = true /\ k_signal k = I_waiting /\ hung k) /\
  (forall f k k', hung k -> rtc (consumer_step f) k k' -> hung k').
Proof.
  split.
  - exists (sample false),
      (finish false (setting_up ++ delivering ++ cancelling ++ [Does (Ev_done By_main)] ++ shutting)).
    split_and!; [apply consumer_finish_reached; vm_compute; by eexists|by vm_compute|by vm_compute|].
    split; [by vm_compute|exists 0%nat; by vm_compute].
  - intros f k k'. apply hung_for_good.
Qed.
End ConsumerAppFacts.
