(* ===== verification/Gen.v ===== *)
(** * Gen: the generator of spec091.go (spec/gen.go)

    From the XML of the protocol, as [encoding/xml] stores it, to the Go file:
    the structs of the methods, their [id], [wait], [write] and [read], the
    constants and the switch of [parseMethodFrame].  The templates give
    abstract Go statements here, one constructor per line they contain; what
    is the same for every specification (the imports, [getContent] and
    [setContent]) is left out. *)

From S2P Require Import Prelude Types Io GoStrings.

Module Gen.

(** ** The specification *)

Record Field := MkField {
  Field_Name : string;
  Field_Domain : string;
  Field_Type : string;
  Field_Label : string;
  Field_Reserved : bool
}.

Record Method := MkMethod {
  Method_Name : string;
  Method_Synchronous : bool;
  Method_Content : bool;
  Method_Index : string;
  Method_Docs : list string;            (** the [Body] of each *)
  Method_Fields : list Field
}.

Record Class := MkClass { Class_Name : string; Class_Index : string; Class_Methods : list Method }.

Record Domain := MkDomain { Domain_Name : string; Domain_Type : string }.

Record Constant := MkConstant { Constant_Name : string; Constant_Value : Z; Constant_Class : string }.

Record Amqp := MkAmqp { Constants : list Constant; Domains : list Domain; Classes : list Class }.

Definition ErrUnknownType : goerror := TextError "unknown field type in gen".

Definition amqpTypeToNative : list (string * string) :=
  [("bit", "bool"); ("octet", "byte"); ("shortshort", "uint8"); ("short", "uint16"); ("long", "uint32");
   ("longlong", "uint64"); ("timestamp", "time.Time"); ("table", "Table"); ("shortstr", "string");
   ("longstr", "string")].

(** ** Names *)

(** [\w] *)
Definition word (c : ascii) : bool := isdigit c || isupper c || islower c || Ascii.eqb c "_".

(** The matches of [[-_]\w] replaced, from left to right. *)
Fixpoint replace_inner (s : string) : string :=
  match s with
  | String c ((String d r) as t) =>
      if oneof "-_" c && word d then String (upper d) (replace_inner r) else String c (replace_inner t)
  | _ => s
  end.

(** ... of [^\w|[-_]\w], of which the first alternative is preferred. *)
Definition replace_anchored (s : string) : string :=
  match s with
  | String c r => if word c then String (upper c) (replace_inner r) else replace_inner s
  | EmptyString => EmptyString
  end.

Definition export (replace : string -> string) (parts : list string) : string :=
  foldl (fun res part => res +:+ replace part) "" parts.

Definition private (parts : list string) : string := export replace_inner parts.
Definition public (parts : list string) : string := export replace_anchored parts.

(** With at least one part, as in the calls. *)
Definition StructName (first : string) (parts : list string) : string := first +:+ public parts.

(** [strings.Replace(body, "\r", "", -1)] *)
Fixpoint clean (body : string) : string :=
  match body with
  | EmptyString => EmptyString
  | String c r => if code c =? 13 then clean r else String c (clean r)
  end.

Definition FieldName (field : Field) : string :=
  let t := public [Field_Name field] in if Field_Reserved field then ToLower t else t.

(** ** Types *)

(** The loop keeps the domain it looked at last, and that is returned when
    none has the name. *)
Fixpoint Domain_loop (field : Field) (domain : Domain) (rest : list Domain) : Domain :=
  match rest with
  | [] => domain
  | d :: r => if bool_decide (Field_Domain field = Domain_Name d) then d else Domain_loop field d r
  end.

Definition renderer_Domain (root : Amqp) (field : Field) : Domain :=
  Domain_loop field (MkDomain "" "") (Domains root).

(** Its error is always nil. *)
Definition FieldType (root : Amqp) (field : Field) : string :=
  if bool_decide (Field_Type field = "") then Domain_Type (renderer_Domain root field) else Field_Type field.

Definition NativeType (amqpType : string) : outcome string :=
  match list_find (fun kv => fst kv = amqpType) amqpTypeToNative with
  | Some (_, kv) => Ok (snd kv)
  | None => Err ErrUnknownType
  end.

Definition HasType (root : Amqp) (typ : string) (m : Method) : bool :=
  existsb (fun f => bool_decide (FieldType root f = typ)) (Method_Fields m).

Definition HasField (field : string) (m : Method) : bool :=
  existsb (fun f => bool_decide (FieldName f = field)) (Method_Fields m).

(** Of no use to the templates. *)
Definition Tag (d : Domain) : string :=
  let quote := String (char_of 34) "" in
  let label := "`" in
  let label := label +:+ "domain:" +:+ quote +:+ Domain_Name d +:+ quote in
  let label :=
    if bool_decide (Domain_Type d = "") then label
    else label +:+ ",type:" +:+ quote +:+ Domain_Type d +:+ quote in
  label +:+ "`".

(** ** Constants *)

Definition IsError (c : Constant) : bool :=
  match Index (Constant_Class c) "error" with Some _ => true | None => false end.

Definition IsSoftError (c : Constant) : bool := bool_decide (Constant_Class c = "soft-error").

(** ** Groups of fields *)

Record fieldset := MkFieldset { AmqpType : string; NativeType_ : string; Fields : list Field }.

Definition add_fields (fs : list Field) (s : fieldset) : fieldset :=
  MkFieldset (AmqpType s) (NativeType_ s) (Fields s ++ fs).

(** [f = append(f, cur)], one group per field. *)
Fixpoint each_field (root : Amqp) (fields : list Field) (f : list fieldset) : outcome (list fieldset) :=
  match fields with
  | [] => Ok f
  | field :: r =>
      let t := FieldType root field in
      let! native := NativeType t in
      each_field root r (f ++ [MkFieldset t native [field]])
  end.

(** [for j < len(f)], over the values of [j] that are left; an index out of
    range panics. *)
Fixpoint merge (js : list nat) (i : nat) (f : list fieldset) : outcome (list fieldset) :=
  match js with
  | [] => Ok (take (S i) f)
  | j :: r =>
      match f !! i, f !! j with
      | Some fi, Some fj =>
          if bool_decide (AmqpType fi = AmqpType fj) then merge r i (<[i := add_fields (Fields fj) fi]> f)
          else if bool_decide (S i < length f)%nat then merge r (S i) (<[S i := fj]> f) else Panicked
      | _, _ => Panicked
      end
  end.

Definition Fieldsets (root : Amqp) (fields : list Field) : outcome (list fieldset) :=
  match fields with
  | [] => Ok []
  | _ => let! f := each_field root fields [] in merge (seq 1 (length f - 1)) 0 f
  end.

(** ** Statements *)

Inductive enc :=
  | E_or (field : string) (off : nat)   (** [if msg.F { bits |= 1 << off }] *)
  | E_bits                              (** [binary.Write(w, binary.BigEndian, bits)] *)
  | E_write (field : string)            (** [binary.Write(w, binary.BigEndian, msg.F)] *)
  | E_timestamp (field : string)        (** [writeTimestamp(w, msg.F)] *)
  | E_shortstr (field : string)
  | E_longstr (field : string)
  | E_table (field : string).

Inductive dec :=
  | D_bits                              (** [binary.Read(r, binary.BigEndian, &bits)] *)
  | D_and (field : string) (off : nat)  (** [msg.F = (bits & (1 << off) > 0)] *)
  | D_read (field : string)             (** [binary.Read(r, binary.BigEndian, &msg.F)] *)
  | D_timestamp (field : string)
  | D_shortstr (field : string)
  | D_longstr (field : string)
  | D_table (field : string).

(** The templates that are defined, by the type in their name. *)
Definition enc_template (t : string) : option (list string -> list enc) :=
  if bool_decide (t = "bit") then Some (fun fs => zip_with E_or fs (seq 0 (length fs)) ++ [E_bits])
  else if bool_decide (t = "octet") then Some (fmap E_write)
  else if bool_decide (t = "shortshort") then Some (fmap E_write)
  else if bool_decide (t = "short") then Some (fmap E_write)
  else if bool_decide (t = "long") then Some (fmap E_write)
  else if bool_decide (t = "longlong") then Some (fmap E_write)
  else if bool_decide (t = "timestamp") then Some (fmap E_timestamp)
  else if bool_decide (t = "shortstr") then Some (fmap E_shortstr)
  else if bool_decide (t = "longstr") then Some (fmap E_longstr)
  else if bool_decide (t = "table") then Some (fmap E_table)
  else None.

Definition dec_template (t : string) : option (list string -> list dec) :=
  if bool_decide (t = "bit") then Some (fun fs => D_bits :: zip_with D_and fs (seq 0 (length fs)))
  else if bool_decide (t = "octet") then Some (fmap D_read)
  else if bool_decide (t = "shortshort") then Some (fmap D_read)
  else if bool_decide (t = "short") then Some (fmap D_read)
  else if bool_decide (t = "long") then Some (fmap D_read)
  else if bool_decide (t = "longlong") then Some (fmap D_read)
  else if bool_decide (t = "timestamp") then Some (fmap D_timestamp)
  else if bool_decide (t = "shortstr") then Some (fmap D_shortstr)
  else if bool_decide (t = "longstr") then Some (fmap D_longstr)
  else if bool_decide (t = "table") then Some (fmap D_table)
  else None.

Fixpoint Partial {A} (lookup : string -> option (list string -> list A)) (prefix : string) (fields : list fieldset)
  : outcome (list A) :=
  match fields with
  | [] => Ok []
  | set :: r =>
      match lookup (AmqpType set) with
      | None => Err (TextError ("Missing template: " +:+ prefix +:+ AmqpType set))
      | Some t => let! code := Partial lookup prefix r in Ok (t (FieldName <$> Fields set) ++ code)
      end
  end.

(** ** The generated file *)

(** The declarations of a method.  [g_wait]: [return sync], and whether
    [&& !msg.NoWait] follows; the functions with whether they declare
    [bits]. *)
Record go_method := MkGoMethod {
  g_docs : list string;
  g_struct : string;
  g_fields : list (string * string);    (** name and type; not the label, a comment *)
  g_content : bool;                     (** fields [Properties] and [Body], and their methods *)
  g_id : string * string;
  g_wait : bool * bool;
  g_write : bool * list enc;
  g_read : bool * list dec
}.

Fixpoint struct_fields (root : Amqp) (fields : list Field) : outcome (list (string * string)) :=
  match fields with
  | [] => Ok []
  | f :: r =>
      let! t := NativeType (FieldType root f) in
      let! rest := struct_fields root r in
      Ok ((FieldName f, t) :: rest)
  end.

Definition method_template (root : Amqp) (class : Class) (m : Method) : outcome go_method :=
  let! fields := struct_fields root (Method_Fields m) in
  let! sets := Fieldsets root (Method_Fields m) in
  let! write := Partial enc_template "enc-" sets in
  let! read := Partial dec_template "dec-" sets in
  Ok {| g_docs := clean <$> Method_Docs m;
        g_struct := StructName (Class_Name class) [Method_Name m];
        g_fields := fields;
        g_content := Method_Content m;
        g_id := (Class_Index class, Method_Index m);
        g_wait := (Method_Synchronous m, HasField "NoWait" m);
        g_write := (HasType root "bit" m, write);
        g_read := (HasType root "bit" m, read) |}.

(** [{{range ...}}] *)
Fixpoint each {A B} (f : A -> outcome B) (xs : list A) : outcome (list B) :=
  match xs with
  | [] => Ok []
  | x :: r => let! y := f x in let! ys := each f r in Ok (y :: ys)
  end.

(** [go_switch]: the cases of [parseMethodFrame], and in each those of its
    methods with the struct that is read. *)
Record go_package := MkGoPackage {
  go_constants : list (string * Z);
  go_soft : list Z;                     (** the cases of [isSoftExceptionCode] *)
  go_methods : list go_method;
  go_switch : list (string * list (string * string))
}.

Definition constant_template (c : Constant) : string * Z :=
  (if IsError c then public [Constant_Name c] else private [Constant_Name c], Constant_Value c).

Definition switch_template (class : Class) : string * list (string * string) :=
  (Class_Index class, (fun m => (Method_Index m, StructName (Class_Name class) [Method_Name m])) <$> Class_Methods class).

Definition packageTemplate (root : Amqp) : outcome go_package :=
  let! methods := each (fun class => each (method_template root class) (Class_Methods class)) (Classes root) in
  Ok {| go_constants := constant_template <$> Constants root;
        go_soft := Constant_Value <$> List.filter IsSoftError (Constants root);
        go_methods := concat methods;
        go_switch := switch_template <$> Classes root |}.

End Gen.
