(* ===== verification/GenSpec.v ===== *)
(** * GenSpec: the specification that spec091.go is generated from

    The elements of spec/amqp0-9-1.stripped.extended.xml that [encoding/xml]
    stores, in their order.  A [field] element outside a method is not one of
    [Class]. *)

From S2P Require Import Prelude Gen.

Module GenSpec.
Import Gen.

Definition constants : list Constant :=
  [MkConstant "frame-method" 1 "";
   MkConstant "frame-header" 2 "";
   MkConstant "frame-body" 3 "";
   MkConstant "frame-heartbeat" 8 "";
   MkConstant "frame-min-size" 4096 "";
   MkConstant "frame-end" 206 "";
   MkConstant "reply-success" 200 "";
   MkConstant "content-too-large" 311 "soft-error";
   MkConstant "no-route" 312 "soft-error";
   MkConstant "no-consumers" 313 "soft-error";
   MkConstant "connection-forced" 320 "hard-error";
   MkConstant "invalid-path" 402 "hard-error";
   MkConstant "access-refused" 403 "soft-error";
   MkConstant "not-found" 404 "soft-error";
   MkConstant "resource-locked" 405 "soft-error";
   MkConstant "precondition-failed" 406 "soft-error";
   MkConstant "frame-error" 501 "hard-error";
   MkConstant "syntax-error" 502 "hard-error";
   MkConstant "command-invalid" 503 "hard-error";
   MkConstant "channel-error" 504 "hard-error";
   MkConstant "unexpected-frame" 505 "hard-error";
   MkConstant "resource-error" 506 "hard-error";
   MkConstant "not-allowed" 530 "hard-error";
   MkConstant "not-implemented" 540 "hard-error";
   MkConstant "internal-error" 541 "hard-error"].

Definition domains : list Domain :=
  [MkDomain "class-id" "short";
   MkDomain "consumer-tag" "shortstr";
   MkDomain "delivery-tag" "longlong";
   MkDomain "exchange-name" "shortstr";
   MkDomain "method-id" "short";
   MkDomain "no-ack" "bit";
   MkDomain "no-local" "bit";
   MkDomain "no-wait" "bit";
   MkDomain "path" "shortstr";
   MkDomain "peer-properties" "table";
   MkDomain "queue-name" "shortstr";
   MkDomain "redelivered" "bit";
   MkDomain "message-count" "long";
   MkDomain "reply-code" "short";
   MkDomain "reply-text" "shortstr";
   MkDomain "bit" "bit";
   MkDomain "octet" "octet";
   MkDomain "short" "short";
   MkDomain "long" "long";
   MkDomain "longlong" "longlong";
   MkDomain "shortstr" "shortstr";
   MkDomain "longstr" "longstr";
   MkDomain "timestamp" "timestamp";
   MkDomain "table" "table"].

(** [<field name domain/>] and [<field name type reserved/>] *)
Definition of_domain (name domain : string) : Field := MkField name domain "" "" false.
Definition of_type (reserved : bool) (name type : string) : Field := MkField name "" type "" reserved.

Definition connection_class : Class :=
  MkClass "connection" "10"
    [MkMethod "start" true false "10" [] [of_domain "version-major" "octet"; of_domain "version-minor" "octet";
      of_domain "server-properties" "peer-properties"; of_domain "mechanisms" "longstr";
      of_domain "locales" "longstr"];
     MkMethod "start-ok" true false "11" [] [of_domain "client-properties" "peer-properties"; of_domain "mechanism" "shortstr";
      of_domain "response" "longstr"; of_domain "locale" "shortstr"];
     MkMethod "secure" true false "20" [] [of_domain "challenge" "longstr"];
     MkMethod "secure-ok" true false "21" [] [of_domain "response" "longstr"];
     MkMethod "tune" true false "30" [] [of_domain "channel-max" "short"; of_domain "frame-max" "long";
      of_domain "heartbeat" "short"];
     MkMethod "tune-ok" true false "31" [] [of_domain "channel-max" "short"; of_domain "frame-max" "long";
      of_domain "heartbeat" "short"];
     MkMethod "open" true false "40" [] [of_domain "virtual-host" "path"; of_type true "reserved-1" "shortstr";
      of_type true "reserved-2" "bit"];
     MkMethod "open-ok" true false "41" [] [of_type true "reserved-1" "shortstr"];
     MkMethod "close" true false "50" [] [of_domain "reply-code" "reply-code"; of_domain "reply-text" "reply-text";
      of_domain "class-id" "class-id"; of_domain "method-id" "method-id"];
     MkMethod "close-ok" true false "51" [] [];
     MkMethod "blocked" false false "60" [] [of_domain "reason" "shortstr"];
     MkMethod "unblocked" false false "61" [] [];
     MkMethod "update-secret" true false "70" [] [of_domain "new-secret" "longstr"; of_domain "reason" "shortstr"];
     MkMethod "update-secret-ok" true false "71" [] []].

Definition channel_class : Class :=
  MkClass "channel" "20"
    [MkMethod "open" true false "10" [] [of_type true "reserved-1" "shortstr"];
     MkMethod "open-ok" true false "11" [] [of_type true "reserved-1" "longstr"];
     MkMethod "flow" true false "20" [] [of_domain "active" "bit"];
     MkMethod "flow-ok" false false "21" [] [of_domain "active" "bit"];
     MkMethod "close" true false "40" [] [of_domain "reply-code" "reply-code"; of_domain "reply-text" "reply-text";
      of_domain "class-id" "class-id"; of_domain "method-id" "method-id"];
     MkMethod "close-ok" true false "41" [] []].

Definition exchange_class : Class :=
  MkClass "exchange" "40"
    [MkMethod "declare" true false "10" [] [of_type true "reserved-1" "short"; of_domain "exchange" "exchange-name";
      of_domain "type" "shortstr"; of_domain "passive" "bit";
      of_domain "durable" "bit"; of_domain "auto-delete" "bit";
      of_domain "internal" "bit"; of_domain "no-wait" "no-wait";
      of_domain "arguments" "table"];
     MkMethod "declare-ok" true false "11" [] [];
     MkMethod "delete" true false "20" [] [of_type true "reserved-1" "short"; of_domain "exchange" "exchange-name";
      of_domain "if-unused" "bit"; of_domain "no-wait" "no-wait"];
     MkMethod "delete-ok" true false "21" [] [];
     MkMethod "bind" true false "30" [] [of_type true "reserved-1" "short"; of_domain "destination" "exchange-name";
      of_domain "source" "exchange-name"; of_domain "routing-key" "shortstr";
      of_domain "no-wait" "no-wait"; of_domain "arguments" "table"];
     MkMethod "bind-ok" true false "31" [] [];
     MkMethod "unbind" true false "40" [] [of_type true "reserved-1" "short"; of_domain "destination" "exchange-name";
      of_domain "source" "exchange-name"; of_domain "routing-key" "shortstr";
      of_domain "no-wait" "no-wait"; of_domain "arguments" "table"];
     MkMethod "unbind-ok" true false "51" [] []].

Definition queue_class : Class :=
  MkClass "queue" "50"
    [MkMethod "declare" true false "10" [] [of_type true "reserved-1" "short"; of_domain "queue" "queue-name";
      of_domain "passive" "bit"; of_domain "durable" "bit";
      of_domain "exclusive" "bit"; of_domain "auto-delete" "bit";
      of_domain "no-wait" "no-wait"; of_domain "arguments" "table"];
     MkMethod "declare-ok" true false "11" [] [of_domain "queue" "queue-name"; of_domain "message-count" "message-count";
      of_domain "consumer-count" "long"];
     MkMethod "bind" true false "20" [] [of_type true "reserved-1" "short"; of_domain "queue" "queue-name";
      of_domain "exchange" "exchange-name"; of_domain "routing-key" "shortstr";
      of_domain "no-wait" "no-wait"; of_domain "arguments" "table"];
     MkMethod "bind-ok" true false "21" [] [];
     MkMethod "unbind" true false "50" [] [of_type true "reserved-1" "short"; of_domain "queue" "queue-name";
      of_domain "exchange" "exchange-name"; of_domain "routing-key" "shortstr";
      of_domain "arguments" "table"];
     MkMethod "unbind-ok" true false "51" [] [];
     MkMethod "purge" true false "30" [] [of_type true "reserved-1" "short"; of_domain "queue" "queue-name";
      of_domain "no-wait" "no-wait"];
     MkMethod "purge-ok" true false "31" [] [of_domain "message-count" "message-count"];
     MkMethod "delete" true false "40" [] [of_type true "reserved-1" "short"; of_domain "queue" "queue-name";
      of_domain "if-unused" "bit"; of_domain "if-empty" "bit";
      of_domain "no-wait" "no-wait"];
     MkMethod "delete-ok" true false "41" [] [of_domain "message-count" "message-count"]].

Definition basic_class : Class :=
  MkClass "basic" "60"
    [MkMethod "qos" true false "10" [] [of_domain "prefetch-size" "long"; of_domain "prefetch-count" "short";
      of_domain "global" "bit"];
     MkMethod "qos-ok" true false "11" [] [];
     MkMethod "consume" true false "20" [] [of_type true "reserved-1" "short"; of_domain "queue" "queue-name";
      of_domain "consumer-tag" "consumer-tag"; of_domain "no-local" "no-local";
      of_domain "no-ack" "no-ack"; of_domain "exclusive" "bit";
      of_domain "no-wait" "no-wait"; of_domain "arguments" "table"];
     MkMethod "consume-ok" true false "21" [] [of_domain "consumer-tag" "consumer-tag"];
     MkMethod "cancel" true false "30" [] [of_domain "consumer-tag" "consumer-tag"; of_domain "no-wait" "no-wait"];
     MkMethod "cancel-ok" true false "31" [] [of_domain "consumer-tag" "consumer-tag"];
     MkMethod "publish" false true "40" [] [of_type true "reserved-1" "short"; of_domain "exchange" "exchange-name";
      of_domain "routing-key" "shortstr"; of_domain "mandatory" "bit";
      of_domain "immediate" "bit"];
     MkMethod "return" false true "50" [] [of_domain "reply-code" "reply-code"; of_domain "reply-text" "reply-text";
      of_domain "exchange" "exchange-name"; of_domain "routing-key" "shortstr"];
     MkMethod "deliver" false true "60" [] [of_domain "consumer-tag" "consumer-tag"; of_domain "delivery-tag" "delivery-tag";
      of_domain "redelivered" "redelivered"; of_domain "exchange" "exchange-name";
      of_domain "routing-key" "shortstr"];
     MkMethod "get" true false "70" [] [of_type true "reserved-1" "short"; of_domain "queue" "queue-name";
      of_domain "no-ack" "no-ack"];
     MkMethod "get-ok" true true "71" [] [of_domain "delivery-tag" "delivery-tag"; of_domain "redelivered" "redelivered";
      of_domain "exchange" "exchange-name"; of_domain "routing-key" "shortstr";
      of_domain "message-count" "message-count"];
     MkMethod "get-empty" true false "72" [] [of_type true "reserved-1" "shortstr"];
     MkMethod "ack" false false "80" [] [of_domain "delivery-tag" "delivery-tag"; of_domain "multiple" "bit"];
     MkMethod "reject" false false "90" [] [of_domain "delivery-tag" "delivery-tag"; of_domain "requeue" "bit"];
     MkMethod "recover-async" false false "100" [] [of_domain "requeue" "bit"];
     MkMethod "recover" true false "110" [] [of_domain "requeue" "bit"];
     MkMethod "recover-ok" true false "111" [] [];
     MkMethod "nack" false false "120" [] [of_domain "delivery-tag" "delivery-tag"; of_domain "multiple" "bit";
      of_domain "requeue" "bit"]].

Definition tx_class : Class :=
  MkClass "tx" "90"
    [MkMethod "select" true false "10" [] [];
     MkMethod "select-ok" true false "11" [] [];
     MkMethod "commit" true false "20" [] [];
     MkMethod "commit-ok" true false "21" [] [];
     MkMethod "rollback" true false "30" [] [];
     MkMethod "rollback-ok" true false "31" [] []].

Definition confirm_class : Class :=
  MkClass "confirm" "85"
    [MkMethod "select" true false "10" [] [of_type false "nowait" "bit"];
     MkMethod "select-ok" true false "11" [] []].

Definition amqp : Amqp := MkAmqp constants domains
  [connection_class; channel_class; exchange_class; queue_class; basic_class; tx_class; confirm_class].

End GenSpec.
