(* ===== verification/GenRun.v ===== *)
(** * GenRun: what the generated code does

    The meaning of the statements that spec/gen.go emits, as code of the
    library: structs by the names of their fields, [binary.Write] and
    [binary.Read] by the declared type of the field, the helpers of write.go
    and read.go.  [as_struct] is how the structs of spec091.go look as such a
    struct. *)

From S2P Require Import Prelude Types Io Wire GoStrings SpecConnection SpecChannel SpecExchange SpecQueue SpecBasic SpecTx.
From S2P Require Import Spec091 Gen.

Module GenRun.
Import Gen.

(** ** Structs *)

Inductive value :=
  | V_bool (b : bool)
  | V_int (z : Z)
  | V_string (s : string)
  | V_table (t : Table)
  | V_properties (p : properties)
  | V_bytes (bs : list byte).

(** The fields in the order of their declaration. *)
Definition struct : Type := list (string * value).

(** What a name stands for, a value or a type. *)
Fixpoint field {A} (f : string) (s : list (string * A)) : option A :=
  match s with
  | [] => None
  | (g, v) :: r => if bool_decide (f = g) then Some v else field f r
  end.

(** [msg.F = v] *)
Definition assign (f : string) (v : value) (s : struct) : struct :=
  (fun gw => if bool_decide (f = fst gw) then (fst gw, v) else gw) <$> s.

(** The size of the integers of a type. *)
Definition width (native : string) : option nat :=
  if bool_decide (native = "byte") then Some 1%nat
  else if bool_decide (native = "uint8") then Some 1%nat
  else if bool_decide (native = "uint16") then Some 2%nat
  else if bool_decide (native = "uint32") then Some 4%nat
  else if bool_decide (native = "uint64") then Some 8%nat
  else None.

Definition zero (native : string) : option value :=
  if bool_decide (native = "bool") then Some (V_bool false)
  else if bool_decide (native = "string") then Some (V_string "")
  else if bool_decide (native = "Table") then Some (V_table [])
  else match width native with Some _ => Some (V_int 0) | None => None end.

(** Of a field that has one. *)
Definition field_width (types : list (string * string)) (f : string) : option nat :=
  match field f types with Some t => width t | None => None end.

(** ** Statements *)

(** Code that the compiler rejects: [bits] not declared, a shift that does
    not fit [bits], a field that is not there or of another type,
    [writeTimestamp], which the library does not have, or [time.Time] without
    its import. *)
Definition rejected : goerror := TextError "rejected by the compiler".

Fixpoint exec_write (types : list (string * string)) (s : struct) (bits : option Z) (code : list enc) : Writer :=
  match code with
  | [] => wnil
  | E_or f off :: r =>
      match bits, field f s with
      | Some z, Some (V_bool b) =>
          if bool_decide (off < 8)%nat then exec_write types s (Some (putbit (Z.of_nat off) b z)) r else wfail rejected
      | _, _ => wfail rejected
      end
  | E_bits :: r =>
      match bits with Some z => writeUint 1 z ;;; exec_write types s bits r | None => wfail rejected end
  | E_write f :: r =>
      match field_width types f, field f s with
      | Some n, Some (V_int z) => writeUint n z ;;; exec_write types s bits r
      | _, _ => wfail rejected
      end
  | E_shortstr f :: r =>
      match field f s with
      | Some (V_string x) => writeShortstr x ;;; exec_write types s bits r
      | _ => wfail rejected
      end
  | E_longstr f :: r =>
      match field f s with
      | Some (V_string x) => writeLongstr x ;;; exec_write types s bits r
      | _ => wfail rejected
      end
  | E_table f :: r =>
      match field f s with
      | Some (V_table x) => writeTable x ;;; exec_write types s bits r
      | _ => wfail rejected
      end
  | E_timestamp _ :: _ => wfail rejected
  end.

Fixpoint exec_read (types : list (string * string)) (bits : option Z) (code : list dec) (s : struct) : Reader struct :=
  match code with
  | [] => rret s
  | D_bits :: r =>
      match bits with
      | Some _ => let* z := readUint 1 in exec_read types (Some z) r s
      | None => rerr rejected
      end
  | D_and f off :: r =>
      match bits, field f s with
      | Some z, Some (V_bool _) =>
          if bool_decide (off < 8)%nat then exec_read types bits r (assign f (V_bool (getbit (Z.of_nat off) z)) s)
          else rerr rejected
      | _, _ => rerr rejected
      end
  | D_read f :: r =>
      match field_width types f, field f s with
      | Some n, Some (V_int _) => let* z := readUint n in exec_read types bits r (assign f (V_int z) s)
      | _, _ => rerr rejected
      end
  | D_shortstr f :: r =>
      match field f s with
      | Some (V_string _) => let* x := readShortstr in exec_read types bits r (assign f (V_string x) s)
      | _ => rerr rejected
      end
  | D_longstr f :: r =>
      match field f s with
      | Some (V_string _) => let* x := readLongstr in exec_read types bits r (assign f (V_string x) s)
      | _ => rerr rejected
      end
  | D_table f :: r =>
      match field f s with
      | Some (V_table _) => let* x := readTable in exec_read types bits r (assign f (V_table x) s)
      | _ => rerr rejected
      end
  | D_timestamp _ :: _ => rerr rejected
  end.

(** ** Methods *)

Fixpoint zeros (types : list (string * string)) : option struct :=
  match types with
  | [] => Some []
  | (f, t) :: r =>
      match zero t, zeros r with Some v, Some s => Some ((f, v) :: s) | _, _ => None end
  end.

(** [&T{}] *)
Definition zero_struct (g : go_method) : option struct :=
  match zeros (g_fields g) with
  | Some s => Some (s ++ if g_content g then [("Properties", V_properties zeroProperties); ("Body", V_bytes [])] else [])
  | None => None
  end.

Definition declared (b : bool) : option Z := if b then Some 0 else None.

Definition run_write (g : go_method) (s : struct) : Writer :=
  exec_write (g_fields g) s (declared (fst (g_write g))) (snd (g_write g)).

Definition run_read (g : go_method) : Reader struct :=
  match zero_struct g with
  | Some s => exec_read (g_fields g) (declared (fst (g_read g))) (snd (g_read g)) s
  | None => rerr rejected
  end.

Definition run_wait (g : go_method) (s : struct) : option bool :=
  if snd (g_wait g) then
    match field "NoWait" s with Some (V_bool b) => Some (fst (g_wait g) && negb b) | _ => None end
  else Some (fst (g_wait g)).

(** A decimal literal. *)
Definition literal (s : string) : option Z := match parse_uint s 64 with inr n => Some n | inl _ => None end.

Definition run_id (g : go_method) : option (Z * Z) :=
  match literal (fst (g_id g)), literal (snd (g_id g)) with Some c, Some m => Some (c, m) | _, _ => None end.

(** ** [parseMethodFrame] *)

(** The case of a switch whose constant is [n]. *)
Fixpoint case_of {A} (n : Z) (cases : list (string * A)) : option A :=
  match cases with
  | [] => None
  | (s, x) :: r => if bool_decide (literal s = Some n) then Some x else case_of n r
  end.

Definition method_named (name : string) (p : go_package) : option go_method :=
  List.find (fun g => bool_decide (g_struct g = name)) (go_methods p).

Definition run_switch (p : go_package) (ClassId MethodId : Z) : Reader (string * struct) :=
  match case_of ClassId (go_switch p) with
  | None => rerr (unknownClass ClassId)
  | Some cases =>
      match case_of MethodId cases with
      | None => rerr (unknownMethod ClassId MethodId)
      | Some name =>
          match method_named name p with
          | Some g => let* s := run_read g in rret (name, s)
          | None => rerr rejected
          end
      end
  end.

(** ** The structs of spec091.go *)

Definition as_struct (msg : message) : string * struct :=
  match msg with
  | M_connectionStart m => ("connectionStart",
      [("VersionMajor", V_int (connectionStart_VersionMajor m));
       ("VersionMinor", V_int (connectionStart_VersionMinor m));
       ("ServerProperties", V_table (connectionStart_ServerProperties m));
       ("Mechanisms", V_string (connectionStart_Mechanisms m));
       ("Locales", V_string (connectionStart_Locales m))])
  | M_connectionStartOk m => ("connectionStartOk",
      [("ClientProperties", V_table (connectionStartOk_ClientProperties m));
       ("Mechanism", V_string (connectionStartOk_Mechanism m));
       ("Response", V_string (connectionStartOk_Response m)); ("Locale", V_string (connectionStartOk_Locale m))])
  | M_connectionSecure m => ("connectionSecure", [("Challenge", V_string (connectionSecure_Challenge m))])
  | M_connectionSecureOk m => ("connectionSecureOk", [("Response", V_string (connectionSecureOk_Response m))])
  | M_connectionTune m => ("connectionTune",
      [("ChannelMax", V_int (connectionTune_ChannelMax m)); ("FrameMax", V_int (connectionTune_FrameMax m));
       ("Heartbeat", V_int (connectionTune_Heartbeat m))])
  | M_connectionTuneOk m => ("connectionTuneOk",
      [("ChannelMax", V_int (connectionTuneOk_ChannelMax m)); ("FrameMax", V_int (connectionTuneOk_FrameMax m));
       ("Heartbeat", V_int (connectionTuneOk_Heartbeat m))])
  | M_connectionOpen m => ("connectionOpen",
      [("VirtualHost", V_string (connectionOpen_VirtualHost m));
       ("reserved1", V_string (connectionOpen_reserved1 m)); ("reserved2", V_bool (connectionOpen_reserved2 m))])
  | M_connectionOpenOk m => ("connectionOpenOk", [("reserved1", V_string (connectionOpenOk_reserved1 m))])
  | M_connectionClose m => ("connectionClose",
      [("ReplyCode", V_int (connectionClose_ReplyCode m)); ("ReplyText", V_string (connectionClose_ReplyText m));
       ("ClassId", V_int (connectionClose_ClassId m)); ("MethodId", V_int (connectionClose_MethodId m))])
  | M_connectionCloseOk _ => ("connectionCloseOk", [])
  | M_connectionBlocked m => ("connectionBlocked", [("Reason", V_string (connectionBlocked_Reason m))])
  | M_connectionUnblocked _ => ("connectionUnblocked", [])
  | M_connectionUpdateSecret m => ("connectionUpdateSecret",
      [("NewSecret", V_string (connectionUpdateSecret_NewSecret m));
       ("Reason", V_string (connectionUpdateSecret_Reason m))])
  | M_connectionUpdateSecretOk _ => ("connectionUpdateSecretOk", [])
  | M_channelOpen m => ("channelOpen", [("reserved1", V_string (channelOpen_reserved1 m))])
  | M_channelOpenOk m => ("channelOpenOk", [("reserved1", V_string (channelOpenOk_reserved1 m))])
  | M_channelFlow m => ("channelFlow", [("Active", V_bool (channelFlow_Active m))])
  | M_channelFlowOk m => ("channelFlowOk", [("Active", V_bool (channelFlowOk_Active m))])
  | M_channelClose m => ("channelClose",
      [("ReplyCode", V_int (channelClose_ReplyCode m)); ("ReplyText", V_string (channelClose_ReplyText m));
       ("ClassId", V_int (channelClose_ClassId m)); ("MethodId", V_int (channelClose_MethodId m))])
  | M_channelCloseOk _ => ("channelCloseOk", [])
  | M_exchangeDeclare m => ("exchangeDeclare",
      [("reserved1", V_int (exchangeDeclare_reserved1 m)); ("Exchange", V_string (exchangeDeclare_Exchange m));
       ("Type", V_string (exchangeDeclare_Type m)); ("Passive", V_bool (exchangeDeclare_Passive m));
       ("Durable", V_bool (exchangeDeclare_Durable m)); ("AutoDelete", V_bool (exchangeDeclare_AutoDelete m));
       ("Internal", V_bool (exchangeDeclare_Internal m)); ("NoWait", V_bool (exchangeDeclare_NoWait m));
       ("Arguments", V_table (exchangeDeclare_Arguments m))])
  | M_exchangeDeclareOk _ => ("exchangeDeclareOk", [])
  | M_exchangeDelete m => ("exchangeDelete",
      [("reserved1", V_int (exchangeDelete_reserved1 m)); ("Exchange", V_string (exchangeDelete_Exchange m));
       ("IfUnused", V_bool (exchangeDelete_IfUnused m)); ("NoWait", V_bool (exchangeDelete_NoWait m))])
  | M_exchangeDeleteOk _ => ("exchangeDeleteOk", [])
  | M_exchangeBind m => ("exchangeBind",
      [("reserved1", V_int (exchangeBind_reserved1 m)); ("Destination", V_string (exchangeBind_Destination m));
       ("Source", V_string (exchangeBind_Source m)); ("RoutingKey", V_string (exchangeBind_RoutingKey m));
       ("NoWait", V_bool (exchangeBind_NoWait m)); ("Arguments", V_table (exchangeBind_Arguments m))])
  | M_exchangeBindOk _ => ("exchangeBindOk", [])
  | M_exchangeUnbind m => ("exchangeUnbind",
      [("reserved1", V_int (exchangeUnbind_reserved1 m));
       ("Destination", V_string (exchangeUnbind_Destination m)); ("Source", V_string (exchangeUnbind_Source m));
       ("RoutingKey", V_string (exchangeUnbind_RoutingKey m)); ("NoWait", V_bool (exchangeUnbind_NoWait m));
       ("Arguments", V_table (exchangeUnbind_Arguments m))])
  | M_exchangeUnbindOk _ => ("exchangeUnbindOk", [])
  | M_queueDeclare m => ("queueDeclare",
      [("reserved1", V_int (queueDeclare_reserved1 m)); ("Queue", V_string (queueDeclare_Queue m));
       ("Passive", V_bool (queueDeclare_Passive m)); ("Durable", V_bool (queueDeclare_Durable m));
       ("Exclusive", V_bool (queueDeclare_Exclusive m)); ("AutoDelete", V_bool (queueDeclare_AutoDelete m));
       ("NoWait", V_bool (queueDeclare_NoWait m)); ("Arguments", V_table (queueDeclare_Arguments m))])
  | M_queueDeclareOk m => ("queueDeclareOk",
      [("Queue", V_string (queueDeclareOk_Queue m)); ("MessageCount", V_int (queueDeclareOk_MessageCount m));
       ("ConsumerCount", V_int (queueDeclareOk_ConsumerCount m))])
  | M_queueBind m => ("queueBind",
      [("reserved1", V_int (queueBind_reserved1 m)); ("Queue", V_string (queueBind_Queue m));
       ("Exchange", V_string (queueBind_Exchange m)); ("RoutingKey", V_string (queueBind_RoutingKey m));
       ("NoWait", V_bool (queueBind_NoWait m)); ("Arguments", V_table (queueBind_Arguments m))])
  | M_queueBindOk _ => ("queueBindOk", [])
  | M_queueUnbind m => ("queueUnbind",
      [("reserved1", V_int (queueUnbind_reserved1 m)); ("Queue", V_string (queueUnbind_Queue m));
       ("Exchange", V_string (queueUnbind_Exchange m)); ("RoutingKey", V_string (queueUnbind_RoutingKey m));
       ("Arguments", V_table (queueUnbind_Arguments m))])
  | M_queueUnbindOk _ => ("queueUnbindOk", [])
  | M_queuePurge m => ("queuePurge",
      [("reserved1", V_int (queuePurge_reserved1 m)); ("Queue", V_string (queuePurge_Queue m));
       ("NoWait", V_bool (queuePurge_NoWait m))])
  | M_queuePurgeOk m => ("queuePurgeOk", [("MessageCount", V_int (queuePurgeOk_MessageCount m))])
  | M_queueDelete m => ("queueDelete",
      [("reserved1", V_int (queueDelete_reserved1 m)); ("Queue", V_string (queueDelete_Queue m));
       ("IfUnused", V_bool (queueDelete_IfUnused m)); ("IfEmpty", V_bool (queueDelete_IfEmpty m));
       ("NoWait", V_bool (queueDelete_NoWait m))])
  | M_queueDeleteOk m => ("queueDeleteOk", [("MessageCount", V_int (queueDeleteOk_MessageCount m))])
  | M_basicQos m => ("basicQos",
      [("PrefetchSize", V_int (basicQos_PrefetchSize m)); ("PrefetchCount", V_int (basicQos_PrefetchCount m));
       ("Global", V_bool (basicQos_Global m))])
  | M_basicQosOk _ => ("basicQosOk", [])
  | M_basicConsume m => ("basicConsume",
      [("reserved1", V_int (basicConsume_reserved1 m)); ("Queue", V_string (basicConsume_Queue m));
       ("ConsumerTag", V_string (basicConsume_ConsumerTag m)); ("NoLocal", V_bool (basicConsume_NoLocal m));
       ("NoAck", V_bool (basicConsume_NoAck m)); ("Exclusive", V_bool (basicConsume_Exclusive m));
       ("NoWait", V_bool (basicConsume_NoWait m)); ("Arguments", V_table (basicConsume_Arguments m))])
  | M_basicConsumeOk m => ("basicConsumeOk", [("ConsumerTag", V_string (basicConsumeOk_ConsumerTag m))])
  | M_basicCancel m => ("basicCancel",
      [("ConsumerTag", V_string (basicCancel_ConsumerTag m)); ("NoWait", V_bool (basicCancel_NoWait m))])
  | M_basicCancelOk m => ("basicCancelOk", [("ConsumerTag", V_string (basicCancelOk_ConsumerTag m))])
  | M_basicPublish m => ("basicPublish",
      [("reserved1", V_int (basicPublish_reserved1 m)); ("Exchange", V_string (basicPublish_Exchange m));
       ("RoutingKey", V_string (basicPublish_RoutingKey m)); ("Mandatory", V_bool (basicPublish_Mandatory m));
       ("Immediate", V_bool (basicPublish_Immediate m));
       ("Properties", V_properties (basicPublish_Properties m)); ("Body", V_bytes (basicPublish_Body m))])
  | M_basicReturn m => ("basicReturn",
      [("ReplyCode", V_int (basicReturn_ReplyCode m)); ("ReplyText", V_string (basicReturn_ReplyText m));
       ("Exchange", V_string (basicReturn_Exchange m)); ("RoutingKey", V_string (basicReturn_RoutingKey m));
       ("Properties", V_properties (basicReturn_Properties m)); ("Body", V_bytes (basicReturn_Body m))])
  | M_basicDeliver m => ("basicDeliver",
      [("ConsumerTag", V_string (basicDeliver_ConsumerTag m));
       ("DeliveryTag", V_int (basicDeliver_DeliveryTag m)); ("Redelivered", V_bool (basicDeliver_Redelivered m));
       ("Exchange", V_string (basicDeliver_Exchange m)); ("RoutingKey", V_string (basicDeliver_RoutingKey m));
       ("Properties", V_properties (basicDeliver_Properties m)); ("Body", V_bytes (basicDeliver_Body m))])
  | M_basicGet m => ("basicGet",
      [("reserved1", V_int (basicGet_reserved1 m)); ("Queue", V_string (basicGet_Queue m));
       ("NoAck", V_bool (basicGet_NoAck m))])
  | M_basicGetOk m => ("basicGetOk",
      [("DeliveryTag", V_int (basicGetOk_DeliveryTag m)); ("Redelivered", V_bool (basicGetOk_Redelivered m));
       ("Exchange", V_string (basicGetOk_Exchange m)); ("RoutingKey", V_string (basicGetOk_RoutingKey m));
       ("MessageCount", V_int (basicGetOk_MessageCount m));
       ("Properties", V_properties (basicGetOk_Properties m)); ("Body", V_bytes (basicGetOk_Body m))])
  | M_basicGetEmpty m => ("basicGetEmpty", [("reserved1", V_string (basicGetEmpty_reserved1 m))])
  | M_basicAck m => ("basicAck",
      [("DeliveryTag", V_int (basicAck_DeliveryTag m)); ("Multiple", V_bool (basicAck_Multiple m))])
  | M_basicReject m => ("basicReject",
      [("DeliveryTag", V_int (basicReject_DeliveryTag m)); ("Requeue", V_bool (basicReject_Requeue m))])
  | M_basicRecoverAsync m => ("basicRecoverAsync", [("Requeue", V_bool (basicRecoverAsync_Requeue m))])
  | M_basicRecover m => ("basicRecover", [("Requeue", V_bool (basicRecover_Requeue m))])
  | M_basicRecoverOk _ => ("basicRecoverOk", [])
  | M_basicNack m => ("basicNack",
      [("DeliveryTag", V_int (basicNack_DeliveryTag m)); ("Multiple", V_bool (basicNack_Multiple m));
       ("Requeue", V_bool (basicNack_Requeue m))])
  | M_txSelect _ => ("txSelect", [])
  | M_txSelectOk _ => ("txSelectOk", [])
  | M_txCommit _ => ("txCommit", [])
  | M_txCommitOk _ => ("txCommitOk", [])
  | M_txRollback _ => ("txRollback", [])
  | M_txRollbackOk _ => ("txRollbackOk", [])
  | M_confirmSelect m => ("confirmSelect", [("Nowait", V_bool (confirmSelect_Nowait m))])
  | M_confirmSelectOk _ => ("confirmSelectOk", [])
  end.

End GenRun.
