(* ===== verification/GenFacts.v ===== *)
(** * GenFacts: the generator, and that spec091.go is what it generates *)

From S2P Require Import Prelude Types Io Wire WireFacts WireCodec GoStrings.
From S2P Require Import SpecConnection SpecChannel SpecExchange SpecQueue SpecBasic SpecTx Spec091.
From S2P Require Import Gen GenSpec GenRun.

Module GenFacts.
Import Gen GenSpec GenRun.

(** ** The file generated from the specification *)

Definition spec091 : go_package :=
  Eval vm_compute in (match packageTemplate amqp with Ok p => p | _ => MkGoPackage [] [] [] [] end).

Lemma spec091_is_generated : packageTemplate amqp = Ok spec091.
Proof. by vm_compute. Qed.

Lemma generated_writes msg :
  exists g, method_named (fst (as_struct msg)) spec091 = Some g /\
    run_id g = Some (message_id msg) /\ run_wait g (snd (as_struct msg)) = Some (message_wait msg) /\
    g_content g = bool_decide (is_Some (message_getContent msg)) /\
    forall buf, run_write g (snd (as_struct msg)) buf = message_write msg buf.
Proof.
  destruct msg as [m|m|m|m|m|m|m|m|m|m|m|m|m|m|m|m|m|m|m|m|m|m|m|m|m|m|m|m|m|m|m|m|m|m|m|m|m|m|m|m|m|m|m|m|m|m|m|m
    |m|m|m|m|m|m|m|m|m|m|m|m|m|m|m|m];
    (eexists; split; [lazy; reflexivity|]; split; [by vm_compute|split; [by vm_compute|split; [by vm_compute|]]]; intros buf; reflexivity).
Qed.

(** The constants of spec091.go by their names. *)
Definition constants091 : list (string * Z) :=
  [("frameMethod", frameMethod); ("frameHeader", frameHeader); ("frameBody", frameBody);
   ("frameHeartbeat", frameHeartbeat); ("frameMinSize", frameMinSize); ("frameEnd", frameEnd);
   ("replySuccess", replySuccess); ("ContentTooLarge", ContentTooLarge); ("NoRoute", NoRoute);
   ("NoConsumers", NoConsumers); ("ConnectionForced", ConnectionForced); ("InvalidPath", InvalidPath);
   ("AccessRefused", AccessRefused); ("NotFound", NotFound); ("ResourceLocked", ResourceLocked);
   ("PreconditionFailed", PreconditionFailed); ("FrameError", FrameError); ("SyntaxError", SyntaxError);
   ("CommandInvalid", CommandInvalid); ("ChannelError", ChannelError); ("UnexpectedFrame", UnexpectedFrame);
   ("ResourceError", ResourceError); ("NotAllowed", NotAllowed); ("NotImplemented", NotImplemented);
   ("InternalError", InternalError)].

Lemma generated_constants : go_constants spec091 = constants091.
Proof. by vm_compute. Qed.

(** Splits a [match] on an integer that is none of its constants. *)
Ltac none_of z :=
  destruct z as [|z|z]; try reflexivity;
  repeat (destruct z as [z|z|]; try reflexivity; try congruence).

Lemma generated_soft code : isSoftExceptionCode code = existsb (Z.eqb code) (go_soft spec091).
Proof.
  simpl. repeat match goal with |- context [code =? ?n] => destruct (Z.eqb_spec code n) as [->|]; [reflexivity|] end.
  simpl. none_of code.
Qed.

(** ** Reading *)

Definition rmap {A B} (f : A -> B) (c : Reader A) : Reader B := let* x := c in rret (f x).

Lemma case_of_none {A} n (cases : list (string * A)) :
  Forall (fun c => literal (fst c) <> Some n) cases -> case_of n cases = None.
Proof. induction 1 as [|[s x] cases H _ IH]; simpl; [done|]. by rewrite bool_decide_eq_false_2. Qed.

(** No case of a switch matches. *)
Ltac no_case :=
  rewrite case_of_none by (repeat (constructor; [vm_compute; congruence|]); constructor).

(** A method is read as the code generated for it says. *)
Ltac reads_method :=
  unfold rmap;
  cbv -[rbind rret readUint readShortstr readLongstr readTable getbit zeroProperties];
  rewrite ?rbind_assoc;
  repeat (apply rbind_ext; intros; rewrite ?rbind_assoc);
  reflexivity.

(** The methods [ns] of a class, and any other. *)
Ltac reads_class m ns :=
  lazymatch ns with
  | ?n :: ?r => destruct (decide (m = n)) as [->|]; [reads_method|reads_class m r]
  | _ =>
      unfold run_switch;
      match goal with
      | |- context [case_of ?c (go_switch spec091)] =>
          let x := eval vm_compute in (case_of c (go_switch spec091)) in
          change (case_of c (go_switch spec091)) with x
      end;
      cbv iota; no_case; none_of m
  end.

Lemma reads_connection m r : run_switch spec091 10 m r = rmap as_struct (parseMethod 10 m) r.
Proof. reads_class m [10; 11; 20; 21; 30; 31; 40; 41; 50; 51; 60; 61; 70; 71]. Qed.
Lemma reads_channel m r : run_switch spec091 20 m r = rmap as_struct (parseMethod 20 m) r.
Proof. reads_class m [10; 11; 20; 21; 40; 41]. Qed.
Lemma reads_exchange m r : run_switch spec091 40 m r = rmap as_struct (parseMethod 40 m) r.
Proof. reads_class m [10; 11; 20; 21; 30; 31; 40; 51]. Qed.
Lemma reads_queue m r : run_switch spec091 50 m r = rmap as_struct (parseMethod 50 m) r.
Proof. reads_class m [10; 11; 20; 21; 50; 51; 30; 31; 40; 41]. Qed.
Lemma reads_basic m r : run_switch spec091 60 m r = rmap as_struct (parseMethod 60 m) r.
Proof. reads_class m [10; 11; 20; 21; 30; 31; 40; 50; 60; 70; 71; 72; 80; 90; 100; 110; 111; 120]. Qed.
Lemma reads_tx m r : run_switch spec091 90 m r = rmap as_struct (parseMethod 90 m) r.
Proof. reads_class m [10; 11; 20; 21; 30; 31]. Qed.
Lemma reads_confirm m r : run_switch spec091 85 m r = rmap as_struct (parseMethod 85 m) r.
Proof. reads_class m [10; 11]. Qed.

Lemma generated_reads ClassId MethodId r :
  run_switch spec091 ClassId MethodId r = rmap as_struct (parseMethod ClassId MethodId) r.
Proof.
  destruct (decide (ClassId = 10)) as [->|]; [apply reads_connection|].
  destruct (decide (ClassId = 20)) as [->|]; [apply reads_channel|].
  destruct (decide (ClassId = 40)) as [->|]; [apply reads_exchange|].
  destruct (decide (ClassId = 50)) as [->|]; [apply reads_queue|].
  destruct (decide (ClassId = 60)) as [->|]; [apply reads_basic|].
  destruct (decide (ClassId = 90)) as [->|]; [apply reads_tx|].
  destruct (decide (ClassId = 85)) as [->|]; [apply reads_confirm|].
  unfold run_switch. no_case. none_of ClassId.
Qed.

(** C23: spec091.go is what the generator makes of the specification: the
    generator succeeds on it, and the constants, the soft exceptions, and for
    every method its identifier, whether a response is awaited, whether it
    carries content, what it writes, and, for any class and method that
    arrive, what [parseMethodFrame] reads or which error it gives, are those
    of the code that it emits. *)
Theorem spec091_generated :
  exists p, packageTemplate amqp = Ok p /\
    go_constants p = constants091 /\
    (forall code, isSoftExceptionCode code = existsb (Z.eqb code) (go_soft p)) /\
    (forall msg, exists g, method_named (fst (as_struct msg)) p = Some g /\
       run_id g = Some (message_id msg) /\ run_wait g (snd (as_struct msg)) = Some (message_wait msg) /\
       g_content g = bool_decide (is_Some (message_getContent msg)) /\
       forall buf, run_write g (snd (as_struct msg)) buf = message_write msg buf) /\
    (forall ClassId MethodId r,
       run_switch p ClassId MethodId r = rmap as_struct (parseMethod ClassId MethodId) r).
Proof.
  exists spec091. split_and!; [apply spec091_is_generated|apply generated_constants|apply generated_soft|apply generated_writes|apply generated_reads].
Qed.

End GenFacts.
