(* ===== verification/GenGroups.v ===== *)
(** * GenGroups: the groups of fields, and when generating fails

    [Fieldsets] merges in place; it gives the runs of fields of one type. *)

From S2P Require Import Prelude Types Io Wire WireFacts WireCodec GoStrings Spec091.
From S2P Require Import Gen GenSpec GenRun.

Module GenGroups.
Import Gen GenSpec GenRun.

(** ** Runs of fields *)

(** Maximal runs of fields of one type. *)
Fixpoint runs (root : Amqp) (fields : list Field) : list (string * list Field) :=
  match fields with
  | [] => []
  | f :: r =>
      match runs root r with
      | (t, fs) :: g =>
          if bool_decide (FieldType root f = t) then (t, f :: fs) :: g else (FieldType root f, [f]) :: (t, fs) :: g
      | [] => [(FieldType root f, [f])]
      end
  end.

Definition known (root : Amqp) (f : Field) : bool :=
  match NativeType (FieldType root f) with Ok _ => true | _ => false end.

Definition native (t : string) : string := match NativeType t with Ok n => n | _ => "" end.

Definition single (root : Amqp) (f : Field) : fieldset :=
  MkFieldset (FieldType root f) (native (FieldType root f)) [f].
Definition of_run (run : string * list Field) : fieldset := MkFieldset (fst run) (native (fst run)) (snd run).

Lemma NativeType_cases t : (exists n, NativeType t = Ok n /\ native t = n) \/ NativeType t = Err ErrUnknownType.
Proof. unfold native, NativeType. destruct (list_find _ _) as [[i kv]|]; [left; by eexists|by right]. Qed.

Lemma each_field_spec root fields f :
  each_field root fields f =
    if forallb (known root) fields then Ok (f ++ (single root <$> fields)) else Err ErrUnknownType.
Proof.
  revert f. induction fields as [|x r IH]; intros f; simpl; [by rewrite app_nil_r|]. unfold known at 1, single at 1.
  destruct (NativeType_cases (FieldType root x)) as [(n & E & ->)|E]; rewrite E; [|done]. simpl. rewrite IH.
  destruct (forallb _ r); [|done]. by rewrite <- app_assoc.
Qed.

(** What merging comes to. *)
Fixpoint glue (cur : fieldset) (rest : list fieldset) : list fieldset :=
  match rest with
  | [] => [cur]
  | x :: r =>
      if bool_decide (AmqpType cur = AmqpType x) then glue (add_fields (Fields x) cur) r else cur :: glue x r
  end.

Lemma merge_glue n i j f cur rest :
  (i < j)%nat -> length f = (j + n)%nat -> f !! i = Some cur -> drop j f = rest ->
  merge (seq j n) i f = Ok (take i f ++ glue cur rest).
Proof.
  revert i j f cur rest. induction n as [|n IH]; intros i j f cur rest Hij Hl Hi Hd; simpl.
  - rewrite drop_ge in Hd by lia. subst rest. simpl. by rewrite (take_S_r _ _ cur).
  - destruct (lookup_lt_is_Some_2 f j) as [x Hx]; [lia|]. rewrite Hi, Hx.
    assert (rest = x :: drop (S j) f) as -> by (rewrite <- Hd; by apply drop_S). simpl.
    case_bool_decide as Ht.
    + rewrite (IH i (S j) _ (add_fields (Fields x) cur) (drop (S j) f)); [|lia|rewrite length_insert; lia| |].
      * by rewrite take_insert_ge by lia.
      * apply list_lookup_insert_eq. lia.
      * by rewrite drop_insert_lt by lia.
    + rewrite bool_decide_eq_true_2 by lia.
      rewrite (IH (S i) (S j) _ x (drop (S j) f)); [|lia|rewrite length_insert; lia| |].
      * rewrite take_insert_ge by lia. rewrite (take_S_r _ _ cur) by done. by rewrite <- app_assoc.
      * apply list_lookup_insert_eq. lia.
      * by rewrite drop_insert_lt by lia.
Qed.

Lemma glue_runs root cur fields :
  glue cur (single root <$> fields) =
    match runs root fields with
    | (t, fs) :: g =>
        if bool_decide (AmqpType cur = t) then add_fields fs cur :: (of_run <$> g) else cur :: (of_run <$> (t, fs) :: g)
    | [] => [cur]
    end.
Proof.
  revert cur. induction fields as [|x r IH]; intros cur; simpl; [done|]. unfold single at 1 2. simpl.
  rewrite !IH. destruct (runs root r) as [|[t fs] g]; simpl.
  - by case_bool_decide.
  - repeat (case_bool_decide; simpl in *; subst); try congruence; try done.
    unfold add_fields. simpl. by rewrite <- app_assoc.
Qed.

(** [Fieldsets], which merges the groups within the slice it built, gives
    the maximal runs of fields of one type, in their order, and the error
    [ErrUnknownType] exactly when the type of a field is not known; it does
    not index past the slice. *)
Lemma Fieldsets_runs root fields :
  Fieldsets root fields =
    if forallb (known root) fields then Ok (of_run <$> runs root fields) else Err ErrUnknownType.
Proof.
  unfold Fieldsets. destruct fields as [|x r]; [done|]. rewrite each_field_spec.
  destruct (forallb (known root) (x :: r)); [|done]. simpl obind. rewrite length_fmap. simpl length.
  rewrite (merge_glue _ 0 1 _ (single root x) (single root <$> r)); [|lia|simpl; rewrite length_fmap; lia|done|done].
  simpl. rewrite glue_runs. unfold single at 1 2. simpl. destruct (runs root r) as [|[t fs] g]; [done|].
  by case_bool_decide; subst.
Qed.

(** ** Templates *)

(** There are templates for the types that have a native type. *)
Lemma known_templates t n :
  NativeType t = Ok n -> exists e d, enc_template t = Some e /\ dec_template t = Some d.
Proof.
  unfold NativeType. destruct (list_find _ _) as [[i kv]|] eqn:E; [|done]. intros _.
  apply list_find_Some in E as (Hi & <- & _). apply list_elem_of_lookup_2 in Hi. unfold amqpTypeToNative in Hi.
  repeat (apply elem_of_cons in Hi as [->|Hi]; [by repeat eexists|]). by apply not_elem_of_nil in Hi.
Qed.

Lemma runs_known root fields r :
  forallb (known root) fields = true -> r ∈ runs root fields -> exists n, NativeType (fst r) = Ok n.
Proof.
  revert r. induction fields as [|f fs IH]; intros r Hk Hr; simpl in *; [by apply not_elem_of_nil in Hr|].
  apply andb_true_iff in Hk as [Hf Hk]. unfold known in Hf. specialize (fun r => IH r Hk).
  destruct (NativeType (FieldType root f)) as [n| | |] eqn:En; try done.
  destruct (runs root fs) as [|[t g] gs].
  - apply list_elem_of_singleton in Hr as ->. by exists n.
  - case_bool_decide as Ht; apply elem_of_cons in Hr as [->|Hr]; [by exists n; rewrite <- Ht|apply IH; by right|by exists n|by apply IH].
Qed.

Lemma Partial_total {A} (lookup : string -> option (list string -> list A)) prefix rs :
  (forall r, r ∈ rs -> is_Some (lookup (fst r))) -> exists code, Partial lookup prefix (of_run <$> rs) = Ok code.
Proof.
  induction rs as [|r rs IH]; intros H; [by exists []|]. destruct (H r) as [t Et]; [by left|].
  destruct IH as [code Ec]; [intros x Hx; apply H; by right|]. exists (t (FieldName <$> snd r) ++ code).
  rewrite fmap_cons. cbn [Partial AmqpType of_run Fields]. by rewrite Et, Ec.
Qed.

Lemma struct_fields_total root fields :
  if forallb (known root) fields then exists types, struct_fields root fields = Ok types
  else struct_fields root fields = Err ErrUnknownType.
Proof.
  induction fields as [|f fs IH]; simpl; [by exists []|]. unfold known at 1.
  destruct (NativeType_cases (FieldType root f)) as [(n & E & _)|E]; rewrite E; simpl; [|done].
  destruct (forallb (known root) fs); [|by rewrite IH]. destruct IH as [types ->]. by eexists.
Qed.

(** All the types in a method are known. *)
Definition method_known (root : Amqp) (m : Method) : bool := forallb (known root) (Method_Fields m).

Lemma method_template_total root class m :
  if method_known root m then exists g, method_template root class m = Ok g
  else method_template root class m = Err ErrUnknownType.
Proof.
  unfold method_template, method_known. pose proof (struct_fields_total root (Method_Fields m)) as Hs.
  rewrite Fieldsets_runs. destruct (forallb (known root) (Method_Fields m)) eqn:Hk; [|by rewrite Hs].
  destruct Hs as [types ->]. simpl.
  assert (forall r, r ∈ runs root (Method_Fields m) -> is_Some (enc_template (fst r)) /\ is_Some (dec_template (fst r))) as Ht.
  { intros r Hr. destruct (runs_known _ _ _ Hk Hr) as [n En]. destruct (known_templates _ _ En) as (e & d & -> & ->). by split; eexists. }
  destruct (Partial_total enc_template "enc-" (runs root (Method_Fields m))) as [cw ->]; [intros r Hr; by apply Ht|]. simpl.
  destruct (Partial_total dec_template "dec-" (runs root (Method_Fields m))) as [cr ->]; [intros r Hr; by apply Ht|]. by eexists.
Qed.

Lemma each_total {A B} (f : A -> outcome B) (ok : A -> bool) e xs :
  (forall x, if ok x then exists y, f x = Ok y else f x = Err e) ->
  if forallb ok xs then exists ys, each f xs = Ok ys else each f xs = Err e.
Proof.
  intros H. induction xs as [|x xs IH]; simpl; [by exists []|]. specialize (H x). destruct (ok x); simpl.
  - destruct H as [y ->]. simpl. destruct (forallb ok xs); [|by rewrite IH]. destruct IH as [ys ->]. by eexists.
  - by rewrite H.
Qed.

(** C35: The generator makes a file of every specification in which the types
    of all fields are known, and otherwise gives the error [ErrUnknownType]:
    no template is missing for a type that is known, and merging the groups
    stays within the slice. *)
Theorem generator_total root :
  if forallb (fun class => forallb (method_known root) (Class_Methods class)) (Classes root)
  then exists p, packageTemplate root = Ok p
  else packageTemplate root = Err ErrUnknownType.
Proof.
  pose proof (each_total (fun class => each (method_template root class) (Class_Methods class))
    (fun class => forallb (method_known root) (Class_Methods class)) ErrUnknownType (Classes root)) as H.
  unfold packageTemplate. destruct (forallb _ (Classes root)).
  - destruct H as [ms ->]; [|by eexists]. intros class. apply each_total, method_template_total.
  - rewrite H; [done|]. intros class. apply each_total, method_template_total.
Qed.

End GenGroups.
