(* ===== verification/GenCodec.v ===== *)
(** * GenCodec: generated methods round-trip

    The [read] that is generated for a method of any specification reads what
    the [write] generated for it writes, as long as the method has one run of
    at most eight bits; with two runs the code mixes them up. *)

From S2P Require Import Prelude Types Io Wire WireFacts WireCodec GoStrings Spec091.
From S2P Require Import Gen GenSpec GenRun GenGroups.

Module GenCodec.
Import Gen GenSpec GenRun GenGroups.

(** ** Values *)

(** The types but bits and timestamps. *)
Inductive kind := K_int (n : nat) | K_shortstr | K_longstr | K_table.

Definition kind_of (t : string) : option kind :=
  if bool_decide (t = "octet") then Some (K_int 1)
  else if bool_decide (t = "shortshort") then Some (K_int 1)
  else if bool_decide (t = "short") then Some (K_int 2)
  else if bool_decide (t = "long") then Some (K_int 4)
  else if bool_decide (t = "longlong") then Some (K_int 8)
  else if bool_decide (t = "shortstr") then Some K_shortstr
  else if bool_decide (t = "longstr") then Some K_longstr
  else if bool_decide (t = "table") then Some K_table
  else None.

Definition enc_of (k : kind) : string -> enc :=
  match k with K_int _ => E_write | K_shortstr => E_shortstr | K_longstr => E_longstr | K_table => E_table end.
Definition dec_of (k : kind) : string -> dec :=
  match k with K_int _ => D_read | K_shortstr => D_shortstr | K_longstr => D_longstr | K_table => D_table end.
Definition zero_of (k : kind) : value :=
  match k with K_int _ => V_int 0 | K_shortstr | K_longstr => V_string "" | K_table => V_table [] end.

(** The values that a field can carry, and what they are read back as. *)
Definition value_fits (k : kind) (v : value) : Prop :=
  match k, v with
  | K_int n, V_int z => is_uint (8 * Z.of_nat n) z
  | K_shortstr, V_string s => shortstr_ok s = true
  | K_longstr, V_string s => longstr_ok s = true
  | K_table, V_table t => table_ok t = true
  | _, _ => False
  end.
Definition value_norm (v : value) : value := match v with V_table t => V_table (norm_table t) | _ => v end.

Lemma kind_templates t k :
  kind_of t = Some k ->
  t <> "bit" /\ enc_template t = Some (fmap (enc_of k)) /\ dec_template t = Some (fmap (dec_of k)) /\
  exists n, NativeType t = Ok n /\ zero n = Some (zero_of k) /\ forall w, k = K_int w -> width n = Some w.
Proof.
  unfold kind_of. intros H. repeat case_bool_decide; simplify_eq;
    (split_and!; [done|by vm_compute|by vm_compute|eexists; split_and!; [by vm_compute|by vm_compute|]]);
    intros w Hw; by simplify_eq.
Qed.

(** ** Fields of a struct *)

Lemma field_app {A} f (s t : list (string * A)) : f ∉ s.*1 -> field f (s ++ t) = field f t.
Proof.
  induction s as [|[g v] s IH]; [done|]. simpl. intros [H1 H2]%not_elem_of_cons.
  rewrite bool_decide_eq_false_2 by done. by apply IH.
Qed.

Lemma field_here {A} f s (v : A) t : f ∉ s.*1 -> field f (s ++ (f, v) :: t) = Some v.
Proof. intros H. rewrite field_app by done. simpl. by rewrite bool_decide_eq_true_2. Qed.

Lemma field_in {A} f v (s t : list (string * A)) : NoDup s.*1 -> (f, v) ∈ s -> field f (s ++ t) = Some v.
Proof.
  intros Hn (s1 & s2 & ->)%list_elem_of_split. rewrite <- app_assoc. apply field_here.
  rewrite fmap_app in Hn. apply list.NoDup_app in Hn as (_ & Hn & _). intros Hi. apply (Hn _ Hi). by left.
Qed.

Lemma assign_other f v s : f ∉ s.*1 -> assign f v s = s.
Proof.
  induction s as [|[g w] s IH]; [done|]. simpl. intros [H1 H2]%not_elem_of_cons.
  rewrite bool_decide_eq_false_2 by done. f_equal. by apply IH.
Qed.

Lemma assign_here f v w s t : f ∉ s.*1 -> f ∉ t.*1 -> assign f v (s ++ (f, w) :: t) = s ++ (f, v) :: t.
Proof.
  intros Hs Ht. unfold assign. rewrite fmap_app. fold (assign f v s). rewrite assign_other by done.
  simpl. rewrite bool_decide_eq_true_2 by done. f_equal. f_equal. by apply assign_other.
Qed.

(** ** Entries: the fields of a method with their values *)

Notation entry := (Field * value)%type.
Notation group := (string * list entry)%type.

Definition named (e : entry) : string * value := (FieldName (fst e), snd e).
Definition normed (e : entry) : string * value := (FieldName (fst e), value_norm (snd e)).

Definition zero_value (t : string) : value :=
  if bool_decide (t = "bit") then V_bool false
  else match kind_of t with Some k => zero_of k | None => V_int 0 end.
Definition zeroed (root : Amqp) (e : entry) : string * value := (FieldName (fst e), zero_value (FieldType root (fst e))).

Definition names (es : list entry) : list string := (fun e => FieldName (fst e)) <$> es.

(** The value is one for the type. *)
Definition carried (t : string) (v : value) : Prop :=
  if bool_decide (t = "bit") then exists b, v = V_bool b else exists k, kind_of t = Some k /\ value_fits k v.

Lemma names_fst es root : (named <$> es).*1 = names es /\ (normed <$> es).*1 = names es /\ (zeroed root <$> es).*1 = names es.
Proof. unfold names. rewrite <- !list_fmap_compose. done. Qed.

(** ** Bits *)

Fixpoint putbits (k : nat) (bs : list bool) (z : Z) : Z :=
  match bs with
  | [] => z
  | b :: r => putbits (S k) r (putbit (Z.of_nat k) b z)
  end.

Lemma putbits_uint8 k bs z : (k + length bs <= 8)%nat -> is_uint 8 z -> is_uint 8 (putbits k bs z).
Proof.
  revert k z. induction bs as [|b bs IH]; intros k z Hk Hz; [done|]. simpl in *.
  apply IH; [lia|]. apply putbit_uint8; [lia|done].
Qed.

Lemma putbits_below j k bs z :
  (k + length bs <= 8)%nat -> is_uint 8 z -> (j < k)%nat ->
  getbit (Z.of_nat j) (putbits k bs z) = getbit (Z.of_nat j) z.
Proof.
  revert k z. induction bs as [|b bs IH]; intros k z Hk Hz Hj; [done|]. simpl in *.
  rewrite IH; [|lia|apply putbit_uint8; [lia|done]|lia].
  apply getbit_putbit_ne; [lia|lia|lia|by eapply is_uint_nonneg].
Qed.

Lemma putbits_at j k bs b z :
  (k + length bs <= 8)%nat -> is_uint 8 z -> (forall i, (k <= i)%nat -> getbit (Z.of_nat i) z = false) ->
  bs !! j = Some b -> getbit (Z.of_nat (k + j)) (putbits k bs z) = b.
Proof.
  revert j k z. induction bs as [|b' bs IH]; intros j k z Hk Hz H0 Hj; [done|]. simpl in *.
  assert (is_uint 8 (putbit (Z.of_nat k) b' z)) as Hz' by (apply putbit_uint8; [lia|done]).
  destruct j as [|j]; simpl in Hj.
  - injection Hj as ->. rewrite Nat.add_0_r, putbits_below by (done || lia).
    rewrite getbit_putbit_eq by (lia || by eapply is_uint_nonneg). rewrite H0 by lia. apply orb_false_r.
  - replace (k + S j)%nat with (S k + j)%nat by lia. apply IH; [lia|done| |done]. intros i Hi.
    rewrite getbit_putbit_ne by (lia || by eapply is_uint_nonneg). apply H0. lia.
Qed.

Definition bit_of (v : value) : bool := match v with V_bool b => b | _ => false end.

(** ** Groups *)

(** A run with its values. *)
Definition strip (g : group) : string * list Field := (fst g, fst <$> snd g).
Definition entries (gs : list group) : list entry := concat (snd <$> gs).

Definition bit_runs {A} (gs : list (string * list A)) : list (string * list A) :=
  List.filter (fun g => bool_decide (fst g = "bit")) gs.

(** ** Runs *)

Section runs.
Context (root : Amqp) (types : list (string * string)) (s : struct).

(** The field has its value in [s] and its type in the declaration. *)
Definition provided (e : entry) : Prop :=
  field (FieldName (fst e)) s = Some (snd e) /\
  field (FieldName (fst e)) types = Some (native (FieldType root (fst e))).

Lemma scalar_step k t f v cw cr bw br pre post R :
  kind_of t = Some k -> value_fits k v -> field f s = Some v -> field f types = Some (native t) ->
  f ∉ pre.*1 -> f ∉ post.*1 ->
  codec (exec_write types s bw cw) (exec_read types br cr (pre ++ (f, value_norm v) :: post)) R ->
  codec (exec_write types s bw (enc_of k f :: cw)) (exec_read types br (dec_of k f :: cr) (pre ++ (f, zero_of k) :: post)) R.
Proof.
  intros Hk Hv Hf Ht Hd Hr H. destruct (kind_templates t k Hk) as (_ & _ & _ & n & En & _ & Hw).
  destruct k as [w| | |], v as [b|z|x|tb|p|bs]; try done; cbn [enc_of dec_of zero_of exec_write exec_read];
    unfold field_width; rewrite ?Ht, Hf, field_here by done.
  - unfold native. rewrite En, (Hw w eq_refl). eapply codec_bind; [by apply codec_uint|]. by rewrite assign_here.
  - eapply codec_bind; [by apply codec_shortstr|]. by rewrite assign_here.
  - eapply codec_bind; [by apply codec_longstr|]. by rewrite assign_here.
  - eapply codec_bind; [by apply codec_table|]. by rewrite assign_here.
Qed.

Lemma scalar_run k t es cw cr bw br pre post R :
  kind_of t = Some k ->
  Forall (fun e => FieldType root (fst e) = t /\ value_fits k (snd e) /\ provided e) es ->
  NoDup (pre.*1 ++ names es ++ post.*1) ->
  codec (exec_write types s bw cw) (exec_read types br cr (pre ++ (normed <$> es) ++ post)) R ->
  codec (exec_write types s bw ((enc_of k <$> names es) ++ cw))
        (exec_read types br ((dec_of k <$> names es) ++ cr) (pre ++ (zeroed root <$> es) ++ post)) R.
Proof.
  intros Hk Hes. revert pre. induction Hes as [|[f v] es (Ht & Hv & Hf & Hty) _ IH]; intros pre Hn H; [done|].
  cbn [fst snd] in *. assert (zeroed root (f, v) = (FieldName f, zero_of k)) as Ez.
  { unfold zeroed, zero_value. cbn [fst]. by rewrite Ht, Hk, bool_decide_eq_false_2 by apply (kind_templates t k Hk). }
  change (names ((f, v) :: es)) with (FieldName f :: names es) in *. rewrite !fmap_cons, Ez, <- !app_comm_cons in *.
  apply list.NoDup_app in Hn as (N1 & N2 & [N3 N4]%list.NoDup_cons). apply not_elem_of_app in N3 as [N3 N5].
  apply (scalar_step k t _ v); [done|done|done|by rewrite Hty, Ht| | |].
  - intros Hi. apply (N2 _ Hi). by left.
  - rewrite fmap_app, (proj2 (proj2 (names_fst es root))). by apply not_elem_of_app.
  - specialize (IH (pre ++ [(FieldName f, value_norm v)])). rewrite <- !app_assoc in IH. apply IH; [|done].
    rewrite fmap_app, <- app_assoc. apply list.NoDup_app. split_and!; [done| |].
    + intros x Hx Hi. by apply (N2 x Hx).
    + simpl. apply list.NoDup_cons. split; [by apply not_elem_of_app|done].
Qed.

Definition is_bit (e : entry) : Prop :=
  FieldType root (fst e) = "bit" /\ (exists b, snd e = V_bool b) /\ provided e.

Lemma or_run es k z cw :
  Forall is_bit es -> (k + length es <= 8)%nat ->
  exec_write types s (Some z) (zip_with E_or (names es) (seq k (length es)) ++ cw) =
  exec_write types s (Some (putbits k (bit_of ∘ snd <$> es) z)) cw.
Proof.
  intros Hes. revert k z. induction Hes as [|[f v] es (_ & (b & Hb) & Hf & _) _ IH]; intros k z Hk; [done|].
  simpl in Hb, Hf, Hk. subst v. cbn [names fmap list_fmap length seq zip_with app exec_write fst].
  rewrite Hf, bool_decide_eq_true_2 by lia. apply (IH (S k)). lia.
Qed.

Lemma and_run es k z cr pre post :
  Forall is_bit es -> (k + length es <= 8)%nat -> NoDup (pre.*1 ++ names es ++ post.*1) ->
  (forall j e, es !! j = Some e -> getbit (Z.of_nat (k + j)) z = bit_of (snd e)) ->
  exec_read types (Some z) (zip_with D_and (names es) (seq k (length es)) ++ cr) (pre ++ (zeroed root <$> es) ++ post) =
  exec_read types (Some z) cr (pre ++ (normed <$> es) ++ post).
Proof.
  intros Hes. revert k pre. induction Hes as [|[f v] es (Ht & (b & Hb) & _) _ IH]; intros k pre Hk Hn Hz; [done|].
  simpl in Hb, Ht, Hk. subst v. assert (zeroed root (f, V_bool b) = (FieldName f, V_bool false)) as Ez.
  { unfold zeroed, zero_value. cbn [fst]. by rewrite Ht. }
  change (names ((f, V_bool b) :: es)) with (FieldName f :: names es) in *. rewrite !fmap_cons, Ez, <- !app_comm_cons in *.
  cbn [length seq zip_with app exec_read].
  apply list.NoDup_app in Hn as (N1 & N2 & [N3 N4]%list.NoDup_cons). apply not_elem_of_app in N3 as [N3 N5].
  assert (FieldName f ∉ pre.*1) as Hp by (intros Hi; apply (N2 _ Hi); by left).
  rewrite field_here, bool_decide_eq_true_2 by (done || lia).
  rewrite assign_here; [|done|rewrite fmap_app, (proj2 (proj2 (names_fst es root))); by apply not_elem_of_app].
  specialize (Hz 0%nat _ eq_refl) as Hz0. rewrite Nat.add_0_r in Hz0. simpl in Hz0. rewrite Hz0.
  specialize (IH (S k) (pre ++ [(FieldName f, V_bool b)])). rewrite <- !app_assoc in IH. apply IH; [lia| |].
  - rewrite fmap_app, <- app_assoc. apply list.NoDup_app. split_and!; [done| |].
    + intros x Hx Hi. by apply (N2 x Hx).
    + simpl. apply list.NoDup_cons. split; [by apply not_elem_of_app|done].
  - intros j e Hj. rewrite <- (Hz (S j) e Hj). do 2 f_equal. lia.
Qed.

Lemma bit_run es cw cr z0 pre post R :
  Forall is_bit es -> (length es <= 8)%nat -> NoDup (pre.*1 ++ names es ++ post.*1) ->
  (forall z, codec (exec_write types s (Some z) cw) (exec_read types (Some z) cr (pre ++ (normed <$> es) ++ post)) R) ->
  codec (exec_write types s (Some 0) (zip_with E_or (names es) (seq 0 (length es)) ++ E_bits :: cw))
    (exec_read types (Some z0) (D_bits :: zip_with D_and (names es) (seq 0 (length es)) ++ cr)
       (pre ++ (zeroed root <$> es) ++ post)) R.
Proof.
  intros Hes Hl Hn H. rewrite or_run by done. set (z := putbits _ _ _). cbn [exec_write exec_read].
  assert (is_uint 8 z) as Hz by (apply putbits_uint8; [by rewrite length_fmap|by vm_compute]).
  eapply codec_bind; [by apply codec_uint|]. rewrite and_run; [apply H|done|done|done|].
  intros j e Hj. apply putbits_at; [by rewrite length_fmap|by vm_compute|intros; apply getbit_0|].
  rewrite list_lookup_fmap. exact (f_equal (fmap (bit_of ∘ snd)) Hj).
Qed.

(** *** All the runs of a method *)

Definition group_ok (g : group) : Prop :=
  snd g <> [] /\ (fst g = "bit" -> (length (snd g) <= 8)%nat) /\
  Forall (fun e => FieldType root (fst e) = fst g /\ carried (fst g) (snd e) /\ provided e) (snd g).

Lemma Partial_cons {A} (lookup : string -> option (list string -> list A)) prefix g gs code :
  Partial lookup prefix (of_run ∘ strip <$> g :: gs) = Ok code ->
  exists t code', lookup (fst g) = Some t /\ Partial lookup prefix (of_run ∘ strip <$> gs) = Ok code' /\
    code = t (names (snd g)) ++ code'.
Proof.
  simpl. destruct (lookup (fst g)) as [t|]; [|done]. destruct (Partial lookup prefix _) as [code'| | |] eqn:E; try done.
  simpl. intros [= <-]. exists t, code'. split_and!; [done|done|]. unfold names. by rewrite <- list_fmap_compose.
Qed.

Lemma group_kind g : group_ok g -> fst g <> "bit" -> exists k, kind_of (fst g) = Some k /\
  Forall (fun e => FieldType root (fst e) = fst g /\ value_fits k (snd e) /\ provided e) (snd g).
Proof.
  intros (Hne & _ & H) Ht. unfold carried in H. rewrite bool_decide_eq_false_2 in H by done.
  destruct (snd g) as [|e es]; [done|]. pose proof (Forall_inv H) as (_ & (k & Hk & _) & _). exists k. split; [done|].
  eapply Forall_impl; [|exact H]. intros e' (H1 & (k' & Hk' & Hv) & H2). by replace k with k' by congruence.
Qed.

Lemma group_bits g : group_ok g -> fst g = "bit" -> Forall is_bit (snd g).
Proof.
  intros (_ & _ & H) Ht. rewrite Ht in H. eapply Forall_impl; [|exact H]. by intros e (H1 & H2 & H3).
Qed.

Lemma groups_codec gs bw br cw cr pre post :
  Forall group_ok gs ->
  length (bit_runs gs) = 0%nat \/ (length (bit_runs gs) <= 1)%nat /\ bw = Some 0 /\ is_Some br ->
  Partial enc_template "enc-" (of_run ∘ strip <$> gs) = Ok cw ->
  Partial dec_template "dec-" (of_run ∘ strip <$> gs) = Ok cr ->
  NoDup (pre.*1 ++ names (entries gs) ++ post.*1) ->
  codec (exec_write types s bw cw) (exec_read types br cr (pre ++ (zeroed root <$> entries gs) ++ post))
    (pre ++ (normed <$> entries gs) ++ post).
Proof.
  intros Hgs. revert bw br cw cr pre. induction Hgs as [|g gs Hg Hgs IH]; intros bw br cw cr pre Hb Ew Er Hn.
  { injection Ew as <-. injection Er as <-. apply codec_ret. }
  apply Partial_cons in Ew as (tw & cw' & Etw & Ew & ->). apply Partial_cons in Er as (tr & cr' & Etr & Er & ->).
  change (entries (g :: gs)) with (snd g ++ entries gs) in *. rewrite !fmap_app, <- !app_assoc.
  assert (names (snd g ++ entries gs) = names (snd g) ++ names (entries gs)) as En by apply fmap_app. rewrite En, <- app_assoc in Hn.
  assert (NoDup (pre.*1 ++ names (snd g) ++ ((zeroed root <$> entries gs) ++ post).*1)) as Hn1
    by (rewrite fmap_app; by rewrite (proj2 (proj2 (names_fst (entries gs) root)))).
  assert (NoDup ((pre ++ (normed <$> snd g)).*1 ++ names (entries gs) ++ post.*1)) as Hn2
    by (rewrite fmap_app, (proj1 (proj2 (names_fst (snd g) root))); by rewrite <- app_assoc).
  specialize (fun bw br => IH bw br cw' cr' (pre ++ (normed <$> snd g))). 
  assert (forall bw br, length (bit_runs gs) = 0%nat \/ (length (bit_runs gs) <= 1)%nat /\ bw = Some 0 /\ is_Some br ->
    codec (exec_write types s bw cw') (exec_read types br cr' (pre ++ (normed <$> snd g) ++ (zeroed root <$> entries gs) ++ post))
      (pre ++ (normed <$> snd g) ++ (normed <$> entries gs) ++ post)) as Hrest.
  { intros bw' br' Hb'. specialize (IH bw' br' Hb' Ew Er Hn2). by rewrite <- !app_assoc in IH. }
  destruct (decide (fst g = "bit")) as [Ht|Ht].
  - rewrite Ht in Etw, Etr. injection Etw as <-. injection Etr as <-. simpl in Hb.
    rewrite bool_decide_eq_true_2 in Hb by done. simpl in Hb. destruct Hb as [Hb|(Hb & -> & z0 & ->)]; [done|].
    assert (length (names (snd g)) = length (snd g)) as El by apply length_fmap. rewrite El, <- app_assoc.
    apply bit_run; [by apply group_bits|by apply Hg|done|]. intros z. apply Hrest. left. lia.
  - destruct (group_kind g Hg Ht) as (k & Hk & Hes). destruct (kind_templates _ _ Hk) as (_ & E1 & E2 & _).
    rewrite E1 in Etw. rewrite E2 in Etr. injection Etw as <-. injection Etr as <-.
    apply (scalar_run k (fst g)); [done|done|done|]. apply Hrest. simpl in Hb. by rewrite bool_decide_eq_false_2 in Hb.
Qed.

End runs.

(** ** Methods *)

Lemma group_entries root es : exists gs, strip <$> gs = runs root (fst <$> es) /\ entries gs = es /\
  Forall (fun g => snd g <> [] /\ Forall (fun e => FieldType root (fst e) = fst g) (snd g)) gs.
Proof.
  induction es as [|e es (gs & E1 & E2 & H)]; [by exists []|]. rewrite fmap_cons. cbn [runs]. rewrite <- E1. destruct H as [|[t g] gs [Hne Hg] H]; simpl.
  - exists [(FieldType root (fst e), [e])]. simpl in E2. subst es. split_and!; [done|done|]. repeat constructor; done.
  - case_bool_decide as Ht.
    + exists ((t, e :: g) :: gs). split_and!; [done|unfold entries in *; simpl in *; by rewrite E2|].
      constructor; [|done]. split; [done|]. by constructor.
    + exists ((FieldType root (fst e), [e]) :: (t, g) :: gs). split_and!; [done|unfold entries in *; simpl in *; by rewrite E2|].
      constructor; [|by constructor]. split; [done|]. by repeat constructor.
Qed.

Lemma struct_fields_spec root fields types :
  struct_fields root fields = Ok types -> types = (fun f => (FieldName f, native (FieldType root f))) <$> fields.
Proof.
  revert types. induction fields as [|f r IH]; intros types; simpl; [by intros [= <-]|]. unfold native at 1.
  destruct (NativeType (FieldType root f)) as [n| | |]; try done. simpl.
  destruct (struct_fields root r) as [rest| | |]; try done. simpl. intros [= <-]. f_equal. by apply IH.
Qed.

Lemma zeros_spec root es :
  Forall (fun e => carried (FieldType root (fst e)) (snd e)) es ->
  zeros ((fun f => (FieldName f, native (FieldType root f))) <$> (fst <$> es)) = Some (zeroed root <$> es).
Proof.
  induction 1 as [|e es He _ IH]; [done|]. rewrite !fmap_cons. cbn [zeros]. rewrite IH. unfold zeroed at 2, zero_value. unfold carried in He.
  case_bool_decide as Ht; [by rewrite Ht|]. destruct He as (k & Hk & _). rewrite Hk.
  destruct (kind_templates _ _ Hk) as (_ & _ & _ & n & En & Ez & _). unfold native. by rewrite En, Ez.
Qed.

Definition content_names (m : Method) : list string := if Method_Content m then ["Properties"; "Body"] else [].
Definition no_content (m : Method) : struct :=
  if Method_Content m then [("Properties", V_properties zeroProperties); ("Body", V_bytes [])] else [].

(** The names differ, and there is at most one run of bits, of eight at
    most. *)
Definition well_formed (root : Amqp) (m : Method) : bool :=
  let bits := bit_runs (runs root (Method_Fields m)) in
  bool_decide (length bits <= 1)%nat && forallb (fun r => bool_decide (length (snd r) <= 8)%nat) bits &&
  bool_decide (NoDup ((FieldName <$> Method_Fields m) ++ content_names m)).

Lemma bit_runs_strip (gs : list group) : bit_runs (strip <$> gs) = strip <$> bit_runs gs.
Proof. unfold bit_runs. induction gs as [|g gs IH]; [done|]. rewrite fmap_cons. cbn [List.filter]. rewrite IH.
  change (fst (strip g)) with (fst g). by case_bool_decide. Qed.

(** The entries of a method in its groups. *)
Lemma method_groups root m es types s :
  well_formed root m = true -> fst <$> es = Method_Fields m ->
  Forall (fun e => carried (FieldType root (fst e)) (snd e) /\ provided root types s e) es ->
  exists gs, strip <$> gs = runs root (Method_Fields m) /\ entries gs = es /\ Forall (group_ok root types s) gs /\
    (length (bit_runs gs) <= 1)%nat /\ (HasType root "bit" m = false -> length (bit_runs gs) = 0%nat).
Proof.
  intros Hw Ef Hes. unfold well_formed in Hw. apply andb_true_iff in Hw as [[H1 H2]%andb_true_iff _].
  apply bool_decide_eq_true in H1. rewrite <- Ef in *.
  destruct (group_entries root es) as (gs & E1 & E2 & Hg). exists gs. rewrite <- E1, bit_runs_strip in H1, H2. rewrite length_fmap in H1.
  split_and!; [done|done| |done|].
  - rewrite <- E2 in Hes. clear -Hg Hes H2. induction Hg as [|g gs [Hne Hg] _ IH]; [constructor|].
    apply Forall_app in Hes as [Hg1 Hes]. constructor.
    + split_and!; [done| |].
      * intros Ht. simpl in H2. rewrite bool_decide_eq_true_2 in H2 by done. simpl in H2.
        apply andb_true_iff in H2 as [H2 _]. apply bool_decide_eq_true in H2. by rewrite length_fmap in H2.
      * apply Forall_and; [exact Hg|]. apply Forall_forall. intros e He.
        pose proof (proj1 (Forall_forall _ _) Hg e He) as Ht. pose proof (proj1 (Forall_forall _ _) Hg1 e He) as Hc.
        by rewrite <- Ht.
    + apply IH; [|done]. simpl in H2. case_bool_decide; [|done]. simpl in H2. by apply andb_true_iff in H2 as [_ H2].
  - intros Hb. destruct (bit_runs gs) as [|g r] eqn:Eb; [done|]. exfalso.
    assert (g ∈ gs /\ fst g = "bit") as [Hi Ht].
    { assert (List.In g (bit_runs gs)) as Hi by (rewrite Eb; by left). unfold bit_runs in Hi.
      apply List.filter_In in Hi as [Hi Ht]. split; [by apply list_elem_of_In|by apply bool_decide_eq_true in Ht]. }
    pose proof (proj1 (Forall_forall _ _) Hg g (proj1 (list_elem_of_In _ _) Hi)) as [Hne Hg1].
    destruct (snd g) as [|e r'] eqn:Eg; [done|]. apply Forall_inv in Hg1.
    unfold HasType in Hb. rewrite <- Ef in Hb.
    assert (existsb (fun f => bool_decide (FieldType root f = "bit")) (fst <$> es) = true); [|congruence].
    apply existsb_exists. exists (fst e). split; [|apply bool_decide_eq_true; congruence].
    apply list_elem_of_In, list_elem_of_fmap. exists e. split; [done|]. rewrite <- E2. unfold entries.
    apply list_elem_of_In, in_concat. exists (snd g). split; [|rewrite Eg; by left].
    apply list_elem_of_In, list_elem_of_fmap. by exists g.
Qed.

(** C24: For any specification, the [read] that is generated for a method
    reads back what the [write] generated for it writes, field by field,
    whenever every field carries a value of its type that fits the encoding,
    the fields have different names and their bits are at most eight in a
    row.  (Tables come back normalised, [Properties] and [Body] zero.) *)
Theorem generated_roundtrip root class m g es extra :
  method_template root class m = Ok g -> well_formed root m = true -> fst <$> es = Method_Fields m ->
  Forall (fun e => carried (FieldType root (fst e)) (snd e)) es ->
  codec (run_write g ((named <$> es) ++ extra)) (run_read g) ((normed <$> es) ++ no_content m).
Proof.
  intros E Hw Ef Hes. unfold method_template in E. apply obind_inv in E as (types & Et & E).
  apply obind_inv in E as (sets & Es & E). apply obind_inv in E as (cw & Ew & E). apply obind_inv in E as (cr & Er & E).
  injection E as <-. apply struct_fields_spec in Et. rewrite Fieldsets_runs in Es.
  destruct (forallb _ _); [|done]. injection Es as <-.
  assert (NoDup (names es ++ content_names m)) as Hn.
  { unfold well_formed in Hw. apply andb_true_iff in Hw as [_ Hw]. apply bool_decide_eq_true in Hw.
    unfold names. by rewrite <- Ef, <- list_fmap_compose in Hw. }
  set (s := (named <$> es) ++ extra).
  assert (Forall (fun e => carried (FieldType root (fst e)) (snd e) /\ provided root types s e) es) as Hp.
  { apply Forall_and; [done|]. apply Forall_forall. intros e He%list_elem_of_In. apply list.NoDup_app in Hn as (Hn & _).
    split; [apply field_in; [by rewrite (proj1 (names_fst es root))|apply list_elem_of_fmap; by exists e]|].
    rewrite <- (app_nil_r types), Et, <- Ef, <- list_fmap_compose. apply field_in.
    - by rewrite <- list_fmap_compose.
    - apply list_elem_of_fmap. by exists e. }
  destruct (method_groups root m es types s Hw Ef Hp) as (gs & E1 & E2 & Hg & Hb & Hb0).
  rewrite <- E1, <- list_fmap_compose in Ew, Er.
  unfold run_write, run_read, zero_struct. cbn [g_fields g_write g_read g_content fst snd].
  rewrite Et, <- Ef, zeros_spec by done. fold (no_content m).
  rewrite Ef, <- Et. rewrite <- E2. apply (groups_codec root types s gs _ _ cw cr [] (no_content m)); [done| |done|done|].
  - destruct (HasType root "bit" m); [right; split_and!; [done|done|by exists 0]|left; by apply Hb0].
  - rewrite E2. simpl. unfold no_content, content_names in *. by destruct (Method_Content m).
Qed.

(** The methods of the protocol are such. *)
Lemma amqp_well_formed : forallb (fun c => forallb (well_formed amqp) (Class_Methods c)) (Classes amqp) = true.
Proof. by vm_compute. Qed.

(** ** Beyond *)

(** Two runs of bits, and nine bits. *)
Definition two_runs : Method :=
  MkMethod "two-runs" false false "10" [] [of_type false "a" "bit"; of_type false "x" "octet"; of_type false "b" "bit"].
Definition nine_bits : Method :=
  MkMethod "nine-bits" false false "11" []
    ((fun n => of_type false n "bit") <$> ["a"; "b"; "c"; "d"; "e"; "f"; "g"; "h"; "i"]).
Definition odd_class : Class := MkClass "odd" "1" [two_runs; nine_bits].

(** The code generated for a method. *)
Definition generated (m : Method) : go_method :=
  match method_template amqp odd_class m with
  | Ok g => g
  | _ => MkGoMethod [] "" [] false ("", "") (false, false) (false, []) (false, [])
  end.

(** The bits must be one run.  The octet that the generated code collects
    bits in is not cleared after it is written, so the bits of a second run
    come with those of the first: a field that was not set is read as set.
    And of nine bits in a row the code does not compile; the generator
    reports neither. *)
Theorem bit_runs_leak :
  (forall m, m = two_runs \/ m = nine_bits -> method_template amqp odd_class m = Ok (generated m)) /\
  (exists bs, run_writer (run_write (generated two_runs) [("A", V_bool true); ("X", V_int 7); ("B", V_bool false)]) = (None, bs) /\
     fst (run_read (generated two_runs) (Rdr bs EOF)) = Ok [("A", V_bool true); ("X", V_int 7); ("B", V_bool true)]) /\
  (forall s, (forall f, f ∈ FieldName <$> Method_Fields nine_bits -> exists b, field f s = Some (V_bool b)) ->
     run_writer (run_write (generated nine_bits) s) = (Some rejected, [])).
Proof.
  split_and!.
  - intros m [->| ->]; by vm_compute.
  - exists [Zbyte 1; Zbyte 7; Zbyte 1]. by vm_compute.
  - intros s Hs.
    destruct (Hs "A") as [a Ha]; [by left|]. destruct (Hs "B") as [b Hb]; [by right; left|].
    destruct (Hs "C") as [c Hc]; [by do 2 right; left|]. destruct (Hs "D") as [d Hd]; [by do 3 right; left|].
    destruct (Hs "E") as [e He]; [by do 4 right; left|]. destruct (Hs "F") as [f Hf]; [by do 5 right; left|].
    destruct (Hs "G") as [g Hg]; [by do 6 right; left|]. destruct (Hs "H") as [h Hh]; [by do 7 right; left|].
    destruct (Hs "I") as [i Hi]; [by do 8 right; left|].
    unfold run_write. change (g_write (generated nine_bits)) with
      (true, zip_with E_or ["A"; "B"; "C"; "D"; "E"; "F"; "G"; "H"; "I"] (seq 0 9) ++ [E_bits]).
    cbn [fst snd declared zip_with seq app exec_write]. by rewrite Ha, Hb, Hc, Hd, He, Hf, Hg, Hh, Hi.
Qed.

(** A field of a domain that the specification does not have is of the type of
    the last domain. *)
Lemma unknown_domain root f ds d :
  Domains root = ds ++ [d] -> Field_Type f = "" -> Field_Domain f ∉ Domain_Name <$> Domains root ->
  FieldType root f = Domain_Type d.
Proof.
  intros Hd Ht Hn. unfold FieldType, renderer_Domain. rewrite Ht, Hd in *. clear Ht Hd. simpl. generalize (MkDomain "" "").
  induction ds as [|x ds IH]; intros y; simpl in *.
  - rewrite bool_decide_eq_false_2; [done|]. intros E. apply Hn. rewrite E. by left.
  - apply not_elem_of_cons in Hn as [H1 H2]. rewrite bool_decide_eq_false_2 by done. by apply IH.
Qed.

(** ** An instance *)

Definition declare : Method := default two_runs (Class_Methods queue_class !! 0%nat).

Definition declare_values : list entry :=
  zip (Method_Fields declare)
    [V_int 0; V_string "q"; V_bool false; V_bool true; V_bool false; V_bool true; V_bool false; V_table []].

Lemma generated_roundtrip_witness :
  exists g, method_template amqp queue_class declare = Ok g /\
    codec (run_write g ((named <$> declare_values) ++ [])) (run_read g) ((normed <$> declare_values) ++ no_content declare).
Proof.
  eexists. split; [vm_compute; reflexivity|].
  apply (generated_roundtrip amqp queue_class declare); [by vm_compute|by vm_compute|by vm_compute|].
  repeat constructor; vm_compute; first [by eexists|eexists; split; [reflexivity|by vm_compute]].
Defined.

End GenCodec.
