(* ===== verification/ClientApp.v ===== *)
(** * ClientApp: the program of the reconnecting client (publish, consume and
      main of _examples/client/client.go)

    Two clients, one that pushes a message every two seconds and one that
    consumes, each used by a goroutine until its context ends; [main] waits
    for both.  Timers fire whenever they like. *)

From S2P Require Import Prelude Types Io SpecBasic Spec091 Delivery Consumers State Channel ChannelApi Connection.
From S2P Require Import Executions Peer Client Runs ClientRuns PubSub.

Module ClientApp.

(** The client runs, and no call of it starts. *)
Definition client_runs (w w' : world) : Prop :=
  client_step w w' /\ (between_calls (w_app w) = true -> w_app w' = w_app w).

(** ** [publish] *)

Inductive publish_pc :=
  | U_select
  | U_push                              (** [queue.Push(message)] *)
  | U_close                             (** [queue.Close()] *)
  | U_returned.                         (** after [close(done)] *)

Definition message : list byte := bytes_of_string "message".

Inductive publish : publish_pc * world -> publish_pc * world -> Prop :=
  | publish_runs pc w w' : client_runs w w' -> publish (pc, w) (pc, w')
  | publish_tick w : publish (U_select, w) (U_push, app_goto (Push_start message) w)
  | publish_pushed r w : w_app w = Push_returned r -> publish (U_push, w) (U_select, w)
  | publish_deadline w : publish (U_select, w) (U_close, app_goto Close_start w)
  | publish_closed r w : w_app w = Close_returned r -> publish (U_close, w) (U_returned, w).

(** ** [consume] *)

(** [deliveries]: the goroutine of a channel that sends them, and how many
    were received; [None] is [nil]. *)
Record stream := MkStream { st_channel : nat * nat; st_buffer : nat; st_received : nat }.

(** [chClosedCh], with the channel it was given to. *)
Record closed_chan := MkClosedChan { cc_channel : nat * nat; cc_listener : nat }.

Inductive consume_pc :=
  | X_setup                             (** [<-time.After(time.Second)] *)
  | X_first (on : option (nat * nat))   (** [queue.Consume()], of this channel *)
  | X_notify (d : option stream)        (** [queue.channel.NotifyClose(chClosedCh)] *)
  | X_select (d : option stream) (k : closed_chan)
  | X_again (k : closed_chan) (on : option (nat * nat))   (** [queue.Consume()] in the loop *)
  | X_ack (d : stream) (k : closed_chan) (x : Delivery)   (** [delivery.Ack(false)] *)
  | X_close                             (** [queue.Close()] *)
  | X_returned                          (** after [close(done)] *)
  | X_failed                            (** returned without it *)
  | X_panicking.

Definition at_call (on : option (nat * nat)) (w : world) : option (nat * nat) :=
  match w_app w with Consume_consume => cl_channel (w_client w) | _ => on end.

Definition new_stream (on : option (nat * nat)) (b : option nat) : option stream :=
  match on, b with Some p, Some b => Some (MkStream p b 0) | _, _ => None end.

(** What a receive gives: the zero [Delivery] when they are closed. *)
Definition stream_next (d : stream) (w : world) : option Delivery :=
  match PubSub.next_delivery (st_channel d) (st_buffer d) (st_received d) (w_conns w) with
  | Some (Some x) => Some x
  | Some None => Some zeroDelivery
  | None => None
  end.

(** [chClosedCh] holds an error or is closed. *)
Definition closed_ready (k : closed_chan) (w : world) : bool :=
  match w_conns w !! fst (cc_channel k) with
  | Some c => close_ready (Some (cc_listener k)) c
  | None => false
  end.

Inductive consume : consume_pc * world -> consume_pc * world -> Prop :=
  | consume_runs pc w w' :
      client_runs w w' -> (forall on, pc <> X_first on) -> (forall k on, pc <> X_again k on) -> consume (pc, w) (pc, w')
  | consume_set_up w : consume (X_setup, w) (X_first None, app_goto Consume_start w)
  | consume_first on w w' : client_runs w w' -> consume (X_first on, w) (X_first (at_call on w), w')
  | consume_first_failed on e w : w_app w = Consume_returned (inl e) -> consume (X_first on, w) (X_failed, w)
  | consume_first_ok on b w :
      w_app w = Consume_returned (inr b) -> consume (X_first on, w) (X_notify (new_stream on b), w)
  | consume_notify d i a l w w' :
      cl_channel (w_client w) = Some (i, a) -> unused l w -> on_conn i (Channel_NotifyClose a l) w = Ok (tt, w') ->
      consume (X_notify d, w) (X_select d (MkClosedChan (i, a) l), w')
  | consume_notify_nil d w : cl_channel (w_client w) = None -> consume (X_notify d, w) (X_panicking, w)
  | consume_timeout d k w : consume (X_select d k, w) (X_close, app_goto Close_start w)
  | consume_closed r w : w_app w = Close_returned r -> consume (X_close, w) (X_returned, w)
  | consume_chan_closed d k w :
      closed_ready k w = true -> consume (X_select d k, w) (X_again k None, app_goto Consume_start w)
  | consume_again k on w w' : client_runs w w' -> consume (X_again k on, w) (X_again k (at_call on w), w')
  | consume_again_failed k on e w :
      w_app w = Consume_returned (inl e) -> consume (X_again k on, w) (X_select None k, w)
  | consume_again_ok k on b w :
      w_app w = Consume_returned (inr b) -> consume (X_again k on, w) (X_notify (new_stream on b), w)
  | consume_delivery d k x w :
      stream_next d w = Some x ->
      consume (X_select (Some d) k, w) (X_ack (MkStream (st_channel d) (st_buffer d) (S (st_received d))) k x, w)
  | consume_ack d k x err w w' :
      on_conn (fst (st_channel d)) (Delivery_Ack x false) w = Ok (err, w') ->
      consume (X_ack d k x, w) (X_select (Some d) k, w').

(** ** [main] *)

Inductive main_pc := M_publish | M_consume | M_exited.

Record program := MkProgram { g_publish : publish_pc * world; g_consume : consume_pc * world; g_main : main_pc }.

Inductive main_step : program -> program -> Prop :=
  | main_publishes u u' x m : publish u u' -> main_step (MkProgram u x m) (MkProgram u' x m)
  | main_consumes u x x' m : consume x x' -> main_step (MkProgram u x m) (MkProgram u x' m)
  | main_published u x : fst u = U_returned -> main_step (MkProgram u x M_publish) (MkProgram u x M_consume)
  | main_consumed u x : fst x = X_returned -> main_step (MkProgram u x M_consume) (MkProgram u x M_exited).

Definition main : program := MkProgram (U_select, New "job_queue") (X_setup, New "job_queue") M_publish.

End ClientApp.
