(* ===== verification/ClientAppFacts.v ===== *)
(** * ClientAppFacts: when the program of the reconnecting client exits *)

From S2P Require Import Prelude Types Io SpecChannel SpecBasic Spec091 Delivery Consumers State Channel ChannelApi Connection.
From S2P Require Import ChannelFacts Registry Executions Peer Client Runs ClientRuns PubSub ClientApp.

Module ClientAppFacts.
Import ClientApp.

(** ** Exiting *)

(** [main] has received only what the goroutines closed. *)
Definition awaited (p : program) : Prop :=
  match g_main p with
  | M_publish => True
  | M_consume => fst (g_publish p) = U_returned
  | M_exited => fst (g_publish p) = U_returned /\ fst (g_consume p) = X_returned
  end.

Lemma publish_final u u' : publish u u' -> fst u = U_returned -> fst u' = U_returned.
Proof. by intros []. Qed.

Lemma consume_final x x' : consume x x' -> fst x = X_returned \/ fst x = X_failed -> fst x' = fst x.
Proof. by intros [] []. Qed.

Lemma awaited_step p p' : main_step p p' -> awaited p -> awaited p'.
Proof.
  intros [u u' x m Hu|u x x' m Hx|u x Hu|u x Hx]; unfold awaited; simpl; [| |done|done].
  - pose proof (publish_final u u' Hu). destruct m; [done|by auto|intros []; by auto].
  - pose proof (consume_final x x' Hx) as H. destruct m; [done|done|]. intros [Hu Hr]. rewrite H by (by left). by rewrite Hr.
Qed.

Lemma failed_step p p' : main_step p p' -> fst (g_consume p) = X_failed -> fst (g_consume p') = X_failed.
Proof.
  intros [u u' x m Hu|u x x' m Hx|u x Hu|u x Hx]; simpl; [done| |done|done].
  intros E. rewrite (consume_final x x' Hx) by (by right). done.
Qed.

(** The program exits only after both goroutines left their loops and
    closed their Go channels.  When the first [Consume] fails, as it does when
    a second was not enough to connect, [consume] returns without closing its
    channel: from then on the program never exits, and such an execution
    exists. *)
Theorem client_exits_after_both :
  (forall p, rtc main_step main p -> g_main p = M_exited ->
     fst (g_publish p) = U_returned /\ fst (g_consume p) = X_returned) /\
  (forall p p', rtc main_step main p -> fst (g_consume p) = X_failed -> rtc main_step p p' -> g_main p' <> M_exited) /\
  (exists p, rtc main_step main p /\ fst (g_consume p) = X_failed).
Proof.
  assert (forall p, rtc main_step main p -> awaited p) as Ha.
  { intros p H. cut (awaited main); [|done]. induction H as [|p1 p2 p3 Hs _ IH]; [done|]. intros A. by eapply IH, awaited_step. }
  split_and!.
  - intros p H E. specialize (Ha p H). unfold awaited in Ha. by rewrite E in Ha.
  - intros p p' H Hf H' E. specialize (Ha p' ltac:(by etransitivity)). unfold awaited in Ha. rewrite E in Ha.
    assert (fst (g_consume p') = X_failed) as Hf'.
    { clear -H' Hf. induction H' as [|p1 p2 p3 Hs _ IH]; [done|]. by eapply IH, failed_step. }
    destruct Ha. congruence.
  - set (w := app_goto Consume_start (New "job_queue")).
    exists (MkProgram (U_select, New "job_queue") (X_failed, app_goto (Consume_returned (inl ErrNotConnected)) w) M_publish).
    split; [|done]. eapply rtc_l; [apply main_consumes, consume_set_up|]. eapply rtc_l.
    { apply main_consumes, (consume_first None w (app_goto (Consume_returned (inl ErrNotConnected)) w)). split; [|done]. by apply (step_consume (FromErrors None)), consume_not_ready. }
    apply rtc_once, main_consumes. by eapply consume_first_failed.
Qed.

(** ** A reconnection in between *)

(** [Client_Consume] as a function. *)
Definition exec_consume (tag : string) (r : reply) (w : world) : option world :=
  match w_app w, cl_channel (w_client w) with
  | Consume_start, _ => guard (cl_isReady (w_client w)) (app_goto Consume_qos w)
  | Consume_qos, Some (i, a) =>
      done_with (on_conn i (Qos a 1 0 false r) w) (fun err =>
        app_goto (match err with Some e => Consume_returned (inl (FromLibrary e)) | None => Consume_consume end))
  | Consume_consume, Some (i, a) =>
      done_with (on_conn i (Consume a (cl_queueName (w_client w)) "" false false false false [] tag r) w) (fun x =>
        app_goto (Consume_returned (match fst x with Some e => inl (FromLibrary e) | None => inr (snd x) end)))
  | _, _ => None
  end.

Lemma exec_consume_sound tag r w w' : exec_consume tag r w = Some w' -> Client_Consume r w w'.
Proof.
  unfold exec_consume. destruct (w_app w) eqn:Ea; try done.
  - intros [E ->]%guard_inv. by apply consume_ready.
  - destruct (cl_channel (w_client w)) as [[i a]|] eqn:Ec; [|done]. intros (x & w1 & E & ->)%done_with_inv. by eapply consume_Qos.
  - destruct (cl_channel (w_client w)) as [[i a]|] eqn:Ec; [|done]. intros (x & w1 & E & ->)%done_with_inv. by eapply consume_Consume.
Qed.

(** The goroutine [b] of a consumer of channel [a] of connection [i] makes its
    first choice. *)
Definition exec_buffer (i a b : nat) (w : world) : option world :=
  match w_conns w !! i with
  | Some c =>
      match cn_objs c !! a with
      | Some ch =>
          match c_bufs (ch_consumers ch) !! b with
          | Some x =>
              match buffer_choices (c_closed (ch_consumers ch)) x with
              | x' :: _ =>
                  Some (set_conns (<[i := set_chan a (with_consumers (set_buffer b x' (ch_consumers ch)) ch) c]> (w_conns w)) w)
              | [] => None
              end
          | None => None
          end
      | None => None
      end
  | None => None
  end.

Lemma exec_buffer_sound i a b w w' : exec_buffer i a b w = Some w' -> client_step w w'.
Proof.
  unfold exec_buffer. destruct (w_conns w !! i) as [c|] eqn:Hc; [|done].
  destruct (cn_objs c !! a) as [ch|] eqn:Ha; [|done]. destruct (c_bufs _ !! b) as [x|] eqn:Hb; [|done].
  destruct (buffer_choices _ _) as [|x' xs] eqn:Ex; [done|]. intros [= <-]. apply (step_peer i c); [done|].
  apply (peer_consumer a b x x' ch c Ha Hb). unfold buffer_step. rewrite Ex. by left.
Qed.

(** Moves of the client, of the call of [Consume], and of consumers. *)
Inductive client_move :=
  | Client_move (m : move)
  | Consume_move (tag : string) (r : reply)
  | Buffer_move (i a b : nat).

Definition run_client (m : client_move) (w : world) : option world :=
  match m with
  | Client_move m => exec m w
  | Consume_move tag r => exec_consume tag r w
  | Buffer_move i a b => exec_buffer i a b w
  end.

(** No call starts: nothing was called yet, or [Consume] has returned. *)
Definition same_call (w w' : world) : bool :=
  match w_app w, w_app w' with
  | A_idle, A_idle => true
  | Consume_returned (inr (Some b)), Consume_returned (inr (Some b')) => bool_decide (b = b')
  | pc, _ => negb (between_calls pc)
  end.

Lemma run_client_runs m w w' : run_client m w = Some w' -> same_call w w' = true -> client_runs w w'.
Proof.
  intros E H. split.
  - destruct m as [m|tag r|i a b]; [by eapply exec_sound|by eapply (step_consume r), exec_consume_sound|by eapply exec_buffer_sound].
  - unfold same_call in H. intros Hb. destruct (w_app w) as [| | | | | | | | | | |[e|[b|]]| | | | |]; try done;
      destruct (w_app w') as [| | | | | | | | | | |[e'|[b'|]]| | | | |]; try done.
    by apply bool_decide_eq_true in H as ->.
Qed.

(** A move of the goroutine [consume]. *)
Inductive consume_move :=
  | C_client (m : client_move)
  | C_set_up
  | C_returned
  | C_notify (l : nat).

Definition consume_exec (m : consume_move) (s : consume_pc * world) : option (consume_pc * world) :=
  let (pc, w) := s in
  match m, pc with
  | C_client m, X_first on =>
      match run_client m w with Some w' => if same_call w w' then Some (X_first (at_call on w), w') else None | None => None end
  | C_client m, (X_setup | X_notify _) =>
      match run_client m w with Some w' => if same_call w w' then Some (pc, w') else None | None => None end
  | C_set_up, X_setup => Some (X_first None, app_goto Consume_start w)
  | C_returned, X_first on =>
      match w_app w with Consume_returned (inr b) => Some (X_notify (new_stream on b), w) | _ => None end
  | C_notify l, X_notify d =>
      match cl_channel (w_client w) with
      | Some (i, a) =>
          if unusedb l w then
            match on_conn i (Channel_NotifyClose a l) w with
            | Ok (_, w') => Some (X_select d (MkClosedChan (i, a) l), w')
            | _ => None
            end
          else None
      | None => None
      end
  | _, _ => None
  end.

Lemma consume_exec_sound m s s' : consume_exec m s = Some s' -> consume s s'.
Proof.
  destruct s as [pc w]. destruct m as [m| | |l], pc; try discriminate; cbn [consume_exec].
  - destruct (run_client m w) as [w'|] eqn:E; [|done]. destruct (same_call w w') eqn:Es; [|done]. intros [= <-].
    apply consume_runs; [by eapply run_client_runs|done|done].
  - destruct (run_client m w) as [w'|] eqn:E; [|done]. destruct (same_call w w') eqn:Es; [|done]. intros [= <-].
    apply consume_first. by eapply run_client_runs.
  - destruct (run_client m w) as [w'|] eqn:E; [|done]. destruct (same_call w w') eqn:Es; [|done]. intros [= <-].
    apply consume_runs; [by eapply run_client_runs|done|done].
  - intros [= <-]. apply consume_set_up.
  - destruct (w_app w) as [| | | | | | | | | | |[e|b]| | | | |] eqn:Ea; try done. intros [= <-]. by apply consume_first_ok.
  - destruct (cl_channel (w_client w)) as [[i a]|] eqn:Ec; [|done]. destruct (unusedb l w) eqn:Eu; [|done].
    destruct (on_conn _ _ _) as [[[] w']| | |] eqn:Eo; try done. intros [= <-].
    eapply consume_notify; [done|by apply unusedb_sound|done].
Qed.

(** The connection is lost after [Consume] has returned, and replaced before
    [consume] reads [queue.channel]. *)
Definition losing_connection : list consume_move :=
  ((C_client ∘ Client_move) <$> connecting 1) ++
  [C_set_up; C_client (Consume_move "" (FromErrors None));
   C_client (Consume_move "" (from_server (M_basicQosOk Mk_basicQosOk)));
   C_client (Consume_move "tag" (from_server (M_basicConsumeOk (Mk_basicConsumeOk "tag"))));
   C_returned; C_client (Client_move (Server_gone 0 (Some ErrUnexpectedFrame))); C_client (Buffer_move 0 0 0);
   C_client (Client_move Take_conn_close)] ++
  ((C_client ∘ Client_move) <$> connecting 4) ++ [C_notify 7].

Definition no_deliveries (s : consume_pc * world) : bool :=
  match s with
  | (X_select (Some d) k, w) =>
      bool_decide (st_channel d <> cc_channel k) && negb (closed_ready k w) && cl_isReady (w_client w) &&
      bool_decide (cl_channel (w_client w) = Some (cc_channel k)) &&
      match PubSub.next_delivery (st_channel d) (st_buffer d) (st_received d) (w_conns w) with Some None => true | _ => false end
  | _ => false
  end.

(** The client can be connected and ready with [consume] in its loop, and yet
    consume nothing: its deliveries are those of the lost channel, which are
    closed and give zero values, and its [chClosedCh] belongs to the new
    channel, which is open, so that nothing makes it call [Consume] again. *)
Theorem consume_misses_reconnection :
  exists s, rtc consume (g_consume main) s /\ no_deliveries s = true.
Proof.
  destruct (run_all consume_exec losing_connection (g_consume main)) as [s|] eqn:E; [|vm_compute in E; discriminate].
  exists s. split; [eapply run_all_steps; [|exact E]; intros; by eapply consume_exec_sound|].
  assert (option_map no_deliveries (run_all consume_exec losing_connection (g_consume main)) = Some true) as H
    by (vm_compute; reflexivity).
  rewrite E in H. by injection H.
Qed.

End ClientAppFacts.
