(* ===== verification/Lines.v ===== *)
(** * Lines: the input and the output of the publish and subscribe example
      (read and write of _examples/pubsub/pubsub.go)

    [read] sends the tokens of a [bufio.Scanner], which are slices of its
    buffer.  The scanner is modelled with its buffers, so that a message is a
    place in one of them and what it holds depends on when one looks. *)

From S2P Require Import Prelude.

Module Lines.
Local Open Scope nat_scope.

(** ** [bufio.Scanner] *)

Definition newline : byte := Zbyte 10.
Definition CR : byte := Zbyte 13.

(** Without a final carriage return. *)
Fixpoint dropCR (data : list byte) : list byte :=
  match data with
  | [] => []
  | b :: r => match r with [] => if bool_decide (b = CR) then [] else [b] | _ => b :: dropCR r end
  end.

Fixpoint IndexByte (data : list byte) : option nat :=
  match data with
  | [] => None
  | b :: r => if bool_decide (b = newline) then Some 0 else S <$> IndexByte r
  end.

(** [bufio.ScanLines]: how far to advance, and the token. *)
Definition ScanLines (data : list byte) (atEOF : bool) : nat * option (list byte) :=
  if atEOF && (length data =? 0) then (0, None)
  else match IndexByte data with
       | Some i => (S i, Some (dropCR (take i data)))
       | None => if atEOF then (length data, Some (dropCR data)) else (0, None)
       end.

(** [data[offset : offset+len]] of a buffer. *)
Record slice := MkSlice { sl_buffer : nat; sl_offset : nat; sl_len : nat }.

(** [s_mem] are the buffers there ever were, [s_data] what the reader has not
    given yet and [s_reads] how much it gives at a time. *)
Record Scanner := MkScanner {
  s_mem : list (list byte);
  s_buf : nat;
  s_start : nat;
  s_end : nat;
  s_eof : bool;                         (** [s.err] is [io.EOF] *)
  s_data : list byte;
  s_reads : list nat
}.

Definition buffer (s : Scanner) : list byte := default [] (s_mem s !! s_buf s).

(** [s.buf[s.start:s.end]] *)
Definition window (s : Scanner) : list byte := take (s_end s - s_start s) (drop (s_start s) (buffer s)).

Definition deref (s : Scanner) (x : slice) : list byte :=
  take (sl_len x) (drop (sl_offset x) (default [] (s_mem s !! sl_buffer x))).

(** [copy(buf[at:], data)] when [data] fits. *)
Definition overwrite (pos : nat) (data buf : list byte) : list byte :=
  take pos buf ++ data ++ drop (pos + length data) buf.

Definition set_window (mem : list (list byte)) (buf first last : nat) (s : Scanner) : Scanner :=
  MkScanner mem buf first last (s_eof s) (s_data s) (s_reads s).

Definition advance (n : nat) (s : Scanner) : Scanner := set_window (s_mem s) (s_buf s) (s_start s + n) (s_end s) s.

(** Data is moved to the front when space is needed or there is a lot of it. *)
Definition shift (s : Scanner) : Scanner :=
  if (0 <? s_start s) && ((s_end s =? length (buffer s)) || (length (buffer s) / 2 <? s_start s))
  then set_window (<[s_buf s := overwrite 0 (window s) (buffer s)]> (s_mem s)) (s_buf s) 0 (s_end s - s_start s) s
  else s.

Section Sizes.
Variables startBufSize maxTokenSize : nat.

(** A full buffer is replaced by one of twice the size; [None] is
    [bufio.ErrTooLong]. *)
Definition grow (s : Scanner) : option Scanner :=
  if s_end s =? length (buffer s)
  then if maxTokenSize <=? length (buffer s) then None
       else let size := Nat.min (if length (buffer s) =? 0 then startBufSize else 2 * length (buffer s)) maxTokenSize in
            Some (set_window (s_mem s ++ [overwrite 0 (window s) (repeat (Zbyte 0) size)])
                    (length (s_mem s)) 0 (s_end s - s_start s) s)
  else Some s.

(** [s.r.Read(s.buf[s.end:])]: at least a byte, or the end. *)
Definition Read (s : Scanner) : Scanner :=
  match s_data s with
  | [] => MkScanner (s_mem s) (s_buf s) (s_start s) (s_end s) true [] (s_reads s)
  | _ =>
      let n := Nat.min (Nat.max 1 (hd (length (s_data s)) (s_reads s)))
                 (Nat.min (length (s_data s)) (length (buffer s) - s_end s)) in
      MkScanner (<[s_buf s := overwrite (s_end s) (take n (s_data s)) (buffer s)]> (s_mem s)) (s_buf s) (s_start s)
        (s_end s + n) (s_eof s) (drop n (s_data s)) (tl (s_reads s))
  end.

(** [s.Scan()] with [s.Bytes()]; [None] is out of fuel. *)
Fixpoint Scan (fuel : nat) (s : Scanner) : option (option slice * Scanner) :=
  match fuel with
  | O => None
  | S fuel =>
      match (if (s_start s <? s_end s) || s_eof s then ScanLines (window s) (s_eof s) else (0, None)) with
      | (n, Some token) => Some (Some (MkSlice (s_buf s) (s_start s) (length token)), advance n s)
      | (n, None) =>
          if s_eof s then Some (None, set_window (s_mem s) (s_buf s) 0 0 s)
          else match grow (shift s) with
               | Some s' => Scan fuel (Read s')
               | None => Some (None, shift s)
               end
      end
  end.

Definition NewScanner (data : list byte) (reads : list nat) : Scanner := MkScanner [[]] 0 0 0 false data reads.

Definition scan (s : Scanner) : option (option slice * Scanner) := Scan (length (s_data s) + 2) s.

(** ** The goroutines *)

(** The loop of [read]: what is sent, looked at as it is sent. *)
Fixpoint read_loop (fuel : nat) (s : Scanner) : option (list (list byte)) :=
  match fuel with
  | O => None
  | S fuel =>
      match scan s with
      | Some (Some x, s') => match read_loop fuel s' with Some ls => Some (deref s' x :: ls) | None => None end
      | Some (None, _) => Some []
      | None => None
      end
  end.

Definition read (data : list byte) (reads : list nat) : option (list (list byte)) :=
  read_loop (S (length data)) (NewScanner data reads).

(** ** Reference *)

(** The lines of the input up to one that is too long; [line] is what is read
    of the first of them. *)
Fixpoint lines (line data : list byte) : list (list byte) :=
  if maxTokenSize <=? length line then []
  else match data with
       | [] => if length line =? 0 then [] else [dropCR line]
       | b :: r => if bool_decide (b = newline) then dropCR line :: lines [] r else lines (line ++ [b]) r
       end.

(** The first line, and the rest. *)
Definition next_line (rest : list byte) : option (list byte * list byte) :=
  match IndexByte (take maxTokenSize rest) with
  | Some i => Some (dropCR (take i rest), drop (S i) rest)
  | None => if (maxTokenSize <=? length rest) || (length rest =? 0) then None else Some (dropCR rest, [])
  end.

End Sizes.

(** [for line := range lines { fmt.Fprintln(w, string(line)) }] *)
Fixpoint write (ls : list (list byte)) : list byte :=
  match ls with [] => [] | l :: r => l ++ newline :: write r end.

Definition startBufSize : nat := Z.to_nat 4096.
Definition MaxScanTokenSize : nat := Z.to_nat 65536.

End Lines.
