(* ===== verification/LinesFacts.v ===== *)
(** * LinesFacts: read sends the lines of its input *)

From S2P Require Import Prelude Lines.

Module LinesFacts.
Import Lines.
Local Open Scope nat_scope.

(** ** Lines and buffers *)

Lemma dropCR_prefix l : dropCR l = take (length (dropCR l)) l.
Proof.
  induction l as [|b [|c r] IH]; [done| |].
  - simpl. by destruct (bool_decide (b = CR)).
  - change (dropCR (b :: c :: r)) with (b :: dropCR (c :: r)). cbn [length take]. by f_equal.
Qed.

Lemma dropCR_le l : length (dropCR l) <= length l.
Proof. rewrite dropCR_prefix, length_take. lia. Qed.

Lemma IndexByte_lt l i : IndexByte l = Some i -> i < length l.
Proof.
  revert i. induction l as [|b l IH]; intros i; [done|]. simpl. destruct (bool_decide _); [intros [= <-]; lia|].
  destruct (IndexByte l) as [j|]; [|done]. intros [= <-]. specialize (IH j eq_refl). lia.
Qed.

Lemma IndexByte_app l r :
  IndexByte (l ++ r) = match IndexByte l with Some i => Some i | None => (fun i => length l + i) <$> IndexByte r end.
Proof.
  induction l as [|b l IH]; simpl; [by destruct (IndexByte r)|]. destruct (bool_decide _); [done|]. rewrite IH.
  destruct (IndexByte l); [done|]. by destruct (IndexByte r).
Qed.

Lemma IndexByte_newline l : IndexByte l = None -> IndexByte (l ++ [newline]) = Some (length l).
Proof. intros H. rewrite IndexByte_app, H. vm_compute (IndexByte [newline]). simpl. f_equal. lia. Qed.

Lemma length_overwrite pos d buf : pos + length d <= length buf -> length (overwrite pos d buf) = length buf.
Proof. intros H. unfold overwrite. rewrite !length_app, length_take, length_drop. lia. Qed.

Lemma overwrite_front d buf : length d <= length buf -> take (length d) (overwrite 0 d buf) = d.
Proof. intros H. unfold overwrite. simpl. by rewrite take_app_length. Qed.

(** What is written at the end of a part of a buffer extends it. *)
Lemma overwrite_extends first pos d buf :
  first <= pos -> pos + length d <= length buf ->
  take (pos + length d - first) (drop first (overwrite pos d buf)) = take (pos - first) (drop first buf) ++ d.
Proof.
  intros H1 H2. unfold overwrite. rewrite drop_app_le by (rewrite length_take; lia). rewrite skipn_firstn_comm.
  rewrite take_app_ge by (rewrite length_take, length_drop; lia). f_equal.
  rewrite length_take, length_drop.
  replace (pos + length d - first - (pos - first) `min` (length buf - first)) with (length d) by lia.
  by rewrite take_app_length.
Qed.

(** ** The scanner *)

Section Sizes.
Context (startBufSize maxTokenSize : nat).
Hypothesis start_positive : 0 < startBufSize.
Hypothesis max_positive : 0 < maxTokenSize.

Record wf (s : Scanner) : Prop := {
  wf_buf : s_buf s < length (s_mem s);
  wf_window : s_start s <= s_end s <= length (buffer s);
  wf_size : length (buffer s) <= maxTokenSize;
  wf_eof : s_eof s = true -> s_data s = [] /\ s_end s < length (buffer s)
}.

Definition rest (s : Scanner) : list byte := window s ++ s_data s.

Lemma buffer_insert (mem : list (list byte)) i b : i < length mem -> default [] (<[i := b]> mem !! i) = b.
Proof. intros H. by rewrite list_lookup_insert_eq. Qed.

Lemma length_window s : wf s -> length (window s) = s_end s - s_start s.
Proof. intros [_ H _ _]. unfold window. rewrite length_take, length_drop. lia. Qed.

(** Same input, same window, not at the end. *)
Definition same_input (s s' : Scanner) : Prop :=
  window s' = window s /\ s_data s' = s_data s /\ s_eof s' = false /\ wf s'.

Lemma shift_correct s :
  wf s -> s_eof s = false ->
  same_input s (shift s) /\ (s_end (shift s) = length (buffer (shift s)) -> s_start (shift s) = 0).
Proof.
  intros Hwf He. pose proof Hwf as [H1 H2 H3 _]. unfold shift. destruct (0 <? s_start s) eqn:E0; simpl.
  2:{ apply Nat.ltb_ge in E0. split; [done|lia]. }
  destruct ((s_end s =? _) || _) eqn:E1.
  2:{ apply orb_false_iff in E1 as [E1%Nat.eqb_neq _]. split; [done|]. intros H. lia. }
  pose proof (length_window s Hwf) as Hlw.
  assert (length (overwrite 0 (window s) (buffer s)) = length (buffer s)) as Hlen by (apply length_overwrite; lia).
  split.
  - unfold same_input, window at 1, buffer. simpl. rewrite buffer_insert by done. rewrite drop_0, Nat.sub_0_r.
    split_and!; [|done|done|].
    + fold (buffer s). rewrite <- Hlw. apply overwrite_front. lia.
    + split; simpl; unfold buffer; simpl; rewrite ?buffer_insert by done; rewrite ?length_insert; fold (buffer s);
        rewrite ?Hlen; lia || congruence.
  - done.
Qed.

Lemma grow_correct s :
  wf s -> s_eof s = false -> (s_end s = length (buffer s) -> s_start s = 0) ->
  match grow startBufSize maxTokenSize s with
  | Some s' => same_input s s' /\ s_end s' < length (buffer s')
  | None => length (window s) = maxTokenSize
  end.
Proof.
  intros Hwf He Hfull. pose proof Hwf as [H1 H2 H3 _]. unfold grow. pose proof (length_window s Hwf) as Hlw.
  destruct (Nat.eqb_spec (s_end s) (length (buffer s))) as [E|E]; [|split; [done|lia]].
  specialize (Hfull E). destruct (Nat.leb_spec maxTokenSize (length (buffer s))) as [Hm|Hm]; [lia|].
  set (size := Nat.min _ maxTokenSize).
  assert (length (buffer s) < size <= maxTokenSize) as Hsize by (unfold size; destruct (Nat.eqb_spec (length (buffer s)) 0); lia).
  assert (length (overwrite 0 (window s) (repeat (Zbyte 0) size)) = size) as Hlen
    by (rewrite length_overwrite; rewrite repeat_length; lia).
  unfold same_input, window at 1, buffer. simpl. rewrite list_lookup_middle by done. simpl. rewrite drop_0, Nat.sub_0_r.
  split_and!; [|done|done| |fold (buffer s); lia].
  - rewrite <- Hlw. apply overwrite_front. rewrite repeat_length. lia.
  - split; simpl; unfold buffer; simpl; rewrite ?list_lookup_middle by done; simpl; rewrite ?length_app; simpl; lia || congruence.
Qed.

Lemma Read_correct s :
  wf s -> s_eof s = false -> s_end s < length (buffer s) ->
  wf (Read s) /\ rest (Read s) = rest s /\
  (s_eof (Read s) = true \/ (s_eof (Read s) = false /\ length (s_data (Read s)) < length (s_data s))).
Proof.
  intros Hwf He Hroom. pose proof Hwf as [H1 H2 H3 _]. unfold Read. destruct (s_data s) as [|b d] eqn:Ed.
  { split_and!; [by split|unfold rest; simpl; by rewrite Ed|by left]. }
  rewrite <- Ed. assert (0 < length (s_data s)) as Hpos by (rewrite Ed; simpl; lia). set (n := Nat.min _ _).
  assert (0 < n <= length (s_data s) /\ s_end s + n <= length (buffer s)) as Hn by (unfold n; lia). clearbody n.
  assert (length (take n (s_data s)) = n) as Hln by (rewrite length_take; lia).
  assert (length (overwrite (s_end s) (take n (s_data s)) (buffer s)) = length (buffer s)) as Hlen
    by (apply length_overwrite; lia).
  split_and!.
  - split; simpl; unfold buffer; simpl; rewrite ?buffer_insert by done; rewrite ?length_insert; fold (buffer s); rewrite ?Hlen;
      lia || congruence.
  - unfold rest, window at 1, buffer. simpl. rewrite buffer_insert by done. fold (buffer s).
    replace (s_end s + n - s_start s) with (s_end s + length (take n (s_data s)) - s_start s) by lia.
    rewrite overwrite_extends by lia. rewrite <- app_assoc, take_drop. done.
  - right. split; [done|]. simpl. rewrite length_drop. lia.
Qed.

(** ** A line *)

Abbreviation next_line := (next_line maxTokenSize).

Lemma next_line_window w d i :
  length w <= maxTokenSize -> IndexByte w = Some i -> next_line (w ++ d) = Some (dropCR (take i w), drop (S i) w ++ d).
Proof.
  intros Hl Hi. pose proof (IndexByte_lt _ _ Hi) as Hlt. unfold Lines.next_line.
  rewrite take_app_ge, IndexByte_app, Hi by done. by rewrite take_app_le, drop_app_le by lia.
Qed.

Lemma next_line_full w d : length w = maxTokenSize -> IndexByte w = None -> next_line (w ++ d) = None.
Proof.
  intros Hl Hi. unfold Lines.next_line. rewrite <- Hl, take_app_length, Hi, length_app.
  by destruct (Nat.leb_spec (length w) (length w + length d)); [|lia].
Qed.

Lemma next_line_last w :
  length w < maxTokenSize -> IndexByte w = None -> next_line w = if length w =? 0 then None else Some (dropCR w, []).
Proof.
  intros Hl Hi. unfold Lines.next_line. rewrite take_ge, Hi by lia.
  destruct (Nat.leb_spec maxTokenSize (length w)); [lia|]. simpl. by destruct (length w =? 0).
Qed.

(** A token is where the slice says. *)
Lemma deref_token s n token :
  wf s -> token = take (length token) (window s) -> length token <= length (window s) ->
  deref (advance n s) (MkSlice (s_buf s) (s_start s) (length token)) = token.
Proof.
  intros Hwf E Hl. unfold deref. simpl. fold (buffer s). rewrite E at 2. unfold window.
  rewrite take_take, Nat.min_l; [done|]. by rewrite <- length_window.
Qed.

Lemma advance_correct s n : wf s -> n <= length (window s) -> wf (advance n s) /\ window (advance n s) = drop n (window s).
Proof.
  intros Hwf Hn. pose proof Hwf as [H1 H2 H3 H4]. rewrite length_window in Hn by done. split.
  - split; simpl; [done| |done|done]. unfold buffer. simpl. fold (buffer s). lia.
  - unfold window, buffer. simpl. rewrite skipn_firstn_comm, drop_drop. f_equal. lia.
Qed.

(** What a call of [Scan] does. *)
Definition scanned (s : Scanner) (r : option slice) (s' : Scanner) : Prop :=
  match r with
  | Some x => next_line (rest s) = Some (deref s' x, rest s') /\ wf s'
  | None => next_line (rest s) = None
  end.

Lemma scanned_token s n token :
  wf s -> n <= length (window s) -> token = take (length token) (window s) -> length token <= length (window s) ->
  next_line (rest s) = Some (token, drop n (window s) ++ s_data s) ->
  scanned s (Some (MkSlice (s_buf s) (s_start s) (length token))) (advance n s).
Proof.
  intros Hwf Hn Ht Hl E. destruct (advance_correct s n Hwf Hn) as [Hwf' Hw]. split; [|done].
  rewrite deref_token by done. unfold rest at 2. by rewrite Hw.
Qed.

(** ... when the window holds a token. *)
Lemma split_token s n token :
  wf s -> ScanLines (window s) (s_eof s) = (n, Some token) ->
  scanned s (Some (MkSlice (s_buf s) (s_start s) (length token))) (advance n s).
Proof.
  intros Hwf E. pose proof (length_window s Hwf) as Hlw. pose proof (wf_window s Hwf). pose proof (wf_size s Hwf).
  unfold ScanLines in E. destruct (_ && _) eqn:E0; [done|].
  destruct (IndexByte (window s)) as [i|] eqn:Ei.
  - pose proof (IndexByte_lt _ _ Ei). injection E as <- <-. pose proof (dropCR_le (take i (window s))) as Hd.
    rewrite length_take in Hd. apply scanned_token; [done|lia| |lia|].
    + rewrite dropCR_prefix at 1. rewrite take_take, Nat.min_l by lia. done.
    + apply next_line_window; [lia|done].
  - destruct (s_eof s) eqn:Ee; [|done]. injection E as <- <-. destruct (wf_eof s Hwf Ee) as [Hd Hend].
    apply scanned_token; [done|done|apply dropCR_prefix|apply dropCR_le|]. rewrite drop_all, Hd. unfold rest.
    rewrite Hd, app_nil_r, next_line_last by (lia || done). simpl in E0. by rewrite E0.
Qed.

Lemma no_token s n :
  ScanLines (window s) (s_eof s) = (n, None) -> IndexByte (window s) = None /\ (s_eof s = true -> length (window s) = 0).
Proof.
  unfold ScanLines. destruct (s_eof s); simpl.
  - destruct (Nat.eqb_spec (length (window s)) 0) as [E|E]; [by destruct (window s)|]. by destruct (IndexByte _).
  - by destruct (IndexByte _).
Qed.

Lemma Scan_correct fuel s :
  wf s -> length (s_data s) + (if s_eof s then 1 else 2) <= fuel ->
  exists r s', Scan startBufSize maxTokenSize fuel s = Some (r, s') /\ scanned s r s'.
Proof.
  revert s. induction fuel as [|fuel IH]; intros s Hwf Hf; [by destruct (s_eof s); lia|]. cbn [Scan].
  assert ((if (s_start s <? s_end s) || s_eof s then ScanLines (window s) (s_eof s) else (0, None)) =
    ScanLines (window s) (s_eof s)) as ->.
  { destruct (_ || _) eqn:E; [done|]. apply orb_false_iff in E as [E%Nat.ltb_ge ->].
    pose proof (length_window s Hwf). destruct (window s); [done|simpl in *; lia]. }
  destruct (ScanLines _ _) as [n [token|]] eqn:E.
  { eexists _, _. split; [done|]. by apply split_token. }
  apply no_token in E as [Ei He]. destruct (s_eof s) eqn:Ee.
  { eexists _, _. split; [done|]. simpl. unfold rest. destruct (wf_eof s Hwf Ee) as [-> _].
    rewrite app_nil_r, next_line_last; [by rewrite He|rewrite He by done; lia|done]. }
  destruct (shift_correct s Hwf Ee) as [(Hw & Hd & He' & Hwf1) Hz].
  pose proof (grow_correct (shift s) Hwf1 He' Hz) as Hg. destruct (grow _ _ _) as [s2|].
  - destruct Hg as [(Hw2 & Hd2 & He2 & Hwf2) Hroom].
    destruct (Read_correct s2 Hwf2 He2 Hroom) as (Hwf3 & Hr & Hdec).
    destruct (IH (Read s2) Hwf3) as (r & s' & E & Hs).
    { destruct Hdec as [H|[H Hlt]]; rewrite H; [|rewrite Hd2, Hd in Hlt; lia].
      destruct (wf_eof _ Hwf3 H) as [-> _]. simpl. lia. }
    exists r, s'. split; [done|]. unfold scanned in *. rewrite Hr in Hs. unfold rest in Hs |- * at 1.
    by rewrite Hw2, Hd2, Hw, Hd in Hs.
  - eexists _, _. split; [done|]. simpl. unfold rest. apply next_line_full; [by rewrite <- Hw|done].
Qed.

(** ** All lines *)

Lemma next_line_shorter data l r : next_line data = Some (l, r) -> length r < length data.
Proof.
  unfold Lines.next_line. destruct (IndexByte _) as [i|] eqn:Ei.
  - intros [= _ <-]. apply IndexByte_lt in Ei. rewrite length_take in Ei. rewrite length_drop. lia.
  - destruct (_ || _) eqn:E; [done|]. intros [= _ <-]. apply orb_false_iff in E as [_ E%Nat.eqb_neq]. simpl. lia.
Qed.

Lemma lines_next line data :
  IndexByte line = None -> length line <= maxTokenSize ->
  lines maxTokenSize line data =
    match next_line (line ++ data) with Some (l, r) => l :: lines maxTokenSize [] r | None => [] end.
Proof.
  revert line. induction data as [|b data IH]; intros line Hi Hl; cbn [lines].
  - destruct (Nat.leb_spec maxTokenSize (length line)) as [H|H].
    + by rewrite next_line_full by (lia || done).
    + rewrite app_nil_r, next_line_last by done. destruct (length line =? 0); [done|]. cbn [lines].
      by destruct (Nat.leb_spec maxTokenSize (length (@nil byte))); [simpl in *; lia|].
  - destruct (Nat.leb_spec maxTokenSize (length line)) as [H|H].
    { by rewrite next_line_full by (lia || done). }
    change (b :: data) with ([b] ++ data). rewrite app_assoc. case_bool_decide as Eb.
    + subst b. rewrite (next_line_window (line ++ [newline]) data (length line)).
      * rewrite take_app_length, drop_ge by (rewrite length_app; simpl; lia). done.
      * rewrite length_app. simpl. lia.
      * by apply IndexByte_newline.
    + apply IH; [|rewrite length_app; simpl; lia]. rewrite IndexByte_app, Hi. simpl.
      by rewrite bool_decide_eq_false_2.
Qed.

Lemma read_loop_lines fuel s :
  wf s -> length (rest s) < fuel ->
  read_loop startBufSize maxTokenSize fuel s = Some (lines maxTokenSize [] (rest s)).
Proof.
  revert s. induction fuel as [|fuel IH]; intros s Hwf Hf; [lia|]. cbn [read_loop]. unfold scan.
  destruct (Scan_correct (length (s_data s) + 2) s Hwf) as (r & s' & -> & Hs); [destruct (s_eof s); lia|].
  rewrite lines_next by (done || (simpl; lia)). simpl app. destruct r as [x|]; simpl in Hs; [|by rewrite Hs].
  destruct Hs as [Hn Hwf']. rewrite Hn. pose proof (next_line_shorter _ _ _ Hn). by rewrite IH by (done || lia).
Qed.

(** A line that [Scan] gives as it is. *)
Definition plain (l : list byte) : Prop := IndexByte l = None /\ dropCR l = l /\ length l < maxTokenSize.

Lemma lines_write ls : Forall plain ls -> lines maxTokenSize [] (write ls) = ls.
Proof.
  induction 1 as [|l ls (Hi & Hd & Hl) _ IH]; rewrite lines_next by (done || (simpl; lia)); simpl app; cbn [write].
  - by rewrite next_line_last.
  - change (newline :: write ls) with ([newline] ++ write ls). rewrite app_assoc, (next_line_window (l ++ [newline]) _ (length l)).
    + rewrite take_app_length, drop_ge by (rewrite length_app; simpl; lia). simpl. by rewrite Hd, IH.
    + rewrite length_app. simpl. lia.
    + by apply IndexByte_newline.
Qed.

(** C39: Whatever the sizes of the buffer and whatever the input gives at a
    time, [read] sends the lines of its input in their order, each as it is
    when it is sent, up to the first that fills the buffer, and ends; on what
    [write] wrote for lines that are not too long and do not end in a carriage
    return it sends these lines. *)
Theorem read_sends_lines data reads :
  read startBufSize maxTokenSize data reads = Some (lines maxTokenSize [] data) /\
  (forall ls, data = write ls -> Forall plain ls -> lines maxTokenSize [] data = ls).
Proof.
  split; [|intros ls ->; apply lines_write]. unfold read. apply (read_loop_lines _ (NewScanner data reads)); [|apply Nat.lt_succ_diag_r].
  split; simpl; unfold buffer; simpl; lia || done.
Qed.

End Sizes.

Lemma read_sends_lines_witness :
  read startBufSize MaxScanTokenSize (write [[Zbyte 65]; []; [Zbyte 66]]) [1; 3] = Some [[Zbyte 65]; []; [Zbyte 66]].
Proof.
  destruct (read_sends_lines startBufSize MaxScanTokenSize ltac:(unfold startBufSize; lia)
    ltac:(unfold MaxScanTokenSize; lia) (write [[Zbyte 65]; []; [Zbyte 66]]) [1; 3]) as [E H].
  rewrite E. apply f_equal, (H [[Zbyte 65]; []; [Zbyte 66]]); [reflexivity|].
  assert (forall l, length l <= 1 -> IndexByte l = None -> dropCR l = l -> plain MaxScanTokenSize l) as Hp
    by (intros l H1 H2 H3; split_and!; [done|done|unfold MaxScanTokenSize; lia]).
  do 3 (constructor; [apply Hp; [simpl; lia|reflexivity|reflexivity]|]). constructor.
Defined.

(** ** Messages that are overwritten *)

(** While the next line is in the buffer the scanner writes nowhere. *)
Lemma scan_leaves_messages s i x y s' :
  IndexByte (window s) = Some i -> scan startBufSize MaxScanTokenSize s = Some (y, s') -> deref s' x = deref s x.
Proof.
  intros Hi. unfold scan. rewrite Nat.add_comm. cbn [Nat.add Scan].
  assert ((s_start s <? s_end s) = true) as ->.
  { apply Nat.ltb_lt. apply IndexByte_lt in Hi. unfold window in Hi. rewrite length_take in Hi. lia. }
  cbn [orb]. unfold ScanLines. rewrite Hi. assert ((length (window s) =? 0) = false) as ->.
  { apply Nat.eqb_neq. apply IndexByte_lt in Hi. lia. }
  rewrite andb_false_r. by intros [= _ <-].
Qed.

(** Two lines of 3000 bytes, read as far as the buffer goes. *)
Definition two_lines : list byte := write [repeat (Zbyte 97) (Z.to_nat 3000); repeat (Zbyte 98) (Z.to_nat 3000)].

(** The message that was sent first holds bytes of the second line after the
    scanner has gone on, which [read] does as soon as [publish] has received
    it and before it is published. *)
Theorem read_overwrites_messages :
  exists x s1 y s2,
    scan startBufSize MaxScanTokenSize (NewScanner two_lines []) = Some (Some x, s1) /\
    deref s1 x = repeat (Zbyte 97) (Z.to_nat 3000) /\
    scan startBufSize MaxScanTokenSize s1 = Some (Some y, s2) /\
    take 1 (deref s2 x) = [Zbyte 98].
Proof.
  destruct (scan startBufSize MaxScanTokenSize (NewScanner two_lines [])) as [[[x|] s1]|] eqn:E1;
    [|vm_compute in E1; discriminate..].
  vm_compute in E1. injection E1 as <- <-.
  eexists _, _, _, _. split; [reflexivity|]. split; [vm_compute; reflexivity|]. split; [vm_compute; reflexivity|].
  vm_compute. reflexivity.
Qed.

End LinesFacts.
